(** * HFI event processing and the zblock allocator: a shallow embedding

    Two kernel files are modelled here:
    - [drivers/thermal/intel/intel_hfi.c] (module [HFI]): the task
      classifier with its debouncer, the IPC score query, the
      capability update worker, the thermal event handler, the feature
      enumeration, the capability records and score arrays, and (module
      [HFI.Hotplug]) the CPU hotplug callbacks and the initialization;
    - [mm/zblock.c] (module [Zblock]): the block allocator behind the
      zpool interface, with the pool size and the zpool shrinker.

    C integers are kept as [Z] with the wrap-around of their type
    written where the C code computes in that type.  Pointers are
    addresses in [Z], [0] being [NULL]. *)

From Stdlib Require Import ZArith List Lia Bool.
From Stdlib.Strings Require Byte.
From stdpp Require Import base option list gmap.
Import ListNotations.

Local Open Scope Z_scope.

(** ** Fixed-width integers *)

Definition wrap (bits : Z) (v : Z) : Z := v mod 2 ^ bits.

Definition u8 (v : Z) : Z := wrap 8 v.
Definition u16 (v : Z) : Z := wrap 16 v.
Definition u32 (v : Z) : Z := wrap 32 v.
Definition u64 (v : Z) : Z := wrap 64 v.

(** [int]: two's complement on 32 bits (the kernel is built with
    wrapping signed arithmetic). *)
Definition s32 (v : Z) : Z := (v + 2 ^ 31) mod 2 ^ 32 - 2 ^ 31.

(** [s16]: two's complement on 16 bits. *)
Definition s16 (v : Z) : Z := (v + 2 ^ 15) mod 2 ^ 16 - 2 ^ 15.

(** Error numbers of [include/uapi/asm-generic/errno-base.h]. *)
Definition ENOENT : Z := 2.
Definition EAGAIN : Z := 11.
Definition ENOMEM : Z := 12.
Definition ENODEV : Z := 19.
Definition EINVAL : Z := 22.
Definition ENOSPC : Z := 28.

(** ** Outcomes

    A C function either returns or runs into undefined behaviour.  The
    model names the ways the code below can do the latter, so that no
    such run is mistaken for a normal return. *)
Inductive fault : Type :=
| WildPointer (addr : Z)    (* dereference of an address that holds no object *)
| OutOfBounds (index : Z)   (* array access past the declared bound *)
| Uninitialized             (* use of a local that was never assigned *)
| Spins.                    (* a retry loop that no sequential run leaves *)

Inductive res (A : Type) : Type :=
| Done (a : A)
| Fail (f : fault).
Arguments Done {A} a.
Arguments Fail {A} f.

#[global] Instance res_ret : MRet res := fun A a => Done a.

#[global] Instance res_bind : MBind res := fun A B k m =>
  match m with
  | Done a => k a
  | Fail f => Fail f
  end.

(** The value of a negative [int] errno once returned as [unsigned long]. *)
Definition errno_ulong (e : Z) : Z := u64 (- e).

Module HFI.

Definition HFI_MAX_THERM_NOTIFY_COUNT : Z := 16.
Definition HFI_UNCLASSIFIED_DEFAULT : Z := 1.
Definition CLASS_DEBOUNCER_SKIPS : Z := 4.

(** *** Task classifier *)

(** The three classification members of [struct task_struct].  They are
    declared outside this file as unsigned bit-fields; their widths are
    the parameters [IPCC_BITS], [IPCC_TMP_BITS] and [IPCC_CNTR_BITS] of
    the section below, and every store truncates to the width. *)
Record task_struct : Type := mk_task {
  ipcc : Z;
  ipcc_tmp : Z;
  ipcc_cntr : Z
}.

Section Classifier.

Variables IPCC_BITS IPCC_TMP_BITS IPCC_CNTR_BITS : Z.

(** [debounce_and_update_class(p, new_ipcc)]; [new_ipcc] is a [u8] and
    [debounce_skip] a [u16]. *)
Definition debounce_and_update_class (p : task_struct) (new_ipcc : Z)
  : task_struct :=
  if negb (ipcc_tmp p =? new_ipcc) then
    (* The class changed: only restart the counter. *)
    {| ipcc := ipcc p;
       ipcc_tmp := wrap IPCC_TMP_BITS new_ipcc;
       ipcc_cntr := wrap IPCC_CNTR_BITS 1 |}
  else
    let debounce_skip := u16 (ipcc_cntr p + 1) in
    if debounce_skip <? CLASS_DEBOUNCER_SKIPS then
      {| ipcc := ipcc p;
         ipcc_tmp := wrap IPCC_TMP_BITS new_ipcc;
         ipcc_cntr := wrap IPCC_CNTR_BITS (ipcc_cntr p + 1) |}
    else
      {| ipcc := wrap IPCC_BITS new_ipcc;
         ipcc_tmp := wrap IPCC_TMP_BITS new_ipcc;
         ipcc_cntr := ipcc_cntr p |}.

(** [classification_is_accurate]: [quirky_model] says whether
    [boot_cpu_data.x86_model] is one of the five Alder Lake / Raptor Lake
    case labels. *)
Definition classification_is_accurate (quirky_model : bool)
    (hfi_class : Z) (smt_siblings_idle : bool) : bool :=
  if quirky_model then
    (hfi_class =? 3) || (hfi_class =? 2) || smt_siblings_idle
  else true.

(** Fields of [union hfi_thread_feedback_char_msr]. *)
Definition msr_classid (full : Z) : Z := Z.land full 255.
Definition msr_valid (full : Z) : bool := Z.testbit full 63.

(** [intel_hfi_update_ipcc(curr)].  [itd] is
    [cpu_feature_enabled(X86_FEATURE_ITD)], [msr] the value read from
    [MSR_IA32_HW_FEEDBACK_CHAR], [idle] the answer of
    [sched_smt_siblings_idle]. *)
Definition intel_hfi_update_ipcc (itd quirky_model : bool) (msr : Z)
    (idle : bool) (curr : task_struct) : task_struct :=
  if negb itd then curr
  else if negb (msr_valid msr) then curr
  else if classification_is_accurate quirky_model (msr_classid msr) idle
       then debounce_and_update_class curr (u8 (msr_classid msr + 1))
       else curr.

(** Successive classifier invocations, oldest observation first. *)
Definition debounce_run (p : task_struct) (obs : list Z) : task_struct :=
  fold_left debounce_and_update_class obs p.

(** Successive user ticks of one task, oldest first: each tick is the
    value read from [MSR_IA32_HW_FEEDBACK_CHAR] and the answer of
    [sched_smt_siblings_idle] at that tick. *)
Definition update_ipcc_run (itd quirky_model : bool) (p : task_struct)
    (ticks : list (Z * bool)) : task_struct :=
  fold_left (fun p tick => intel_hfi_update_ipcc itd quirky_model
                             tick.1 tick.2 p) ticks p.

(** The class that a tick hands to the debouncer, if any. *)
Definition tick_class (itd quirky_model : bool) (tick : Z * bool)
  : option Z :=
  if itd && msr_valid tick.1
     && classification_is_accurate quirky_model (msr_classid tick.1) tick.2
  then Some (u8 (msr_classid tick.1 + 1)) else None.

End Classifier.

(** *** IPC class scores *)

Definition IPC_CLASS_UNCLASSIFIED : Z := 0.

Section Scores.

(** [nr_cpu_ids] and [hfi_features.nr_classes] are [unsigned int].
    [per_cpu_scores cpu] is what [per_cpu_ptr(hfi_ipcc_scores, cpu)]
    points to: [None] for a [NULL] pointer, otherwise the [int] array
    of that CPU. *)
Variable nr_cpu_ids : Z.
Variable nr_classes : Z.
Variable per_cpu_scores : Z -> option (list Z).

(** [intel_hfi_get_ipcc_score(ipcc, cpu)]: [ipcc] is an
    [unsigned short], [cpu] an [int], the result an [unsigned long]. *)
Definition intel_hfi_get_ipcc_score (ipcc cpu : Z) : res Z :=
  if (cpu <? 0) || (nr_cpu_ids <=? u32 cpu) then Done (errno_ulong EINVAL)
  else
    let ipcc := if ipcc =? IPC_CLASS_UNCLASSIFIED
                then HFI_UNCLASSIFIED_DEFAULT else ipcc in
    (* Scheduler IPC classes start at 1, HFI classes at 0. *)
    let hfi_class := u16 (ipcc - 1) in
    if nr_classes <=? hfi_class then Done (errno_ulong EINVAL)
    else
      match per_cpu_scores cpu with
      | None => Done (errno_ulong ENODEV)
      | Some scores =>
          match scores !! Z.to_nat hfi_class with
          | Some v => Done (u64 v)
          | None => Fail (OutOfBounds hfi_class)
          end
      end.

End Scores.

(** *** Update worker *)

(** One call [thermal_genl_cpu_capability_event(count, &cpu_caps[first])]. *)
Record caps_event : Type := mk_event {
  ev_count : Z;
  ev_first : Z
}.

(** [cpumask_weight]: a cpumask is its bitmap, one [bool] per CPU. *)
Definition cpumask_weight (mask : list bool) : Z :=
  Z.of_nat (length (filter (fun b => b = true) mask)).

(** The loop over complete chunks,
    [for (i = 0; (i + 16) <= cpu_count; i += 16)], on [int]s.  It
    returns the final [i] and the calls made; [None] when [fuel]
    iterations did not reach the exit. *)
Fixpoint complete_chunks (fuel : nat) (i cpu_count : Z)
    (sent : list caps_event) : option (Z * list caps_event) :=
  match fuel with
  | O => None
  | S fuel' =>
      if s32 (i + HFI_MAX_THERM_NOTIFY_COUNT) <=? cpu_count then
        complete_chunks fuel' (s32 (i + HFI_MAX_THERM_NOTIFY_COUNT)) cpu_count
          (sent ++ [mk_event HFI_MAX_THERM_NOTIFY_COUNT i])
      else Some (i, sent)
  end.

(** [update_capabilities(hfi_instance)], as the list of capability
    events it sends.  [kcalloc_ok] says whether the allocation of
    [cpu_caps] succeeded.  The contents of [cpu_caps] come from
    [get_hfi_caps], which the batching never inspects. *)
Definition update_capabilities (fuel : nat) (cpus : list bool)
    (kcalloc_ok : bool) : option (list caps_event) :=
  let cpu_count := s32 (cpumask_weight cpus) in
  (* No CPUs to report in this hfi_instance. *)
  if cpu_count =? 0 then Some []
  else if negb kcalloc_ok then Some []
  else
    let last_cmd (i cpu_count : Z) (sent : list caps_event) :=
      if cpu_count =? 0 then sent else sent ++ [mk_event cpu_count i] in
    if cpu_count <? HFI_MAX_THERM_NOTIFY_COUNT then
      Some (last_cmd 0 cpu_count [])
    else
      match complete_chunks fuel 0 cpu_count [] with
      | None => None
      | Some (i, sent) => Some (last_cmd i (s32 (cpu_count - i)) sent)
      end.

(** *** Event handler *)

Definition BIT (n : Z) : Z := Z.shiftl 1 n.

Definition THERM_STATUS_CLEAR_PKG_MASK : Z :=
  Z.lor (BIT 1) (Z.lor (BIT 3) (Z.lor (BIT 5) (Z.lor (BIT 7)
    (Z.lor (BIT 9) (Z.lor (BIT 11) (BIT 26)))))).

(** [PAGE_SHIFT] of x86, the only architecture of this driver. *)
Definition PAGE_SHIFT : Z := 12.

(** The part of [struct hfi_instance] the handler touches.  Tables are
    byte arrays; [event_lock] is [true] while the lock is held. *)
Record hfi_instance : Type := mk_instance {
  local_table : list Byte.byte;
  hw_table : list Byte.byte;
  event_lock : bool
}.

(** What an interrupt can change: the instance of the interrupted CPU
    ([info->hfi_instance], [None] when [NULL]), the values written to
    [MSR_IA32_PACKAGE_THERM_STATUS] and the number of
    [queue_delayed_work] calls on [update_work]. *)
Record hfi_world : Type := mk_world {
  instance : option hfi_instance;
  therm_status_writes : list Z;
  update_work_queued : nat
}.

(** Little-endian value of a byte string. *)
Fixpoint le_combine (bs : list Byte.byte) : Z :=
  match bs with
  | [] => 0
  | b :: bs' => Z.of_N (Byte.to_N b) + 256 * le_combine bs'
  end.

(** The [u64] at the start of a table. *)
Definition read_u64 (table : list Byte.byte) : res Z :=
  if (length table <? 8)%nat then Fail (OutOfBounds (Z.of_nat (length table)))
  else Done (le_combine (take 8 table)).

(** [memcpy(dst, src, n)] on two arrays. *)
Definition memcpy (dst src : list Byte.byte) (n : Z) : res (list Byte.byte) :=
  if (Z.of_nat (length src) <? n) then Fail (OutOfBounds (Z.of_nat (length src)))
  else if (Z.of_nat (length dst) <? n) then Fail (OutOfBounds (Z.of_nat (length dst)))
  else Done (take (Z.to_nat n) src ++ drop (Z.to_nat n) dst).

Section EventHandler.

(** [hfi_features.nr_table_pages] ([unsigned int]) and the status bit
    [PACKAGE_THERM_STATUS_HFI_UPDATED] of [asm/msr-index.h]. *)
Variable nr_table_pages : Z.
Variable PACKAGE_THERM_STATUS_HFI_UPDATED : Z.

(** [intel_hfi_process_event(pkg_therm_status_msr_val)].  The address
    of a per-CPU variable is never [NULL], so the [!info] test is not a
    branch of the model.  [table_lock] is taken and released around the
    copy and has no other effect on a run of the handler alone. *)
Definition intel_hfi_process_event (pkg_therm_status_msr_val : Z)
    (w : hfi_world) : res hfi_world :=
  if pkg_therm_status_msr_val =? 0 then Done w
  else
    match instance w with
    | None => Done w
    | Some hfi =>
        (* raw_spin_trylock(&hfi_instance->event_lock) *)
        if event_lock hfi then Done w
        else
          new_timestamp ← read_u64 (hw_table hfi);
          timestamp ← read_u64 (local_table hfi);
          (* Skip duplicated updates. *)
          if timestamp =? new_timestamp then Done w
          else
            copied ← memcpy (local_table hfi) (hw_table hfi)
                        (u32 (Z.shiftl nr_table_pages PAGE_SHIFT));
            let ack :=
              Z.land pkg_therm_status_msr_val
                (Z.land THERM_STATUS_CLEAR_PKG_MASK
                   (Z.lnot PACKAGE_THERM_STATUS_HFI_UPDATED)) in
            Done {| instance := Some {| local_table := copied;
                                        hw_table := hw_table hfi;
                                        event_lock := false |};
                    therm_status_writes := therm_status_writes w ++ [u64 ack];
                    update_work_queued := S (update_work_queued w) |}
    end.

End EventHandler.

(** *** Feature enumeration *)

(** [struct hfi_features]; every member is an [unsigned int]. *)
Record hfi_features_t : Type := mk_features {
  nr_classes : Z;
  nr_table_pages : Z;
  cpu_stride : Z;
  class_stride : Z;
  hdr_size : Z
}.

(** Fields of [union cpuid6_edx]: the capability bits in bits 0..7,
    [table_pages] in bits 8..11 and the signed [index] in bits 16..31. *)
Definition edx_capabilities (full : Z) : Z := Z.land full 255.
Definition edx_table_pages (full : Z) : Z := Z.land (Z.shiftr full 8) 15.
Definition edx_index (full : Z) : Z := s16 (Z.land (Z.shiftr full 16) 65535).

(** Field [nr_classes] of [union cpuid6_ecx], bits 8..15. *)
Definition ecx_nr_classes (full : Z) : Z := Z.land (Z.shiftr full 8) 255.

(** [hweight8]: the number of bits set among the low eight. *)
Definition hweight8 (w : Z) : Z :=
  fold_right Z.add 0
    (map (fun i => Z.b2z (Z.testbit w i)) [0; 1; 2; 3; 4; 5; 6; 7]).

(** [DIV_ROUND_UP(n, d)], that is [((n) + (d) - 1) / (d)], on
    [unsigned int]s. *)
Definition DIV_ROUND_UP (n d : Z) : Z := u32 (u32 (n + d) - 1) / d.

(** [hfi_parse_features()]: the [int] result and [hfi_features]
    afterwards.  [has_hfi] is [boot_cpu_has(X86_FEATURE_HFI)], [itd] is
    [cpu_feature_enabled(X86_FEATURE_ITD)], [edx] and [ecx] are the
    registers of CPUID leaf 6. *)
Definition hfi_parse_features (has_hfi itd : bool) (edx ecx : Z)
    (hfi_features : hfi_features_t) : Z * hfi_features_t :=
  if negb has_hfi then (- ENODEV, hfi_features)
  else if negb (Z.testbit (edx_capabilities edx) 0) then
    (- ENODEV, hfi_features)
  else
    (* Exclude the reserved bits. *)
    let nr_capabilities := hweight8 (Z.land (edx_capabilities edx) 3) in
    let nr_classes := if itd then ecx_nr_classes ecx else 1 in
    let size :=
      u32 (DIV_ROUND_UP (u32 (nr_capabilities * nr_classes)) 8 * 8) in
    (0, {| nr_classes := nr_classes;
           (* The number of 4KB pages required by the table *)
           nr_table_pages := u32 (edx_table_pages edx + 1);
           cpu_stride := size;
           class_stride := nr_capabilities;
           hdr_size := size |}).

(** [init_hfi_cpu_index(info)]: the [s16] member [info->index]
    afterwards. *)
Definition init_hfi_cpu_index (edx : Z) (index : Z) : Z :=
  (* Do not re-read the index if it has already been initialized. *)
  if -1 <? index then index else edx_index edx.

(** *** Capabilities and IPC class scores *)

(** [struct thermal_genl_cpu_caps], three [int]s. *)
Record thermal_genl_cpu_caps : Type := mk_caps {
  cpu : Z;
  performance : Z;
  efficiency : Z
}.

(** The [u8] at byte [off] of a table. *)
Definition read_u8 (table : list Byte.byte) (off : Z) : res Z :=
  if off <? 0 then Fail (OutOfBounds off)
  else
    match table !! Z.to_nat off with
    | Some b => Done (Z.of_N (Byte.to_N b))
    | None => Fail (OutOfBounds off)
    end.

(** The CPUs that [for_each_cpu] visits, in its order; the first bit of
    [cpus] is the one of CPU [cpu]. *)
Fixpoint for_each_cpu (cpus : list bool) (cpu : Z) : list Z :=
  match cpus with
  | [] => []
  | b :: cpus' => (if b then [cpu] else []) ++ for_each_cpu cpus' (cpu + 1)
  end.

Section Capabilities.

(** [itd] is [cpu_feature_enabled(X86_FEATURE_ITD)]; [index cpu] is
    [per_cpu(hfi_cpu_info, cpu).index], an [s16]; [local_table] is the
    memory of the local copy of the table and [data] the distance of
    [hfi_instance->data] from its base.  The per-CPU score arrays
    [hfi_ipcc_scores] are a map from CPU numbers to [int] arrays; a CPU
    that has no array is not in the map. *)
Variable itd : bool.
Variable hfi_features : hfi_features_t.
Variable index : Z -> Z.
Variable local_table : list Byte.byte.
Variable data : Z.

(** The loop of [set_hfi_ipcc_score]: [n] classes from [i] on.  [caps]
    is the distance of the row from the base of the table. *)
Fixpoint set_hfi_ipcc_score_loop (n : nat) (i : Z) (caps : Z)
    (hfi_class : list Z) : res (list Z) :=
  match n with
  | O => Done hfi_class
  | S n' =>
      perf_cap ← read_u8 local_table
                   (caps + u32 (i * class_stride hfi_features));
      if (i <? 0) || (Z.of_nat (length hfi_class) <=? i) then
        Fail (OutOfBounds i)
      else
        set_hfi_ipcc_score_loop n' (s32 (i + 1)) caps
          (<[Z.to_nat i := perf_cap]> hfi_class)
  end.

(** [set_hfi_ipcc_score(caps, cpu)] *)
Definition set_hfi_ipcc_score (caps cpu : Z) (scores : gmap Z (list Z))
  : res (gmap Z (list Z)) :=
  if negb itd then Done scores
  else
    let n := Z.to_nat (nr_classes hfi_features) in
    match scores !! cpu with
    | Some hfi_class =>
        hfi_class ← set_hfi_ipcc_score_loop n 0 caps hfi_class;
        Done (<[cpu := hfi_class]> scores)
    | None =>
        match n with
        | O => Done scores
        | S _ => Fail (WildPointer cpu)
        end
    end.

(** The loop of [get_hfi_caps] over the CPUs of the instance, [cpus]
    being the bits from CPU [cpu] on and [i] the next record to fill. *)
Fixpoint get_hfi_caps_loop (cpus : list bool) (cpu i : Z)
    (cpu_caps : list thermal_genl_cpu_caps) (scores : gmap Z (list Z))
  : res (list thermal_genl_cpu_caps * gmap Z (list Z)) :=
  match cpus with
  | [] => Done (cpu_caps, scores)
  | false :: cpus' => get_hfi_caps_loop cpus' (cpu + 1) i cpu_caps scores
  | true :: cpus' =>
      let caps := data + u32 (index cpu * cpu_stride hfi_features) in
      if (i <? 0) || (Z.of_nat (length cpu_caps) <=? i) then
        Fail (OutOfBounds i)
      else
        perf_cap ← read_u8 local_table caps;
        ee_cap ← read_u8 local_table (caps + 1);
        (* Scale performance and energy efficiency to the [0, 1023]
           interval that thermal netlink uses. *)
        let cpu_caps :=
          <[Z.to_nat i := {| cpu := cpu;
                             performance := Z.shiftl perf_cap 2;
                             efficiency := Z.shiftl ee_cap 2 |}]> cpu_caps in
        scores ← set_hfi_ipcc_score caps cpu scores;
        get_hfi_caps_loop cpus' (cpu + 1) (s32 (i + 1)) cpu_caps scores
  end.

(** [get_hfi_caps(hfi_instance, cpu_caps)]: the records and the score
    arrays afterwards. *)
Definition get_hfi_caps (cpus : list bool)
    (cpu_caps : list thermal_genl_cpu_caps) (scores : gmap Z (list Z))
  : res (list thermal_genl_cpu_caps * gmap Z (list Z)) :=
  get_hfi_caps_loop cpus 0 0 cpu_caps scores.

(** The capability bytes of a CPU's row: [perf_cap] of class [class]
    and [ee_cap] of class 0. *)
Definition perf_cap_at (cpu class : Z) : res Z :=
  read_u8 local_table
    (data + u32 (index cpu * cpu_stride hfi_features)
     + u32 (class * class_stride hfi_features)).

Definition ee_cap_at (cpu : Z) : res Z :=
  read_u8 local_table
    (data + u32 (index cpu * cpu_stride hfi_features) + 1).

End Capabilities.

(** *** CPU hotplug *)

Module Hotplug.

(** The hotplug path works on pointers, not on table contents: here
    [struct hfi_instance] has its pointer members as addresses, [0]
    being [NULL], and its cpumask as a bitmap.  The delayed work and
    the two locks of an instance are initialized once and not looked at
    by this path. *)
Record hfi_instance : Type := mk_hfi_instance {
  local_table : Z;
  hdr : Z;
  data : Z;
  cpus : list bool;
  hw_table : Z
}.

(** [struct hfi_cpu_info].  The member [hfi_instance] points into the
    array [hfi_instances]; [instance_of] is the position it points to,
    [None] for [NULL]. *)
Record hfi_cpu_info_t : Type := mk_cpu_info {
  index : Z;
  instance_of : option nat
}.

Inductive msr : Type :=
| MSR_IA32_HW_FEEDBACK_PTR
| MSR_IA32_HW_FEEDBACK_CONFIG
| MSR_IA32_HW_FEEDBACK_THREAD_CONFIG.

(** What the hotplug path does to the hardware and to the rest of the
    kernel. *)
Inductive effect : Type :=
| wrmsrl (reg : msr) (val : Z)
| free_pages_exact (virt size : Z)
| sched_enable_ipc_classes.

(** The variables of the file that the hotplug path uses: the array
    [hfi_instances] ([None] for [NULL]), [max_hfi_instances] (an
    [int]), [hfi_features], and the per-CPU [hfi_cpu_info], one per
    possible CPU; and the effects so far, oldest first. *)
Record hfi_state : Type := mk_state {
  hfi_instances : option (list hfi_instance);
  max_hfi_instances : Z;
  hfi_features : hfi_features_t;
  hfi_cpu_info : list hfi_cpu_info_t;
  effects : list effect
}.

(** What one call of [intel_hfi_online] gets from outside: the [int]
    that [topology_logical_die_id] returns, [cpuid_edx(CPUID_HFI_LEAF)],
    the answers of [alloc_pages_exact] and [kzalloc] ([0] on failure)
    and the value read from [MSR_IA32_HW_FEEDBACK_CONFIG]. *)
Record online_env : Type := mk_online_env {
  die_id : Z;
  edx : Z;
  hw_pages : Z;
  local_mem : Z;
  config : Z
}.

Definition HW_FEEDBACK_PTR_VALID_BIT : Z := BIT 0.
Definition HW_FEEDBACK_CONFIG_HFI_ENABLE_BIT : Z := BIT 0.
Definition HW_FEEDBACK_CONFIG_ITD_ENABLE_BIT : Z := BIT 1.
Definition HW_FEEDBACK_THREAD_CONFIG_ENABLE_BIT : Z := BIT 0.

(** [&per_cpu(hfi_cpu_info, cpu)] *)
Definition per_cpu (w : hfi_state) (cpu : Z) : res hfi_cpu_info_t :=
  if cpu <? 0 then Fail (OutOfBounds cpu)
  else
    match hfi_cpu_info w !! Z.to_nat cpu with
    | Some info => Done info
    | None => Fail (OutOfBounds cpu)
    end.

Definition set_info (w : hfi_state) (cpu : Z) (info : hfi_cpu_info_t)
  : hfi_state :=
  {| hfi_instances := hfi_instances w;
     max_hfi_instances := max_hfi_instances w;
     hfi_features := hfi_features w;
     hfi_cpu_info := <[Z.to_nat cpu := info]> (hfi_cpu_info w);
     effects := effects w |}.

Definition set_instance (w : hfi_state) (k : nat) (inst : hfi_instance)
  : hfi_state :=
  {| hfi_instances := (fun instances => <[k := inst]> instances)
                        <$> hfi_instances w;
     max_hfi_instances := max_hfi_instances w;
     hfi_features := hfi_features w;
     hfi_cpu_info := hfi_cpu_info w;
     effects := effects w |}.

Definition do_effect (w : hfi_state) (e : effect) : hfi_state :=
  {| hfi_instances := hfi_instances w;
     max_hfi_instances := max_hfi_instances w;
     hfi_features := hfi_features w;
     hfi_cpu_info := hfi_cpu_info w;
     effects := effects w ++ [e] |}.

(** The instance that a [struct hfi_instance *] points to. *)
Definition instance_at (w : hfi_state) (k : nat) : res hfi_instance :=
  match hfi_instances w with
  | None => Fail (WildPointer (Z.of_nat k))
  | Some instances =>
      match instances !! k with
      | Some inst => Done inst
      | None => Fail (OutOfBounds (Z.of_nat k))
      end
  end.

(** [cpumask_set_cpu] and [cpumask_clear_cpu] *)
Definition cpumask_assign (cpu : Z) (v : bool) (mask : list bool)
  : res (list bool) :=
  if (cpu <? 0) || (Z.of_nat (length mask) <=? cpu) then
    Fail (OutOfBounds cpu)
  else Done (<[Z.to_nat cpu := v]> mask).

Definition set_cpus (inst : hfi_instance) (mask : list bool) : hfi_instance :=
  {| local_table := local_table inst; hdr := hdr inst; data := data inst;
     cpus := mask; hw_table := hw_table inst |}.

(** [init_hfi_instance(hfi_instance)] *)
Definition init_hfi_instance (f : hfi_features_t) (inst : hfi_instance)
  : hfi_instance :=
  (* The HFI header is below the time-stamp. *)
  let hdr := u64 (local_table inst + 8) in
  {| local_table := local_table inst;
     hdr := hdr;
     (* The HFI data starts below the header. *)
     data := u64 (hdr + hdr_size f);
     cpus := cpus inst;
     hw_table := hw_table inst |}.

Section Online.

(** [itd] is [cpu_feature_enabled(X86_FEATURE_ITD)]. *)
Variable itd : bool.
Variable virt_to_phys : Z -> Z.

(** The part of [intel_hfi_online] under [hfi_instance_lock], for the
    instance at position [k]. *)
Definition online_locked (env : online_env) (cpu : Z) (k : nat)
    (w : hfi_state) : res hfi_state :=
  inst ← instance_at w k;
  if negb (hdr inst =? 0) then
    mask ← cpumask_assign cpu true (cpus inst);
    Done (set_instance w k (set_cpus inst mask))
  else
    let inst := {| local_table := local_table inst; hdr := hdr inst;
                   data := data inst; cpus := cpus inst;
                   hw_table := hw_pages env |} in
    if hw_table inst =? 0 then Done (set_instance w k inst)
    else
      let hw_table_pa := virt_to_phys (hw_table inst) in
      let inst := {| local_table := local_mem env; hdr := hdr inst;
                     data := data inst; cpus := cpus inst;
                     hw_table := hw_table inst |} in
      if local_table inst =? 0 then
        Done (do_effect (set_instance w k inst)
                (free_pages_exact (hw_table inst)
                   (nr_table_pages (hfi_features w))))
      else
        (* Program the hardware only once. *)
        let w := do_effect w
                   (wrmsrl MSR_IA32_HW_FEEDBACK_PTR
                      (u64 (Z.lor hw_table_pa HW_FEEDBACK_PTR_VALID_BIT))) in
        let inst := init_hfi_instance (hfi_features w) inst in
        mask ← cpumask_assign cpu true (cpus inst);
        let w := set_instance w k (set_cpus inst mask) in
        (* Enable the hardware feedback interface and never disable it. *)
        let msr_val :=
          Z.lor (config env) HW_FEEDBACK_CONFIG_HFI_ENABLE_BIT in
        let msr_val :=
          if itd then Z.lor msr_val HW_FEEDBACK_CONFIG_ITD_ENABLE_BIT
          else msr_val in
        let w := do_effect w (wrmsrl MSR_IA32_HW_FEEDBACK_CONFIG msr_val) in
        Done (if itd then do_effect w sched_enable_ipc_classes else w).

(** [intel_hfi_online(cpu)] *)
Definition intel_hfi_online (env : online_env) (cpu : Z) (w : hfi_state)
  : res hfi_state :=
  match hfi_instances w with
  | None =>
      (* Nothing to do if hfi_instances are missing. *)
      Done w
  | Some _ =>
      info ← per_cpu w cpu;
      let die_id := u16 (die_id env) in
      let linked :=
        match instance_of info with
        | Some k => Some k
        | None =>
            if (die_id <? 0) || (max_hfi_instances w <=? die_id) then None
            else Some (Z.to_nat die_id)
        end in
      match linked with
      | None => Done w
      | Some k =>
          let w := set_info w cpu
                     {| index := init_hfi_cpu_index (edx env) (index info);
                        instance_of := Some k |} in
          let w :=
            if itd then
              do_effect w (wrmsrl MSR_IA32_HW_FEEDBACK_THREAD_CONFIG
                             HW_FEEDBACK_THREAD_CONFIG_ENABLE_BIT)
            else w in
          online_locked env cpu k w
      end
  end.

(** [intel_hfi_offline(cpu)] *)
Definition intel_hfi_offline (cpu : Z) (w : hfi_state) : res hfi_state :=
  info ← per_cpu w cpu;
  match instance_of info with
  | None => Done w
  | Some k =>
      inst ← instance_at w k;
      if hdr inst =? 0 then Done w
      else
        mask ← cpumask_assign cpu false (cpus inst);
        Done (set_instance w k (set_cpus inst mask))
  end.

(** A hotplug history: the calls of the two callbacks, oldest first. *)
Inductive hotplug_call : Type :=
| online (env : online_env) (cpu : Z)
| offline (cpu : Z).

Definition hotplug_step (w : hfi_state) (c : hotplug_call) : res hfi_state :=
  match c with
  | online env cpu => intel_hfi_online env cpu w
  | offline cpu => intel_hfi_offline cpu w
  end.

Fixpoint hotplug_run (calls : list hotplug_call) (w : hfi_state)
  : res hfi_state :=
  match calls with
  | [] => Done w
  | c :: calls' => w ← hotplug_step w c; hotplug_run calls' w
  end.

End Online.

(** *** Initialization *)

(** What [intel_hfi_init] gets from the allocators and has to give
    back when it fails. *)
Inductive resource : Type :=
| the_instances
| the_cpumask (i : nat)
| the_workqueue
| the_ipcc_scores.

#[global] Instance resource_eq_dec : EqDecision resource.
Proof. solve_decision. Defined.

(** What [intel_hfi_init] gets from outside: the CPU feature bit, the
    registers of CPUID leaf 6, the two topology numbers, and whether
    [kcalloc], the [i]-th [zalloc_cpumask_var],
    [create_singlethread_workqueue] and [__alloc_percpu] succeed. *)
Record init_env : Type := mk_init_env {
  has_hfi : bool;
  cpuid_edx : Z;
  cpuid_ecx : Z;
  topology_max_packages : Z;
  topology_max_die_per_package : Z;
  kcalloc_ok : bool;
  zalloc_cpumask_var_ok : nat -> bool;
  create_workqueue_ok : bool;
  alloc_percpu_ok : bool
}.

(** [kfree], [free_cpumask_var] and [destroy_workqueue]: the resource
    is no longer held. *)
Fixpoint release (r : resource) (held : list resource)
  : res (list resource) :=
  match held with
  | [] => Fail (WildPointer 0)
  | r' :: held' =>
      if decide (r' = r) then Done held'
      else held' ← release r held'; Done (r' :: held')
  end.

Definition set_cpumask (instances : list hfi_instance) (i : nat)
    (mask : list bool) : list hfi_instance :=
  match instances !! i with
  | Some inst => <[i := set_cpus inst mask]> instances
  | None => instances
  end.

Section Init.

Variable itd : bool.

(** [for (i = 0; i < max_hfi_instances; i++)
       if (!zalloc_cpumask_var(&hfi_instance->cpus, GFP_KERNEL))
         goto err_nomem;]
    with [todo] instances left: the final [i], whether the loop ran to
    its end, the instances and what is held. *)
Fixpoint alloc_cpumasks (env : init_env) (nr_cpu_ids : nat) (todo i : nat)
    (instances : list hfi_instance) (held : list resource)
  : nat * bool * list hfi_instance * list resource :=
  match todo with
  | O => (i, true, instances, held)
  | S todo' =>
      if zalloc_cpumask_var_ok env i then
        alloc_cpumasks env nr_cpu_ids todo' (S i)
          (set_cpumask instances i (replicate nr_cpu_ids false))
          (held ++ [the_cpumask i])
      else (i, false, instances, held)
  end.

(** [for (j = 0; j < i; ++j) free_cpumask_var(hfi_instance->cpus);] *)
Fixpoint free_cpumasks (todo j : nat) (held : list resource)
  : res (list resource) :=
  match todo with
  | O => Done held
  | S todo' =>
      held ← release (the_cpumask j) held;
      free_cpumasks todo' (S j) held
  end.

(** The label [err_nomem], reached with [i] cpumasks allocated. *)
Definition err_nomem (w : hfi_state) (i : nat) (held : list resource)
  : res (hfi_state * list resource) :=
  held ← free_cpumasks i 0 held;
  held ← release the_instances held;
  Done ({| hfi_instances := None;
           max_hfi_instances := max_hfi_instances w;
           hfi_features := hfi_features w;
           hfi_cpu_info := hfi_cpu_info w;
           effects := effects w |}, held).

(** [intel_hfi_init()]: the variables of the file and what is held
    from the allocators afterwards. *)
Definition intel_hfi_init (env : init_env) (w : hfi_state)
  : res (hfi_state * list resource) :=
  let parsed := hfi_parse_features (has_hfi env) itd (cpuid_edx env)
                  (cpuid_ecx env) (hfi_features w) in
  if negb (parsed.1 =? 0) then Done (w, [])
  else
    (* There is one HFI instance per die/package. *)
    let max := s32 (topology_max_packages env
                    * topology_max_die_per_package env) in
    let w := {| hfi_instances := hfi_instances w;
                max_hfi_instances := max;
                hfi_features := parsed.2;
                hfi_cpu_info := hfi_cpu_info w;
                effects := effects w |} in
    (* This allocation may fail. CPU hotplug callbacks must check for a
       null pointer. *)
    if negb (kcalloc_ok env) then
      Done ({| hfi_instances := None;
               max_hfi_instances := max_hfi_instances w;
               hfi_features := hfi_features w;
               hfi_cpu_info := hfi_cpu_info w;
               effects := effects w |}, [])
    else
      let instances :=
        replicate (Z.to_nat max) (mk_hfi_instance 0 0 0 [] 0) in
      let '(i, ok, instances, held) :=
        alloc_cpumasks env (length (hfi_cpu_info w)) (Z.to_nat max) 0
          instances [the_instances] in
      let w := {| hfi_instances := Some instances;
                  max_hfi_instances := max_hfi_instances w;
                  hfi_features := hfi_features w;
                  hfi_cpu_info := hfi_cpu_info w;
                  effects := effects w |} in
      if negb ok then err_nomem w i held
      else if negb (create_workqueue_ok env) then err_nomem w i held
      else
        let held := held ++ [the_workqueue] in
        (* alloc_hfi_ipcc_scores() *)
        if negb itd then Done (w, held)
        else if alloc_percpu_ok env then Done (w, held ++ [the_ipcc_scores])
        else
          (* err_ipcc *)
          held ← release the_workqueue held;
          err_nomem w i held.

End Init.

(** The variables of the file before [intel_hfi_init]: no instances,
    and every CPU with index -1 and no instance. *)
Definition boot_state (w : hfi_state) : Prop :=
  hfi_instances w = None /\
  (forall cpu info, hfi_cpu_info w !! cpu = Some info ->
                    info = mk_cpu_info (-1) None) /\
  effects w = [].

(** The values written to [MSR_IA32_HW_FEEDBACK_PTR], oldest first. *)
Definition ptr_writes (es : list effect) : list Z :=
  omap (fun e => match e with
                 | wrmsrl MSR_IA32_HW_FEEDBACK_PTR v => Some v
                 | _ => None
                 end) es.

(** The instance has been set up: its header pointer is not [NULL]. *)
Definition initialized (inst : hfi_instance) : bool := negb (hdr inst =? 0).

(** CPU [cpu] is in the cpumask of the instance. *)
Definition in_cpus (cpu : Z) (inst : hfi_instance) : Prop :=
  0 <= cpu /\ cpus inst !! Z.to_nat cpu = Some true.

(** The state between two hotplug calls: the array has
    [max_hfi_instances] instances with one bit per possible CPU; a CPU
    points to an instance of the array, if to any; a cpumask holds only
    CPUs that point to its instance, and only when the instance is set
    up; the table pointer of an instance that is set up is not [NULL]. *)
Definition hotplug_ok (w : hfi_state) : Prop :=
  match hfi_instances w with
  | None =>
      forall cpu info, hfi_cpu_info w !! cpu = Some info ->
                       instance_of info = None
  | Some instances =>
      Z.of_nat (length instances) = max_hfi_instances w /\
      (forall k inst, instances !! k = Some inst ->
         length (cpus inst) = length (hfi_cpu_info w) /\
         (initialized inst = true ->
          hw_table inst <> 0 /\ local_table inst <> 0)) /\
      (forall cpu info k,
         hfi_cpu_info w !! cpu = Some info -> instance_of info = Some k ->
         (k < length instances)%nat) /\
      (forall k inst cpu,
         instances !! k = Some inst -> cpus inst !! cpu = Some true ->
         initialized inst = true /\
         exists info, hfi_cpu_info w !! cpu = Some info /\
                      instance_of info = Some k)
  end.

(** The state that [intel_hfi_init] leaves when it has allocated the
    instances: no instance is set up, every cpumask is empty, and no
    CPU points to an instance or has read its index. *)
Definition hotplug_start (w : hfi_state) : Prop :=
  (forall instances, hfi_instances w = Some instances ->
     Z.of_nat (length instances) = max_hfi_instances w /\
     forall k inst, instances !! k = Some inst ->
       inst = mk_hfi_instance 0 0 0
                (replicate (length (hfi_cpu_info w)) false) 0) /\
  (forall cpu info, hfi_cpu_info w !! cpu = Some info ->
                    info = mk_cpu_info (-1) None) /\
  effects w = [].

(** The table pointer has been programmed once for every instance that
    is set up, with the table the instance has, and for no other: the
    values written to [MSR_IA32_HW_FEEDBACK_PTR] are, in some order,
    the physical addresses of the tables of the instances that are set
    up, with the valid bit. *)
Definition programmed_once (virt_to_phys : Z -> Z) (w : hfi_state) : Prop :=
  ptr_writes (effects w) ≡ₚ
  (fun inst => u64 (Z.lor (virt_to_phys (hw_table inst))
                      HW_FEEDBACK_PTR_VALID_BIT))
    <$> filter (fun inst => initialized inst = true)
          (default [] (hfi_instances w)).

(** A call for a possible CPU; for [intel_hfi_online], with a [kzalloc]
    answer that is [NULL] or an address with room for the time-stamp
    behind it. *)
Definition call_ok (w : hfi_state) (c : hotplug_call) : Prop :=
  match c with
  | online env cpu =>
      0 <= cpu < Z.of_nat (length (hfi_cpu_info w)) /\
      0 <= local_mem env < 2 ^ 64 - 8
  | offline cpu => 0 <= cpu < Z.of_nat (length (hfi_cpu_info w))
  end.

End Hotplug.

(** *** Notions used to state the properties *)

(** The invariant of a run that starts with the counter at zero: the
    counter stays in [0..3] and the last [ipcc_cntr] observations all
    equal [ipcc_tmp]. *)
Definition counted (p : task_struct) (seen : list Z) : Prop :=
  0 <= ipcc_cntr p <= 3 /\
  exists older,
    seen = older ++ repeat (ipcc_tmp p) (Z.to_nat (ipcc_cntr p)).

(** The complete chunks of a run over [n] records: [n / 16] calls of
    16 records each, the [k]-th starting at record [16 k]. *)
Definition full_chunks (first : Z) (m : nat) : list caps_event :=
  map (fun k => mk_event HFI_MAX_THERM_NOTIFY_COUNT
                 (first + HFI_MAX_THERM_NOTIFY_COUNT * Z.of_nat k))
      (seq 0 m).

(** The calls the worker is expected to make for [n] records. *)
Definition expected_events (n : Z) : list caps_event :=
  full_chunks 0 (Z.to_nat (n / 16)) ++
  (if n mod 16 =? 0 then [] else [mk_event (n mod 16) (16 * (n / 16))]).

End HFI.

Module Zblock.

Definition SLOT_FREE : Z := 0.
Definition SLOT_OCCUPIED : Z := 1.
Definition SLOT_MAPPED : Z := 2.
Definition SLOT_UNMAPPED : Z := 3.

Definition SLOT_BITS : Z := 5.
Definition MAX_SLOTS : Z := Z.shiftl 1 SLOT_BITS.
Definition SLOT_MASK : Z := Z.shiftl 1 SLOT_BITS - 1.

Definition BLOCK_CACHE_SIZE : Z := 32.

(** [struct zblock_block], without its lock and list node: the lock has
    no state between calls and the node is the position of the block's
    address in [head] below. *)
Record zblock_block : Type := mk_block {
  slot_info : list Z;          (* u8 slot_info[MAX_SLOTS] *)
  free_slots : Z;              (* unsigned int *)
  under_reclaim : bool
}.

(** One entry of the [block_desc] table. *)
Record block_desc_t : Type := mk_desc {
  slot_size : Z;               (* unsigned int *)
  slots_per_block : Z;         (* unsigned short *)
  order : Z                    (* unsigned short *)
}.

(** [struct block_list]: [head] lists the addresses of the linked
    blocks, first entry first ([list_add] puts a block in front, the
    last entry is the oldest); [block_cache] has [BLOCK_CACHE_SIZE]
    pointers. *)
Record block_list : Type := mk_list {
  head : list Z;
  block_cache : list Z;
  block_count : Z              (* unsigned long *)
}.

(** [struct zblock_pool] together with the memory it owns: [pages]
    holds the header of every block obtained from the page allocator
    and not yet given back, at the block's address. *)
Record zblock_pool : Type := mk_pool {
  block_lists : list block_list;
  alloc_flag : Z;
  pages : gmap Z zblock_block
}.

Section Layout.

(** Target parameters that [zblock.c] takes from the kernel headers:
    [PAGE_SHIFT], [sizeof(struct zblock_block)],
    [offsetof(struct zblock_block, block_node)], and the address
    [&pool->block_lists[t].head] of each list head.  [long] has 8 bytes
    and [unsigned long] 64 bits. *)
Variable PAGE_SHIFT : Z.
Variable SIZEOF_BLOCK : Z.
Variable OFFSETOF_NODE : Z.
Variable head_addr : Z -> Z.

(** The caller's eviction callback [pool->ops->evict(pool, handle)]:
    the [int] it returns and the pool as the callback leaves it (the
    callback of zswap maps, unmaps and frees the handle it is given). *)
Variable evict : zblock_pool -> Z -> Z * zblock_pool.

Definition PAGE_SIZE : Z := u64 (Z.shiftl 1 PAGE_SHIFT).
Definition PAGE_MASK : Z := u64 (Z.lnot (PAGE_SIZE - 1)).

Definition BLOCK_DATA_SIZE (order : Z) : Z :=
  u64 (u64 (Z.shiftl PAGE_SIZE order) - SIZEOF_BLOCK).

Definition round_down (x y : Z) : Z := Z.land x (u64 (Z.lnot (y - 1))).

Definition SLOT_SIZE (nslots order : Z) : Z :=
  round_down (BLOCK_DATA_SIZE order / nslots) 8.

Definition desc (nslots order : Z) : block_desc_t :=
  {| slot_size := u32 (SLOT_SIZE nslots order);
     slots_per_block := nslots;
     order := order |}.

Definition block_desc : list block_desc_t :=
  [ desc 32 0; desc 22 0; desc 17 0; desc 13 0; desc 11 0; desc 9 0;
    desc 8 0;
    desc 14 1; desc 12 1; desc 11 1; desc 10 1; desc 9 1; desc 8 1;
    desc 15 2; desc 14 2; desc 13 2; desc 12 2; desc 11 2; desc 10 2;
    desc 9 2; desc 8 2;
    desc 15 3; desc 14 3; desc 13 3; desc 12 3; desc 11 3; desc 10 3;
    desc 9 3; desc 7 3 ].

Definition ARRAY_SIZE_block_desc : Z := Z.of_nat (length block_desc).

(** Array accesses and pointer dereferences. *)
Definition desc_at (block_type : Z) : res block_desc_t :=
  if block_type <? 0 then Fail (OutOfBounds block_type)
  else match block_desc !! Z.to_nat block_type with
       | Some d => Done d
       | None => Fail (OutOfBounds block_type)
       end.

Definition list_at (pool : zblock_pool) (block_type : Z) : res block_list :=
  if block_type <? 0 then Fail (OutOfBounds block_type)
  else match block_lists pool !! Z.to_nat block_type with
       | Some l => Done l
       | None => Fail (OutOfBounds block_type)
       end.

Definition deref (pages : gmap Z zblock_block) (block : Z) : res zblock_block :=
  match pages !! block with
  | Some b => Done b
  | None => Fail (WildPointer block)
  end.

Definition set_list (pool : zblock_pool) (block_type : Z) (l : block_list)
  : zblock_pool :=
  {| block_lists := <[Z.to_nat block_type := l]> (block_lists pool);
     alloc_flag := alloc_flag pool;
     pages := pages pool |}.

Definition set_block (pool : zblock_pool) (block : Z) (b : zblock_block)
  : zblock_pool :=
  {| block_lists := block_lists pool;
     alloc_flag := alloc_flag pool;
     pages := <[block := b]> (pages pool) |}.

Definition set_alloc_flag (pool : zblock_pool) (v : Z) : zblock_pool :=
  {| block_lists := block_lists pool;
     alloc_flag := v;
     pages := pages pool |}.

(** *** Helpers *)

(** The loop of [cache_insert_block]: [todo] is the part of the cache
    from index [i] on; [min_index] is [None] until first assigned. *)
Fixpoint cache_insert_loop (pages : gmap Z zblock_block) (block : Z)
    (cache todo : list Z) (i : nat) (min_free_slots : Z)
    (min_index : option nat) : res (list Z) :=
  match todo with
  | [] =>
      match min_index with
      | Some m => Done (<[m := block]> cache)
      | None => Fail Uninitialized
      end
  | c :: todo' =>
      if c =? 0 then Done (<[i := block]> cache)
      else
        b ← deref pages c;
        if free_slots b =? 0 then Done (<[i := block]> cache)
        else if free_slots b <? min_free_slots then
          cache_insert_loop pages block cache todo' (S i) (free_slots b) (Some i)
        else
          cache_insert_loop pages block cache todo' (S i) min_free_slots min_index
  end.

Definition cache_insert_block (pages : gmap Z zblock_block) (block : Z)
    (list : block_list) : res block_list :=
  cache ← cache_insert_loop pages block (block_cache list) (block_cache list)
             0 MAX_SLOTS None;
  Done {| head := head list; block_cache := cache;
          block_count := block_count list |}.

Fixpoint cache_find_loop (pages : gmap Z zblock_block) (todo : list Z)
  : res Z :=
  match todo with
  | [] => Done 0
  | c :: todo' =>
      if c =? 0 then cache_find_loop pages todo'
      else
        b ← deref pages c;
        if free_slots b =? 0 then cache_find_loop pages todo' else Done c
  end.

Definition cache_find_block (pages : gmap Z zblock_block) (list : block_list)
  : res Z :=
  cache_find_loop pages (block_cache list).

Fixpoint is_in_cache_loop (block : Z) (todo : list Z) (i : Z) : Z :=
  match todo with
  | [] => -1
  | c :: todo' => if block =? c then i else is_in_cache_loop block todo' (i + 1)
  end.

Definition is_in_cache (block : Z) (list : block_list) : Z :=
  is_in_cache_loop block (block_cache list) 0.

(** [alloc_block]: [fresh] is what [__get_free_pages] returned ([0] on
    failure) and [junk] the previous contents of that memory, read as a
    block header. *)
Definition alloc_block (pool : zblock_pool) (block_type : Z)
    (fresh : Z) (junk : zblock_block) : res (Z * zblock_pool) :=
  d ← desc_at block_type;
  if fresh =? 0 then Done (0, pool)
  else
    list ← list_at pool block_type;
    let n := Z.to_nat (slots_per_block d) in
    let block :=
      {| slot_info := replicate n SLOT_FREE ++ drop n (slot_info junk);
         free_slots := slots_per_block d;
         under_reclaim := false |} in
    let pages' := <[fresh := block]> (pages pool) in
    list' ← cache_insert_block pages' fresh
              {| head := fresh :: head list;
                 block_cache := block_cache list;
                 block_count := block_count list |};
    Done (fresh,
          {| block_lists :=
               <[Z.to_nat block_type :=
                  {| head := head list';
                     block_cache := block_cache list';
                     block_count := u64 (block_count list' + 1) |}]>
                 (block_lists pool);
             alloc_flag := alloc_flag pool;
             pages := pages' |}).

(** Encodes the handle of a slot. *)
Definition metadata_to_handle (block block_type slot : Z) : Z :=
  u64 (block + u32 (Z.shiftl block_type SLOT_BITS) + slot).

(** Returns block, block type and slot of a handle. *)
Definition handle_to_metadata (handle : Z) : Z * Z * Z :=
  (Z.land handle PAGE_MASK,
   u32 (Z.shiftr (Z.land handle (PAGE_SIZE - 1)) SLOT_BITS),
   u32 (Z.land handle SLOT_MASK)).

(** *** API functions *)

(** [zblock_create_pool]: [None] is the [NULL] return.  [kmalloc_ok]
    says whether the pool structure could be allocated. *)
Definition zblock_create_pool (kmalloc_ok : bool) : option zblock_pool :=
  if negb kmalloc_ok then None
  else
    match last block_desc with
    | None => None
    | Some d =>
        if slot_size d <? PAGE_SIZE then None
        else
          Some {| block_lists :=
                    replicate (length block_desc)
                      {| head := [];
                         block_cache := replicate (Z.to_nat BLOCK_CACHE_SIZE) 0;
                         block_count := 0 |};
                  alloc_flag := 0;
                  pages := ∅ |}
    end.

(** The search for the basic block type:
    [for (block_type = 0; block_type < ARRAY_SIZE(block_desc); block_type++)
       if (size <= block_desc[block_type].slot_size) break;] *)
Fixpoint find_block_type_loop (todo : list block_desc_t) (block_type size : Z)
  : Z :=
  match todo with
  | [] => block_type
  | d :: todo' =>
      if size <=? slot_size d then block_type
      else find_block_type_loop todo' (block_type + 1) size
  end.

Definition find_block_type (size : Z) : Z :=
  find_block_type_loop block_desc 0 size.

(** The search for the first free slot:
    [for (slot = 0; slot < slots_per_block; slot++)
       if (block->slot_info[slot] == SLOT_FREE) break;] *)
Fixpoint find_free_slot_loop (todo : list Z) (slot : Z) : Z :=
  match todo with
  | [] => slot
  | s :: todo' =>
      if s =? SLOT_FREE then slot else find_free_slot_loop todo' (slot + 1)
  end.

Definition find_free_slot (slots_per_block : Z) (info : list Z) : Z :=
  find_free_slot_loop (take (Z.to_nat slots_per_block) info) 0.

(** A store to [block->slot_info[slot]]. *)
Definition store_slot (b : zblock_block) (slot state : Z) : res zblock_block :=
  if (slot <? 0) || (MAX_SLOTS <=? slot) then Fail (OutOfBounds slot)
  else Done {| slot_info := <[Z.to_nat slot := state]> (slot_info b);
               free_slots := free_slots b;
               under_reclaim := under_reclaim b |}.

Definition set_free_slots (b : zblock_block) (n : Z) : zblock_block :=
  {| slot_info := slot_info b; free_slots := n;
     under_reclaim := under_reclaim b |}.

Definition set_under_reclaim (b : zblock_block) (v : bool) : zblock_block :=
  {| slot_info := slot_info b; free_slots := free_slots b;
     under_reclaim := v |}.

(** The part of [zblock_alloc] from the label [found] on. *)
Definition zblock_alloc_found (pool : zblock_pool) (block_type block : Z)
  : res (Z * option Z * zblock_pool) :=
  b ← deref (pages pool) block;
  d ← desc_at block_type;
  let b := set_free_slots b (u32 (free_slots b - 1)) in
  (* find the first free slot in block *)
  let slot := find_free_slot (slots_per_block d) (slot_info b) in
  b ← store_slot b slot SLOT_OCCUPIED;
  let handle := metadata_to_handle block block_type slot in
  Done (0, Some handle, set_alloc_flag (set_block pool block b) 0).

(** The part of [zblock_alloc] from the label [check] on.  A failed
    [atomic_cmpxchg] jumps back to [check]; with nobody else to clear
    [alloc_flag] or to free a slot the same test fails again, for ever. *)
Definition zblock_alloc_check (pool : zblock_pool) (block_type : Z)
    (fresh : Z) (junk : zblock_block) : res (Z * option Z * zblock_pool) :=
  list ← list_at pool block_type;
  (* check if there are free slots in cache *)
  block ← cache_find_block (pages pool) list;
  if negb (block =? 0) then zblock_alloc_found pool block_type block
  else
    (* not found block with free slots try to allocate new empty block *)
    if negb (alloc_flag pool =? 0) then Fail Spins
    else
      '(block, pool) ← alloc_block (set_alloc_flag pool 1) block_type
                         fresh junk;
      if negb (block =? 0) then zblock_alloc_found pool block_type block
      else Done (- ENOMEM, None, set_alloc_flag pool 0).

(** [zblock_alloc(pool, size, gfp, handle)]: the [int] result, the
    value stored through [handle] if any, and the pool afterwards.
    [fresh] and [junk] are the page allocator's answer, used only if
    the pool has to grow. *)
Definition zblock_alloc (pool : zblock_pool) (size : Z)
    (fresh : Z) (junk : zblock_block) : res (Z * option Z * zblock_pool) :=
  if size =? 0 then Done (- EINVAL, None, pool)
  else if PAGE_SIZE <? size then Done (- ENOSPC, None, pool)
  else
    (* find basic block type with suitable slot size *)
    zblock_alloc_check pool (find_block_type size) fresh junk.

(** [list_del(&block->block_node)]: the node leaves the list it is
    linked in. *)
Definition list_del (block : Z) (lists : list block_list) : list block_list :=
  (fun l => {| head := filter (fun x => x ≠ block) (head l);
               block_cache := block_cache l;
               block_count := block_count l |}) <$> lists.

Definition set_lists (pool : zblock_pool) (ls : list block_list) : zblock_pool :=
  {| block_lists := ls; alloc_flag := alloc_flag pool; pages := pages pool |}.

(** [free_pages((unsigned long)block, order)] *)
Definition free_pages (pool : zblock_pool) (block : Z) : zblock_pool :=
  {| block_lists := block_lists pool;
     alloc_flag := alloc_flag pool;
     pages := delete block (pages pool) |}.

(** The part of [zblock_free] after the handle is decoded. *)
Definition zblock_free_slot (pool : zblock_pool) (block block_type slot : Z)
  : res zblock_pool :=
  b ← deref (pages pool) block;
  if under_reclaim b then Done pool
  else
    list ← list_at pool block_type;
    let i := is_in_cache block list in
    let b := set_free_slots b (u32 (free_slots b + 1)) in
    let pool := set_block pool block b in
    d ← desc_at block_type;
    (* if all slots in block are empty delete whole block *)
    if free_slots b =? slots_per_block d then
      let pool := set_lists pool (list_del block (block_lists pool)) in
      list ← list_at pool block_type;
      let list := {| head := head list;
                     (* if cached block to be deleted *)
                     block_cache := if negb (i =? -1)
                                    then <[Z.to_nat i := 0]> (block_cache list)
                                    else block_cache list;
                     block_count := u64 (block_count list - 1) |} in
      Done (free_pages (set_list pool block_type list) block)
    else
      (* if block is not cached update cache *)
      list ← (if i =? -1 then cache_insert_block (pages pool) block list
              else Done list);
      let pool := set_list pool block_type list in
      b ← store_slot b slot SLOT_FREE;
      Done (set_block pool block b).

(** [zblock_free(pool, handle)] *)
Definition zblock_free (pool : zblock_pool) (handle : Z) : res zblock_pool :=
  let '(block, block_type, slot) := handle_to_metadata handle in
  zblock_free_slot pool block block_type slot.

(** [list_last_entry(&list->head, struct zblock_block, block_node)]:
    [container_of(head.prev)].  On an empty list [head.prev] is the
    head itself. *)
Definition list_last_entry (block_type : Z) (list : block_list) : Z :=
  match last (head list) with
  | Some block => block
  | None => u64 (head_addr block_type - OFFSETOF_NODE)
  end.

(** The slot loop of [zblock_reclaim_block], [n] slots from [slot] on:
    the pool and the count [reclaimed] when the loop is left. *)
Fixpoint evict_slots (n : nat) (slot : Z) (block block_type : Z)
    (pool : zblock_pool) (reclaimed : Z) : res (zblock_pool * Z) :=
  match n with
  | O => Done (pool, reclaimed)
  | S n' =>
      b ← deref (pages pool) block;
      match slot_info b !! Z.to_nat slot with
      | None => Fail (OutOfBounds slot)
      | Some st =>
          if (st =? SLOT_OCCUPIED) || (st =? SLOT_UNMAPPED) then
            let handle := metadata_to_handle block block_type slot in
            let '(ret, pool) := evict pool handle in
            if negb (ret =? 0) then Done (pool, reclaimed)
            else
              b ← deref (pages pool) block;
              b ← store_slot b slot SLOT_FREE;
              let b := set_free_slots b (u32 (free_slots b + 1)) in
              evict_slots n' (slot + 1) block block_type
                (set_block pool block b) (s32 (reclaimed + 1))
          else evict_slots n' (slot + 1) block block_type pool reclaimed
      end
  end.

(** One iteration of the loop of [zblock_reclaim_block], for
    [block_type]: [None] when the iteration ends in [continue],
    otherwise the value the function returns. *)
Definition zblock_reclaim_type (block_type : Z) (pool : zblock_pool)
  : res (option (Z * zblock_pool)) :=
  list ← list_at pool block_type;
  (* find the oldest block in list *)
  let block := list_last_entry block_type list in
  if block =? 0 then Done None
  else
    let i := is_in_cache block list in
    (* skip iteration if this block is cached *)
    if negb (i =? -1) then Done None
    else
      b ← deref (pages pool) block;
      let pool := set_block pool block (set_under_reclaim b true) in
      d ← desc_at block_type;
      (* try to evict all OCCUPIED and UNMAPPED slots in block *)
      '(pool, reclaimed) ←
         evict_slots (Z.to_nat (slots_per_block d)) 0 block block_type pool 0;
      b ← deref (pages pool) block;
      list ← list_at pool block_type;
      pool ←
        (if negb (free_slots b =? slots_per_block d) then
           (* some occupied slots remained - insert block *)
           let pool := set_block pool block (set_under_reclaim b false) in
           list ← cache_insert_block (pages pool) block list;
           Done (set_list pool block_type list)
         else
           (* all slots are free - delete this block *)
           let pool := set_lists pool (list_del block (block_lists pool)) in
           list ← list_at pool block_type;
           let list := {| head := head list;
                          block_cache := block_cache list;
                          block_count := u64 (block_count list - 1) |} in
           Done (free_pages (set_list pool block_type list) block));
      if negb (reclaimed =? 0) then Done (Some (reclaimed, pool))
      else Done (Some (- EAGAIN, pool)).

(** [zblock_reclaim_block(pool)]: the loop over the block types
    [n - 1], ..., [0]. *)
Fixpoint zblock_reclaim_loop (n : nat) (pool : zblock_pool)
  : res (Z * zblock_pool) :=
  match n with
  | O => Done (- EINVAL, pool)
  | S n' =>
      r ← zblock_reclaim_type (Z.of_nat n') pool;
      match r with
      | Some ret => Done ret
      | None => zblock_reclaim_loop n' pool
      end
  end.

Definition zblock_reclaim_block (pool : zblock_pool) : res (Z * zblock_pool) :=
  zblock_reclaim_loop (length block_desc) pool.

(** The part of [zblock_map] after the handle is decoded. *)
Definition zblock_map_slot (pool : zblock_pool) (block block_type slot : Z)
  : res (Z * zblock_pool) :=
  b ← deref (pages pool) block;
  b ← store_slot b slot SLOT_MAPPED;
  d ← desc_at block_type;
  Done (u64 (block + SIZEOF_BLOCK + u32 (slot * slot_size d)),
        set_block pool block b).

(** [zblock_map(pool, handle)]: the pointer returned and the pool. *)
Definition zblock_map (pool : zblock_pool) (handle : Z)
  : res (Z * zblock_pool) :=
  let '(block, block_type, slot) := handle_to_metadata handle in
  zblock_map_slot pool block block_type slot.

(** The part of [zblock_unmap] after the handle is decoded. *)
Definition zblock_unmap_slot (pool : zblock_pool) (block slot : Z)
  : res zblock_pool :=
  b ← deref (pages pool) block;
  b ← store_slot b slot SLOT_UNMAPPED;
  Done (set_block pool block b).

(** [zblock_unmap(pool, handle)] *)
Definition zblock_unmap (pool : zblock_pool) (handle : Z) : res zblock_pool :=
  let '(block, block_type, slot) := handle_to_metadata handle in
  zblock_unmap_slot pool block slot.

(** The loop of [zblock_get_pool_size], [n] block types from [i] on:
    [total_size += block_count * (PAGE_SIZE << order)] in [u64]. *)
Fixpoint get_pool_size_loop (n : nat) (i : Z) (pool : zblock_pool)
    (total_size : Z) : res Z :=
  match n with
  | O => Done total_size
  | S n' =>
      list ← list_at pool i;
      d ← desc_at i;
      get_pool_size_loop n' (i + 1) pool
        (u64 (total_size
              + u64 (block_count list * u64 (Z.shiftl PAGE_SIZE (order d)))))
  end.

(** [zblock_get_pool_size(pool)] *)
Definition zblock_get_pool_size (pool : zblock_pool) : res Z :=
  get_pool_size_loop (length block_desc) 0 pool 0.

(** *** zpool *)

(** [zblock_zpool_evict(pool, handle)]: [zpool_evict] is
    [pool->zpool_ops->evict] with [pool->zpool] as its first argument,
    [None] when [pool->zpool], [pool->zpool_ops] or the callback is
    [NULL]. *)
Definition zblock_zpool_evict
    (zpool_evict : option (zblock_pool -> Z -> Z * zblock_pool))
    (pool : zblock_pool) (handle : Z) : Z * zblock_pool :=
  match zpool_evict with
  | Some callback => callback pool handle
  | None => (- ENOENT, pool)
  end.

(** The loop of [zblock_zpool_shrink],
    [while (total < pages) { ret = zblock_reclaim_block(pool);
       if (ret < 0) break; total += ret; }],
    with [total] and [pages] [unsigned int] and [ret] an [int]; [None]
    when [fuel] reclaim passes did not reach the exit. *)
Fixpoint shrink_loop (fuel : nat) (pool : zblock_pool) (pages total ret : Z)
  : option (res (Z * Z * zblock_pool)) :=
  if total <? pages then
    match fuel with
    | O => None
    | S fuel' =>
        match zblock_reclaim_block pool with
        | Fail f => Some (Fail f)
        | Done (ret, pool) =>
            if ret <? 0 then Some (Done (ret, total, pool))
            else shrink_loop fuel' pool pages (u32 (total + ret)) ret
        end
    end
  else Some (Done (ret, total, pool)).

(** [zblock_zpool_shrink(pool, pages, reclaimed)]: the [int] returned,
    the value stored through [reclaimed] and the pool. *)
Definition zblock_zpool_shrink (fuel : nat) (pool : zblock_pool) (pages : Z)
  : option (res (Z * Z * zblock_pool)) :=
  shrink_loop fuel pool pages 0 (- EINVAL).

(** *** Notions used to state the properties *)

(** Number of [SLOT_FREE] entries among the first [n] slots. *)
Definition count_free (n : Z) (info : list Z) : Z :=
  Z.of_nat (length (filter (fun s => s = SLOT_FREE) (take (Z.to_nat n) info))).

Definition is_free (st : Z) : Z := if decide (st = SLOT_FREE) then 1 else 0.

(** ZB-I1 for a block of the type described by [d]. *)
Definition ZB_I1 (d : block_desc_t) (b : zblock_block) : Prop :=
  free_slots b = count_free (slots_per_block d) (slot_info b).

(** A block as it is between two pool operations: the slot array has
    its [MAX_SLOTS] entries, the free count is right, at least one slot
    is in use and no eviction is going on. *)
Definition block_ok (d : block_desc_t) (b : zblock_block) : Prop :=
  length (slot_info b) = Z.to_nat MAX_SLOTS /\
  ZB_I1 d b /\
  free_slots b < slots_per_block d /\
  under_reclaim b = false.

(** A block list between two pool operations: the cache has its
    [BLOCK_CACHE_SIZE] entries, no block is linked or cached twice, and
    cached blocks are linked. *)
Definition list_ok (l : block_list) : Prop :=
  length (block_cache l) = Z.to_nat BLOCK_CACHE_SIZE /\
  NoDup (head l) /\
  (forall i j c, block_cache l !! i = Some c -> block_cache l !! j = Some c ->
                 c <> 0 -> i = j) /\
  (forall i c, block_cache l !! i = Some c -> c <> 0 -> c ∈ head l).

(** The address that [list_last_entry] computes on an empty list. *)
Definition no_entry (block_type : Z) : Z :=
  u64 (head_addr block_type - OFFSETOF_NODE).

(** The lists and the block memory of a pool between two operations:
    every list is in order, every linked block is a live block in
    order for the type of its list, no block is linked in two lists,
    the address that [list_last_entry] makes up on an empty list is
    not a block, and blocks start on a page boundary. *)
Definition pool_wf (lists : list block_list) (pages : gmap Z zblock_block)
  : Prop :=
  length lists = length block_desc /\
  (forall t l, lists !! t = Some l -> list_ok l) /\
  (forall t l d block,
     lists !! t = Some l -> block_desc !! t = Some d -> block ∈ head l ->
     block <> 0 /\ exists b, pages !! block = Some b /\ block_ok d b) /\
  (forall t1 t2 l1 l2 block,
     lists !! t1 = Some l1 -> lists !! t2 = Some l2 ->
     block ∈ head l1 -> block ∈ head l2 -> t1 = t2) /\
  (forall t, 0 <= t < ARRAY_SIZE_block_desc -> pages !! no_entry t = None) /\
  (forall t l block,
     lists !! t = Some l -> block ∈ head l ->
     0 <= block < 2 ^ 64 /\ block mod PAGE_SIZE = 0).

(** A pool between two operations. *)
Definition pool_ok (pool : zblock_pool) : Prop :=
  pool_wf (block_lists pool) (pages pool) /\ alloc_flag pool = 0.

(** ZB-I1 over a whole pool: every block linked in a list has as many
    free slots as its counter says. *)
Definition pool_ZB_I1 (pool : zblock_pool) : Prop :=
  forall t l d block,
    block_lists pool !! t = Some l -> block_desc !! t = Some d ->
    block ∈ head l ->
    exists b, pages pool !! block = Some b /\ ZB_I1 d b.

(** A handle of a slot that is allocated and not freed. *)
Definition handle_in_use (pool : zblock_pool) (handle : Z) : Prop :=
  let '(block, block_type, slot) := handle_to_metadata handle in
  exists l d b st,
    0 <= block_type /\
    block_lists pool !! Z.to_nat block_type = Some l /\
    block_desc !! Z.to_nat block_type = Some d /\
    block ∈ head l /\
    pages pool !! block = Some b /\
    0 <= slot < slots_per_block d /\
    slot_info b !! Z.to_nat slot = Some st /\ st <> SLOT_FREE.

(** What the page allocator may hand out: nothing, or page-aligned
    memory that is neither a live block nor part of the pool structure,
    with whatever contents. *)
Definition fresh_pages (pool : zblock_pool) (fresh : Z) (junk : zblock_block)
  : Prop :=
  length (slot_info junk) = Z.to_nat MAX_SLOTS /\
  (fresh <> 0 ->
   pages pool !! fresh = None /\
   (forall t, 0 <= t < ARRAY_SIZE_block_desc -> fresh <> no_entry t) /\
   0 <= fresh < 2 ^ 64 /\ fresh mod PAGE_SIZE = 0).

(** The pool calls an eviction callback makes for the handle it was
    given: any number of [zblock_map], [zblock_unmap] and [zblock_free]
    calls with that handle. *)
Inductive callback_calls (handle : Z) : zblock_pool -> zblock_pool -> Prop :=
| calls_none pool : callback_calls handle pool pool
| calls_map pool ptr pool1 pool2 :
    zblock_map pool handle = Done (ptr, pool1) ->
    callback_calls handle pool1 pool2 ->
    callback_calls handle pool pool2
| calls_unmap pool pool1 pool2 :
    zblock_unmap pool handle = Done pool1 ->
    callback_calls handle pool1 pool2 ->
    callback_calls handle pool pool2
| calls_free pool pool1 pool2 :
    zblock_free pool handle = Done pool1 ->
    callback_calls handle pool1 pool2 ->
    callback_calls handle pool pool2.

Definition callback_ok : Prop :=
  forall pool handle, callback_calls handle pool (evict pool handle).2.

(** The block count of every list is the number of blocks linked in
    it. *)
Definition counts_ok (pool : zblock_pool) : Prop :=
  forall t l, block_lists pool !! t = Some l ->
              block_count l = Z.of_nat (length (head l)).

(** Every block the pool holds pages for is linked in a list. *)
Definition all_linked (pool : zblock_pool) : Prop :=
  forall block b, pages pool !! block = Some b ->
    exists t l, block_lists pool !! t = Some l /\ block ∈ head l.

(** Bytes of the pages of the blocks linked in the first lists, each
    with the block size of its type. *)
Fixpoint linked_bytes (lists : list block_list) (descs : list block_desc_t)
  : Z :=
  match lists, descs with
  | l :: lists', d :: descs' =>
      Z.of_nat (length (head l)) * (PAGE_SIZE * 2 ^ order d)
      + linked_bytes lists' descs'
  | _, _ => 0
  end.



End Layout.

End Zblock.

(** * Properties *)

(** ** Fixed-width arithmetic *)

(** [lia] after the quotients and remainders are named. *)
Ltac divlia := Z.div_mod_to_equations; lia.

Lemma wrap_small bits v : 0 <= v < 2 ^ bits -> wrap bits v = v.
Proof. intros H. unfold wrap. now apply Z.mod_small. Qed.

Lemma wrap_range bits v : 0 <= bits -> 0 <= wrap bits v < 2 ^ bits.
Proof.
  intros H. unfold wrap. apply Z.mod_pos_bound. now apply Z.pow_pos_nonneg.
Qed.

Lemma pow2_le_mono a b : 0 <= a <= b -> 2 ^ a <= 2 ^ b.
Proof. intros H. apply Z.pow_le_mono_r; lia. Qed.

Lemma wrap_small_le bits k v :
  0 <= k <= bits -> 0 <= v < 2 ^ k -> wrap bits v = v.
Proof.
  intros Hk Hv. apply wrap_small. pose proof (pow2_le_mono k bits Hk). lia.
Qed.

Lemma u8_small v : 0 <= v < 2 ^ 8 -> u8 v = v.
Proof. apply wrap_small. Qed.

Lemma u16_small v : 0 <= v < 2 ^ 16 -> u16 v = v.
Proof. apply wrap_small. Qed.

Lemma u32_small v : 0 <= v < 2 ^ 32 -> u32 v = v.
Proof. apply wrap_small. Qed.

Lemma u64_small v : 0 <= v < 2 ^ 64 -> u64 v = v.
Proof. apply wrap_small. Qed.

Lemma s32_small v : - 2 ^ 31 <= v < 2 ^ 31 -> s32 v = v.
Proof. intros H. unfold s32. rewrite Z.mod_small; lia. Qed.

(** ** Outcomes *)

Lemma bind_Done {A B} (a : A) (k : A -> res B) : (Done a ≫= k) = k a.
Proof. reflexivity. Qed.

Lemma bind_Fail {A B} (f : fault) (k : A -> res B) : (Fail f ≫= k) = Fail f.
Proof. reflexivity. Qed.

Lemma bind_Done_inv {A B} (m : res A) (k : A -> res B) (b : B) :
  (m ≫= k) = Done b -> exists a, m = Done a /\ k a = Done b.
Proof. destruct m as [a | f]; [eauto | discriminate]. Qed.

Module HFIProps.
Import HFI.

(** ** Task classifier *)

Section ClassifierProps.

Variables IB TB CB : Z.

#[local] Abbreviation step := (debounce_and_update_class IB TB CB).
#[local] Abbreviation run := (debounce_run IB TB CB).

Lemma step_tmp p obs :
  8 <= TB -> 0 <= obs < 256 -> ipcc_tmp (step p obs) = obs.
Proof.
  intros HT Hobs. unfold debounce_and_update_class.
  assert (wrap TB obs = obs) as E
    by (apply (wrap_small_le TB 8); [lia | simpl; lia]).
  destruct (negb _); [| destruct (_ <? _)]; simpl; exact E.
Qed.

Lemma step_mismatch p obs :
  2 <= CB -> obs <> ipcc_tmp p ->
  ipcc_cntr (step p obs) = 1 /\ ipcc (step p obs) = ipcc p.
Proof.
  intros HC Hne. unfold debounce_and_update_class.
  destruct (Z.eqb_spec (ipcc_tmp p) obs) as [E | _]; [congruence |].
  simpl. split; [| reflexivity].
  apply (wrap_small_le CB 2); [lia | simpl; lia].
Qed.

Lemma step_match p obs :
  8 <= IB -> 0 <= obs < 256 -> obs = ipcc_tmp p ->
  (u16 (ipcc_cntr p + 1) < CLASS_DEBOUNCER_SKIPS ->
     ipcc_cntr (step p obs) = wrap CB (ipcc_cntr p + 1) /\
     ipcc (step p obs) = ipcc p) /\
  (CLASS_DEBOUNCER_SKIPS <= u16 (ipcc_cntr p + 1) ->
     ipcc_cntr (step p obs) = ipcc_cntr p /\ ipcc (step p obs) = obs).
Proof.
  intros HI Hobs E. unfold debounce_and_update_class.
  destruct (Z.eqb_spec (ipcc_tmp p) obs) as [_ | N]; [| congruence].
  simpl. destruct (Z.ltb_spec (u16 (ipcc_cntr p + 1)) CLASS_DEBOUNCER_SKIPS);
    simpl; split; intros; try lia; split; try reflexivity.
  apply (wrap_small_le IB 8); [lia | simpl; lia].
Qed.

(** With the counter in its reachable range [0..3] nothing wraps. *)
Lemma step_match_small p obs :
  8 <= IB -> 2 <= CB -> 0 <= obs < 256 -> obs = ipcc_tmp p ->
  0 <= ipcc_cntr p <= 3 ->
  (ipcc_cntr p < 3 ->
     ipcc_cntr (step p obs) = ipcc_cntr p + 1 /\ ipcc (step p obs) = ipcc p) /\
  (ipcc_cntr p = 3 ->
     ipcc_cntr (step p obs) = 3 /\ ipcc (step p obs) = obs).
Proof.
  intros HI HC Hobs E Hc.
  destruct (step_match p obs HI Hobs E) as [Hlt Hge].
  assert (u16 (ipcc_cntr p + 1) = ipcc_cntr p + 1) as Eu
    by (apply wrap_small; simpl; lia).
  unfold CLASS_DEBOUNCER_SKIPS in *. rewrite Eu in *.
  split; intros H.
  - destruct Hlt as [H1 H2]; [lia |]. split; [| exact H2].
    rewrite H1. apply (wrap_small_le CB 2); [lia | simpl; lia].
  - destruct Hge as [H1 H2]; [lia |]. split; [lia | exact H2].
Qed.

(** The step as a function of the three fields, counter in [0..3]. *)
Lemma step_eval i t c obs :
  8 <= IB -> 8 <= TB -> 2 <= CB -> 0 <= obs < 256 -> 0 <= c <= 3 ->
  step (mk_task i t c) obs =
    if negb (t =? obs) then mk_task i obs 1
    else if c <? 3 then mk_task i obs (c + 1)
    else mk_task obs obs c.
Proof.
  intros HI HT HC Hobs Hc. unfold debounce_and_update_class. simpl.
  assert (wrap TB obs = obs) as ->
    by (apply (wrap_small_le TB 8); [lia | simpl; lia]).
  assert (wrap IB obs = obs) as ->
    by (apply (wrap_small_le IB 8); [lia | simpl; lia]).
  assert (wrap CB 1 = 1) as ->
    by (apply (wrap_small_le CB 2); [lia | simpl; lia]).
  assert (wrap CB (c + 1) = c + 1 \/ 3 <= c) as Hw.
  { destruct (Z_lt_le_dec c 3); [left | right; lia].
    apply (wrap_small_le CB 2); [lia | simpl; lia]. }
  assert (u16 (c + 1) = c + 1) as -> by (apply wrap_small; simpl; lia).
  unfold CLASS_DEBOUNCER_SKIPS.
  destruct (negb (t =? obs)); [reflexivity |].
  destruct (Z.ltb_spec (c + 1) 4), (Z.ltb_spec c 3); try lia;
    [| reflexivity].
  destruct Hw as [-> | ?]; [reflexivity | lia].
Qed.

Lemma repeat_snoc {A} (x : A) n : repeat x n ++ [x] = repeat x (S n).
Proof. induction n; simpl; [reflexivity | now rewrite IHn]. Qed.

Lemma counted_step p seen obs :
  8 <= IB -> 8 <= TB -> 2 <= CB -> 0 <= obs < 256 ->
  counted p seen ->
  counted (step p obs) (seen ++ [obs]) /\
  (ipcc (step p obs) <> ipcc p -> exists older, seen = older ++ [obs; obs; obs]).
Proof.
  intros HI HT HC Hobs [Hc [older Hseen]].
  pose proof (step_tmp p obs HT Hobs) as Htmp.
  destruct (Z.eq_dec obs (ipcc_tmp p)) as [E | N].
  - destruct (step_match_small p obs HI HC Hobs E Hc) as [Hlt Heq].
    destruct (Z.eq_dec (ipcc_cntr p) 3) as [E3 | N3].
    + destruct (Heq E3) as [H1 H2]. split.
      * split; [lia |]. exists (older ++ [obs]).
        rewrite Htmp, H1, Hseen, E3, <- E. simpl.
        rewrite <- !app_assoc. reflexivity.
      * intros _. exists older. rewrite Hseen, E3, <- E. reflexivity.
    + destruct Hlt as [H1 H2]; [lia |]. split.
      * split; [lia |]. exists older.
        rewrite Htmp, H1, Hseen, <- E, <- app_assoc, repeat_snoc.
        f_equal. f_equal. lia.
      * intros Hch. congruence.
  - destruct (step_mismatch p obs HC N) as [H1 H2]. split.
    + split; [lia |]. exists seen. rewrite Htmp, H1. reflexivity.
    + intros Hch. congruence.
Qed.

Lemma run_snoc p seen obs : run p (seen ++ [obs]) = step (run p seen) obs.
Proof. unfold debounce_run. now rewrite fold_left_app. Qed.

Lemma counted_run p seen :
  8 <= IB -> 8 <= TB -> 2 <= CB ->
  Forall (fun o => 0 <= o < 256) seen ->
  ipcc_cntr p = 0 ->
  counted (run p seen) seen.
Proof.
  intros HI HT HC Hall H0. induction seen as [| obs seen IH] using rev_ind.
  - split; [simpl; lia |]. exists []. simpl. rewrite H0. reflexivity.
  - apply Forall_app in Hall as [Hall Hobs].
    apply Forall_inv in Hobs. rewrite run_snoc.
    apply counted_step; auto.
Qed.

End ClassifierProps.

#[local] Arguments debounce_and_update_class : simpl never.

(** C1, as the code has it.  Every invocation stores the observation in
    [ipcc_tmp].  A different observation restarts the counter at 1 and
    keeps [ipcc].  The same observation increments the counter and keeps
    [ipcc] while the incremented value is below [CLASS_DEBOUNCER_SKIPS];
    otherwise it commits [ipcc] and leaves the counter as it is, so the
    stored counter saturates at 3.  From a task whose counter is 0,
    [ipcc] changes only at the fourth or later of consecutive equal
    observations; 3,3,3,3 commits 3 and 3,3,2,3 commits nothing. *)
Theorem debounce_commits_after_four_equal (IB TB CB : Z)
    (HI : 8 <= IB) (HT : 8 <= TB) (HC : 2 <= CB) :
  (forall p obs, 0 <= obs < 256 ->
     let p' := debounce_and_update_class IB TB CB p obs in
     ipcc_tmp p' = obs /\
     (obs <> ipcc_tmp p -> ipcc_cntr p' = 1 /\ ipcc p' = ipcc p) /\
     (obs = ipcc_tmp p -> u16 (ipcc_cntr p + 1) < CLASS_DEBOUNCER_SKIPS ->
        ipcc_cntr p' = wrap CB (ipcc_cntr p + 1) /\ ipcc p' = ipcc p) /\
     (obs = ipcc_tmp p -> CLASS_DEBOUNCER_SKIPS <= u16 (ipcc_cntr p + 1) ->
        ipcc_cntr p' = ipcc_cntr p /\ ipcc p' = obs) /\
     (obs = ipcc_tmp p -> 0 <= ipcc_cntr p < 3 ->
        ipcc_cntr p' = ipcc_cntr p + 1 /\ ipcc p' = ipcc p) /\
     (obs = ipcc_tmp p -> ipcc_cntr p = 3 ->
        ipcc_cntr p' = 3 /\ ipcc p' = obs)) /\
  (forall p seen obs,
     Forall (fun o => 0 <= o < 256) (seen ++ [obs]) ->
     ipcc_cntr p = 0 ->
     ipcc (debounce_run IB TB CB p (seen ++ [obs]))
       <> ipcc (debounce_run IB TB CB p seen) ->
     exists older, seen = older ++ [obs; obs; obs]) /\
  (forall tmp,
     ipcc (debounce_run IB TB CB (mk_task 0 tmp 0) [3; 3; 3; 3]) = 3) /\
  (forall tmp,
     ipcc (debounce_run IB TB CB (mk_task 0 tmp 0) [3; 3; 2; 3]) = 0).
Proof.
  split; [| split; [| split]].
  - intros p obs Hobs p'. subst p'.
    split; [now apply step_tmp |].
    split; [now apply step_mismatch |].
    split; [intros E; now apply (step_match IB TB CB p obs HI Hobs E) |].
    split; [intros E; now apply (step_match IB TB CB p obs HI Hobs E) |].
    split; intros E Hc.
    + apply (step_match_small IB TB CB p obs HI HC Hobs E); lia.
    + apply (step_match_small IB TB CB p obs HI HC Hobs E); lia.
  - intros p seen obs Hall H0 Hch.
    pose proof Hall as Hall'. apply Forall_app in Hall' as [Hseen Hobs].
    apply Forall_inv in Hobs.
    rewrite run_snoc in Hch.
    pose proof (counted_run IB TB CB p seen HI HT HC Hseen H0) as Hcnt.
    destruct (counted_step IB TB CB _ seen obs HI HT HC Hobs Hcnt) as [_ H].
    exact (H Hch).
  - intros tmp. unfold debounce_run. simpl fold_left.
    rewrite (step_eval IB TB CB 0 tmp 0 3) by lia.
    destruct (tmp =? 3); simpl;
      repeat (rewrite step_eval by lia; simpl);
      try reflexivity; apply (wrap_small_le IB 8); simpl; lia.
  - intros tmp. unfold debounce_run. simpl fold_left.
    rewrite (step_eval IB TB CB 0 tmp 0 3) by lia.
    destruct (tmp =? 3); simpl;
      repeat (rewrite step_eval by lia; simpl);
      try reflexivity; apply (wrap_small_le IB 8); simpl; lia.
Qed.

(** The stored counter is not incremented by the committing invocation:
    with [ipcc_tmp = 3] and the counter at 3, observing 3 again commits
    and leaves the counter at 3, below [CLASS_DEBOUNCER_SKIPS]. *)
Lemma debounce_counter_not_incremented_on_commit :
  let p := mk_task 0 3 3 in
  let p' := debounce_and_update_class 9 9 14 p 3 in
  3 = ipcc_tmp p /\ ipcc p' = 3 /\
  ipcc_cntr p' <> ipcc_cntr p + 1 /\
  ~ CLASS_DEBOUNCER_SKIPS <= ipcc_cntr p'.
Proof. vm_compute. repeat split; congruence. Qed.

Lemma debounce_commits_after_four_equal_witness :
  (8 <= 9 /\ 8 <= 9 /\ 2 <= 14) /\
  ipcc (debounce_run 9 9 14 (mk_task 0 0 0) [3; 3; 3; 3]) = 3.
Proof.
  assert (8 <= 9 /\ 8 <= 9 /\ 2 <= 14) as H by lia.
  split; [exact H |].
  destruct H as (HI & HT & HC).
  apply (debounce_commits_after_four_equal 9 9 14 HI HT HC).
Defined.

(** ** IPC class scores *)

Lemma errno_ulong_value e : 0 < e < 2 ^ 64 -> errno_ulong e = 2 ^ 64 - e.
Proof.
  intros H. unfold errno_ulong, u64, wrap.
  replace (- e) with (2 ^ 64 - e + (-1) * 2 ^ 64) by ring.
  rewrite Z.mod_add by lia. apply Z.mod_small. lia.
Qed.

Section ScoreProps.

Variables nr_cpu_ids nr_classes : Z.
Variable per_cpu_scores : Z -> option (list Z).

#[local] Abbreviation get_score :=
  (intel_hfi_get_ipcc_score nr_cpu_ids nr_classes per_cpu_scores).

Lemma score_cpu_ok cpu :
  0 <= cpu < nr_cpu_ids -> cpu < 2 ^ 31 ->
  (cpu <? 0) || (nr_cpu_ids <=? u32 cpu) = false.
Proof.
  intros H H31. rewrite (u32_small cpu) by lia.
  apply orb_false_iff. split; [apply Z.ltb_ge | apply Z.leb_gt]; lia.
Qed.

Lemma score_classified ipcc cpu scores :
  0 <= cpu < nr_cpu_ids -> cpu < 2 ^ 31 ->
  1 <= ipcc <= nr_classes -> ipcc < 2 ^ 16 ->
  per_cpu_scores cpu = Some scores ->
  get_score ipcc cpu =
    match scores !! Z.to_nat (ipcc - 1) with
    | Some v => Done (u64 v)
    | None => Fail (OutOfBounds (ipcc - 1))
    end.
Proof.
  intros Hcpu H31 Hc H16 Hs. unfold intel_hfi_get_ipcc_score.
  rewrite score_cpu_ok by assumption.
  destruct (Z.eqb_spec ipcc IPC_CLASS_UNCLASSIFIED) as [E | _];
    [unfold IPC_CLASS_UNCLASSIFIED in E; lia |].
  rewrite (u16_small (ipcc - 1)) by lia.
  destruct (Z.leb_spec nr_classes (ipcc - 1)); [lia |].
  rewrite Hs. reflexivity.
Qed.

Lemma score_unclassified cpu :
  get_score IPC_CLASS_UNCLASSIFIED cpu = get_score HFI_UNCLASSIFIED_DEFAULT cpu.
Proof. reflexivity. Qed.

End ScoreProps.

(** C8.  For a valid [cpu] and a class in [1..nr_classes] the query
    returns [scores[cpu][ipcc - 1]] (an [int], returned as
    [unsigned long]); class 0 is answered as class
    [HFI_UNCLASSIFIED_DEFAULT = 1] on every CPU; a CPU or a class out
    of range gives [-EINVAL], and a [NULL] score array [-ENODEV]. *)
Theorem ipcc_score_query (nr_cpu_ids nr_classes : Z)
    (per_cpu_scores : Z -> option (list Z)) (ipcc cpu : Z)
    (Hipcc : 0 <= ipcc < 2 ^ 16) (Hcpu : - 2 ^ 31 <= cpu < 2 ^ 31) :
  let get := intel_hfi_get_ipcc_score nr_cpu_ids nr_classes per_cpu_scores in
  (0 <= cpu < nr_cpu_ids -> 1 <= ipcc <= nr_classes ->
   forall scores v,
     per_cpu_scores cpu = Some scores ->
     scores !! Z.to_nat (ipcc - 1) = Some v ->
     get ipcc cpu = Done (u64 v) /\
     (0 <= v < 2 ^ 31 -> get ipcc cpu = Done v)) /\
  get 0 cpu = get HFI_UNCLASSIFIED_DEFAULT cpu /\
  HFI_UNCLASSIFIED_DEFAULT = 1 /\
  (cpu < 0 \/ nr_cpu_ids <= cpu -> get ipcc cpu = Done (errno_ulong EINVAL)) /\
  (0 <= cpu < nr_cpu_ids -> nr_classes < ipcc ->
   get ipcc cpu = Done (errno_ulong EINVAL)) /\
  (0 <= cpu < nr_cpu_ids -> 1 <= ipcc <= nr_classes ->
   per_cpu_scores cpu = None -> get ipcc cpu = Done (errno_ulong ENODEV)) /\
  errno_ulong EINVAL = 2 ^ 64 - 22 /\ errno_ulong ENODEV = 2 ^ 64 - 19.
Proof.
  intros get. subst get.
  split; [| split; [| split; [| split; [| split; [| split]]]]].
  - intros Hc Hcl scores v Hs Hv.
    rewrite (score_classified _ _ _ ipcc cpu scores) by (assumption || lia).
    rewrite Hv. split; [reflexivity |].
    intros Hr. f_equal. apply wrap_small. lia.
  - reflexivity.
  - reflexivity.
  - intros Hbad. unfold intel_hfi_get_ipcc_score.
    destruct Hbad as [Hneg | Hbig].
    + destruct (Z.ltb_spec cpu 0); [reflexivity | lia].
    + destruct (Z.ltb_spec cpu 0); [reflexivity |].
      rewrite (u32_small cpu) by lia.
      destruct (Z.leb_spec nr_cpu_ids cpu); [reflexivity | lia].
  - intros Hc Hbig. unfold intel_hfi_get_ipcc_score.
    rewrite score_cpu_ok by (assumption || lia).
    assert ((nr_classes <=? u16 ((if ipcc =? IPC_CLASS_UNCLASSIFIED
                                  then HFI_UNCLASSIFIED_DEFAULT else ipcc) - 1))
            = true) as ->; [| reflexivity].
    apply Z.leb_le. unfold IPC_CLASS_UNCLASSIFIED, HFI_UNCLASSIFIED_DEFAULT.
    destruct (Z.eqb_spec ipcc 0) as [E | N].
    + rewrite (u16_small (1 - 1)) by (simpl; lia). lia.
    + rewrite (u16_small (ipcc - 1)) by lia.
      lia.
  - intros Hc Hcl Hs. unfold intel_hfi_get_ipcc_score.
    rewrite score_cpu_ok by (assumption || lia).
    destruct (Z.eqb_spec ipcc IPC_CLASS_UNCLASSIFIED) as [E | _];
      [unfold IPC_CLASS_UNCLASSIFIED in E; lia |].
    rewrite (u16_small (ipcc - 1)) by lia.
    destruct (Z.leb_spec nr_classes (ipcc - 1)); [lia |].
    rewrite Hs. reflexivity.
  - split; reflexivity.
Qed.

Lemma ipcc_score_query_witness :
  let scores := fun cpu : Z => if cpu =? 1 then Some [10; 20; 30; 40] else None in
  (0 <= 3 < 2 ^ 16 /\ - 2 ^ 31 <= 1 < 2 ^ 31) /\
  intel_hfi_get_ipcc_score 8 4 scores 3 1 = Done 30 /\
  intel_hfi_get_ipcc_score 8 4 scores 0 1 = Done 10.
Proof.
  intros scores.
  assert (0 <= 3 < 2 ^ 16 /\ - 2 ^ 31 <= 1 < 2 ^ 31) as H by lia.
  split; [exact H |]. destruct H as [Hi Hc].
  pose proof (ipcc_score_query 8 4 scores 3 1 Hi Hc) as (H1 & H2 & _).
  split.
  - apply (H1 ltac:(lia) ltac:(lia) [10; 20; 30; 40] 30 eq_refl eq_refl).
    lia.
  - reflexivity.
Defined.

(** ** Update worker *)

Lemma full_chunks_S first m :
  full_chunks first (S m) =
  mk_event HFI_MAX_THERM_NOTIFY_COUNT first ::
  full_chunks (first + HFI_MAX_THERM_NOTIFY_COUNT) m.
Proof.
  unfold full_chunks. simpl seq. rewrite <- seq_shift, map_cons, map_map.
  f_equal; [f_equal; unfold HFI_MAX_THERM_NOTIFY_COUNT; lia |].
  apply map_ext. intros k. f_equal.
  unfold HFI_MAX_THERM_NOTIFY_COUNT. lia.
Qed.

Lemma full_chunks_counts first m :
  map ev_count (full_chunks first m) = repeat 16 m.
Proof.
  revert first. induction m as [| m IH]; intros first; [reflexivity |].
  rewrite full_chunks_S. simpl. now rewrite IH.
Qed.

Lemma complete_chunks_spec n fuel : forall i sent,
  0 <= i <= n -> n < 2 ^ 31 - 16 ->
  (Z.to_nat ((n - i) / 16) < fuel)%nat ->
  complete_chunks fuel i n sent =
    Some (i + 16 * ((n - i) / 16),
          sent ++ full_chunks i (Z.to_nat ((n - i) / 16))).
Proof.
  induction fuel as [| fuel IH]; intros i sent Hi Hn Hfuel; [lia |].
  simpl. unfold HFI_MAX_THERM_NOTIFY_COUNT at 1 2.
  rewrite s32_small by lia.
  destruct (Z.leb_spec (i + 16) n) as [Hle | Hgt].
  - assert ((n - i) / 16 = (n - (i + 16)) / 16 + 1) as Ediv.
    { replace (n - i) with (n - (i + 16) + 1 * 16) by ring.
      now rewrite Z.div_add by lia. }
    assert (0 <= (n - (i + 16)) / 16) as Hq by (apply Z.div_pos; lia).
    rewrite Ediv in *. rewrite Z2Nat.inj_add in * by lia.
    rewrite IH by lia. rewrite Nat.add_1_r, full_chunks_S.
    rewrite <- app_assoc. simpl. f_equal. f_equal. lia.
  - replace ((n - i) / 16) with 0
      by (symmetry; apply Z.div_small; lia).
    simpl. rewrite app_nil_r. f_equal. f_equal. lia.
Qed.

Lemma update_capabilities_ok fuel cpus :
  let n := cpumask_weight cpus in
  n < 2 ^ 31 - 16 -> (Z.to_nat (n / 16) < fuel)%nat ->
  update_capabilities fuel cpus true = Some (expected_events n).
Proof.
  intros n Hn Hfuel. unfold update_capabilities. fold n.
  assert (0 <= n) as H0 by (unfold n, cpumask_weight; lia).
  rewrite s32_small by lia. unfold expected_events.
  destruct (Z.eqb_spec n 0) as [E | N]; [rewrite E; reflexivity |].
  simpl negb. cbv iota. unfold HFI_MAX_THERM_NOTIFY_COUNT at 1.
  destruct (Z.ltb_spec n 16) as [Hlt | Hge].
  - replace (n / 16) with 0 by divlia. replace (n mod 16) with n by divlia.
    destruct (Z.eqb_spec n 0); [lia | reflexivity].
  - rewrite (complete_chunks_spec n fuel 0 []) by (rewrite ?Z.sub_0_r; lia).
    rewrite Z.sub_0_r, Z.add_0_l, app_nil_l.
    rewrite s32_small by divlia.
    replace (n - 16 * (n / 16)) with (n mod 16) by divlia.
    destruct (n mod 16 =? 0); [now rewrite app_nil_r | reflexivity].
Qed.

(** C7, as the code has it.  With a successful allocation of [cpu_caps]
    one run over [cpu_count] CPUs sends [cpu_count / 16] events of 16
    records, then one event of [cpu_count mod 16] records if that is
    not zero, each starting where the previous one ended; 40 CPUs give
    the counts 16, 16, 8.  With no CPU or with a failed allocation it
    sends nothing. *)
Theorem update_worker_batches (fuel : nat) (cpus : list bool)
    (Hint : cpumask_weight cpus < 2 ^ 31 - 16)
    (Hfuel : (Z.to_nat (cpumask_weight cpus / 16) < fuel)%nat) :
  let n := cpumask_weight cpus in
  let count_last := if n mod 16 =? 0 then [] else [n mod 16] in
  (exists sent,
     update_capabilities fuel cpus true = Some sent /\
     sent = expected_events n /\
     map ev_count sent = repeat 16 (Z.to_nat (n / 16)) ++ count_last) /\
  (n = 0 -> forall ok, update_capabilities fuel cpus ok = Some []) /\
  update_capabilities fuel cpus false = Some [] /\
  (n = 40 ->
   exists sent, update_capabilities fuel cpus true = Some sent /\
                map ev_count sent = [16; 16; 8] /\
                map ev_first sent = [0; 16; 32]).
Proof.
  intros n count_last.
  pose proof (update_capabilities_ok fuel cpus Hint Hfuel) as Hok. fold n in Hok.
  assert (0 <= n) as H0 by (unfold n, cpumask_weight; lia).
  split; [| split; [| split]].
  - exists (expected_events n). split; [exact Hok |]. split; [reflexivity |].
    unfold expected_events, count_last. rewrite map_app, full_chunks_counts.
    f_equal. destruct (n mod 16 =? 0); reflexivity.
  - intros E ok. unfold update_capabilities. fold n. rewrite E. reflexivity.
  - unfold update_capabilities. fold n.
    destruct (s32 n =? 0); reflexivity.
  - intros E. exists (expected_events n). split; [exact Hok |].
    rewrite E. split; reflexivity.
Qed.

(** The allocation of [cpu_caps] can fail; 40 CPUs then produce no
    event at all. *)
Lemma update_worker_silent_without_memory :
  cpumask_weight (repeat true 40) = 40 /\
  update_capabilities 3 (repeat true 40) false = Some [] /\
  update_capabilities 3 (repeat true 40) false
    <> Some [mk_event 16 0; mk_event 16 16; mk_event 8 32].
Proof. vm_compute. repeat split; congruence. Qed.

Lemma update_worker_batches_witness :
  (cpumask_weight (repeat true 40) < 2 ^ 31 - 16 /\
   (Z.to_nat (cpumask_weight (repeat true 40) / 16) < 3)%nat) /\
  exists sent, update_capabilities 3 (repeat true 40) true = Some sent /\
               map ev_count sent = [16; 16; 8] /\
               map ev_first sent = [0; 16; 32].
Proof.
  assert (cpumask_weight (repeat true 40) < 2 ^ 31 - 16 /\
          (Z.to_nat (cpumask_weight (repeat true 40) / 16) < 3)%nat) as H
    by (vm_compute; split; [reflexivity | lia]).
  split; [exact H |]. destruct H as [H1 H2].
  apply (update_worker_batches 3 (repeat true 40) H1 H2). reflexivity.
Defined.

(** ** Event handler *)

Lemma byte_value_range b : 0 <= Z.of_N (Byte.to_N b) < 256.
Proof. pose proof (Byte.to_N_bounded b). lia. Qed.

Lemma byte_value_inj a b :
  Z.of_N (Byte.to_N a) = Z.of_N (Byte.to_N b) -> a = b.
Proof.
  intros H. apply N2Z.inj in H.
  pose proof (Byte.of_to_N a) as Ha. rewrite H, Byte.of_to_N in Ha.
  congruence.
Qed.

Lemma le_combine_inj : forall a b : list Byte.byte,
  length a = length b -> le_combine a = le_combine b -> a = b.
Proof.
  induction a as [| x a IH]; intros [| y b] Hlen Heq; try discriminate;
    [reflexivity |].
  simpl in Hlen, Heq.
  pose proof (byte_value_range x). pose proof (byte_value_range y).
  assert (Z.of_N (Byte.to_N x) = Z.of_N (Byte.to_N y)) as Hxy by lia.
  f_equal; [now apply byte_value_inj |].
  apply IH; [congruence | lia].
Qed.

Lemma read_u64_ok (table : list Byte.byte) :
  (8 <= length table)%nat -> read_u64 table = Done (le_combine (take 8 table)).
Proof.
  intros H. unfold read_u64.
  destruct (Nat.ltb_spec (length table) 8); [lia | reflexivity].
Qed.

Lemma timestamps_eqb (a b : list Byte.byte) :
  (8 <= length a)%nat -> (8 <= length b)%nat ->
  (le_combine (take 8 a) =? le_combine (take 8 b)) = true <->
  take 8 a = take 8 b.
Proof.
  intros Ha Hb. rewrite Z.eqb_eq. split; [| congruence].
  apply le_combine_inj. rewrite !length_take. lia.
Qed.

Lemma memcpy_whole (dst src : list Byte.byte) n :
  Z.of_nat (length src) = n -> Z.of_nat (length dst) = n ->
  memcpy dst src n = Done src.
Proof.
  intros Hs Hd. unfold memcpy.
  destruct (Z.ltb_spec (Z.of_nat (length src)) n); [lia |].
  destruct (Z.ltb_spec (Z.of_nat (length dst)) n); [lia |].
  f_equal. rewrite <- Hs at 1. rewrite Nat2Z.id, take_ge by lia.
  rewrite drop_ge by lia. apply app_nil_r.
Qed.

Section EventProps.

Variables nr_table_pages HFI_UPDATED : Z.

#[local] Abbreviation process_event :=
  (intel_hfi_process_event nr_table_pages HFI_UPDATED).

Lemma table_bytes :
  1 <= nr_table_pages <= 16 ->
  u32 (Z.shiftl nr_table_pages PAGE_SHIFT) = nr_table_pages * 4096.
Proof.
  intros H. unfold PAGE_SHIFT. rewrite Z.shiftl_mul_pow2 by lia.
  change (2 ^ 12) with 4096. apply u32_small. lia.
Qed.

(** A handler that finds equal timestamps changes nothing. *)
Lemma process_event_duplicate pkg w hfi :
  instance w = Some hfi ->
  (8 <= length (hw_table hfi))%nat -> (8 <= length (local_table hfi))%nat ->
  take 8 (local_table hfi) = take 8 (hw_table hfi) ->
  process_event pkg w = Done w.
Proof.
  intros Hi Hhw Hlo Heq. unfold intel_hfi_process_event.
  destruct (pkg =? 0); [reflexivity |]. rewrite Hi.
  destruct (event_lock hfi); [reflexivity |].
  rewrite !read_u64_ok, !bind_Done by assumption.
  now rewrite (proj2 (timestamps_eqb _ _ Hlo Hhw) Heq).
Qed.

(** A handler that gets to the copy. *)
Lemma process_event_update pkg w hfi :
  instance w = Some hfi ->
  1 <= nr_table_pages <= 16 ->
  Z.of_nat (length (hw_table hfi)) = nr_table_pages * 4096 ->
  Z.of_nat (length (local_table hfi)) = nr_table_pages * 4096 ->
  pkg <> 0 -> event_lock hfi = false ->
  take 8 (local_table hfi) <> take 8 (hw_table hfi) ->
  process_event pkg w =
    Done {| instance := Some {| local_table := hw_table hfi;
                                hw_table := hw_table hfi;
                                event_lock := false |};
            therm_status_writes :=
              therm_status_writes w ++
              [u64 (Z.land pkg (Z.land THERM_STATUS_CLEAR_PKG_MASK
                                  (Z.lnot HFI_UPDATED)))];
            update_work_queued := S (update_work_queued w) |}.
Proof.
  intros Hi Hp Hhw Hlo Hpkg Hlock Hne. unfold intel_hfi_process_event.
  destruct (Z.eqb_spec pkg 0); [contradiction |]. rewrite Hi, Hlock.
  rewrite !read_u64_ok, !bind_Done by lia.
  destruct (le_combine (take 8 (local_table hfi)) =?
            le_combine (take 8 (hw_table hfi))) eqn:E.
  - apply timestamps_eqb in E; [contradiction | lia | lia].
  - rewrite table_bytes by assumption.
    rewrite memcpy_whole by assumption. reflexivity.
Qed.

End EventProps.

(** C2.  On an instance whose two tables have [nr_table_pages] pages
    each, a handler that finds the mirror timestamp equal
    to the first 8 bytes of [hw_table] returns with the mirror, the
    acknowledgements and the work queue untouched.  A handler that is
    not stopped earlier copies the whole table, so the mirror timestamp
    is the first 8 bytes of [hw_table], acknowledges once and queues the
    work once; after it every further run is a duplicate.  Running the
    handler twice on an unchanged [hw_table] is the same as running it
    once. *)
Theorem process_event_dedup_idempotent (nr_table_pages HFI_UPDATED pkg : Z)
    (w : hfi_world) (hfi : hfi_instance)
    (Hinst : instance w = Some hfi)
    (Hpages : 1 <= nr_table_pages <= 16)
    (Hhw : Z.of_nat (length (hw_table hfi)) = nr_table_pages * 4096)
    (Hlocal : Z.of_nat (length (local_table hfi)) = nr_table_pages * 4096) :
  let process_event := intel_hfi_process_event nr_table_pages HFI_UPDATED in
  (take 8 (local_table hfi) = take 8 (hw_table hfi) ->
   process_event pkg w = Done w) /\
  (pkg <> 0 -> event_lock hfi = false ->
   take 8 (local_table hfi) <> take 8 (hw_table hfi) ->
   exists w' hfi',
     process_event pkg w = Done w' /\ instance w' = Some hfi' /\
     hw_table hfi' = hw_table hfi /\
     local_table hfi' = hw_table hfi /\
     take 8 (local_table hfi') = take 8 (hw_table hfi) /\
     length (therm_status_writes w') = S (length (therm_status_writes w)) /\
     update_work_queued w' = S (update_work_queued w) /\
     forall pkg', process_event pkg' w' = Done w') /\
  (exists w', process_event pkg w = Done w' /\ process_event pkg w' = Done w').
Proof.
  intros process_event. subst process_event.
  assert (8 <= length (hw_table hfi))%nat as H8 by lia.
  assert (8 <= length (local_table hfi))%nat as H8' by lia.
  assert (forall w1 h1, instance w1 = Some h1 ->
            local_table h1 = hw_table hfi -> hw_table h1 = hw_table hfi ->
            forall pkg', intel_hfi_process_event nr_table_pages HFI_UPDATED
                           pkg' w1 = Done w1) as Hdup.
  { intros w1 h1 Hi1 Hl1 Hh1 pkg'.
    apply (process_event_duplicate _ _ pkg' w1 h1 Hi1);
      rewrite ?Hl1, ?Hh1; auto. }
  split; [| split].
  - intros Heq. now apply (process_event_duplicate _ _ pkg w hfi).
  - intros Hpkg Hlock Hne.
    eexists. eexists.
    split; [now apply (process_event_update _ _ pkg w hfi) |].
    simpl. split; [reflexivity |].
    repeat (split; [reflexivity |]).
    split; [rewrite length_app; simpl; lia |].
    split; [reflexivity |].
    intros pkg'. now eapply Hdup.
  - destruct (Z.eq_dec pkg 0) as [E0 | Hpkg].
    { exists w. unfold intel_hfi_process_event. subst pkg. simpl. auto. }
    destruct (event_lock hfi) eqn:Hlock.
    { exists w. unfold intel_hfi_process_event.
      destruct (pkg =? 0); [auto |]. rewrite Hinst, Hlock. auto. }
    destruct (List.list_eq_dec Byte.byte_eq_dec (take 8 (local_table hfi))
                (take 8 (hw_table hfi))) as [Heq | Hne].
    { exists w. rewrite (process_event_duplicate _ _ pkg w hfi); auto. }
    eexists. split; [now apply (process_event_update _ _ pkg w hfi) |].
    now eapply Hdup.
Qed.

Lemma process_event_dedup_idempotent_witness :
  let table := repeat Byte.x2a 4096 in
  let hfi := mk_instance table table false in
  let w := mk_world (Some hfi) [] 0 in
  (instance w = Some hfi /\ 1 <= 1 <= 16 /\
   Z.of_nat (length (hw_table hfi)) = 1 * 4096 /\
   Z.of_nat (length (local_table hfi)) = 1 * 4096) /\
  intel_hfi_process_event 1 (BIT 26) (BIT 26) w = Done w.
Proof.
  intros table hfi w.
  assert (instance w = Some hfi /\ 1 <= 1 <= 16 /\
          Z.of_nat (length (hw_table hfi)) = 1 * 4096 /\
          Z.of_nat (length (local_table hfi)) = 1 * 4096) as H
    by (repeat split; try reflexivity; lia).
  split; [exact H |]. destruct H as (H1 & H2 & H3 & H4).
  apply (process_event_dedup_idempotent 1 (BIT 26) (BIT 26) w hfi H1 H2 H3 H4).
  reflexivity.
Defined.

End HFIProps.

Lemma aligned_room P m block :
  0 < P -> 0 <= block < P * m -> block mod P = 0 -> block + P <= P * m.
Proof.
  intros HP Hb Hal.
  assert (block = P * (block / P)) as E by (apply Z_div_exact_full_2; lia).
  set (k := block / P) in *. rewrite E in *.
  assert (k < m) as Hk by (apply (Z.mul_lt_mono_pos_l P); lia).
  replace (P * k + P) with (P * (k + 1)) by ring.
  apply Z.mul_le_mono_nonneg_l; lia.
Qed.

Module ZblockProps.
Import Zblock.

(** ** Handles *)

Section HandleProps.

Variable PAGE_SHIFT : Z.
Hypothesis PAGE_SHIFT_range : 0 <= PAGE_SHIFT < 64.

Lemma PAGE_SIZE_pow2 : PAGE_SIZE PAGE_SHIFT = 2 ^ PAGE_SHIFT.
Proof.
  unfold PAGE_SIZE. rewrite Z.shiftl_1_l. apply u64_small.
  split; [apply Z.pow_nonneg; lia | apply Z.pow_lt_mono_r; lia].
Qed.

Lemma PAGE_SIZE_pos : 0 < PAGE_SIZE PAGE_SHIFT.
Proof. rewrite PAGE_SIZE_pow2. apply Z.pow_pos_nonneg; lia. Qed.

Lemma u64_land_ones v : u64 v = Z.land v (Z.ones 64).
Proof. unfold u64, wrap. now rewrite Z.land_ones by lia. Qed.

Lemma land_PAGE_MASK h :
  0 <= h < 2 ^ 64 ->
  Z.land h (PAGE_MASK PAGE_SHIFT) = 2 ^ PAGE_SHIFT * (h / 2 ^ PAGE_SHIFT).
Proof.
  intros Hh. unfold PAGE_MASK. rewrite PAGE_SIZE_pow2, u64_land_ones.
  rewrite Z.sub_1_r, <- Z.ones_equiv.
  rewrite (Z.land_comm (Z.lnot _)), Z.land_assoc.
  rewrite <- u64_land_ones, u64_small by assumption.
  rewrite <- Z.ldiff_land, Z.ldiff_ones_r by lia.
  rewrite Z.shiftl_mul_pow2, Z.shiftr_div_pow2 by lia. ring.
Qed.

Lemma land_PAGE_offset h :
  Z.land h (PAGE_SIZE PAGE_SHIFT - 1) = h mod 2 ^ PAGE_SHIFT.
Proof.
  rewrite PAGE_SIZE_pow2, Z.sub_1_r, <- Z.ones_equiv. apply Z.land_ones. lia.
Qed.

Lemma land_SLOT_MASK h : Z.land h SLOT_MASK = h mod 32.
Proof. change SLOT_MASK with (Z.ones 5). now rewrite Z.land_ones by lia. Qed.

(** The handle of a slot is the sum of its three parts, and decoding
    takes the sum apart again. *)
Lemma handle_sum block block_type slot :
  5 <= PAGE_SHIFT ->
  0 <= block < 2 ^ 64 -> block mod PAGE_SIZE PAGE_SHIFT = 0 ->
  0 <= block_type < 2 ^ 27 -> 32 * block_type + 32 <= PAGE_SIZE PAGE_SHIFT ->
  0 <= slot < 32 ->
  metadata_to_handle block block_type slot = block + 32 * block_type + slot /\
  0 <= block + 32 * block_type + slot < 2 ^ 64.
Proof.
  intros H5 Hb Hal Ht Htop Hs. rewrite PAGE_SIZE_pow2 in *.
  assert (2 ^ PAGE_SHIFT <= 2 ^ 63) as Hp63 by (apply pow2_le_mono; lia).
  assert (2 ^ 64 mod 2 ^ PAGE_SHIFT = 0) as Htop64.
  { replace 64 with (64 - PAGE_SHIFT + PAGE_SHIFT) by ring.
    rewrite Z.pow_add_r by lia. apply Z.mod_mul. lia. }
  assert (2 ^ 64 = 2 ^ PAGE_SHIFT * 2 ^ (64 - PAGE_SHIFT)) as E64.
  { rewrite <- Z.pow_add_r by lia. f_equal. lia. }
  assert (block + 2 ^ PAGE_SHIFT <= 2 ^ 64) as Hroom.
  { rewrite E64. apply aligned_room; [apply Z.pow_pos_nonneg; lia | | exact Hal].
    rewrite <- E64. exact Hb. }
  unfold metadata_to_handle, SLOT_BITS.
  rewrite Z.shiftl_mul_pow2 by lia. change (2 ^ 5) with 32.
  rewrite u32_small by lia. rewrite u64_small by lia. lia.
Qed.

Lemma handle_decode block block_type slot :
  5 <= PAGE_SHIFT ->
  0 <= block < 2 ^ 64 -> block mod PAGE_SIZE PAGE_SHIFT = 0 ->
  0 <= block_type < 2 ^ 27 -> 32 * block_type + 32 <= PAGE_SIZE PAGE_SHIFT ->
  0 <= slot < 32 ->
  handle_to_metadata PAGE_SHIFT (metadata_to_handle block block_type slot)
  = (block, block_type, slot).
Proof.
  intros H5 Hb Hal Ht Htop Hs.
  destruct (handle_sum block block_type slot H5 Hb Hal Ht Htop Hs) as [-> Hr].
  unfold handle_to_metadata.
  rewrite land_PAGE_MASK, land_PAGE_offset, land_SLOT_MASK by assumption.
  rewrite PAGE_SIZE_pow2 in *.
  assert (2 ^ PAGE_SHIFT <= 2 ^ 63) as Hp63 by (apply pow2_le_mono; lia).
  assert (2 ^ PAGE_SHIFT mod 32 = 0) as H32.
  { replace PAGE_SHIFT with (PAGE_SHIFT - 5 + 5) by ring.
    rewrite Z.pow_add_r by lia. change (2 ^ 5) with 32. apply Z.mod_mul. lia. }
  assert (0 < 2 ^ PAGE_SHIFT) as Hpos by (apply Z.pow_pos_nonneg; lia).
  set (P := 2 ^ PAGE_SHIFT) in *.
  assert ((block + 32 * block_type + slot) / P = block / P) as Ediv.
  { replace (block + 32 * block_type + slot)
      with (32 * block_type + slot + (block / P) * P) by divlia.
    rewrite Z.div_add by lia. rewrite Z.div_small by lia. lia. }
  assert ((block + 32 * block_type + slot) mod P = 32 * block_type + slot)
    as Emod.
  { rewrite Z.mod_eq by lia. rewrite Ediv. divlia. }
  rewrite Ediv, Emod. unfold SLOT_BITS.
  rewrite Z.shiftr_div_pow2 by lia. change (2 ^ 5) with 32.
  assert ((32 * block_type + slot) / 32 = block_type) as -> by divlia.
  assert ((block + 32 * block_type + slot) mod 32 = slot) as -> by divlia.
  rewrite !u32_small by lia.
  repeat f_equal. symmetry. apply Z_div_exact_full_2; lia.
Qed.

End HandleProps.

(** C5.  For a page-aligned block address, a block type below
    [ARRAY_SIZE(block_desc)] (which is at most [PAGE_SIZE >> SLOT_BITS])
    and a slot below [MAX_SLOTS], decoding the encoded handle gives the
    three parts back, and [zblock_free], [zblock_map] and
    [zblock_unmap] called with that handle work on that block, type and
    slot. *)
Theorem handle_round_trip (PAGE_SHIFT SIZEOF_BLOCK block block_type slot : Z)
    (Hshift : 0 <= PAGE_SHIFT < 64)
    (Hfit : ARRAY_SIZE_block_desc PAGE_SHIFT SIZEOF_BLOCK
            <= Z.shiftr (PAGE_SIZE PAGE_SHIFT) SLOT_BITS)
    (Hblock : 0 <= block < 2 ^ 64)
    (Haligned : block mod PAGE_SIZE PAGE_SHIFT = 0)
    (Htype : 0 <= block_type < ARRAY_SIZE_block_desc PAGE_SHIFT SIZEOF_BLOCK)
    (Hslot : 0 <= slot < MAX_SLOTS) :
  let handle := metadata_to_handle block block_type slot in
  handle_to_metadata PAGE_SHIFT handle = (block, block_type, slot) /\
  (forall pool,
     zblock_free PAGE_SHIFT SIZEOF_BLOCK pool handle =
     zblock_free_slot PAGE_SHIFT SIZEOF_BLOCK pool block block_type slot) /\
  (forall pool,
     zblock_map PAGE_SHIFT SIZEOF_BLOCK pool handle =
     zblock_map_slot PAGE_SHIFT SIZEOF_BLOCK pool block block_type slot) /\
  (forall pool,
     zblock_unmap PAGE_SHIFT pool handle = zblock_unmap_slot pool block slot).
Proof.
  intros handle.
  change (ARRAY_SIZE_block_desc PAGE_SHIFT SIZEOF_BLOCK) with 29 in *.
  change MAX_SLOTS with 32 in Hslot. unfold SLOT_BITS in Hfit.
  rewrite Z.shiftr_div_pow2 in Hfit by lia. change (2 ^ 5) with 32 in Hfit.
  assert (29 * 32 <= PAGE_SIZE PAGE_SHIFT) as Hsize by divlia.
  assert (5 <= PAGE_SHIFT) as H5.
  { destruct (Z_lt_le_dec PAGE_SHIFT 5) as [Hlt | Hge]; [| exact Hge].
    rewrite PAGE_SIZE_pow2 in Hsize by assumption.
    pose proof (pow2_le_mono PAGE_SHIFT 4 ltac:(lia)). simpl in *. lia. }
  assert (handle_to_metadata PAGE_SHIFT handle = (block, block_type, slot))
    as Hdec by (apply handle_decode; simpl; lia).
  split; [exact Hdec |].
  unfold zblock_free, zblock_map, zblock_unmap. rewrite Hdec. auto.
Qed.

Lemma handle_round_trip_witness :
  let block := 0xffff888012345000 in
  (0 <= 12 < 64 /\
   ARRAY_SIZE_block_desc 12 64 <= Z.shiftr (PAGE_SIZE 12) SLOT_BITS /\
   0 <= block < 2 ^ 64 /\ block mod PAGE_SIZE 12 = 0 /\
   0 <= 21 < ARRAY_SIZE_block_desc 12 64 /\ 0 <= 3 < MAX_SLOTS) /\
  metadata_to_handle block 21 3 = 0xffff8880123452a3 /\
  handle_to_metadata 12 0xffff8880123452a3 = (block, 21, 3).
Proof.
  intros block.
  assert (0 <= 12 < 64 /\
          ARRAY_SIZE_block_desc 12 64 <= Z.shiftr (PAGE_SIZE 12) SLOT_BITS /\
          0 <= block < 2 ^ 64 /\ block mod PAGE_SIZE 12 = 0 /\
          0 <= 21 < ARRAY_SIZE_block_desc 12 64 /\ 0 <= 3 < MAX_SLOTS) as H
    by (vm_compute; repeat split; congruence).
  split; [exact H |]. destruct H as (H1 & H2 & H3 & H4 & H5 & H6).
  split; [reflexivity |].
  apply (handle_round_trip 12 64 block 21 3 H1 H2 H3 H4 H5 H6).
Defined.

(** ** Size classes *)

Section SizeClassProps.

Variables PAGE_SHIFT SIZEOF_BLOCK : Z.

#[local] Abbreviation descs := (block_desc PAGE_SHIFT SIZEOF_BLOCK).

(** The loop stops at the first entry that is large enough, or past
    the end of the table when there is none. *)
Lemma find_block_type_loop_spec size : forall todo first,
  let t := find_block_type_loop todo first size in
  first <= t <= first + Z.of_nat (length todo) /\
  (forall k d, (k < Z.to_nat (t - first))%nat -> todo !! k = Some d ->
               slot_size d < size) /\
  (t < first + Z.of_nat (length todo) ->
   exists d, todo !! Z.to_nat (t - first) = Some d /\ size <= slot_size d) /\
  (t = first + Z.of_nat (length todo) ->
   forall d, d ∈ todo -> slot_size d < size).
Proof.
  induction todo as [| d0 todo IH]; intros first; simpl.
  - split; [lia |]. split; [intros k d Hk; lia |]. split; [lia |].
    intros _ d Hd. inversion Hd.
  - destruct (Z.leb_spec size (slot_size d0)) as [Hle | Hgt].
    + split; [lia |]. split; [intros k d Hk; lia |].
      split; [| intros; lia].
      intros _. exists d0. rewrite Z.sub_diag. auto.
    + destruct (IH (first + 1)) as (Hr & Hbelow & Hat & Hnone).
      set (t := find_block_type_loop todo (first + 1) size) in *.
      split; [lia |]. split; [| split].
      * intros k d Hk Hd. destruct k as [| k]; simpl in Hd.
        -- inversion Hd. subst. exact Hgt.
        -- apply (Hbelow k d); [lia | exact Hd].
      * intros Hlt. destruct Hat as [d [Hd Hs]]; [lia |].
        exists d. split; [| exact Hs].
        replace (Z.to_nat (t - first)) with (S (Z.to_nat (t - (first + 1))))
          by lia.
        exact Hd.
      * intros E d Hd. apply elem_of_cons in Hd as [-> | Hd]; [exact Hgt |].
        apply Hnone; [lia | exact Hd].
Qed.

(** With the check of [zblock_create_pool] passed, every size up to
    [PAGE_SIZE] finds its type inside the table. *)
Lemma find_block_type_in_table size :
  zblock_create_pool PAGE_SHIFT SIZEOF_BLOCK true <> None ->
  size <= PAGE_SIZE PAGE_SHIFT ->
  0 <= find_block_type PAGE_SHIFT SIZEOF_BLOCK size
    < ARRAY_SIZE_block_desc PAGE_SHIFT SIZEOF_BLOCK.
Proof.
  intros Hpool Hsize. unfold find_block_type, ARRAY_SIZE_block_desc.
  destruct (find_block_type_loop_spec size descs 0) as (Hr & _ & _ & Hnone).
  set (t := find_block_type_loop descs 0 size) in *.
  destruct (Z.eq_dec t (0 + Z.of_nat (length descs))) as [E | N]; [| lia].
  exfalso. apply Hpool. unfold zblock_create_pool. simpl negb. cbv iota.
  destruct (last descs) as [d |] eqn:Hlast; [| reflexivity].
  assert (slot_size d < size) as Hd.
  { apply Hnone; [exact E |]. apply last_Some in Hlast as [l' ->].
    apply elem_of_app. right. apply list_elem_of_singleton. reflexivity. }
  destruct (Z.ltb_spec (slot_size d) (PAGE_SIZE PAGE_SHIFT)); [reflexivity | lia].
Qed.

End SizeClassProps.

(** C3.  [zblock_alloc] answers size 0 with [-EINVAL] and a size above
    [PAGE_SIZE] with [-ENOSPC], which is not [-ENOMEM], and leaves the
    pool as it was.  For any other size it goes on with the smallest
    block type whose slots are large enough. *)
Theorem alloc_checks_size_and_selects_type (PAGE_SHIFT SIZEOF_BLOCK : Z)
    (pool : zblock_pool) (size fresh : Z) (junk : zblock_block)
    (Hcreated : zblock_create_pool PAGE_SHIFT SIZEOF_BLOCK true <> None) :
  let alloc := zblock_alloc PAGE_SHIFT SIZEOF_BLOCK in
  let descs := block_desc PAGE_SHIFT SIZEOF_BLOCK in
  alloc pool 0 fresh junk = Done (- EINVAL, None, pool) /\
  (PAGE_SIZE PAGE_SHIFT < size ->
   alloc pool size fresh junk = Done (- ENOSPC, None, pool)) /\
  - ENOSPC <> - ENOMEM /\ - ENOSPC <> - EINVAL /\
  (0 < size <= PAGE_SIZE PAGE_SHIFT ->
   let t := find_block_type PAGE_SHIFT SIZEOF_BLOCK size in
   0 <= t < ARRAY_SIZE_block_desc PAGE_SHIFT SIZEOF_BLOCK /\
   (exists d, descs !! Z.to_nat t = Some d /\ size <= slot_size d) /\
   (forall t' d', (t' < Z.to_nat t)%nat -> descs !! t' = Some d' ->
                  slot_size d' < size) /\
   alloc pool size fresh junk =
     zblock_alloc_check PAGE_SHIFT SIZEOF_BLOCK pool t fresh junk).
Proof.
  intros alloc descs. subst alloc.
  split; [reflexivity |]. split; [| split; [discriminate | split; [discriminate |]]].
  - intros Hbig. unfold zblock_alloc.
    destruct (Z.eqb_spec size 0) as [E | _].
    + subst size. unfold PAGE_SIZE in Hbig.
      pose proof (wrap_range 64 (Z.shiftl 1 PAGE_SHIFT) ltac:(lia)).
      unfold u64 in Hbig. lia.
    + destruct (Z.ltb_spec (PAGE_SIZE PAGE_SHIFT) size); [reflexivity | lia].
  - intros Hsize t.
    pose proof (find_block_type_in_table PAGE_SHIFT SIZEOF_BLOCK size Hcreated
                  ltac:(lia)) as Hin.
    fold t in Hin. split; [exact Hin |].
    destruct (find_block_type_loop_spec size descs 0) as (_ & Hbelow & Hat & _).
    fold (find_block_type PAGE_SHIFT SIZEOF_BLOCK size) in Hbelow, Hat.
    fold t in Hbelow, Hat. rewrite Z.sub_0_r in Hbelow, Hat.
    split; [apply Hat; exact (proj2 Hin) |]. split; [exact Hbelow |].
    unfold zblock_alloc.
    destruct (Z.eqb_spec size 0); [lia |].
    destruct (Z.ltb_spec (PAGE_SIZE PAGE_SHIFT) size); [lia | reflexivity].
Qed.

Lemma alloc_checks_size_and_selects_type_witness :
  let pool := mk_pool (replicate 29 (mk_list [] (replicate 32 0) 0)) 0 ∅ in
  let junk := mk_block (replicate 32 0) 0 false in
  zblock_create_pool 12 64 true <> None /\
  zblock_alloc 12 64 pool 0 0 junk = Done (- EINVAL, None, pool) /\
  zblock_alloc 12 64 pool 4097 0 junk = Done (- ENOSPC, None, pool) /\
  map (find_block_type 12 64) [1; 64; 2048; 4096] = [0; 0; 21; 28] /\
  (exists d, block_desc 12 64 !! 21%nat = Some d /\ 2048 <= slot_size d).
Proof.
  intros pool junk.
  assert (zblock_create_pool 12 64 true <> None) as H by (vm_compute; congruence).
  split; [exact H |].
  pose proof (alloc_checks_size_and_selects_type 12 64 pool 2048 0 junk H)
    as (H0 & _ & _ & _ & Hsel).
  split; [exact H0 |].
  split; [apply (alloc_checks_size_and_selects_type 12 64 pool 4097 0 junk H);
          vm_compute; reflexivity |].
  split; [reflexivity |].
  apply Hsel. vm_compute. split; [reflexivity | congruence].
Defined.

(** ** Slot states and the free count *)

Lemma count_filter_insert (l : list Z) : forall k old new,
  l !! k = Some old ->
  Z.of_nat (length (filter (fun s => s = SLOT_FREE) (<[k := new]> l))) =
  Z.of_nat (length (filter (fun s => s = SLOT_FREE) l))
    - is_free old + is_free new.
Proof.
  induction l as [| x l IH]; intros k old new Hk; [destruct k; discriminate |].
  destruct k as [| k]; simpl in Hk |- *.
  - inversion Hk. subst x. rewrite !filter_cons. unfold is_free.
    do 2 case_decide; simpl length; lia.
  - rewrite !filter_cons.
    specialize (IH k old new Hk).
    case_decide; simpl length; lia.
Qed.

Lemma count_free_store n info k st v :
  0 <= k < n -> info !! Z.to_nat k = Some st ->
  count_free n (<[Z.to_nat k := v]> info) =
  count_free n info - is_free st + is_free v.
Proof.
  intros Hk Hst. unfold count_free.
  rewrite take_insert_lt by lia.
  apply count_filter_insert. rewrite lookup_take_lt by lia. exact Hst.
Qed.

Lemma count_free_bound n info : 0 <= count_free n info <= Z.max 0 n.
Proof.
  unfold count_free.
  pose proof (length_filter (fun s => s = SLOT_FREE) (take (Z.to_nat n) info)).
  rewrite length_take in *. lia.
Qed.

Lemma count_free_replicate n rest :
  0 <= n -> count_free n (replicate (Z.to_nat n) SLOT_FREE ++ rest) = n.
Proof.
  intros Hn. unfold count_free.
  rewrite take_app_length' by (rewrite length_replicate; reflexivity).
  assert (forall m, filter (fun s => s = SLOT_FREE) (replicate m SLOT_FREE)
                    = replicate m SLOT_FREE) as E.
  { induction m as [| m IH]; [reflexivity |]. simpl replicate.
    rewrite filter_cons_True by reflexivity. now rewrite IH. }
  rewrite E, length_replicate. lia.
Qed.

(** Where the scan for a free slot stops. *)
Lemma find_free_slot_loop_spec : forall todo first,
  let slot := find_free_slot_loop todo first in
  first <= slot <= first + Z.of_nat (length todo) /\
  (forall k st, (k < Z.to_nat (slot - first))%nat -> todo !! k = Some st ->
                st <> SLOT_FREE) /\
  (slot < first + Z.of_nat (length todo) ->
   todo !! Z.to_nat (slot - first) = Some SLOT_FREE) /\
  (slot = first + Z.of_nat (length todo) ->
   filter (fun s => s = SLOT_FREE) todo = []).
Proof.
  induction todo as [| s todo IH]; intros first; simpl.
  - split; [lia |]. split; [intros k st Hk; lia |]. split; [lia | auto].
  - destruct (Z.eqb_spec s SLOT_FREE) as [E | N].
    + split; [lia |]. split; [intros k st Hk; lia |].
      split; [| intros; lia]. intros _. rewrite Z.sub_diag. simpl. now rewrite E.
    + destruct (IH (first + 1)) as (Hr & Hbelow & Hat & Hnone).
      set (slot := find_free_slot_loop todo (first + 1)) in *.
      split; [lia |]. split; [| split].
      * intros k st Hk Hst. destruct k as [| k]; simpl in Hst.
        -- inversion Hst. subst. exact N.
        -- apply (Hbelow k st); [lia | exact Hst].
      * intros Hlt.
        replace (Z.to_nat (slot - first)) with (S (Z.to_nat (slot - (first + 1))))
          by lia.
        apply Hat. lia.
      * intros E. rewrite filter_cons_False by exact N. apply Hnone. lia.
Qed.

Lemma find_free_slot_spec n info :
  0 <= n -> (Z.to_nat n <= length info)%nat ->
  let slot := find_free_slot n info in
  0 <= slot <= n /\
  (forall k st, 0 <= k < slot -> info !! Z.to_nat k = Some st ->
                st <> SLOT_FREE) /\
  (0 < count_free n info ->
   slot < n /\ info !! Z.to_nat slot = Some SLOT_FREE) /\
  (count_free n info = 0 -> slot = n).
Proof.
  intros Hn Hlen slot. unfold find_free_slot in slot.
  destruct (find_free_slot_loop_spec (take (Z.to_nat n) info) 0)
    as (Hr & Hbelow & Hat & Hnone).
  fold slot in Hr, Hbelow, Hat, Hnone.
  rewrite length_take, Z.add_0_l, Z.sub_0_r in *.
  replace (Z.of_nat (Z.to_nat n `min` length info)) with n in * by lia.
  split; [lia |]. split; [| split].
  - intros k st Hk Hst. apply (Hbelow (Z.to_nat k) st); [lia |].
    rewrite lookup_take_lt by lia. exact Hst.
  - intros Hpos.
    assert (slot < n) as Hlt.
    { destruct (Z.eq_dec slot n) as [E | N]; [| lia].
      unfold count_free in Hpos. rewrite (Hnone E) in Hpos. simpl in Hpos. lia. }
    split; [exact Hlt |].
    specialize (Hat Hlt). rewrite lookup_take_lt in Hat by lia. exact Hat.
  - intros Hzero.
    destruct (Z.eq_dec slot n) as [E | N]; [exact E |].
    assert (slot < n) as Hlt by lia. specialize (Hat Hlt).
    unfold count_free in Hzero.
    assert (SLOT_FREE ∈ filter (fun s => s = SLOT_FREE) (take (Z.to_nat n) info))
      as Hin.
    { apply list_elem_of_filter. split; [reflexivity |].
      apply list_elem_of_lookup. eauto. }
    destruct (filter _ _); [inversion Hin | simpl in Hzero; lia].
Qed.

Section DescProps.

Variables PAGE_SHIFT SIZEOF_BLOCK : Z.

Lemma desc_slots_range t d :
  block_desc PAGE_SHIFT SIZEOF_BLOCK !! t = Some d ->
  7 <= slots_per_block d <= MAX_SLOTS.
Proof.
  intros H. change MAX_SLOTS with 32. unfold block_desc in H.
  do 29 (destruct t as [| t];
         [injection H as <-; cbn [slots_per_block desc]; lia |]).
  discriminate.
Qed.

Lemma desc_at_Done t d :
  desc_at PAGE_SHIFT SIZEOF_BLOCK t = Done d <->
  0 <= t /\ block_desc PAGE_SHIFT SIZEOF_BLOCK !! Z.to_nat t = Some d.
Proof.
  unfold desc_at. destruct (Z.ltb_spec t 0).
  - split; [discriminate | lia].
  - destruct (_ !! _); split; try discriminate; intros; try tauto; intuition congruence.
Qed.

End DescProps.

(** [zblock_alloc] from [found] on, for a block with a right and
    positive free count. *)
Lemma alloc_found_ok PAGE_SHIFT SIZEOF_BLOCK pool block_type block d b :
  desc_at PAGE_SHIFT SIZEOF_BLOCK block_type = Done d ->
  pages pool !! block = Some b ->
  length (slot_info b) = Z.to_nat MAX_SLOTS ->
  ZB_I1 d b -> 0 < free_slots b ->
  let slot := find_free_slot (slots_per_block d) (slot_info b) in
  0 <= slot < slots_per_block d /\
  slot_info b !! Z.to_nat slot = Some SLOT_FREE /\
  exists b',
    zblock_alloc_found PAGE_SHIFT SIZEOF_BLOCK pool block_type block =
      Done (0, Some (metadata_to_handle block block_type slot),
            set_alloc_flag (set_block pool block b') 0) /\
    slot_info b' = <[Z.to_nat slot := SLOT_OCCUPIED]> (slot_info b) /\
    free_slots b' = free_slots b - 1 /\
    under_reclaim b' = under_reclaim b /\
    length (slot_info b') = Z.to_nat MAX_SLOTS /\
    ZB_I1 d b'.
Proof.
  intros Hd Hb Hlen Hinv Hfree slot.
  apply desc_at_Done in Hd as Hd'. destruct Hd' as [Ht Hdesc].
  pose proof (desc_slots_range _ _ _ _ Hdesc) as Hspb.
  change MAX_SLOTS with 32 in *.
  destruct (find_free_slot_spec (slots_per_block d) (slot_info b)
              ltac:(lia) ltac:(lia)) as (Hr & _ & Hpos & _).
  fold slot in Hr, Hpos. unfold ZB_I1 in Hinv.
  destruct Hpos as [Hlt Hat]; [lia |].
  pose proof (count_free_bound (slots_per_block d) (slot_info b)) as Hcb.
  split; [lia |]. split; [exact Hat |].
  eexists. split; [| split; [| split; [| split; [| split]]]].
  - unfold zblock_alloc_found, deref. rewrite Hb, bind_Done, Hd, bind_Done.
    cbn [set_free_slots slot_info]. fold slot.
    unfold store_slot. change MAX_SLOTS with 32.
    destruct (Z.ltb_spec slot 0); [lia |].
    destruct (Z.leb_spec 32 slot); [lia |].
    simpl orb. cbv iota. rewrite bind_Done. reflexivity.
  - reflexivity.
  - cbn [free_slots]. apply u32_small. lia.
  - reflexivity.
  - cbn [slot_info]. now rewrite length_insert.
  - unfold ZB_I1. cbn [free_slots slot_info].
    rewrite (count_free_store _ _ slot SLOT_FREE) by (lia || assumption).
    rewrite u32_small by lia. unfold is_free, SLOT_OCCUPIED, SLOT_FREE.
    simpl. lia.
Qed.

(** C10.  When [zblock_alloc] reaches [found] with a block that
    satisfies ZB-I1 and has [free_slots > 0], the scan stops at the
    first [SLOT_FREE] entry, at an index below [slots_per_block], so the
    store of [SLOT_OCCUPIED] stays inside the slots of the block; the
    block satisfies ZB-I1 again afterwards.  The scan has no other
    exit: with no free entry it runs up to [slots_per_block]. *)
Theorem alloc_scan_stays_in_bounds (PAGE_SHIFT SIZEOF_BLOCK : Z)
    (pool : zblock_pool) (block_type block : Z) (d : block_desc_t)
    (b : zblock_block)
    (Hd : desc_at PAGE_SHIFT SIZEOF_BLOCK block_type = Done d)
    (Hb : pages pool !! block = Some b)
    (Hlen : length (slot_info b) = Z.to_nat MAX_SLOTS)
    (Hinv : ZB_I1 d b)
    (Hfree : 0 < free_slots b) :
  let slot := find_free_slot (slots_per_block d) (slot_info b) in
  0 <= slot < slots_per_block d /\
  slots_per_block d <= MAX_SLOTS /\
  slot_info b !! Z.to_nat slot = Some SLOT_FREE /\
  (forall k st, 0 <= k < slot -> slot_info b !! Z.to_nat k = Some st ->
                st <> SLOT_FREE) /\
  (exists b',
     zblock_alloc_found PAGE_SHIFT SIZEOF_BLOCK pool block_type block =
       Done (0, Some (metadata_to_handle block block_type slot),
             set_alloc_flag (set_block pool block b') 0) /\
     slot_info b' = <[Z.to_nat slot := SLOT_OCCUPIED]> (slot_info b) /\
     free_slots b' = free_slots b - 1 /\
     ZB_I1 d b') /\
  (forall info, length info = Z.to_nat MAX_SLOTS ->
     count_free (slots_per_block d) info = 0 ->
     find_free_slot (slots_per_block d) info = slots_per_block d).
Proof.
  intros slot.
  apply desc_at_Done in Hd as Hd'. destruct Hd' as [Ht Hdesc].
  pose proof (desc_slots_range _ _ _ _ Hdesc) as Hspb.
  destruct (alloc_found_ok PAGE_SHIFT SIZEOF_BLOCK pool block_type block d b
              Hd Hb Hlen Hinv Hfree)
    as (Hr & Hat & b' & Hrun & Hinfo & Hcnt & _ & _ & Hinv').
  fold slot in Hr, Hat, Hrun, Hinfo.
  change MAX_SLOTS with 32 in *.
  destruct (find_free_slot_spec (slots_per_block d) (slot_info b)
              ltac:(lia) ltac:(lia)) as (_ & Hbelow & _).
  fold slot in Hbelow.
  split; [exact Hr |]. split; [lia |]. split; [exact Hat |].
  split; [exact Hbelow |]. split.
  - exists b'. auto.
  - intros info Hinfo' Hzero.
    apply (find_free_slot_spec (slots_per_block d) info); lia.
Qed.

Lemma alloc_scan_stays_in_bounds_witness :
  let b := mk_block ([1; 3; 0; 0; 2; 1; 0; 1] ++ replicate 24 0xaa) 3 false in
  let block := 0xffff888012345000 in
  let pool :=
    mk_pool (replicate 29 (mk_list [] (replicate 32 0) 0)) 0 {[ block := b ]} in
  let d := desc 12 64 8 0 in
  (desc_at 12 64 6 = Done d /\
   pages pool !! block = Some b /\
   length (slot_info b) = Z.to_nat MAX_SLOTS /\
   ZB_I1 d b /\ 0 < free_slots b) /\
  0 <= find_free_slot (slots_per_block d) (slot_info b) < slots_per_block d /\
  find_free_slot (slots_per_block d) (slot_info b) = 2.
Proof.
  intros b block pool d.
  assert (desc_at 12 64 6 = Done d /\
          pages pool !! block = Some b /\
          length (slot_info b) = Z.to_nat MAX_SLOTS /\
          ZB_I1 d b /\ 0 < free_slots b) as H
    by (repeat split; vm_compute; reflexivity).
  split; [exact H |]. destruct H as (H1 & H2 & H3 & H4 & H5).
  split; [| reflexivity].
  apply (alloc_scan_stays_in_bounds 12 64 pool 6 block d b H1 H2 H3 H4 H5).
Defined.

(** ** Free during reclaim *)

(** C9.  [zblock_free] on a handle whose block is under reclaim returns
    at once and leaves the whole pool as it was: slots, free counts,
    lists, caches, block counts and pages.  A second call does the
    same. *)
Theorem free_under_reclaim_is_noop (PAGE_SHIFT SIZEOF_BLOCK : Z)
    (pool : zblock_pool) (handle : Z) (b : zblock_block)
    (Hblock : pages pool !! (handle_to_metadata PAGE_SHIFT handle).1.1 = Some b)
    (Hreclaim : under_reclaim b = true) :
  let free := zblock_free PAGE_SHIFT SIZEOF_BLOCK in
  free pool handle = Done pool /\
  (free pool handle ≫= fun pool' => free pool' handle) = Done pool.
Proof.
  intros free.
  assert (free pool handle = Done pool) as E.
  { subst free. unfold zblock_free.
    destruct (handle_to_metadata PAGE_SHIFT handle) as [[block t] slot].
    simpl in Hblock. unfold zblock_free_slot, deref.
    rewrite Hblock, bind_Done, Hreclaim. reflexivity. }
  split; [exact E |]. rewrite E, bind_Done. exact E.
Qed.

Lemma free_under_reclaim_is_noop_witness :
  let b := mk_block (replicate 32 SLOT_OCCUPIED) 0 true in
  let block := 0xffff888012345000 in
  let pool :=
    mk_pool (replicate 29 (mk_list [] (replicate 32 0) 0)) 0 {[ block := b ]} in
  let handle := metadata_to_handle block 0 5 in
  (pages pool !! (handle_to_metadata 12 handle).1.1 = Some b /\
   under_reclaim b = true) /\
  zblock_free 12 64 pool handle = Done pool.
Proof.
  intros b block pool handle.
  assert (pages pool !! (handle_to_metadata 12 handle).1.1 = Some b /\
          under_reclaim b = true) as H by (split; reflexivity).
  split; [exact H |]. destruct H as [H1 H2].
  apply (free_under_reclaim_is_noop 12 64 pool handle b H1 H2).
Defined.

Lemma list_at_Done pool t l :
  list_at pool t = Done l <->
  0 <= t /\ block_lists pool !! Z.to_nat t = Some l.
Proof.
  unfold list_at. destruct (Z.ltb_spec t 0).
  - split; [discriminate | lia].
  - destruct (_ !! _); split; try discriminate; intros; intuition congruence.
Qed.

Lemma deref_Done pages block b :
  deref pages block = Done b <-> pages !! block = Some b.
Proof.
  unfold deref. destruct (_ !! _); split; try discriminate; congruence.
Qed.

(** ** Reclaim on an empty list *)

Lemma is_in_cache_loop_spec block : forall todo first,
  let i := is_in_cache_loop block todo first in
  0 <= first ->
  (i = -1 /\ block ∉ todo) \/
  (first <= i < first + Z.of_nat (length todo) /\
   todo !! Z.to_nat (i - first) = Some block).
Proof.
  induction todo as [| c todo IH]; intros first; simpl; intros Hf.
  - left. split; [reflexivity |]. apply not_elem_of_nil.
  - destruct (Z.eqb_spec block c) as [E | N].
    + right. split; [lia |]. rewrite Z.sub_diag. simpl. now rewrite E.
    + destruct (IH (first + 1)) as [[E Hn] | [Hr Hat]]; [lia | |].
      * left. split; [exact E |]. rewrite not_elem_of_cons. tauto.
      * right. split; [lia |].
        replace (Z.to_nat (is_in_cache_loop block todo (first + 1) - first))
          with (S (Z.to_nat (is_in_cache_loop block todo (first + 1) - (first + 1))))
          by lia.
        exact Hat.
Qed.

Lemma is_in_cache_spec block l :
  (is_in_cache block l = -1 /\ block ∉ block_cache l) \/
  (0 <= is_in_cache block l < Z.of_nat (length (block_cache l)) /\
   block_cache l !! Z.to_nat (is_in_cache block l) = Some block).
Proof.
  unfold is_in_cache.
  destruct (is_in_cache_loop_spec block (block_cache l) 0) as [H | [Hr Hat]];
    [lia | left; exact H | right].
  rewrite Z.sub_0_r in Hat. split; [lia | exact Hat].
Qed.


Section ReclaimEmpty.

Variables PAGE_SHIFT SIZEOF_BLOCK OFFSETOF_NODE : Z.
Variable head_addr : Z -> Z.
Variable evict : zblock_pool -> Z -> Z * zblock_pool.

(** The list of the last block type of any pool being empty, the first
    iteration of [zblock_reclaim_block] takes the list head for a block
    and writes through it. *)
Lemma reclaim_empty_last_list pool l :
  block_lists pool !! 28%nat = Some l ->
  head l = [] ->
  no_entry OFFSETOF_NODE head_addr 28 <> 0 ->
  no_entry OFFSETOF_NODE head_addr 28 ∉ block_cache l ->
  pages pool !! no_entry OFFSETOF_NODE head_addr 28 = None ->
  zblock_reclaim_block PAGE_SHIFT SIZEOF_BLOCK OFFSETOF_NODE head_addr evict pool
  = Fail (WildPointer (no_entry OFFSETOF_NODE head_addr 28)).
Proof.
  intros Hl Hempty Hnz Hnc Hnone.
  unfold zblock_reclaim_block.
  change (length (block_desc PAGE_SHIFT SIZEOF_BLOCK)) with 29%nat.
  change (zblock_reclaim_loop PAGE_SHIFT SIZEOF_BLOCK OFFSETOF_NODE head_addr
            evict 29 pool)
    with (zblock_reclaim_type PAGE_SHIFT SIZEOF_BLOCK OFFSETOF_NODE head_addr
            evict 28 pool ≫=
          fun r => match r with
                   | Some ret => Done ret
                   | None => zblock_reclaim_loop PAGE_SHIFT SIZEOF_BLOCK
                               OFFSETOF_NODE head_addr evict 28 pool
                   end).
  assert (zblock_reclaim_type PAGE_SHIFT SIZEOF_BLOCK OFFSETOF_NODE head_addr
            evict 28 pool
          = Fail (WildPointer (no_entry OFFSETOF_NODE head_addr 28))) as ->;
    [| reflexivity].
  unfold zblock_reclaim_type.
  rewrite (proj2 (list_at_Done pool 28 l)), bind_Done by (split; [lia | exact Hl]).
  unfold list_last_entry. rewrite Hempty. cbn [last].
  fold (no_entry OFFSETOF_NODE head_addr 28).
  destruct (Z.eqb_spec (no_entry OFFSETOF_NODE head_addr 28) 0); [contradiction |].
  destruct (is_in_cache_spec (no_entry OFFSETOF_NODE head_addr 28) l)
    as [[-> _] | [_ Hat]].
  - simpl negb. cbv iota. unfold deref. rewrite Hnone. reflexivity.
  - exfalso. apply Hnc. apply list_elem_of_lookup. eauto.
Qed.

End ReclaimEmpty.

(** C4 fails on the code.  On a pool that has just been created, with
    every list empty, [zblock_reclaim_block] does not skip the empty
    list of the last block type: [list_last_entry] yields the address of
    the list head minus the offset of [block_node], which is not
    [NULL], and the function goes on to set [under_reclaim] through
    it. *)
Theorem reclaim_empty_list_not_detected :
  let head_addr := fun t => 0xffff888004000008 + 288 * t in
  let evict := fun (pool : zblock_pool) (_ : Z) => (0, pool) in
  exists pool,
    zblock_create_pool 12 64 true = Some pool /\
    (forall t l, block_lists pool !! t = Some l -> head l = []) /\
    zblock_reclaim_block 12 64 8 head_addr evict pool
    = Fail (WildPointer (head_addr 28 - 8)) /\
    zblock_reclaim_block 12 64 8 head_addr evict pool <> Done (- EINVAL, pool).
Proof.
  intros head_addr evict. eexists. split; [reflexivity |]. split.
  - intros t l Hl. apply list_elem_of_lookup_2 in Hl.
    apply elem_of_replicate in Hl as [-> _]. reflexivity.
  - assert (zblock_reclaim_block 12 64 8 head_addr evict
              {| block_lists :=
                   replicate (length (block_desc 12 64))
                     {| head := [];
                        block_cache := replicate (Z.to_nat BLOCK_CACHE_SIZE) 0;
                        block_count := 0 |};
                 alloc_flag := 0; pages := ∅ |}
            = Fail (WildPointer (head_addr 28 - 8))) as E.
    { apply (reclaim_empty_last_list 12 64 8 head_addr evict _
               {| head := [];
                  block_cache := replicate (Z.to_nat BLOCK_CACHE_SIZE) 0;
                  block_count := 0 |}).
      - reflexivity.
      - reflexivity.
      - vm_compute. congruence.
      - intros Hin. apply elem_of_replicate in Hin as [Hin _].
        vm_compute in Hin. congruence.
      - apply lookup_empty. }
    split; [exact E |]. rewrite E. discriminate.
Qed.

(** ** The pool invariant *)

Lemma lookup_insert_cases {A} (ls : list A) t (new : A) t' l' :
  <[t := new]> ls !! t' = Some l' ->
  (t' = t /\ l' = new) \/ (t' <> t /\ ls !! t' = Some l').
Proof.
  intros H. apply list_lookup_insert_Some in H as [(-> & -> & _) | [Hne H]];
    [left | right]; auto.
Qed.

(** The cache loops, on a cache whose entries are [NULL] or live
    blocks. *)
Lemma cache_find_loop_spec (pg : gmap Z zblock_block) : forall todo,
  (forall c, c ∈ todo -> c <> 0 -> is_Some (pg !! c)) ->
  exists c, cache_find_loop pg todo = Done c /\
            (c = 0 \/
             c <> 0 /\ c ∈ todo /\
             exists b, pg !! c = Some b /\ free_slots b <> 0).
Proof.
  induction todo as [| c todo IH]; intros Hlive; simpl.
  - exists 0. auto.
  - assert (exists c', cache_find_loop pg todo = Done c' /\
              (c' = 0 \/ c' <> 0 /\ c' ∈ c :: todo /\
               exists b, pg !! c' = Some b /\ free_slots b <> 0)) as Hrest.
    { destruct IH as (c' & Hrun & Hc').
      - intros x Hx. apply Hlive. apply elem_of_cons. now right.
      - exists c'. split; [exact Hrun |].
        destruct Hc' as [-> | (Hnz & Hin & Hb)]; [now left | right].
        repeat split; auto. apply elem_of_cons. now right. }
    destruct (Z.eqb_spec c 0) as [E | N]; [exact Hrest |].
    destruct (Hlive c) as [b Hb]; [apply elem_of_cons; now left | exact N |].
    unfold deref. rewrite Hb, bind_Done.
    destruct (Z.eqb_spec (free_slots b) 0) as [E | Nf]; [exact Hrest |].
    exists c. split; [reflexivity |]. right.
    repeat split; eauto. apply elem_of_cons. now left.
Qed.

Lemma cache_insert_loop_spec (pg : gmap Z zblock_block) block cache :
  forall todo i min_free_slots min_index,
  (forall c, c ∈ todo -> c <> 0 ->
             exists b, pg !! c = Some b /\ free_slots b < MAX_SLOTS) ->
  (i + length todo = length cache)%nat ->
  match min_index with
  | Some m => (m < length cache)%nat
  | None => min_free_slots = MAX_SLOTS /\ todo <> []
  end ->
  exists j, (j < length cache)%nat /\
            cache_insert_loop pg block cache todo i min_free_slots min_index
            = Done (<[j := block]> cache).
Proof.
  induction todo as [| c todo IH]; intros i minf mi Hlive Hlen Hmi; simpl.
  - destruct mi as [m |]; [eauto | destruct Hmi as [_ H]; congruence].
  - simpl in Hlen.
    destruct (Z.eqb_spec c 0) as [E | N]; [exists i; split; [lia | reflexivity] |].
    destruct (Hlive c) as (b & Hb & Hfs); [apply elem_of_cons; now left | exact N |].
    unfold deref. rewrite Hb, bind_Done.
    destruct (Z.eqb_spec (free_slots b) 0) as [E | Nf];
      [exists i; split; [lia | reflexivity] |].
    assert (forall x, x ∈ todo -> x <> 0 ->
              exists b0, pg !! x = Some b0 /\ free_slots b0 < MAX_SLOTS) as Hlive'
      by (intros x Hx; apply Hlive; apply elem_of_cons; now right).
    destruct (Z.ltb_spec (free_slots b) minf) as [Hlt | Hge].
    + apply IH; [exact Hlive' | lia | lia].
    + apply IH; [exact Hlive' | lia |].
      destruct mi as [m |]; [exact Hmi | destruct Hmi as [-> _]; lia].
Qed.

Lemma cache_insert_block_spec (pg : gmap Z zblock_block) block l :
  length (block_cache l) = Z.to_nat BLOCK_CACHE_SIZE ->
  (forall c, c ∈ block_cache l -> c <> 0 ->
             exists b, pg !! c = Some b /\ free_slots b < MAX_SLOTS) ->
  exists j, (j < length (block_cache l))%nat /\
            cache_insert_block pg block l =
            Done (mk_list (head l) (<[j := block]> (block_cache l))
                    (block_count l)).
Proof.
  intros Hlen Hlive. unfold cache_insert_block.
  destruct (cache_insert_loop_spec pg block (block_cache l) (block_cache l)
              0 MAX_SLOTS None Hlive) as (j & Hj & ->).
  - reflexivity.
  - split; [reflexivity |]. intros E. rewrite E in Hlen. discriminate.
  - exists j. split; [exact Hj | reflexivity].
Qed.

Section PoolProps.

Variables PAGE_SHIFT SIZEOF_BLOCK OFFSETOF_NODE : Z.
Variable head_addr : Z -> Z.

#[local] Abbreviation wf := (pool_wf PAGE_SHIFT SIZEOF_BLOCK OFFSETOF_NODE head_addr).
#[local] Abbreviation descs := (block_desc PAGE_SHIFT SIZEOF_BLOCK).
#[local] Abbreviation noent := (no_entry OFFSETOF_NODE head_addr).

(** A block of a list changes, and possibly the cache and the count of
    that list. *)
Lemma wf_update ls pg t l d block b' cache' n :
  wf ls pg -> ls !! t = Some l -> descs !! t = Some d ->
  block ∈ head l -> block_ok d b' ->
  length cache' = Z.to_nat BLOCK_CACHE_SIZE ->
  (forall i j c, cache' !! i = Some c -> cache' !! j = Some c -> c <> 0 -> i = j) ->
  (forall i c, cache' !! i = Some c -> c <> 0 -> c ∈ head l) ->
  wf (<[t := mk_list (head l) cache' n]> ls) (<[block := b']> pg).
Proof.
  intros (Hlen & Hlists & Hblocks & Hdisj & Hno & Hal) Hl Hd Hin Hb' Hclen Hcdup
    Hcin.
  assert (forall t' l', <[t := mk_list (head l) cache' n]> ls !! t' = Some l' ->
            exists l0, ls !! t' = Some l0 /\ head l' = head l0) as Hheads.
  { intros t' l' H. apply lookup_insert_cases in H as [[-> ->] | [_ H]]; eauto. }
  split; [now rewrite length_insert |]. split; [| split; [| split; [| split]]].
  - intros t' l' H. apply lookup_insert_cases in H as [[-> ->] | [_ H]].
    + destruct (Hlists t l Hl) as (_ & Hnd & _). repeat split; auto.
    + now apply (Hlists t').
  - intros t' l' d' block' H Hd' Hin'.
    destruct (Hheads t' l' H) as (l0 & Hl0 & Eh). rewrite Eh in Hin'.
    destruct (Hblocks t' l0 d' block' Hl0 Hd' Hin') as (Hnz & b & Hb & Hok).
    split; [exact Hnz |].
    destruct (decide (block' = block)) as [-> | Hne].
    + assert (t' = t) as -> by (eapply Hdisj; eauto).
      assert (d' = d) as -> by congruence.
      exists b'. now rewrite lookup_insert_eq.
    + exists b. now rewrite lookup_insert_ne.
  - intros t1 t2 l1 l2 blk H1 H2 Hin1 Hin2.
    destruct (Hheads t1 l1 H1) as (l01 & Hl01 & E1).
    destruct (Hheads t2 l2 H2) as (l02 & Hl02 & E2).
    rewrite E1 in Hin1. rewrite E2 in Hin2. eapply Hdisj; eauto.
  - intros t' Ht'.
    destruct (Hblocks t l d block Hl Hd Hin) as (_ & b & Hb & _).
    rewrite lookup_insert_ne; [now apply Hno |].
    intros ->. rewrite Hno in Hb by exact Ht'. discriminate.
  - intros t' l' blk H Hin'.
    destruct (Hheads t' l' H) as (l0 & Hl0 & Eh). rewrite Eh in Hin'.
    eapply Hal; eauto.
Qed.

(** Only the contents of a linked block change. *)
Lemma wf_set_block ls pg t l d block b' :
  wf ls pg -> ls !! t = Some l -> descs !! t = Some d ->
  block ∈ head l -> block_ok d b' ->
  wf ls (<[block := b']> pg).
Proof.
  intros Hwf Hl Hd Hin Hb'.
  pose proof Hwf as (_ & Hlists & _). destruct (Hlists t l Hl) as (H1 & _ & H3 & H4).
  pose proof (wf_update ls pg t l d block b' (block_cache l) (block_count l)
                Hwf Hl Hd Hin Hb' H1 H3 H4) as H.
  rewrite list_insert_id in H; [exact H |]. rewrite Hl. now destruct l.
Qed.

(** A new block is linked in front of a list and put in its cache. *)
Lemma wf_add ls pg t l d fresh b j n :
  wf ls pg -> ls !! t = Some l -> descs !! t = Some d ->
  fresh <> 0 -> pg !! fresh = None ->
  (forall t', 0 <= t' < ARRAY_SIZE_block_desc PAGE_SHIFT SIZEOF_BLOCK ->
              fresh <> noent t') ->
  0 <= fresh < 2 ^ 64 -> fresh mod PAGE_SIZE PAGE_SHIFT = 0 ->
  block_ok d b -> (j < length (block_cache l))%nat ->
  wf (<[t := mk_list (fresh :: head l) (<[j := fresh]> (block_cache l)) n]> ls)
     (<[fresh := b]> pg).
Proof.
  intros (Hlen & Hlists & Hblocks & Hdisj & Hno & Hal) Hl Hd Hnz Hnew Hne
    Hrange Haligned Hb Hj.
  assert (forall t' l', ls !! t' = Some l' -> fresh ∉ head l') as Hfresh.
  { intros t' l' Hl' Hin.
    assert (is_Some (descs !! t')) as [d' Hd'].
    { apply lookup_lt_is_Some. rewrite <- Hlen. eapply lookup_lt_Some; eauto. }
    destruct (Hblocks t' l' d' fresh Hl' Hd' Hin) as (_ & b0 & Hb0 & _).
    congruence. }
  destruct (Hlists t l Hl) as (Hclen & Hnd & Hcdup & Hcin).
  split; [now rewrite length_insert |]. split; [| split; [| split; [| split]]].
  - intros t' l' H. apply lookup_insert_cases in H as [[-> ->] | [_ H]];
      [| now apply (Hlists t')].
    split; [simpl; now rewrite length_insert |]. split; [| split]; simpl.
    + constructor; [now apply (Hfresh t l) | exact Hnd].
    + intros i1 i2 c H1 H2 Hc.
      apply list_lookup_insert_Some in H1 as [(-> & -> & _) | [N1 H1]];
        apply list_lookup_insert_Some in H2 as [(E2 & E2' & _) | [N2 H2]];
        subst; auto.
      * exfalso. apply (Hfresh t l Hl). eapply Hcin; eauto.
      * exfalso. apply (Hfresh t l Hl). eapply Hcin; eauto.
      * eapply Hcdup; eauto.
    + intros i c H Hc.
      apply list_lookup_insert_Some in H as [(-> & -> & _) | [N H]].
      * apply elem_of_cons. now left.
      * apply elem_of_cons. right. eapply Hcin; eauto.
  - intros t' l' d' block' H Hd' Hin'.
    assert (block' = fresh /\ t' = t \/
            exists l0, ls !! t' = Some l0 /\ block' ∈ head l0) as Hcase.
    { apply lookup_insert_cases in H as [[-> ->] | [_ H]]; [| eauto].
      simpl in Hin'. apply elem_of_cons in Hin' as [-> | Hin']; eauto. }
    destruct Hcase as [[-> ->] | (l0 & Hl0 & Hin0)].
    + split; [exact Hnz |]. exists b. rewrite lookup_insert_eq.
      split; [reflexivity | congruence].
    + destruct (Hblocks t' l0 d' block' Hl0 Hd' Hin0) as (Hnz' & b0 & Hb0 & Hok).
      split; [exact Hnz' |]. exists b0. rewrite lookup_insert_ne; [auto |].
      intros ->. eapply Hfresh; eauto.
  - intros t1 t2 l1 l2 blk H1 H2 Hin1 Hin2.
    apply lookup_insert_cases in H1 as [[-> ->] | [N1 H1]];
      apply lookup_insert_cases in H2 as [[-> ->] | [N2 H2]]; auto; simpl in *.
    + apply elem_of_cons in Hin1 as [-> | Hin1];
        [exfalso; eapply Hfresh; eauto | symmetry; eapply Hdisj; eauto].
    + apply elem_of_cons in Hin2 as [-> | Hin2];
        [exfalso; eapply Hfresh; eauto | eapply Hdisj; eauto].
    + eapply Hdisj; eauto.
  - intros t' Ht'. rewrite lookup_insert_ne; [now apply Hno | now apply Hne].
  - intros t' l' blk H Hin'.
    apply lookup_insert_cases in H as [[-> ->] | [_ H]]; [| eapply Hal; eauto].
    simpl in Hin'. apply elem_of_cons in Hin' as [-> | Hin'];
      [auto | eapply Hal; eauto].
Qed.

(** A block is unlinked and its pages given back. *)
Lemma wf_remove ls pg t l block cache' n :
  wf ls pg -> ls !! t = Some l -> block ∈ head l ->
  length cache' = Z.to_nat BLOCK_CACHE_SIZE ->
  (forall k c, cache' !! k = Some c -> c <> 0 ->
               block_cache l !! k = Some c /\ c <> block) ->
  wf (<[t := mk_list (filter (fun x => x ≠ block) (head l)) cache' n]>
        (list_del block ls))
     (delete block pg).
Proof.
  intros (Hlen & Hlists & Hblocks & Hdisj & Hno & Hal) Hl Hin Hclen Hc.
  set (ls' := <[t := mk_list (filter (fun x => x ≠ block) (head l)) cache' n]>
                (list_del block ls)).
  assert (forall t' l', ls' !! t' = Some l' ->
            exists l0, ls !! t' = Some l0 /\
                       head l' = filter (fun x => x ≠ block) (head l0) /\
                       (t' = t /\ block_cache l' = cache' \/
                        t' <> t /\ block_cache l' = block_cache l0)) as Hshape.
  { intros t' l' H. apply lookup_insert_cases in H as [[-> ->] | [N H]].
    - exists l. auto.
    - unfold list_del in H. rewrite list_lookup_fmap in H.
      destruct (ls !! t') as [l0 |] eqn:E; [| discriminate].
      injection H as <-. exists l0. auto. }
  split; [unfold ls', list_del; now rewrite length_insert, length_fmap |].
  split; [| split; [| split; [| split]]].
  - intros t' l' H. destruct (Hshape t' l' H) as (l0 & Hl0 & Eh & Hcache).
    destruct (Hlists t' l0 Hl0) as (Hclen0 & Hnd & Hcdup & Hcin).
    unfold list_ok. rewrite Eh.
    destruct Hcache as [[-> ->] | [N ->]].
    + assert (l0 = l) as -> by congruence.
      split; [exact Hclen |]. split; [now apply NoDup_filter |]. split.
      * intros i j c Hi Hj Hnz.
        destruct (Hc i c Hi Hnz) as [Hi' _]. destruct (Hc j c Hj Hnz) as [Hj' _].
        eapply Hcdup; eauto.
      * intros i c Hi Hnz. destruct (Hc i c Hi Hnz) as [Hi' Hne].
        apply list_elem_of_filter. split; [exact Hne | eapply Hcin; eauto].
    + split; [exact Hclen0 |]. split; [now apply NoDup_filter |].
      split; [exact Hcdup |].
      intros i c Hi Hnz. apply list_elem_of_filter.
      split; [| eapply Hcin; eauto].
      intros ->. apply N. eapply Hdisj; eauto.
  - intros t' l' d' block' H Hd' Hin'.
    destruct (Hshape t' l' H) as (l0 & Hl0 & Eh & _). rewrite Eh in Hin'.
    apply list_elem_of_filter in Hin' as [Hne Hin'].
    destruct (Hblocks t' l0 d' block' Hl0 Hd' Hin') as (Hnz & b & Hb & Hok).
    split; [exact Hnz |]. exists b. rewrite lookup_delete_ne; auto.
  - intros t1 t2 l1 l2 blk H1 H2 Hin1 Hin2.
    destruct (Hshape t1 l1 H1) as (l01 & Hl01 & E1 & _).
    destruct (Hshape t2 l2 H2) as (l02 & Hl02 & E2 & _).
    rewrite E1 in Hin1. rewrite E2 in Hin2.
    apply list_elem_of_filter in Hin1 as [_ Hin1].
    apply list_elem_of_filter in Hin2 as [_ Hin2].
    eapply Hdisj; eauto.
  - intros t' Ht'. apply lookup_delete_None. right. now apply Hno.
  - intros t' l' blk H Hin'.
    destruct (Hshape t' l' H) as (l0 & Hl0 & Eh & _). rewrite Eh in Hin'.
    apply list_elem_of_filter in Hin' as [_ Hin']. eapply Hal; eauto.
Qed.

Lemma block_ok_bounds t d b :
  descs !! t = Some d -> block_ok d b ->
  0 <= free_slots b < slots_per_block d /\ slots_per_block d <= 32 /\
  7 <= slots_per_block d.
Proof.
  intros Hd (_ & Hinv & Hlt & _).
  pose proof (desc_slots_range _ _ _ _ Hd) as Hr. change MAX_SLOTS with 32 in Hr.
  pose proof (count_free_bound (slots_per_block d) (slot_info b)).
  unfold ZB_I1 in Hinv. lia.
Qed.

Lemma wf_desc ls pg t l :
  wf ls pg -> ls !! t = Some l -> exists d, descs !! t = Some d.
Proof.
  intros (Hlen & _) Hl. apply lookup_lt_is_Some. rewrite <- Hlen.
  eapply lookup_lt_Some; eauto.
Qed.

Lemma wf_cache_live ls pg t l c :
  wf ls pg -> ls !! t = Some l -> c ∈ block_cache l -> c <> 0 ->
  c ∈ head l /\
  exists b, pg !! c = Some b /\ free_slots b < MAX_SLOTS.
Proof.
  intros Hwf Hl Hc Hnz. destruct (wf_desc ls pg t l Hwf Hl) as [d Hd].
  destruct Hwf as (_ & Hlists & Hblocks & _).
  destruct (Hlists t l Hl) as (_ & _ & _ & Hcin).
  apply list_elem_of_lookup in Hc as [i Hi].
  assert (c ∈ head l) as Hin by (eapply Hcin; eauto).
  split; [exact Hin |].
  destruct (Hblocks t l d c Hl Hd Hin) as (_ & b & Hb & Hok).
  exists b. split; [exact Hb |].
  pose proof (block_ok_bounds t d b Hd Hok). change MAX_SLOTS with 32. lia.
Qed.

Lemma pool_ok_ZB_I1 pool :
  pool_ok PAGE_SHIFT SIZEOF_BLOCK OFFSETOF_NODE head_addr pool ->
  pool_ZB_I1 PAGE_SHIFT SIZEOF_BLOCK pool.
Proof.
  intros [(_ & _ & Hblocks & _) _] t l d block Hl Hd Hin.
  destruct (Hblocks t l d block Hl Hd Hin) as (_ & b & Hb & _ & Hinv & _).
  eauto.
Qed.

(** A pool that has just been created is in order. *)
Lemma create_pool_ok ok pool :
  zblock_create_pool PAGE_SHIFT SIZEOF_BLOCK ok = Some pool ->
  pool_ok PAGE_SHIFT SIZEOF_BLOCK OFFSETOF_NODE head_addr pool.
Proof.
  unfold zblock_create_pool. destruct (negb ok); [discriminate |].
  destruct (last descs) as [d |]; [| discriminate].
  destruct (slot_size d <? PAGE_SIZE PAGE_SHIFT); [discriminate |].
  intros H. injection H as <-. split; [| reflexivity].
  cbn [block_lists pages].
  assert (forall t l,
            replicate (length descs)
              {| head := []; block_cache := replicate (Z.to_nat BLOCK_CACHE_SIZE) 0;
                 block_count := 0 |} !! t = Some l ->
            l = {| head := []; block_cache := replicate (Z.to_nat BLOCK_CACHE_SIZE) 0;
                   block_count := 0 |}) as Hrep.
  { intros t l H. apply lookup_replicate in H as [-> _]. reflexivity. }
  split; [reflexivity |]. split; [| split; [| split; [| split]]].
  - intros t l H. rewrite (Hrep t l H). split; [apply length_replicate |].
    split; [constructor |]. simpl. split.
    + intros i j c Hi _ Hc.
      apply (lookup_replicate 32 0 c i) in Hi as [-> _]. congruence.
    + intros i c Hi Hc.
      apply (lookup_replicate 32 0 c i) in Hi as [-> _]. congruence.
  - intros t l d0 block H _ Hin. rewrite (Hrep t l H) in Hin. inversion Hin.
  - intros t1 t2 l1 l2 block H1 _ Hin. rewrite (Hrep t1 l1 H1) in Hin.
    inversion Hin.
  - intros t _. apply lookup_empty.
  - intros t l block H Hin. rewrite (Hrep t l H) in Hin. inversion Hin.
Qed.

(** [zblock_alloc] from [check] on. *)
Lemma alloc_check_ok pool t l fresh junk :
  pool_ok PAGE_SHIFT SIZEOF_BLOCK OFFSETOF_NODE head_addr pool ->
  block_lists pool !! t = Some l ->
  fresh_pages PAGE_SHIFT SIZEOF_BLOCK OFFSETOF_NODE head_addr pool fresh junk ->
  exists ret handle pool',
    zblock_alloc_check PAGE_SHIFT SIZEOF_BLOCK pool (Z.of_nat t) fresh junk
    = Done (ret, handle, pool') /\
    pool_ok PAGE_SHIFT SIZEOF_BLOCK OFFSETOF_NODE head_addr pool'.
Proof.
  intros [Hwf Hflag] Hl [Hjunk Hfresh].
  destruct (wf_desc _ _ t l Hwf Hl) as [d Hd].
  assert (desc_at PAGE_SHIFT SIZEOF_BLOCK (Z.of_nat t) = Done d) as Hdesc
    by (apply desc_at_Done; rewrite Nat2Z.id; split; [lia | exact Hd]).
  pose proof (desc_slots_range _ _ _ _ Hd) as Hspb.
  change MAX_SLOTS with 32 in Hspb.
  unfold zblock_alloc_check.
  rewrite (proj2 (list_at_Done pool (Z.of_nat t) l)), bind_Done
    by (rewrite Nat2Z.id; split; [lia | exact Hl]).
  unfold cache_find_block.
  destruct (cache_find_loop_spec (pages pool) (block_cache l))
    as (c & -> & Hc).
  { intros c Hc Hnz. destruct (wf_cache_live _ _ t l c Hwf Hl Hc Hnz)
      as (_ & b & Hb & _). eauto. }
  rewrite bind_Done.
  destruct Hc as [-> | (Hnz & Hin & b & Hb & Hfs)].
  - simpl negb at 1. cbv iota. rewrite Hflag. simpl negb. cbv iota.
    unfold alloc_block. rewrite Hdesc, bind_Done.
    destruct (Z.eqb_spec fresh 0) as [E0 | Hnz].
    + rewrite bind_Done. simpl. do 3 eexists. split; [reflexivity |].
      split; [exact Hwf | reflexivity].
    + destruct (Hfresh Hnz) as (Hnew & Hne & Hrange & Haligned).
      rewrite (proj2 (list_at_Done (set_alloc_flag pool 1) (Z.of_nat t) l)), bind_Done
        by (rewrite Nat2Z.id; split; [lia | exact Hl]).
      set (b1 := {| slot_info :=
                      replicate (Z.to_nat (slots_per_block d)) SLOT_FREE ++
                      drop (Z.to_nat (slots_per_block d)) (slot_info junk);
                    free_slots := slots_per_block d;
                    under_reclaim := false |}).
      cbn [pages set_alloc_flag].
      destruct (Hwf) as (_ & Hlists & _).
      destruct (Hlists t l Hl) as (Hclen & _).
      destruct (cache_insert_block_spec (<[fresh := b1]> (pages pool)) fresh
                  {| head := fresh :: head l; block_cache := block_cache l;
                     block_count := block_count l |}) as (j & Hj & ->).
      { exact Hclen. }
      { simpl. intros c Hc Hcnz.
        destruct (wf_cache_live _ _ t l c Hwf Hl Hc Hcnz) as (_ & b & Hb & Hlt).
        exists b. split; [| exact Hlt]. rewrite lookup_insert_ne; [exact Hb |].
        intros ->. congruence. }
      rewrite bind_Done. cbn [head block_cache block_count].
      rewrite bind_Done. cbn beta iota.
      destruct (Z.eqb_spec fresh 0); [contradiction |]. simpl negb. cbv iota.
      match goal with
      | |- context [zblock_alloc_found _ _ ?p _ _] => set (p1 := p)
      end.
      destruct (alloc_found_ok PAGE_SHIFT SIZEOF_BLOCK p1 (Z.of_nat t) fresh d b1
                  Hdesc) as (_ & _ & b2 & -> & _ & Hcnt & Hur & Hlen2 & Hinv2).
      { unfold p1. simpl. apply lookup_insert_eq. }
      { unfold b1. simpl. rewrite length_app, length_replicate, length_drop, Hjunk.
        change (Z.to_nat MAX_SLOTS) with 32%nat. lia. }
      { unfold ZB_I1, b1. simpl. rewrite count_free_replicate by lia. reflexivity. }
      { unfold b1. simpl. lia. }
      do 3 eexists. split; [reflexivity |]. split; [| reflexivity].
      unfold p1. simpl. rewrite Nat2Z.id, insert_insert_eq.
      apply (wf_add _ _ t l d); auto.
      split; [exact Hlen2 |]. split; [exact Hinv2 |].
      split; [rewrite Hcnt; unfold b1; simpl; lia |].
      rewrite Hur. reflexivity.
  - destruct (Z.eqb_spec c 0); [contradiction |]. simpl negb. cbv iota.
    destruct (wf_cache_live _ _ t l c Hwf Hl Hin Hnz) as (Hhead & _).
    pose proof Hwf as (_ & _ & Hblocks & _).
    destruct (Hblocks t l d c Hl Hd Hhead) as (_ & b0 & Hb0 & Hok).
    assert (b0 = b) as -> by congruence.
    pose proof (block_ok_bounds t d b Hd Hok) as Hb_bounds.
    destruct Hok as (Hlen & Hinv & Hlt & Hur).
    destruct (alloc_found_ok PAGE_SHIFT SIZEOF_BLOCK pool (Z.of_nat t) c d b
                Hdesc Hb Hlen Hinv ltac:(lia))
      as (_ & _ & b2 & -> & _ & Hcnt & Hur2 & Hlen2 & Hinv2).
    do 3 eexists. split; [reflexivity |]. split; [| reflexivity].
    simpl. apply (wf_set_block _ _ t l d); auto.
    split; [exact Hlen2 |]. split; [exact Hinv2 |]. split; [lia | congruence].
Qed.

Lemma alloc_ok pool size fresh junk :
  zblock_create_pool PAGE_SHIFT SIZEOF_BLOCK true <> None ->
  pool_ok PAGE_SHIFT SIZEOF_BLOCK OFFSETOF_NODE head_addr pool ->
  fresh_pages PAGE_SHIFT SIZEOF_BLOCK OFFSETOF_NODE head_addr pool fresh junk ->
  exists ret handle pool',
    zblock_alloc PAGE_SHIFT SIZEOF_BLOCK pool size fresh junk
    = Done (ret, handle, pool') /\
    pool_ok PAGE_SHIFT SIZEOF_BLOCK OFFSETOF_NODE head_addr pool'.
Proof.
  intros Hcreated Hok Hfresh. unfold zblock_alloc.
  destruct (size =? 0); [eauto |].
  destruct (Z.ltb_spec (PAGE_SIZE PAGE_SHIFT) size); [eauto |].
  pose proof (find_block_type_in_table PAGE_SHIFT SIZEOF_BLOCK size Hcreated
                ltac:(lia)) as Hin.
  set (t := find_block_type PAGE_SHIFT SIZEOF_BLOCK size) in *.
  destruct Hok as [Hwf Hflag]. pose proof Hwf as (Hlen & _).
  unfold ARRAY_SIZE_block_desc in Hin.
  destruct (lookup_lt_is_Some_2 (block_lists pool) (Z.to_nat t)) as [l Hl];
    [rewrite Hlen; lia |].
  rewrite <- (Z2Nat.id t) by lia.
  apply (alloc_check_ok pool (Z.to_nat t) l); [split |  |]; assumption.
Qed.

Lemma store_slot_Done b slot v :
  0 <= slot < MAX_SLOTS ->
  store_slot b slot v =
  Done {| slot_info := <[Z.to_nat slot := v]> (slot_info b);
          free_slots := free_slots b; under_reclaim := under_reclaim b |}.
Proof.
  intros H. unfold store_slot.
  destruct (Z.ltb_spec slot 0); [lia |].
  destruct (Z.leb_spec MAX_SLOTS slot); [lia | reflexivity].
Qed.

(** What a handle in use gives in a pool in order. *)
Lemma handle_in_use_block pool block t slot :
  pool_ok PAGE_SHIFT SIZEOF_BLOCK OFFSETOF_NODE head_addr pool ->
  (exists l d b st,
     0 <= t /\ block_lists pool !! Z.to_nat t = Some l /\
     descs !! Z.to_nat t = Some d /\ block ∈ head l /\
     pages pool !! block = Some b /\ 0 <= slot < slots_per_block d /\
     slot_info b !! Z.to_nat slot = Some st /\ st <> SLOT_FREE) ->
  exists l d b st,
    list_at pool t = Done l /\ desc_at PAGE_SHIFT SIZEOF_BLOCK t = Done d /\
    block_lists pool !! Z.to_nat t = Some l /\ descs !! Z.to_nat t = Some d /\
    block ∈ head l /\ pages pool !! block = Some b /\ block_ok d b /\
    0 <= slot < slots_per_block d /\ slots_per_block d <= 32 /\
    0 <= free_slots b < slots_per_block d /\
    slot_info b !! Z.to_nat slot = Some st /\ st <> SLOT_FREE.
Proof.
  intros [Hwf _] (l & d & b & st & Ht & Hl & Hd & Hin & Hb & Hslot & Hst & Hnf).
  pose proof Hwf as (_ & _ & Hblocks & _).
  destruct (Hblocks _ l d block Hl Hd Hin) as (_ & b0 & Hb0 & Hok).
  assert (b0 = b) as -> by congruence.
  pose proof (block_ok_bounds _ d b Hd Hok) as (Hfs & Hspb & _).
  exists l, d, b, st.
  split; [apply list_at_Done; auto |].
  split; [apply desc_at_Done; auto |].
  repeat (split; [first [assumption | lia] |]). assumption.
Qed.

Lemma free_ok pool handle :
  pool_ok PAGE_SHIFT SIZEOF_BLOCK OFFSETOF_NODE head_addr pool ->
  handle_in_use PAGE_SHIFT SIZEOF_BLOCK pool handle ->
  exists pool',
    zblock_free PAGE_SHIFT SIZEOF_BLOCK pool handle = Done pool' /\
    pool_ok PAGE_SHIFT SIZEOF_BLOCK OFFSETOF_NODE head_addr pool'.
Proof.
  intros Hok Huse. unfold zblock_free, handle_in_use in *.
  destruct (handle_to_metadata PAGE_SHIFT handle) as [[block t] slot].
  destruct (handle_in_use_block pool block t slot Hok Huse)
    as (l & d & b & st & Hlist & Hdesc & Hl & Hd & Hin & Hb & Hbok & Hslot
        & Hspb & Hfs & Hst & Hnf).
  destruct Hok as [Hwf Hflag].
  pose proof Hwf as (_ & Hlists & _).
  destruct (Hlists _ l Hl) as (Hclen & Hnd & Hcdup & Hcin).
  pose proof Hbok as (Hlen & Hinv & _ & Hur).
  unfold zblock_free_slot.
  rewrite (proj2 (deref_Done _ _ _) Hb), bind_Done, Hur, Hlist, bind_Done.
  cbn [set_free_slots set_block pages free_slots].
  rewrite (u32_small (free_slots b + 1)) by lia.
  rewrite Hdesc, bind_Done.
  destruct (Z.eqb_spec (free_slots b + 1) (slots_per_block d)) as [Efull | Npart].
  - (* the block is deleted *)
    match goal with
    | |- context [list_at ?p t] =>
        assert (list_at p t
                = Done {| head := filter (fun x => x ≠ block) (head l);
                          block_cache := block_cache l;
                          block_count := block_count l |}) as ->
    end.
    { apply list_at_Done. split; [apply list_at_Done in Hlist; tauto |].
      simpl. unfold list_del. rewrite list_lookup_fmap, Hl. reflexivity. }
    rewrite bind_Done. eexists. split; [reflexivity |].
    split; [| exact Hflag]. cbn. rewrite delete_insert_eq.
    apply (wf_remove _ _ _ l); auto.
    + destruct (is_in_cache block l =? -1); simpl;
        [exact Hclen | now rewrite length_insert].
    + intros k c Hk Hc.
      destruct (is_in_cache_spec block l) as [[E Hnotin] | [Hr Hat]].
      * rewrite E in Hk. simpl in Hk. split; [exact Hk |].
        intros ->. apply Hnotin. apply list_elem_of_lookup. eauto.
      * destruct (Z.eqb_spec (is_in_cache block l) (-1)) as [E | N]; [lia |].
        simpl in Hk.
        apply list_lookup_insert_Some in Hk as [(_ & E0 & _) | [Hne Hk]];
          [congruence |].
        split; [exact Hk |]. intros ->. apply Hne. eapply Hcdup; eauto.
  - (* the slot becomes free *)
    assert (exists cache',
              (if is_in_cache block l =? -1
               then cache_insert_block
                      (<[block := set_free_slots b (free_slots b + 1)]> (pages pool))
                      block l
               else Done l)
              = Done (mk_list (head l) cache' (block_count l)) /\
              length cache' = Z.to_nat BLOCK_CACHE_SIZE /\
              (forall i j c, cache' !! i = Some c -> cache' !! j = Some c ->
                             c <> 0 -> i = j) /\
              (forall i c, cache' !! i = Some c -> c <> 0 -> c ∈ head l))
      as (cache' & -> & Hclen' & Hcdup' & Hcin').
    { destruct (is_in_cache_spec block l) as [[E Hnotin] | [Hr Hat]].
      - rewrite E. simpl.
        destruct (cache_insert_block_spec
                    (<[block := set_free_slots b (free_slots b + 1)]> (pages pool))
                    block l Hclen) as (j & Hj & ->).
        { intros c Hc Hnz.
          destruct (wf_cache_live _ _ _ l c Hwf Hl Hc Hnz) as (_ & b0 & Hb0 & Hlt).
          exists b0. split; [| exact Hlt]. rewrite lookup_insert_ne; [exact Hb0 |].
          intros ->. contradiction. }
        eexists. split; [reflexivity |].
        split; [now rewrite length_insert |]. split.
        + intros i1 i2 c H1 H2 Hc.
          apply list_lookup_insert_Some in H1 as [(-> & -> & _) | [N1 H1]];
            apply list_lookup_insert_Some in H2 as [(E2 & E2' & _) | [N2 H2]];
            subst; auto.
          * exfalso. apply Hnotin. apply list_elem_of_lookup. eauto.
          * exfalso. apply Hnotin. apply list_elem_of_lookup. eauto.
          * eapply Hcdup; eauto.
        + intros i c H Hc.
          apply list_lookup_insert_Some in H as [(-> & -> & _) | [N H]];
            [exact Hin | eapply Hcin; eauto].
      - destruct (Z.eqb_spec (is_in_cache block l) (-1)) as [E | N]; [lia |].
        exists (block_cache l). split; [now destruct l |]. auto. }
    rewrite bind_Done.
    rewrite store_slot_Done by (change MAX_SLOTS with 32; lia).
    rewrite bind_Done. eexists. split; [reflexivity |].
    split; [| exact Hflag]. cbn. rewrite insert_insert_eq.
    apply (wf_update _ _ _ l d); auto.
    split; [simpl; now rewrite length_insert |].
    split; [| split; [simpl; lia | exact Hur]].
    unfold ZB_I1. simpl.
    rewrite (count_free_store _ _ slot st) by (lia || assumption).
    unfold ZB_I1 in Hinv. unfold is_free.
    rewrite decide_False by exact Hnf. rewrite decide_True by reflexivity. lia.
Qed.

(** [zblock_map] and [zblock_unmap] only change the state of a slot in
    use to another state in use. *)
Lemma restate_ok pool block t slot v :
  pool_ok PAGE_SHIFT SIZEOF_BLOCK OFFSETOF_NODE head_addr pool ->
  (exists l d b st,
     0 <= t /\ block_lists pool !! Z.to_nat t = Some l /\
     descs !! Z.to_nat t = Some d /\ block ∈ head l /\
     pages pool !! block = Some b /\ 0 <= slot < slots_per_block d /\
     slot_info b !! Z.to_nat slot = Some st /\ st <> SLOT_FREE) ->
  v <> SLOT_FREE ->
  exists b b' d,
    deref (pages pool) block = Done b /\
    store_slot b slot v = Done b' /\
    desc_at PAGE_SHIFT SIZEOF_BLOCK t = Done d /\
    pool_ok PAGE_SHIFT SIZEOF_BLOCK OFFSETOF_NODE head_addr
      (set_block pool block b').
Proof.
  intros Hok Huse Hv.
  destruct (handle_in_use_block pool block t slot Hok Huse)
    as (l & d & b & st & Hlist & Hdesc & Hl & Hd & Hin & Hb & Hbok & Hslot
        & Hspb & Hfs & Hst & Hnf).
  destruct Hok as [Hwf Hflag]. destruct Hbok as (Hlen & Hinv & Hlt & Hur).
  exists b. eexists. exists d.
  split; [now apply deref_Done |].
  split; [apply store_slot_Done; change MAX_SLOTS with 32; lia |].
  split; [exact Hdesc |]. split; [| exact Hflag]. simpl.
  apply (wf_set_block _ _ (Z.to_nat t) l d); auto.
  split; [simpl; now rewrite length_insert |].
  split; [| split; [exact Hlt | exact Hur]].
  unfold ZB_I1 in *. simpl.
  rewrite (count_free_store _ _ slot st) by (lia || assumption).
  unfold is_free. rewrite !decide_False by assumption. lia.
Qed.

Lemma map_ok pool handle :
  pool_ok PAGE_SHIFT SIZEOF_BLOCK OFFSETOF_NODE head_addr pool ->
  handle_in_use PAGE_SHIFT SIZEOF_BLOCK pool handle ->
  exists ptr pool',
    zblock_map PAGE_SHIFT SIZEOF_BLOCK pool handle = Done (ptr, pool') /\
    pool_ok PAGE_SHIFT SIZEOF_BLOCK OFFSETOF_NODE head_addr pool'.
Proof.
  intros Hok Huse. unfold zblock_map, handle_in_use in *.
  destruct (handle_to_metadata PAGE_SHIFT handle) as [[block t] slot].
  destruct (restate_ok pool block t slot SLOT_MAPPED Hok Huse)
    as (b & b' & d & Hb & Hb' & Hd & Hok'); [discriminate |].
  unfold zblock_map_slot. rewrite Hb, bind_Done, Hb', bind_Done, Hd, bind_Done.
  eauto.
Qed.

Lemma unmap_ok pool handle :
  pool_ok PAGE_SHIFT SIZEOF_BLOCK OFFSETOF_NODE head_addr pool ->
  handle_in_use PAGE_SHIFT SIZEOF_BLOCK pool handle ->
  exists pool',
    zblock_unmap PAGE_SHIFT pool handle = Done pool' /\
    pool_ok PAGE_SHIFT SIZEOF_BLOCK OFFSETOF_NODE head_addr pool'.
Proof.
  intros Hok Huse. unfold zblock_unmap, handle_in_use in *.
  destruct (handle_to_metadata PAGE_SHIFT handle) as [[block t] slot].
  destruct (restate_ok pool block t slot SLOT_UNMAPPED Hok Huse)
    as (b & b' & d & Hb & Hb' & Hd & Hok'); [discriminate |].
  unfold zblock_unmap_slot. rewrite Hb, bind_Done, Hb', bind_Done.
  eauto.
Qed.

(** A linked block that is not cached is put in the cache. *)
Lemma cache_put_ok l j block :
  list_ok l -> block ∉ block_cache l -> block ∈ head l ->
  length (<[j := block]> (block_cache l)) = Z.to_nat BLOCK_CACHE_SIZE /\
  (forall i1 i2 c,
     <[j := block]> (block_cache l) !! i1 = Some c ->
     <[j := block]> (block_cache l) !! i2 = Some c -> c <> 0 -> i1 = i2) /\
  (forall i c, <[j := block]> (block_cache l) !! i = Some c -> c <> 0 ->
               c ∈ head l).
Proof.
  intros (Hclen & _ & Hcdup & Hcin) Hnotin Hin.
  split; [now rewrite length_insert |]. split.
  - intros i1 i2 c H1 H2 Hc.
    apply list_lookup_insert_Some in H1 as [(-> & -> & _) | [N1 H1]];
      apply list_lookup_insert_Some in H2 as [(E2 & E2' & _) | [N2 H2]];
      subst; auto.
    + exfalso. apply Hnotin. apply list_elem_of_lookup. eauto.
    + exfalso. apply Hnotin. apply list_elem_of_lookup. eauto.
    + eapply Hcdup; eauto.
  - intros i c H Hc.
    apply list_lookup_insert_Some in H as [(-> & -> & _) | [N H]];
      [exact Hin | eapply Hcin; eauto].
Qed.

Section ReclaimProps.

Variable evict : zblock_pool -> Z -> Z * zblock_pool.

Hypothesis PAGE_SHIFT_range : 0 <= PAGE_SHIFT < 64.
Hypothesis table_fits :
  ARRAY_SIZE_block_desc PAGE_SHIFT SIZEOF_BLOCK
  <= Z.shiftr (PAGE_SIZE PAGE_SHIFT) SLOT_BITS.

Lemma table_fits_bytes : 29 * 32 <= PAGE_SIZE PAGE_SHIFT /\ 5 <= PAGE_SHIFT.
Proof.
  pose proof table_fits as Hfit.
  change (ARRAY_SIZE_block_desc PAGE_SHIFT SIZEOF_BLOCK) with 29 in Hfit.
  unfold SLOT_BITS in Hfit.
  rewrite Z.shiftr_div_pow2 in Hfit by lia. change (2 ^ 5) with 32 in Hfit.
  assert (29 * 32 <= PAGE_SIZE PAGE_SHIFT) as Hsize by divlia.
  split; [exact Hsize |].
  destruct (Z_lt_le_dec PAGE_SHIFT 5) as [Hlt | Hge]; [| exact Hge].
  rewrite PAGE_SIZE_pow2 in Hsize by exact PAGE_SHIFT_range.
  pose proof (pow2_le_mono PAGE_SHIFT 4 ltac:(lia)). simpl in *. lia.
Qed.

(** The calls of a callback for the handle of a slot in use of a block
    under reclaim only change the state of that slot, to a state in
    use. *)
Lemma callback_calls_spec handle block t slot d :
  handle_to_metadata PAGE_SHIFT handle = (block, t, slot) ->
  desc_at PAGE_SHIFT SIZEOF_BLOCK t = Done d ->
  0 <= slot < MAX_SLOTS ->
  forall p p',
    callback_calls PAGE_SHIFT SIZEOF_BLOCK handle p p' ->
    forall b st,
      pages p !! block = Some b -> under_reclaim b = true ->
      slot_info b !! Z.to_nat slot = Some st -> st <> SLOT_FREE ->
      block_lists p' = block_lists p /\ alloc_flag p' = alloc_flag p /\
      exists b' st',
        pages p' = <[block := b']> (pages p) /\
        under_reclaim b' = true /\ free_slots b' = free_slots b /\
        slot_info b' = <[Z.to_nat slot := st']> (slot_info b) /\
        st' <> SLOT_FREE.
Proof.
  intros Hdec Hdesc Hslot p p' Hcalls.
  assert (forall q b v,
            pages q !! block = Some b -> under_reclaim b = true ->
            v <> SLOT_FREE ->
            forall q' b1,
              block_lists q' = block_lists (set_block q block b1) /\
              alloc_flag q' = alloc_flag (set_block q block b1) /\
              (exists b' st',
                 pages q' = <[block := b']> (pages (set_block q block b1)) /\
                 under_reclaim b' = true /\ free_slots b' = free_slots b1 /\
                 slot_info b' = <[Z.to_nat slot := st']> (slot_info b1) /\
                 st' <> SLOT_FREE) ->
              b1 = {| slot_info := <[Z.to_nat slot := v]> (slot_info b);
                      free_slots := free_slots b;
                      under_reclaim := under_reclaim b |} ->
              block_lists q' = block_lists q /\ alloc_flag q' = alloc_flag q /\
              exists b' st',
                pages q' = <[block := b']> (pages q) /\
                under_reclaim b' = true /\ free_slots b' = free_slots b /\
                slot_info b' = <[Z.to_nat slot := st']> (slot_info b) /\
                st' <> SLOT_FREE) as Hchain.
  { intros q b v Hb Hur Hv q' b1
      (Hls & Hfl & b' & st' & Hpg & Hur' & Hfs & Hinfo & Hst') ->.
    simpl in *. split; [exact Hls |]. split; [exact Hfl |].
    exists b', st'. rewrite Hpg, insert_insert_eq, Hinfo, list_insert_insert_eq.
    auto. }
  induction Hcalls as [p | p ptr p1 p2 Hmap _ IH | p p1 p2 Hunmap _ IH
                       | p p1 p2 Hfree _ IH];
    intros b st Hb Hur Hst Hnf.
  - split; [reflexivity |]. split; [reflexivity |].
    exists b, st. rewrite insert_id by exact Hb.
    rewrite list_insert_id by exact Hst. auto.
  - unfold zblock_map in Hmap. rewrite Hdec in Hmap.
    unfold zblock_map_slot in Hmap.
    rewrite (proj2 (deref_Done _ _ _) Hb), bind_Done, store_slot_Done, bind_Done,
      Hdesc, bind_Done in Hmap by exact Hslot.
    injection Hmap as _ <-.
    eapply (Hchain p b SLOT_MAPPED Hb Hur ltac:(discriminate) p2 _);
      [| reflexivity].
    apply (IH _ SLOT_MAPPED); simpl; auto; try discriminate;
      [apply lookup_insert_eq
      | apply list_lookup_insert_eq; apply lookup_lt_Some in Hst; exact Hst].
  - unfold zblock_unmap in Hunmap. rewrite Hdec in Hunmap.
    unfold zblock_unmap_slot in Hunmap.
    rewrite (proj2 (deref_Done _ _ _) Hb), bind_Done, store_slot_Done, bind_Done
      in Hunmap by exact Hslot.
    injection Hunmap as <-.
    eapply (Hchain p b SLOT_UNMAPPED Hb Hur ltac:(discriminate) p2 _);
      [| reflexivity].
    apply (IH _ SLOT_UNMAPPED); simpl; auto; try discriminate;
      [apply lookup_insert_eq
      | apply list_lookup_insert_eq; apply lookup_lt_Some in Hst; exact Hst].
  - unfold zblock_free in Hfree. rewrite Hdec in Hfree.
    unfold zblock_free_slot in Hfree.
    rewrite (proj2 (deref_Done _ _ _) Hb), bind_Done, Hur in Hfree.
    injection Hfree as <-. now apply (IH b st).
Qed.

Hypothesis evict_calls : callback_ok PAGE_SHIFT SIZEOF_BLOCK evict.

(** The slot loop of [zblock_reclaim_block] keeps the free count of
    the block right, whatever the callback answers. *)
Lemma evict_slots_spec d block t :
  0 <= block < 2 ^ 64 -> block mod PAGE_SIZE PAGE_SHIFT = 0 ->
  desc_at PAGE_SHIFT SIZEOF_BLOCK t = Done d ->
  forall n slot q reclaimed b,
  pages q !! block = Some b -> under_reclaim b = true ->
  length (slot_info b) = Z.to_nat MAX_SLOTS -> ZB_I1 d b ->
  0 <= slot -> slot + Z.of_nat n <= slots_per_block d ->
  exists q' r b',
    evict_slots evict n slot block t q reclaimed = Done (q', r) /\
    block_lists q' = block_lists q /\ alloc_flag q' = alloc_flag q /\
    pages q' = <[block := b']> (pages q) /\
    length (slot_info b') = Z.to_nat MAX_SLOTS /\ ZB_I1 d b' /\
    under_reclaim b' = true.
Proof.
  intros Hrange Haligned Hdesc.
  apply desc_at_Done in Hdesc as Hd. destruct Hd as [Ht Hd].
  pose proof (desc_slots_range _ _ _ _ Hd) as Hspb.
  assert (t < 29) as Ht29.
  { apply lookup_lt_Some in Hd. change (length descs) with 29%nat in Hd. lia. }
  destruct table_fits_bytes as [Hbytes H5].
  change MAX_SLOTS with 32 in *. change (Z.to_nat 32) with 32%nat.
  induction n as [| n IH]; intros slot q reclaimed b Hb Hur Hlen Hinv Hslot Hn.
  - exists q, reclaimed, b. simpl. repeat split; auto.
    now rewrite insert_id.
  - cbn [evict_slots]. rewrite (proj2 (deref_Done _ _ _) Hb), bind_Done.
    destruct (lookup_lt_is_Some_2 (slot_info b) (Z.to_nat slot)) as [st Hst];
      [lia |].
    rewrite Hst.
    destruct ((st =? SLOT_OCCUPIED) || (st =? SLOT_UNMAPPED)) eqn:Hused;
      [| apply (IH _ _ _ b); auto; lia].
    assert (st <> SLOT_FREE) as Hnf by (intros ->; discriminate).
    set (handle := metadata_to_handle block t slot).
    assert (handle_to_metadata PAGE_SHIFT handle = (block, t, slot)) as Hdec
      by (apply handle_decode; simpl; lia).
    pose proof (evict_calls q handle) as Hcalls.
    destruct (evict q handle) as [ret q1]. simpl in Hcalls.
    assert (0 <= slot < MAX_SLOTS) as Hslot32 by (change MAX_SLOTS with 32; lia).
    destruct (callback_calls_spec handle block t slot d Hdec Hdesc Hslot32
                q q1 Hcalls b st Hb Hur Hst Hnf)
      as (Hls1 & Hfl1 & b1 & st1 & Hpg1 & Hur1 & Hfs1 & Hinfo1 & Hnf1).
    assert (length (slot_info b1) = 32%nat) as Hlen1
      by (rewrite Hinfo1, length_insert; exact Hlen).
    assert (slot_info b1 !! Z.to_nat slot = Some st1) as Hst1
      by (rewrite Hinfo1; apply list_lookup_insert_eq; lia).
    assert (ZB_I1 d b1) as Hinv1.
    { unfold ZB_I1 in *. rewrite Hfs1, Hinfo1.
      rewrite (count_free_store _ _ slot st) by (lia || assumption).
      unfold is_free. rewrite !decide_False by assumption. lia. }
    assert (pages q1 !! block = Some b1) as Hb1
      by (rewrite Hpg1; apply lookup_insert_eq).
    destruct (ret =? 0); simpl negb; cbv iota.
    + rewrite (proj2 (deref_Done _ _ _) Hb1), bind_Done.
      rewrite store_slot_Done by (change MAX_SLOTS with 32; lia).
      rewrite bind_Done. cbn [set_free_slots slot_info free_slots under_reclaim].
      pose proof (count_free_bound (slots_per_block d) (slot_info b1)) as Hcb.
      unfold ZB_I1 in Hinv1.
      rewrite (u32_small (free_slots b1 + 1)) by lia.
      set (b2 := {| slot_info := <[Z.to_nat slot := SLOT_FREE]> (slot_info b1);
                    free_slots := free_slots b1 + 1;
                    under_reclaim := under_reclaim b1 |}).
      destruct (IH (slot + 1) (set_block q1 block b2) (s32 (reclaimed + 1)) b2)
        as (q' & r & b' & Hrun & Hls & Hfl & Hpg & Hlen' & Hinv' & Hur');
        try lia.
      { simpl. apply lookup_insert_eq. }
      { exact Hur1. }
      { unfold b2. simpl. now rewrite length_insert. }
      { unfold ZB_I1, b2. simpl.
        rewrite (count_free_store _ _ slot st1) by (lia || assumption).
        unfold is_free. rewrite decide_False by exact Hnf1.
        rewrite decide_True by reflexivity. lia. }
      exists q', r, b'. split; [exact Hrun |].
      split; [rewrite Hls; exact Hls1 |]. split; [rewrite Hfl; exact Hfl1 |].
      split; [rewrite Hpg; simpl; rewrite Hpg1, !insert_insert_eq; reflexivity |].
      auto.
    + exists q1, reclaimed, b1. repeat split; auto.
Qed.

#[local] Abbreviation reclaim_type :=
  (zblock_reclaim_type PAGE_SHIFT SIZEOF_BLOCK OFFSETOF_NODE head_addr evict).

Lemma reclaim_type_ok pool t r :
  pool_ok PAGE_SHIFT SIZEOF_BLOCK OFFSETOF_NODE head_addr pool ->
  reclaim_type (Z.of_nat t) pool = Done r ->
  match r with
  | None => True
  | Some (_, pool') =>
      pool_ok PAGE_SHIFT SIZEOF_BLOCK OFFSETOF_NODE head_addr pool'
  end.
Proof.
  intros [Hwf Hflag]. unfold zblock_reclaim_type.
  destruct (list_at pool (Z.of_nat t)) as [l | f] eqn:Hlist; [| discriminate].
  apply list_at_Done in Hlist as Hl. destruct Hl as [_ Hl].
  rewrite Nat2Z.id in Hl. rewrite bind_Done.
  destruct (wf_desc _ _ t l Hwf Hl) as [d Hd].
  assert (desc_at PAGE_SHIFT SIZEOF_BLOCK (Z.of_nat t) = Done d) as Hdesc
    by (apply desc_at_Done; rewrite Nat2Z.id; split; [lia | exact Hd]).
  pose proof (desc_slots_range _ _ _ _ Hd) as Hspb.
  change MAX_SLOTS with 32 in Hspb.
  pose proof Hwf as (_ & Hlists & Hblocks & _ & Hno & Hal).
  pose proof (Hlists t l Hl) as Hlok.
  set (block := list_last_entry OFFSETOF_NODE head_addr (Z.of_nat t) l).
  destruct (block =? 0); [intros [= <-]; exact I |].
  destruct (is_in_cache_spec block l) as [[E Hnotin] | [Hr Hat]];
    [rewrite E; simpl negb; cbv iota
    | destruct (Z.eqb_spec (is_in_cache block l) (-1)) as [? | _];
      [lia | intros [= <-]; exact I]].
  destruct (last (head l)) as [blk |] eqn:Hlast.
  2: { assert (block = noent (Z.of_nat t)) as ->
         by (unfold block, list_last_entry; now rewrite Hlast).
       unfold deref. rewrite Hno; [discriminate |].
       apply lookup_lt_Some in Hd. unfold ARRAY_SIZE_block_desc. lia. }
  assert (block = blk) as Eblk
    by (unfold block, list_last_entry; now rewrite Hlast).
  assert (block ∈ head l) as Hin
    by (rewrite Eblk; now apply last_Some_elem_of).
  destruct (Hblocks t l d block Hl Hd Hin) as (Hnz & b & Hb & Hbok).
  destruct (Hal t l block Hl Hin) as [Hrange Haligned].
  pose proof (block_ok_bounds t d b Hd Hbok) as (Hfs & _).
  destruct Hbok as (Hlen & Hinv & _ & Hur).
  rewrite (proj2 (deref_Done _ _ _) Hb), bind_Done, Hdesc, bind_Done.
  destruct (evict_slots_spec d block (Z.of_nat t) Hrange Haligned Hdesc
              (Z.to_nat (slots_per_block d)) 0
              (set_block pool block (set_under_reclaim b true)) 0
              (set_under_reclaim b true))
    as (q & n & b' & -> & Hls & Hfl & Hpg & Hlen' & Hinv' & _);
    try (simpl; auto; lia).
  { simpl. apply lookup_insert_eq. }
  simpl in Hls, Hfl, Hpg. rewrite insert_insert_eq in Hpg.
  rewrite bind_Done. cbn beta iota.
  assert (deref (pages q) block = Done b') as ->
    by (apply deref_Done; rewrite Hpg; apply lookup_insert_eq).
  rewrite bind_Done.
  assert (list_at q (Z.of_nat t) = Done l) as ->
    by (apply list_at_Done; rewrite Hls, Nat2Z.id; split; [lia | exact Hl]).
  rewrite bind_Done.
  pose proof (count_free_bound (slots_per_block d) (slot_info b')) as Hcb.
  unfold ZB_I1 in Hinv'.
  assert (forall ret pool',
            pool_ok PAGE_SHIFT SIZEOF_BLOCK OFFSETOF_NODE head_addr pool' ->
            (if negb (n =? 0) then Done (Some (n, pool'))
             else Done (Some (ret, pool'))) = Done r ->
            match r with
            | None => True
            | Some (_, pool'') =>
                pool_ok PAGE_SHIFT SIZEOF_BLOCK OFFSETOF_NODE head_addr pool''
            end) as Hret.
  { intros ret pool' Hok' H. destruct (negb (n =? 0)); injection H as <-; exact Hok'. }
  destruct (Z.eqb_spec (free_slots b') (slots_per_block d)) as [Efull | Npart];
    simpl negb; cbv iota.
  - (* all slots are free - delete this block *)
    match goal with
    | |- context [list_at ?p (Z.of_nat t)] =>
        assert (list_at p (Z.of_nat t)
                = Done {| head := filter (fun x => x ≠ block) (head l);
                          block_cache := block_cache l;
                          block_count := block_count l |}) as ->
    end.
    { apply list_at_Done. split; [lia |]. simpl. unfold list_del.
      rewrite Hls, Nat2Z.id, list_lookup_fmap, Hl. reflexivity. }
    rewrite !bind_Done. apply Hret.
    split; [| simpl; congruence]. cbn. rewrite Hls, Hpg, Nat2Z.id, delete_insert_eq.
    apply (wf_remove _ _ _ l); auto; [apply Hlok |].
    intros k c Hk Hc. split; [exact Hk |].
    intros ->. apply Hnotin. apply list_elem_of_lookup. eauto.
  - (* some occupied slots remained - insert block *)
    destruct (cache_insert_block_spec
                (pages (set_block q block (set_under_reclaim b' false))) block l)
      as (j & Hj & ->); [apply Hlok | |].
    { intros c Hc Hcnz.
      destruct (wf_cache_live _ _ t l c Hwf Hl Hc Hcnz) as (_ & b0 & Hb0 & Hlt).
      exists b0. split; [| exact Hlt]. simpl. rewrite Hpg.
      rewrite !lookup_insert_ne; [exact Hb0 | |]; intros ->; contradiction. }
    rewrite !bind_Done. apply Hret.
    split; [| simpl; congruence]. cbn. rewrite Hls, Hpg, Nat2Z.id, insert_insert_eq.
    destruct (cache_put_ok l j block Hlok Hnotin Hin) as (Hc1 & Hc2 & Hc3).
    apply (wf_update _ _ _ l d); auto.
    split; [exact Hlen' |]. split; [exact Hinv' |].
    split; [simpl; lia | reflexivity].
Qed.

Lemma reclaim_loop_ok : forall n pool ret pool',
  pool_ok PAGE_SHIFT SIZEOF_BLOCK OFFSETOF_NODE head_addr pool ->
  zblock_reclaim_loop PAGE_SHIFT SIZEOF_BLOCK OFFSETOF_NODE head_addr evict
    n pool = Done (ret, pool') ->
  pool_ok PAGE_SHIFT SIZEOF_BLOCK OFFSETOF_NODE head_addr pool'.
Proof.
  induction n as [| n IH]; intros pool ret pool' Hok; cbn [zblock_reclaim_loop].
  - intros [= _ <-]. exact Hok.
  - intros H. apply bind_Done_inv in H as (r & Hr & H).
    pose proof (reclaim_type_ok pool n r Hok Hr) as Hr'.
    destruct r as [[ret0 pool0] |].
    + injection H as _ <-. exact Hr'.
    + eapply IH; eauto.
Qed.

End ReclaimProps.

End PoolProps.

(** C6.  In a pool that is in order, every linked block has
    [free_slots] equal to the number of [SLOT_FREE] entries among its
    [slots_per_block] slots (ZB-I1), and the pool is in order again,
    with ZB-I1, after [zblock_alloc], after [zblock_free],
    [zblock_map] and [zblock_unmap] of a handle in use, and after a
    [zblock_reclaim_block] that returns, whose callback may map, unmap
    and free the handle it is given.  The first four always return
    under these conditions; a new pool is in order. *)
Theorem free_slots_counts_free_entries
    (PAGE_SHIFT SIZEOF_BLOCK OFFSETOF_NODE : Z) (head_addr : Z -> Z)
    (evict : zblock_pool -> Z -> Z * zblock_pool) (pool : zblock_pool)
    (Hshift : 0 <= PAGE_SHIFT < 64)
    (Hfit : ARRAY_SIZE_block_desc PAGE_SHIFT SIZEOF_BLOCK
            <= Z.shiftr (PAGE_SIZE PAGE_SHIFT) SLOT_BITS)
    (Hcreated : zblock_create_pool PAGE_SHIFT SIZEOF_BLOCK true <> None)
    (Hok : pool_ok PAGE_SHIFT SIZEOF_BLOCK OFFSETOF_NODE head_addr pool) :
  let ok := pool_ok PAGE_SHIFT SIZEOF_BLOCK OFFSETOF_NODE head_addr in
  let counted := pool_ZB_I1 PAGE_SHIFT SIZEOF_BLOCK in
  counted pool /\
  (forall pool0, zblock_create_pool PAGE_SHIFT SIZEOF_BLOCK true = Some pool0 ->
                 ok pool0 /\ counted pool0) /\
  (forall size fresh junk,
     fresh_pages PAGE_SHIFT SIZEOF_BLOCK OFFSETOF_NODE head_addr pool fresh junk ->
     exists ret handle pool',
       zblock_alloc PAGE_SHIFT SIZEOF_BLOCK pool size fresh junk
       = Done (ret, handle, pool') /\ ok pool' /\ counted pool') /\
  (forall handle,
     handle_in_use PAGE_SHIFT SIZEOF_BLOCK pool handle ->
     exists pool',
       zblock_free PAGE_SHIFT SIZEOF_BLOCK pool handle = Done pool' /\
       ok pool' /\ counted pool') /\
  (forall handle,
     handle_in_use PAGE_SHIFT SIZEOF_BLOCK pool handle ->
     exists ptr pool',
       zblock_map PAGE_SHIFT SIZEOF_BLOCK pool handle = Done (ptr, pool') /\
       ok pool' /\ counted pool') /\
  (forall handle,
     handle_in_use PAGE_SHIFT SIZEOF_BLOCK pool handle ->
     exists pool',
       zblock_unmap PAGE_SHIFT pool handle = Done pool' /\
       ok pool' /\ counted pool') /\
  (callback_ok PAGE_SHIFT SIZEOF_BLOCK evict ->
   forall ret pool',
     zblock_reclaim_block PAGE_SHIFT SIZEOF_BLOCK OFFSETOF_NODE head_addr evict
       pool = Done (ret, pool') ->
     ok pool' /\ counted pool').
Proof.
  intros ok counted. subst ok counted.
  pose proof (pool_ok_ZB_I1 PAGE_SHIFT SIZEOF_BLOCK OFFSETOF_NODE head_addr)
    as Hcounted.
  split; [now apply Hcounted |]. split; [| split; [| split; [| split; [| split]]]].
  - intros pool0 H0.
    pose proof (create_pool_ok _ _ OFFSETOF_NODE head_addr _ _ H0). auto.
  - intros size fresh junk Hfresh.
    destruct (alloc_ok _ _ _ _ pool size fresh junk Hcreated Hok Hfresh)
      as (ret & handle & pool' & Hrun & Hok').
    exists ret, handle, pool'. auto.
  - intros handle Huse.
    destruct (free_ok _ _ _ _ pool handle Hok Huse) as (pool' & Hrun & Hok').
    exists pool'. auto.
  - intros handle Huse.
    destruct (map_ok _ _ _ _ pool handle Hok Huse) as (ptr & pool' & Hrun & Hok').
    exists ptr, pool'. auto.
  - intros handle Huse.
    destruct (unmap_ok _ _ _ _ pool handle Hok Huse) as (pool' & Hrun & Hok').
    exists pool'. auto.
  - intros Hcb ret pool' Hrun.
    pose proof (reclaim_loop_ok _ _ _ _ evict Hshift Hfit Hcb _ pool ret pool'
                  Hok Hrun).
    auto.
Qed.

(** A callback in the manner of zswap's writeback: it maps the handle,
    unmaps it and frees it, and reports success. *)
Lemma map_unmap_free_callback_ok PAGE_SHIFT SIZEOF_BLOCK :
  callback_ok PAGE_SHIFT SIZEOF_BLOCK
    (fun pool handle =>
       match zblock_map PAGE_SHIFT SIZEOF_BLOCK pool handle with
       | Fail _ => (- ENOENT, pool)
       | Done (_, pool1) =>
           match zblock_unmap PAGE_SHIFT pool1 handle with
           | Fail _ => (- ENOENT, pool1)
           | Done pool2 =>
               match zblock_free PAGE_SHIFT SIZEOF_BLOCK pool2 handle with
               | Fail _ => (- ENOENT, pool2)
               | Done pool3 => (0, pool3)
               end
           end
       end).
Proof.
  intros pool handle.
  destruct (zblock_map PAGE_SHIFT SIZEOF_BLOCK pool handle)
    as [[ptr pool1] |] eqn:Hmap; [| constructor].
  apply (calls_map _ _ _ _ ptr pool1); [exact Hmap |].
  destruct (zblock_unmap PAGE_SHIFT pool1 handle) as [pool2 |] eqn:Hunmap;
    [| constructor].
  apply (calls_unmap _ _ _ _ pool2); [exact Hunmap |].
  destruct (zblock_free PAGE_SHIFT SIZEOF_BLOCK pool2 handle) as [pool3 |] eqn:Hfree;
    [| constructor].
  apply (calls_free _ _ _ _ pool3); [exact Hfree | constructor].
Qed.

(** A run on a 4 KiB-page target with a 64-byte block header: eight
    allocations of a whole page fill one block of the last type and
    start a second one, which takes the place of the full block in the
    cache; the reclaim then evicts the seven slots of the full block
    through a callback that maps, unmaps and frees each handle, and
    gives the pages of the block back. *)
Example reclaim_after_eight_allocations :
  let head_addr := fun t => 0xffff888004000008 + 288 * t in
  let evict := fun pool handle =>
    match zblock_map 12 64 pool handle with
    | Fail _ => (- ENOENT, pool)
    | Done (_, pool1) =>
        match zblock_unmap 12 pool1 handle with
        | Fail _ => (- ENOENT, pool1)
        | Done pool2 =>
            match zblock_free 12 64 pool2 handle with
            | Fail _ => (- ENOENT, pool2)
            | Done pool3 => (0, pool3)
            end
        end
    end in
  let junk := mk_block (replicate 32 0xaa) 0xdeadbeef true in
  let A := 0xffff888012340000 in
  let B := 0xffff888012348000 in
  let alloc pool fresh :=
    '(_, _, pool') ← zblock_alloc 12 64 pool 4096 fresh junk; Done pool' in
  match zblock_create_pool 12 64 true with
  | None => False
  | Some pool0 =>
      match p1 ← alloc pool0 A; p2 ← alloc p1 0; p3 ← alloc p2 0;
            p4 ← alloc p3 0; p5 ← alloc p4 0; p6 ← alloc p5 0;
            p7 ← alloc p6 0; alloc p7 B with
      | Fail _ => False
      | Done pool8 =>
          map_to_list (free_slots <$> pages pool8) = [(B, 6); (A, 0)] /\
          match zblock_reclaim_block 12 64 8 head_addr evict pool8 with
          | Fail _ => False
          | Done (ret, pool9) =>
              ret = 7 /\
              map_to_list (pages pool9) =
                [(B, mk_block (1 :: replicate 6 0 ++ replicate 25 0xaa) 6 false)]
          end
      end
  end.
Proof. vm_compute. split; [reflexivity | split; reflexivity]. Qed.

Lemma free_slots_counts_free_entries_witness :
  let head_addr := fun t => 0xffff888004000008 + 288 * t in
  let evict := fun (pool : zblock_pool) (_ : Z) => (0, pool) in
  let junk := mk_block (replicate 32 0xaa) 0xdeadbeef true in
  let pool0 := mk_pool (replicate 29 (mk_list [] (replicate 32 0) 0)) 0 ∅ in
  (0 <= 12 < 64 /\
   ARRAY_SIZE_block_desc 12 64 <= Z.shiftr (PAGE_SIZE 12) SLOT_BITS /\
   zblock_create_pool 12 64 true <> None /\ pool_ok 12 64 8 head_addr pool0) /\
  exists ret handle pool',
    zblock_alloc 12 64 pool0 64 0xffff888012345000 junk
    = Done (ret, handle, pool') /\
    pool_ZB_I1 12 64 pool'.
Proof.
  intros head_addr evict junk pool0.
  assert (0 <= 12 < 64 /\
          ARRAY_SIZE_block_desc 12 64 <= Z.shiftr (PAGE_SIZE 12) SLOT_BITS /\
          zblock_create_pool 12 64 true <> None /\
          pool_ok 12 64 8 head_addr pool0) as H.
  { split; [lia |]. split; [vm_compute; congruence |].
    split; [vm_compute; congruence |].
    apply (create_pool_ok 12 64 8 head_addr true). reflexivity. }
  split; [exact H |]. destruct H as (H1 & H2 & H3 & H4).
  destruct (free_slots_counts_free_entries 12 64 8 head_addr evict pool0
              H1 H2 H3 H4) as (_ & _ & Halloc & _).
  destruct (Halloc 64 0xffff888012345000 junk)
    as (ret & handle & pool' & Hrun & _ & Hc).
  { split; [reflexivity |]. intros _. split; [reflexivity |].
    split; [| split; [lia | reflexivity]].
    intros t Ht. change (ARRAY_SIZE_block_desc 12 64) with 29 in Ht.
    unfold no_entry, head_addr. rewrite u64_small by lia. lia. }
  eauto.
Defined.

End ZblockProps.

Module ZblockSizes.
Import Zblock ZblockProps.

(** ** Slot sizes *)

Section SlotSizes.

Variables PAGE_SHIFT SIZEOF_BLOCK : Z.
Hypothesis PAGE_SHIFT_range : 3 <= PAGE_SHIFT <= 28.

#[local] Abbreviation P := (PAGE_SIZE PAGE_SHIFT).
#[local] Abbreviation descs := (block_desc PAGE_SHIFT SIZEOF_BLOCK).

Lemma PAGE_SIZE_bounds : 8 <= P <= 2 ^ 28 /\ P mod 8 = 0.
Proof.
  rewrite PAGE_SIZE_pow2 by lia.
  pose proof (pow2_le_mono 3 PAGE_SHIFT ltac:(lia)).
  pose proof (pow2_le_mono PAGE_SHIFT 28 ltac:(lia)).
  split; [simpl in *; lia |].
  replace PAGE_SHIFT with (PAGE_SHIFT - 3 + 3) by ring.
  rewrite Z.pow_add_r by lia. change (2 ^ 3) with 8. apply Z.mod_mul. lia.
Qed.

Lemma round_down_8 x : 0 <= x < 2 ^ 64 -> round_down x 8 = 8 * (x / 8).
Proof.
  intros Hx. unfold round_down.
  change (u64 (Z.lnot (8 - 1))) with (PAGE_MASK 3).
  now rewrite (land_PAGE_MASK 3) by lia.
Qed.

(** The slot size of [nslots] slots in a block of [2 ^ order] pages. *)
Lemma SLOT_SIZE_value nslots order :
  0 <= order <= 3 -> 0 < nslots ->
  0 <= SIZEOF_BLOCK <= P * 2 ^ order ->
  slot_size (desc PAGE_SHIFT SIZEOF_BLOCK nslots order)
  = 8 * ((P * 2 ^ order - SIZEOF_BLOCK) / nslots / 8).
Proof.
  intros Ho Hn HH. destruct PAGE_SIZE_bounds as [HP _].
  assert (1 <= 2 ^ order <= 8) as Hpo.
  { pose proof (pow2_le_mono 0 order ltac:(lia)).
    pose proof (pow2_le_mono order 3 ltac:(lia)). simpl in *. lia. }
  cbn [slot_size desc]. unfold SLOT_SIZE, BLOCK_DATA_SIZE.
  rewrite Z.shiftl_mul_pow2 by lia.
  assert (0 <= P * 2 ^ order <= 2 ^ 31) as Hb by nia.
  rewrite (u64_small (P * 2 ^ order)) by lia.
  rewrite u64_small by lia.
  set (x := P * 2 ^ order - SIZEOF_BLOCK) in *.
  assert (0 <= x / nslots <= x).
  { split; [apply Z.div_pos; lia |]. apply Z.div_le_upper_bound; nia. }
  rewrite round_down_8 by lia.
  apply u32_small. divlia.
Qed.

Lemma desc_shape t d :
  descs !! t = Some d ->
  exists nslots order,
    d = desc PAGE_SHIFT SIZEOF_BLOCK nslots order /\
    7 <= nslots <= 32 /\ 0 <= order <= 3.
Proof.
  intros H. unfold block_desc in H.
  do 29 (destruct t as [| t];
         [injection H as <-; eexists; eexists; split; [reflexivity | lia] |]).
  discriminate.
Qed.

Lemma slot_size_le n1 o1 n2 o2 :
  0 <= o1 <= 3 -> 0 <= o2 <= 3 -> 0 < n1 -> 0 < n2 ->
  0 <= SIZEOF_BLOCK <= P * 2 ^ o1 -> 0 <= SIZEOF_BLOCK <= P * 2 ^ o2 ->
  (P * 2 ^ o1 - SIZEOF_BLOCK) * n2 <= (P * 2 ^ o2 - SIZEOF_BLOCK) * n1 ->
  slot_size (desc PAGE_SHIFT SIZEOF_BLOCK n1 o1)
  <= slot_size (desc PAGE_SHIFT SIZEOF_BLOCK n2 o2).
Proof.
  intros Ho1 Ho2 Hn1 Hn2 H1 H2 Hle.
  rewrite !SLOT_SIZE_value by assumption.
  set (x1 := P * 2 ^ o1 - SIZEOF_BLOCK) in *.
  set (x2 := P * 2 ^ o2 - SIZEOF_BLOCK) in *.
  assert (x1 / n1 <= x2 / n2) as Hq.
  { apply Z.div_le_lower_bound; [lia |].
    assert (n1 * (x1 / n1) <= x1) by (apply Z.mul_div_le; lia). nia. }
  assert (x1 / n1 / 8 <= x2 / n2 / 8) by (apply Z.div_le_mono; lia).
  lia.
Qed.

Lemma block_desc_step k dk dk1 :
  0 <= SIZEOF_BLOCK <= P ->
  descs !! k = Some dk -> descs !! S k = Some dk1 ->
  slot_size dk <= slot_size dk1.
Proof.
  intros HH Hk Hk1. destruct PAGE_SIZE_bounds as [HP _].
  unfold block_desc in Hk, Hk1.
  do 28 (destruct k as [| k];
         [injection Hk as <-; injection Hk1 as <-;
          apply slot_size_le;
          change (2 ^ 0) with 1; change (2 ^ 1) with 2;
          change (2 ^ 2) with 4; change (2 ^ 3) with 8; lia |]).
  destruct k; discriminate.
Qed.

Lemma block_desc_sorted i j di dj :
  0 <= SIZEOF_BLOCK <= P -> (i <= j)%nat ->
  descs !! i = Some di -> descs !! j = Some dj ->
  slot_size di <= slot_size dj.
Proof.
  intros HH Hij Hi. revert dj. induction Hij as [| j Hij IH]; intros dj Hj.
  - assert (di = dj) by congruence. subst. lia.
  - destruct (lookup_lt_is_Some_2 descs j) as [dm Hm].
    { apply lookup_lt_Some in Hj. lia. }
    pose proof (IH dm Hm). pose proof (block_desc_step j dm dj HH Hm Hj). lia.
Qed.

Lemma last_desc_size :
  0 <= SIZEOF_BLOCK <= 8 * P ->
  exists d, last descs = Some d /\
            slot_size d = 8 * ((P * 8 - SIZEOF_BLOCK) / 7 / 8).
Proof.
  intros HH. eexists. split; [reflexivity |].
  rewrite SLOT_SIZE_value; change (2 ^ 3) with 8; [reflexivity | lia..].
Qed.

End SlotSizes.

(** X1.  [zblock_create_pool] gives a pool exactly when the pool
    structure could be allocated and the block header is no larger than
    a page; the pool then has 29 empty lists with empty caches, a zero
    allocation flag and no block.  With a larger header the last slot
    size is below [PAGE_SIZE] and the function returns [NULL]. *)
Theorem create_pool_needs_header_in_page (PAGE_SHIFT SIZEOF_BLOCK : Z)
    (kmalloc_ok : bool)
    (Hshift : 3 <= PAGE_SHIFT <= 28)
    (Hheader : 0 <= SIZEOF_BLOCK <= 8 * PAGE_SIZE PAGE_SHIFT) :
  (kmalloc_ok = true /\ SIZEOF_BLOCK <= PAGE_SIZE PAGE_SHIFT ->
   zblock_create_pool PAGE_SHIFT SIZEOF_BLOCK kmalloc_ok
   = Some (mk_pool (replicate 29 (mk_list [] (replicate 32 0) 0)) 0 ∅)) /\
  (kmalloc_ok = false \/ PAGE_SIZE PAGE_SHIFT < SIZEOF_BLOCK ->
   zblock_create_pool PAGE_SHIFT SIZEOF_BLOCK kmalloc_ok = None).
Proof.
  destruct (PAGE_SIZE_bounds PAGE_SHIFT Hshift) as [HP H8].
  destruct (last_desc_size PAGE_SHIFT SIZEOF_BLOCK Hshift Hheader)
    as (d & Hlast & Hsize).
  unfold zblock_create_pool. rewrite Hlast.
  set (P := PAGE_SIZE PAGE_SHIFT) in *.
  split.
  - intros [-> Hle]. simpl negb. cbv iota.
    destruct (Z.ltb_spec (slot_size d) P) as [Hlt | _]; [| reflexivity].
    exfalso. rewrite Hsize in Hlt. divlia.
  - intros [-> | Hgt]; [reflexivity |].
    destruct (negb kmalloc_ok); [reflexivity |].
    destruct (Z.ltb_spec (slot_size d) P) as [_ | Hge]; [reflexivity |].
    exfalso. rewrite Hsize in Hge. divlia.
Qed.

Lemma create_pool_needs_header_in_page_witness :
  (3 <= 12 <= 28 /\ 0 <= 4097 <= 8 * PAGE_SIZE 12) /\
  zblock_create_pool 12 4097 true = None /\
  zblock_create_pool 12 4096 true
  = Some (mk_pool (replicate 29 (mk_list [] (replicate 32 0) 0)) 0 ∅).
Proof.
  assert (3 <= 12 <= 28 /\ 0 <= 4097 <= 8 * PAGE_SIZE 12) as H
    by (vm_compute; repeat split; congruence).
  split; [exact H |]. destruct H as [H1 H2].
  split; [| reflexivity].
  apply (create_pool_needs_header_in_page 12 4097 true H1 H2).
  right. reflexivity.
Defined.

(** X2.  The table [block_desc] is sorted by slot size, so the block
    type that [zblock_alloc] selects for a size has the smallest slot
    size of the whole table that can hold the size. *)
Theorem alloc_picks_best_fit (PAGE_SHIFT SIZEOF_BLOCK size : Z)
    (Hshift : 3 <= PAGE_SHIFT <= 28)
    (Hheader : 0 <= SIZEOF_BLOCK <= PAGE_SIZE PAGE_SHIFT)
    (Hsize : 0 < size <= PAGE_SIZE PAGE_SHIFT) :
  let descs := block_desc PAGE_SHIFT SIZEOF_BLOCK in
  (forall i j di dj, (i <= j)%nat -> descs !! i = Some di ->
                     descs !! j = Some dj -> slot_size di <= slot_size dj) /\
  exists d,
    descs !! Z.to_nat (find_block_type PAGE_SHIFT SIZEOF_BLOCK size) = Some d /\
    size <= slot_size d /\
    forall d', d' ∈ descs -> size <= slot_size d' -> slot_size d <= slot_size d'.
Proof.
  intros descs.
  pose proof (block_desc_sorted PAGE_SHIFT SIZEOF_BLOCK Hshift) as Hsorted.
  split; [intros i j di dj Hij; now apply Hsorted |].
  destruct (PAGE_SIZE_bounds PAGE_SHIFT Hshift) as [HP _].
  assert (zblock_create_pool PAGE_SHIFT SIZEOF_BLOCK true <> None) as Hcreated.
  { destruct (last_desc_size PAGE_SHIFT SIZEOF_BLOCK Hshift ltac:(lia))
      as (d & Hlast & Hd).
    unfold zblock_create_pool. rewrite Hlast. simpl negb. cbv iota.
    destruct (Z.ltb_spec (slot_size d) (PAGE_SIZE PAGE_SHIFT)) as [Hlt | _];
      [| discriminate].
    exfalso. rewrite Hd in Hlt.
    destruct (PAGE_SIZE_bounds PAGE_SHIFT Hshift) as [_ H8]. divlia. }
  pose proof (find_block_type_in_table PAGE_SHIFT SIZEOF_BLOCK size Hcreated
                ltac:(lia)) as Hin.
  destruct (find_block_type_loop_spec size descs 0)
    as (_ & Hbelow & Hat & _).
  fold (find_block_type PAGE_SHIFT SIZEOF_BLOCK size) in Hbelow, Hat.
  set (t := find_block_type PAGE_SHIFT SIZEOF_BLOCK size) in *.
  rewrite Z.sub_0_r in Hbelow, Hat.
  destruct Hat as (d & Hd & Hfit); [exact (proj2 Hin) |].
  exists d. split; [exact Hd |]. split; [exact Hfit |].
  intros d' Hd' Hfit'. apply list_elem_of_lookup in Hd' as [k Hk].
  destruct (Nat.lt_ge_cases k (Z.to_nat t)) as [Hlt | Hge].
  - pose proof (Hbelow k d' Hlt Hk). lia.
  - now apply (Hsorted (Z.to_nat t) k d d').
Qed.

Lemma alloc_picks_best_fit_witness :
  (3 <= 12 <= 28 /\ 0 <= 64 <= PAGE_SIZE 12 /\ 0 < 300 <= PAGE_SIZE 12) /\
  exists d,
    block_desc 12 64 !! Z.to_nat (find_block_type 12 64 300) = Some d /\
    slot_size d = 304.
Proof.
  assert (3 <= 12 <= 28 /\ 0 <= 64 <= PAGE_SIZE 12 /\ 0 < 300 <= PAGE_SIZE 12)
    as H by (vm_compute; repeat split; congruence).
  split; [exact H |]. destruct H as (H1 & H2 & H3).
  destruct (alloc_picks_best_fit 12 64 300 H1 H2 H3) as (_ & d & Hd & _).
  exists d. split; [exact Hd |].
  vm_compute in Hd. injection Hd as <-. reflexivity.
Defined.

(** The slots of a block fill no more than its data area. *)
Lemma slots_fit PAGE_SHIFT SIZEOF_BLOCK t d :
  3 <= PAGE_SHIFT <= 28 -> 0 <= SIZEOF_BLOCK <= PAGE_SIZE PAGE_SHIFT ->
  block_desc PAGE_SHIFT SIZEOF_BLOCK !! t = Some d ->
  0 <= slot_size d /\
  slots_per_block d * slot_size d
  <= PAGE_SIZE PAGE_SHIFT * 2 ^ order d - SIZEOF_BLOCK /\
  PAGE_SIZE PAGE_SHIFT * 2 ^ order d <= 2 ^ 31.
Proof.
  intros Hshift Hheader Hd.
  destruct (PAGE_SIZE_bounds PAGE_SHIFT Hshift) as [HP _].
  destruct (desc_shape PAGE_SHIFT SIZEOF_BLOCK t d Hd)
    as (n & o & -> & Hn & Ho).
  assert (1 <= 2 ^ o <= 8) as Hpo.
  { pose proof (pow2_le_mono 0 o ltac:(lia)).
    pose proof (pow2_le_mono o 3 ltac:(lia)). simpl in *. lia. }
  rewrite SLOT_SIZE_value by (lia || nia).
  cbn [slots_per_block order desc].
  set (P := PAGE_SIZE PAGE_SHIFT) in *.
  assert (0 <= P * 2 ^ o - SIZEOF_BLOCK) as Hx by nia.
  set (x := P * 2 ^ o - SIZEOF_BLOCK) in *.
  assert (0 <= x / n) by (apply Z.div_pos; lia).
  assert (n * (x / n) <= x) by (apply Z.mul_div_le; lia).
  assert (0 <= 8 * (x / n / 8) <= x / n) by divlia.
  split; [lia |]. split; [nia | nia].
Qed.

(** X3.  [zblock_map] returns the address of the slot: the block address
    plus the header plus [slot] slot sizes.  The [slot_size] bytes from
    there lie behind the header and inside the pages of the block, and
    behind the bytes of every slot with a smaller index. *)
Theorem map_points_into_block (PAGE_SHIFT SIZEOF_BLOCK : Z)
    (pool pool' : zblock_pool) (handle block t slot ptr : Z) (d : block_desc_t)
    (Hshift : 3 <= PAGE_SHIFT <= 28)
    (Hheader : 0 <= SIZEOF_BLOCK <= PAGE_SIZE PAGE_SHIFT)
    (Hdec : handle_to_metadata PAGE_SHIFT handle = (block, t, slot))
    (Hd : desc_at PAGE_SHIFT SIZEOF_BLOCK t = Done d)
    (Hslot : 0 <= slot < slots_per_block d)
    (Hblock : 0 <= block /\ block + PAGE_SIZE PAGE_SHIFT * 2 ^ order d < 2 ^ 64)
    (Hmap : zblock_map PAGE_SHIFT SIZEOF_BLOCK pool handle = Done (ptr, pool')) :
  ptr = block + SIZEOF_BLOCK + slot * slot_size d /\
  block + SIZEOF_BLOCK <= ptr /\
  ptr + slot_size d <= block + PAGE_SIZE PAGE_SHIFT * 2 ^ order d /\
  (forall s, 0 <= s < slot ->
             block + SIZEOF_BLOCK + s * slot_size d + slot_size d <= ptr).
Proof.
  unfold zblock_map in Hmap. rewrite Hdec in Hmap. unfold zblock_map_slot in Hmap.
  apply bind_Done_inv in Hmap as (b & _ & Hmap).
  apply bind_Done_inv in Hmap as (b' & _ & Hmap).
  rewrite Hd, bind_Done in Hmap. injection Hmap as Hptr _.
  apply desc_at_Done in Hd as [_ Hd].
  destruct (slots_fit PAGE_SHIFT SIZEOF_BLOCK _ d Hshift Hheader Hd)
    as (Hss & Hfit & Hbytes).
  set (ss := slot_size d) in *. set (n := slots_per_block d) in *.
  assert (slot * ss + ss <= n * ss) as Hrow by nia.
  assert (0 <= slot * ss) as Hpos by nia.
  rewrite u32_small in Hptr by lia. rewrite u64_small in Hptr by lia.
  subst ptr. split; [reflexivity |]. split; [lia |]. split; [lia |].
  intros s Hs. nia.
Qed.

Lemma map_points_into_block_witness :
  let block := 0xffff888012345000 in
  let b := mk_block (replicate 32 SLOT_OCCUPIED) 0 false in
  let pool :=
    mk_pool (replicate 29 (mk_list [] (replicate 32 0) 0)) 0 {[ block := b ]} in
  let handle := metadata_to_handle block 3 12 in
  exists ptr pool' d,
    (3 <= 12 <= 28 /\ 0 <= 64 <= PAGE_SIZE 12 /\
     handle_to_metadata 12 handle = (block, 3, 12) /\
     desc_at 12 64 3 = Done d /\ 0 <= 12 < slots_per_block d /\
     (0 <= block /\ block + PAGE_SIZE 12 * 2 ^ order d < 2 ^ 64) /\
     zblock_map 12 64 pool handle = Done (ptr, pool')) /\
    ptr = block + 64 + 12 * 304 /\ ptr + slot_size d <= block + 4096.
Proof.
  intros block b pool handle.
  eexists. eexists. eexists.
  assert (3 <= 12 <= 28 /\ 0 <= 64 <= PAGE_SIZE 12 /\
          handle_to_metadata 12 handle = (block, 3, 12) /\
          desc_at 12 64 3 = Done (desc 12 64 13 0) /\
          0 <= 12 < slots_per_block (desc 12 64 13 0) /\
          (0 <= block /\
           block + PAGE_SIZE 12 * 2 ^ order (desc 12 64 13 0) < 2 ^ 64) /\
          zblock_map 12 64 pool handle
          = Done (0xffff888012345e80,
                  set_block pool block
                    (mk_block (<[12%nat := SLOT_MAPPED]> (slot_info b)) 0 false)))
    as H by (vm_compute; repeat split; congruence).
  split; [exact H |]. destruct H as (H1 & H2 & H3 & H4 & H5 & H6 & H7).
  destruct (map_points_into_block 12 64 _ _ _ _ _ _ _ _ H1 H2 H3 H4 H5 H6 H7)
    as (Hp & _ & Hin & _).
  split; [reflexivity | exact Hin].
Defined.

End ZblockSizes.

Module ZblockCache.
Import Zblock ZblockProps.

(** ** The block cache *)




End ZblockCache.

Module ZblockPool.
Import Zblock ZblockProps.

(** ** What the pool operations change *)

Lemma pool_eta pool :
  {| block_lists := block_lists pool; alloc_flag := alloc_flag pool;
     pages := pages pool |} = pool.
Proof. now destruct pool. Qed.

Lemma list_eta (l : block_list) :
  {| head := head l; block_cache := block_cache l;
     block_count := block_count l |} = l.
Proof. now destruct l. Qed.

Lemma filter_all_ne (block : Z) (xs : list Z) :
  block ∉ xs -> filter (fun x => x ≠ block) xs = xs.
Proof.
  induction xs as [| x xs IH]; intros Hn; [reflexivity |].
  apply not_elem_of_cons in Hn as [Hne Hn].
  rewrite filter_cons_True by congruence. now rewrite IH.
Qed.

Lemma filter_ne_length (block : Z) (xs : list Z) :
  NoDup xs -> block ∈ xs ->
  (length (filter (fun x => x ≠ block) xs) + 1 = length xs)%nat.
Proof.
  induction xs as [| x xs IH]; intros Hnd Hin; [inversion Hin |].
  apply NoDup_cons in Hnd as [Hx Hnd].
  destruct (decide (x = block)) as [-> | Hne].
  - rewrite filter_cons_False by tauto.
    rewrite filter_all_ne by exact Hx. simpl. lia.
  - rewrite filter_cons_True by exact Hne. simpl.
    apply elem_of_cons in Hin as [-> | Hin]; [contradiction |].
    rewrite <- (IH Hnd Hin). lia.
Qed.

(** Distinct even addresses below [2 ^ 64] are at most [2 ^ 63]. *)
Lemma even_addresses_bounded (xs : list Z) :
  NoDup xs -> (forall x, x ∈ xs -> 0 <= x < 2 ^ 64 /\ x mod 2 = 0) ->
  Z.of_nat (length xs) <= 2 ^ 63.
Proof.
  intros Hnd Hall.
  assert (NoDup ((fun x => x / 2) <$> xs)) as Hnd'.
  { apply NoDup_fmap_2_strong; [| exact Hnd].
    intros x y Hx Hy E. destruct (Hall x Hx), (Hall y Hy). divlia. }
  assert (forall y, y ∈ (fun x => x / 2) <$> xs -> y ∈ seqZ 0 (2 ^ 63)) as Hsub.
  { intros y Hy. apply list_elem_of_fmap in Hy as (x & -> & Hx).
    destruct (Hall x Hx). apply elem_of_seqZ. divlia. }
  pose proof (submseteq_length _ _ (NoDup_submseteq _ _ Hnd' Hsub)) as Hlen.
  rewrite length_fmap, length_seqZ in Hlen. lia.
Qed.

Lemma u64_add_l a b : u64 (u64 a + b) = u64 (a + b).
Proof. unfold u64, wrap. apply Zplus_mod_idemp_l. Qed.

Lemma u64_add_r a b : u64 (a + u64 b) = u64 (a + b).
Proof. unfold u64, wrap. apply Zplus_mod_idemp_r. Qed.

Lemma u64_mul_r a b : u64 (a * u64 b) = u64 (a * b).
Proof. unfold u64, wrap. apply Zmult_mod_idemp_r. Qed.

Section PoolEffects.

Variables PAGE_SHIFT SIZEOF_BLOCK OFFSETOF_NODE : Z.
Variable head_addr : Z -> Z.

#[local] Abbreviation ok :=
  (pool_ok PAGE_SHIFT SIZEOF_BLOCK OFFSETOF_NODE head_addr).
#[local] Abbreviation wf :=
  (pool_wf PAGE_SHIFT SIZEOF_BLOCK OFFSETOF_NODE head_addr).
#[local] Abbreviation descs := (block_desc PAGE_SHIFT SIZEOF_BLOCK).

(** In a pool in order a block is linked in one list only, so
    [list_del] changes that list only. *)
Lemma list_del_one ls pg t l block :
  wf ls pg -> ls !! t = Some l -> block ∈ head l ->
  list_del block ls
  = <[t := mk_list (filter (fun x => x ≠ block) (head l)) (block_cache l)
             (block_count l)]> ls.
Proof.
  intros (_ & _ & _ & Hdisj & _) Hl Hin. apply list_eq. intros k.
  unfold list_del. rewrite list_lookup_fmap.
  destruct (decide (k = t)) as [-> | Hne].
  - rewrite Hl, list_lookup_insert_eq by (eapply lookup_lt_Some; eauto).
    reflexivity.
  - rewrite list_lookup_insert_ne by congruence.
    destruct (ls !! k) as [l0 |] eqn:Hk; [| reflexivity]. simpl.
    rewrite filter_all_ne; [now rewrite list_eta |].
    intros Hin0. apply Hne. eapply Hdisj; eauto.
Qed.

(** [zblock_alloc] from [check] on: it fails for want of pages and
    changes nothing, or it takes the first free slot of a cached block,
    or of the new block it links in front of the list. *)
Lemma alloc_check_effect pool t l d fresh junk ret handle pool' :
  ok pool -> block_lists pool !! t = Some l -> descs !! t = Some d ->
  fresh_pages PAGE_SHIFT SIZEOF_BLOCK OFFSETOF_NODE head_addr pool fresh junk ->
  zblock_alloc_check PAGE_SHIFT SIZEOF_BLOCK pool (Z.of_nat t) fresh junk
  = Done (ret, handle, pool') ->
  (ret = - ENOMEM /\ handle = None /\ pool' = pool /\ fresh = 0 /\
   cache_find_block (pages pool) l = Done 0) \/
  exists block slot b0 b',
    ret = 0 /\ handle = Some (metadata_to_handle block (Z.of_nat t) slot) /\
    0 <= slot < slots_per_block d /\
    slot_info b0 !! Z.to_nat slot = Some SLOT_FREE /\
    slot_info b' = <[Z.to_nat slot := SLOT_OCCUPIED]> (slot_info b0) /\
    free_slots b' = free_slots b0 - 1 /\
    under_reclaim b' = false /\
    alloc_flag pool' = 0 /\
    pages pool' = <[block := b']> (pages pool) /\
    ((block <> 0 /\ block ∈ block_cache l /\ pages pool !! block = Some b0 /\
      free_slots b0 <> 0 /\ block_lists pool' = block_lists pool) \/
     (block = fresh /\ fresh <> 0 /\ pages pool !! fresh = None /\
      cache_find_block (pages pool) l = Done 0 /\
      free_slots b0 = slots_per_block d /\
      (forall s, 0 <= s < slots_per_block d ->
                 slot_info b0 !! Z.to_nat s = Some SLOT_FREE) /\
      exists j, (j < length (block_cache l))%nat /\
        block_lists pool' =
        <[t := mk_list (fresh :: head l) (<[j := fresh]> (block_cache l))
                 (u64 (block_count l + 1))]> (block_lists pool))).
Proof.
  intros [Hwf Hflag] Hl Hd [Hjunk Hfresh] Hrun.
  assert (desc_at PAGE_SHIFT SIZEOF_BLOCK (Z.of_nat t) = Done d) as Hdesc
    by (apply desc_at_Done; rewrite Nat2Z.id; split; [lia | exact Hd]).
  pose proof (desc_slots_range _ _ _ _ Hd) as Hspb.
  change MAX_SLOTS with 32 in Hspb.
  unfold zblock_alloc_check in Hrun.
  rewrite (proj2 (list_at_Done pool (Z.of_nat t) l)), bind_Done in Hrun
    by (rewrite Nat2Z.id; split; [lia | exact Hl]).
  unfold cache_find_block in *.
  destruct (cache_find_loop_spec (pages pool) (block_cache l))
    as (c & Hfind & Hc).
  { intros c Hc Hnz. destruct (wf_cache_live _ _ _ _ _ _ t l c Hwf Hl Hc Hnz)
      as (_ & b & Hb & _). eauto. }
  rewrite Hfind, bind_Done in Hrun.
  destruct Hc as [-> | (Hnz & Hin & b & Hb & Hfs)].
  - change (negb (0 =? 0)) with false in Hrun. cbv iota in Hrun.
    rewrite Hflag in Hrun.
    change (negb (0 =? 0)) with false in Hrun. cbv iota in Hrun.
    unfold alloc_block in Hrun. rewrite Hdesc, bind_Done in Hrun.
    destruct (Z.eqb_spec fresh 0) as [E0 | Hnz].
    + rewrite bind_Done in Hrun. cbv beta iota in Hrun.
      change (negb (0 =? 0)) with false in Hrun. cbv iota in Hrun.
      injection Hrun as <- <- <-. left.
      split; [reflexivity |]. split; [reflexivity |].
      split; [| auto].
      unfold set_alloc_flag. simpl. rewrite <- Hflag. apply pool_eta.
    + destruct (Hfresh Hnz) as (Hnew & Hne & Hrange & Haligned).
      rewrite (proj2 (list_at_Done (set_alloc_flag pool 1) (Z.of_nat t) l)),
        bind_Done in Hrun
        by (rewrite Nat2Z.id; split; [lia | exact Hl]).
      set (b1 := {| slot_info :=
                      replicate (Z.to_nat (slots_per_block d)) SLOT_FREE ++
                      drop (Z.to_nat (slots_per_block d)) (slot_info junk);
                    free_slots := slots_per_block d;
                    under_reclaim := false |}) in *.
      cbn [pages set_alloc_flag] in Hrun.
      destruct (Hwf) as (_ & Hlists & _).
      destruct (Hlists t l Hl) as (Hclen & _).
      destruct (cache_insert_block_spec (<[fresh := b1]> (pages pool)) fresh
                  {| head := fresh :: head l; block_cache := block_cache l;
                     block_count := block_count l |}) as (j & Hj & Hins).
      { exact Hclen. }
      { simpl. intros c Hc Hcnz.
        destruct (wf_cache_live _ _ _ _ _ _ t l c Hwf Hl Hc Hcnz)
          as (_ & b & Hb & Hlt).
        exists b. split; [| exact Hlt]. rewrite lookup_insert_ne; [exact Hb |].
        intros ->. congruence. }
      rewrite Hins, bind_Done in Hrun. cbn [head block_cache block_count] in Hrun.
      rewrite bind_Done in Hrun. cbv beta iota in Hrun.
      destruct (Z.eqb_spec fresh 0); [contradiction |].
      change (negb false) with true in Hrun. cbv iota in Hrun.
      match type of Hrun with
      | zblock_alloc_found _ _ ?p _ _ = _ => set (p1 := p) in *
      end.
      destruct (alloc_found_ok PAGE_SHIFT SIZEOF_BLOCK p1 (Z.of_nat t) fresh d b1
                  Hdesc) as (Hslot & Hat & b2 & Hfound & Hinfo & Hcnt & Hur2 & _).
      { unfold p1. simpl. apply lookup_insert_eq. }
      { unfold b1. simpl. rewrite length_app, length_replicate, length_drop, Hjunk.
        change (Z.to_nat MAX_SLOTS) with 32%nat. lia. }
      { unfold ZB_I1, b1. simpl. rewrite count_free_replicate by lia. reflexivity. }
      { unfold b1. simpl. lia. }
      rewrite Hfound in Hrun. injection Hrun as <- <- <-. right.
      exists fresh, (find_free_slot (slots_per_block d) (slot_info b1)), b1, b2.
      split; [reflexivity |]. split; [reflexivity |]. split; [exact Hslot |].
      split; [exact Hat |]. split; [exact Hinfo |]. split; [exact Hcnt |].
      split; [exact Hur2 |]. split; [reflexivity |].
      split; [unfold p1; simpl; now rewrite insert_insert_eq |].
      right. split; [reflexivity |]. split; [exact Hnz |]. split; [exact Hnew |].
      split; [exact Hfind |]. split; [reflexivity |].
      split.
      { intros s Hs. unfold b1. simpl.
        rewrite lookup_app_l by (rewrite length_replicate; lia).
        apply lookup_replicate_2. lia. }
      exists j. split; [exact Hj |]. unfold p1. simpl. now rewrite Nat2Z.id.
  - destruct (Z.eqb_spec c 0); [contradiction |].
    change (negb false) with true in Hrun. cbv iota in Hrun.
    destruct (wf_cache_live _ _ _ _ _ _ t l c Hwf Hl Hin Hnz) as (Hhead & _).
    pose proof Hwf as (_ & _ & Hblocks & _).
    destruct (Hblocks t l d c Hl Hd Hhead) as (_ & b0 & Hb0 & Hok).
    assert (b0 = b) as -> by congruence.
    pose proof (block_ok_bounds _ _ t d b Hd Hok) as Hb_bounds.
    destruct Hok as (Hlen & Hinv & Hlt & Hur).
    destruct (alloc_found_ok PAGE_SHIFT SIZEOF_BLOCK pool (Z.of_nat t) c d b
                Hdesc Hb Hlen Hinv ltac:(lia))
      as (Hslot & Hat & b2 & Hfound & Hinfo & Hcnt & Hur2 & _).
    rewrite Hfound in Hrun. injection Hrun as <- <- <-. right.
    exists c, (find_free_slot (slots_per_block d) (slot_info b)), b, b2.
    split; [reflexivity |]. split; [reflexivity |]. split; [exact Hslot |].
    split; [exact Hat |]. split; [exact Hinfo |]. split; [exact Hcnt |].
    split; [congruence |]. split; [reflexivity |]. split; [reflexivity |].
    left. auto.
Qed.

(** [zblock_free] of a slot in use: the block is unlinked and its pages
    are given back when the slot was its last one in use; otherwise the
    slot becomes free and the block is put in the cache if it was not
    there. *)
Lemma free_slot_effect pool block t slot l d b st pool' :
  ok pool -> 0 <= t ->
  block_lists pool !! Z.to_nat t = Some l -> descs !! Z.to_nat t = Some d ->
  block ∈ head l -> pages pool !! block = Some b ->
  0 <= slot < slots_per_block d ->
  slot_info b !! Z.to_nat slot = Some st -> st <> SLOT_FREE ->
  zblock_free_slot PAGE_SHIFT SIZEOF_BLOCK pool block t slot = Done pool' ->
  alloc_flag pool' = alloc_flag pool /\
  ((free_slots b + 1 = slots_per_block d /\
    pages pool' = delete block (pages pool) /\
    exists cache',
      block_lists pool' =
      <[Z.to_nat t := mk_list (filter (fun x => x ≠ block) (head l)) cache'
                        (u64 (block_count l - 1))]> (block_lists pool)) \/
   (free_slots b + 1 <> slots_per_block d /\
    exists b' cache',
      pages pool' = <[block := b']> (pages pool) /\
      slot_info b' = <[Z.to_nat slot := SLOT_FREE]> (slot_info b) /\
      free_slots b' = free_slots b + 1 /\
      under_reclaim b' = under_reclaim b /\
      block_lists pool' =
      <[Z.to_nat t := mk_list (head l) cache' (block_count l)]>
        (block_lists pool))).
Proof.
  intros Hok Ht Hl Hd Hin Hb Hslot Hst Hnf Hrun.
  destruct (handle_in_use_block _ _ _ _ pool block t slot Hok)
    as (l0 & d0 & b0 & st0 & Hlist & Hdesc & Hl0 & Hd0 & _ & Hb0 & Hbok & _
        & Hspb & Hfs & _).
  { exists l, d, b, st. auto 10. }
  assert (l0 = l) as -> by congruence. assert (d0 = d) as -> by congruence.
  assert (b0 = b) as -> by congruence.
  destruct Hok as [Hwf Hflag].
  pose proof Hwf as (_ & Hlists & _).
  destruct (Hlists _ l Hl) as (Hclen & Hnd & Hcdup & Hcin).
  pose proof Hbok as (Hlen & Hinv & _ & Hur).
  unfold zblock_free_slot in Hrun.
  rewrite (proj2 (deref_Done _ _ _) Hb), bind_Done, Hur, Hlist, bind_Done in Hrun.
  cbn [set_free_slots set_block pages free_slots] in Hrun.
  rewrite (u32_small (free_slots b + 1)) in Hrun by lia.
  rewrite Hdesc, bind_Done in Hrun.
  destruct (Z.eqb_spec (free_slots b + 1) (slots_per_block d)) as [Efull | Npart].
  - (* the block is deleted *)
    match type of Hrun with
    | context [list_at ?p t] =>
        assert (list_at p t
                = Done {| head := filter (fun x => x ≠ block) (head l);
                          block_cache := block_cache l;
                          block_count := block_count l |}) as Hlist'
    end.
    { apply list_at_Done. split; [exact Ht |].
      simpl. unfold list_del. rewrite list_lookup_fmap, Hl. reflexivity. }
    rewrite Hlist', bind_Done in Hrun. injection Hrun as <-.
    split; [reflexivity |]. left. split; [exact Efull |].
    cbn. rewrite delete_insert_eq. split; [reflexivity |].
    eexists. rewrite (list_del_one _ _ _ l block Hwf Hl Hin).
    rewrite list_insert_insert_eq. reflexivity.
  - (* the slot becomes free *)
    assert (exists cache',
              (if is_in_cache block l =? -1
               then cache_insert_block
                      (<[block := set_free_slots b (free_slots b + 1)]> (pages pool))
                      block l
               else Done l)
              = Done (mk_list (head l) cache' (block_count l)))
      as (cache' & Hcache).
    { destruct (is_in_cache_spec block l) as [[E Hnotin] | [Hr Hat]].
      - rewrite E. simpl.
        destruct (cache_insert_block_spec
                    (<[block := set_free_slots b (free_slots b + 1)]> (pages pool))
                    block l Hclen) as (j & Hj & ->); [| eauto].
        intros c Hc Hnz.
        destruct (wf_cache_live _ _ _ _ _ _ _ l c Hwf Hl Hc Hnz)
          as (_ & b0 & Hb0' & Hlt).
        exists b0. split; [| exact Hlt]. rewrite lookup_insert_ne; [exact Hb0' |].
        intros ->. contradiction.
      - destruct (Z.eqb_spec (is_in_cache block l) (-1)) as [E | N]; [lia |].
        exists (block_cache l). now rewrite list_eta. }
    cbn [set_free_slots] in Hcache. rewrite Hcache, bind_Done in Hrun.
    rewrite store_slot_Done in Hrun by (change MAX_SLOTS with 32; lia).
    rewrite bind_Done in Hrun. injection Hrun as <-.
    split; [reflexivity |]. right. split; [exact Npart |].
    eexists. exists cache'. cbn. rewrite insert_insert_eq.
    split; [reflexivity |]. auto.
Qed.

(** The block, type and slot of a handle in use. *)
#[local] Abbreviation in_use pool block t slot :=
  (exists l d b st,
     0 <= t /\ block_lists pool !! Z.to_nat t = Some l /\
     descs !! Z.to_nat t = Some d /\ block ∈ head l /\
     pages pool !! block = Some b /\ 0 <= slot < slots_per_block d /\
     slot_info b !! Z.to_nat slot = Some st /\ st <> SLOT_FREE).

Lemma handle_in_use_parts pool handle block t slot :
  handle_to_metadata PAGE_SHIFT handle = (block, t, slot) ->
  handle_in_use PAGE_SHIFT SIZEOF_BLOCK pool handle <-> in_use pool block t slot.
Proof. intros E. unfold handle_in_use. now rewrite E. Qed.

(** A slot in use stays in use when its block and its list are only
    changed elsewhere. *)
Lemma in_use_frame pool pool' block t slot :
  in_use pool block t slot ->
  (forall l, block_lists pool !! Z.to_nat t = Some l -> block ∈ head l ->
     exists l', block_lists pool' !! Z.to_nat t = Some l' /\ block ∈ head l') ->
  (forall b st, pages pool !! block = Some b ->
     slot_info b !! Z.to_nat slot = Some st -> st <> SLOT_FREE ->
     exists b', pages pool' !! block = Some b' /\
                slot_info b' !! Z.to_nat slot = Some st) ->
  in_use pool' block t slot.
Proof.
  intros (l & d & b & st & Ht & Hl & Hd & Hin & Hb & Hslot & Hst & Hnf) Hlists
    Hpages.
  destruct (Hlists l Hl Hin) as (l' & Hl' & Hin').
  destruct (Hpages b st Hb Hst Hnf) as (b' & Hb' & Hst').
  exists l', d, b', st. auto 10.
Qed.

Section Handles.

Hypothesis PAGE_SHIFT_range : 0 <= PAGE_SHIFT < 64.
Hypothesis table_fits :
  ARRAY_SIZE_block_desc PAGE_SHIFT SIZEOF_BLOCK
  <= Z.shiftr (PAGE_SIZE PAGE_SHIFT) SLOT_BITS.

Lemma table_in_page : 29 * 32 <= PAGE_SIZE PAGE_SHIFT /\ 5 <= PAGE_SHIFT.
Proof.
  exact (table_fits_bytes PAGE_SHIFT SIZEOF_BLOCK head_addr
           (fun pool _ => (0, pool)) PAGE_SHIFT_range table_fits).
Qed.

Lemma linked_handle_decode ls pg t l block slot :
  wf ls pg -> ls !! t = Some l -> block ∈ head l -> 0 <= slot < 32 ->
  handle_to_metadata PAGE_SHIFT (metadata_to_handle block (Z.of_nat t) slot)
  = (block, Z.of_nat t, slot).
Proof.
  intros Hwf Hl Hin Hslot. destruct table_in_page as [Hbytes H5].
  pose proof Hwf as (Hlen & _ & _ & _ & _ & Hal).
  destruct (Hal t l block Hl Hin) as [Hrange Haligned].
  apply lookup_lt_Some in Hl. rewrite Hlen in Hl.
  change (length descs) with 29%nat in Hl.
  apply handle_decode; simpl; lia.
Qed.

(** A successful [zblock_alloc]: the type, the list, the block and the
    slot it works on. *)
Lemma alloc_effect pool size fresh junk handle pool' :
  zblock_create_pool PAGE_SHIFT SIZEOF_BLOCK true <> None ->
  ok pool ->
  fresh_pages PAGE_SHIFT SIZEOF_BLOCK OFFSETOF_NODE head_addr pool fresh junk ->
  zblock_alloc PAGE_SHIFT SIZEOF_BLOCK pool size fresh junk
  = Done (0, Some handle, pool') ->
  exists t l d block slot b0 b',
    find_block_type PAGE_SHIFT SIZEOF_BLOCK size = Z.of_nat t /\
    block_lists pool !! t = Some l /\ descs !! t = Some d /\
    size <= slot_size d /\ ok pool' /\
    handle = metadata_to_handle block (Z.of_nat t) slot /\
    handle_to_metadata PAGE_SHIFT handle = (block, Z.of_nat t, slot) /\
    0 <= slot < slots_per_block d /\
    slot_info b0 !! Z.to_nat slot = Some SLOT_FREE /\
    slot_info b' = <[Z.to_nat slot := SLOT_OCCUPIED]> (slot_info b0) /\
    free_slots b' = free_slots b0 - 1 /\
    under_reclaim b' = false /\
    alloc_flag pool' = 0 /\
    pages pool' = <[block := b']> (pages pool) /\
    ((block ∈ head l /\ pages pool !! block = Some b0 /\
      block_lists pool' = block_lists pool) \/
     (block = fresh /\ fresh <> 0 /\ pages pool !! fresh = None /\
      free_slots b0 = slots_per_block d /\
      (forall s, 0 <= s < slots_per_block d ->
                 slot_info b0 !! Z.to_nat s = Some SLOT_FREE) /\
      exists j,
        block_lists pool' =
        <[t := mk_list (fresh :: head l) (<[j := fresh]> (block_cache l))
                 (u64 (block_count l + 1))]> (block_lists pool))).
Proof.
  intros Hcreated Hok Hfresh Hrun.
  assert (ok pool') as Hok'.
  { destruct (alloc_ok _ _ _ _ pool size fresh junk Hcreated Hok Hfresh)
      as (ret & h & p & Hrun' & Hp). congruence. }
  unfold zblock_alloc in Hrun.
  destruct (size =? 0); [discriminate |].
  destruct (Z.ltb_spec (PAGE_SIZE PAGE_SHIFT) size); [discriminate |].
  pose proof (find_block_type_in_table PAGE_SHIFT SIZEOF_BLOCK size Hcreated
                ltac:(lia)) as Hin.
  destruct (find_block_type_loop_spec size descs 0) as (_ & _ & Hat & _).
  fold (find_block_type PAGE_SHIFT SIZEOF_BLOCK size) in Hat.
  set (tz := find_block_type PAGE_SHIFT SIZEOF_BLOCK size) in *.
  unfold ARRAY_SIZE_block_desc in Hin.
  rewrite Z.sub_0_r in Hat. destruct Hat as (d & Hd & Hsize); [lia |].
  pose proof Hok as [Hwf Hflag]. pose proof Hwf as (Hlen & Hlists & Hblocks & _).
  destruct (lookup_lt_is_Some_2 (block_lists pool) (Z.to_nat tz)) as [l Hl];
    [rewrite Hlen; lia |].
  rewrite <- (Z2Nat.id tz) in Hrun |- * by lia.
  set (t := Z.to_nat tz) in *.
  destruct (alloc_check_effect pool t l d fresh junk _ _ _
              Hok Hl Hd Hfresh Hrun)
    as [(Hret & _) | (block & slot & b0 & b' & _ & Hh & Hslot & Hfree & Hinfo
                      & Hcnt & Hur & Hfl & Hpg & Hcase)];
    [discriminate |].
  injection Hh as ->.
  pose proof (desc_slots_range _ _ _ _ Hd) as Hspb.
  change MAX_SLOTS with 32 in Hspb.
  exists t, l, d, block, slot, b0, b'.
  split; [reflexivity |]. split; [exact Hl |]. split; [exact Hd |].
  split; [exact Hsize |]. split; [exact Hok' |]. split; [reflexivity |].
  assert (exists l', block_lists pool' !! t = Some l' /\ block ∈ head l')
    as (l' & Hl' & Hin').
  { destruct Hcase as [(Hnz & Hc & _ & _ & Hls)
                      | (-> & _ & _ & _ & _ & _ & j & _ & Hls)].
    - exists l. rewrite Hls. split; [exact Hl |].
      destruct (Hlists _ l Hl) as (_ & _ & _ & Hcin).
      apply list_elem_of_lookup in Hc as [i Hi]. eapply Hcin; eauto.
    - eexists. rewrite Hls.
      rewrite list_lookup_insert_eq by (eapply lookup_lt_Some; eauto).
      split; [reflexivity |]. simpl. apply elem_of_cons. now left. }
  split.
  { destruct Hok' as [Hwf' _].
    apply (linked_handle_decode _ _ _ l' block slot Hwf' Hl' Hin'). lia. }
  repeat (split; [assumption |]).
  destruct Hcase as [(Hnz & Hc & Hb0 & _ & Hls)
                    | (-> & Hnz & Hnone & _ & Hfs & Hall & j & _ & Hls)].
  - left. split; [| auto].
    destruct (Hlists _ l Hl) as (_ & _ & _ & Hcin).
    apply list_elem_of_lookup in Hc as [i Hi]. eapply Hcin; eauto.
  - right. eauto 10.
Qed.

(** A successful [zblock_alloc] brings one slot into use: the slot,
    free before, whose handle it returns. *)
Lemma alloc_one_slot pool size fresh junk handle pool' :
  zblock_create_pool PAGE_SHIFT SIZEOF_BLOCK true <> None ->
  ok pool ->
  fresh_pages PAGE_SHIFT SIZEOF_BLOCK OFFSETOF_NODE head_addr pool fresh junk ->
  zblock_alloc PAGE_SHIFT SIZEOF_BLOCK pool size fresh junk
  = Done (0, Some handle, pool') ->
  exists block t slot d,
    handle_to_metadata PAGE_SHIFT handle = (block, t, slot) /\
    t = find_block_type PAGE_SHIFT SIZEOF_BLOCK size /\
    descs !! Z.to_nat t = Some d /\ size <= slot_size d /\
    ~ in_use pool block t slot /\
    forall block' t' slot',
      in_use pool' block' t' slot' <->
      in_use pool block' t' slot' \/ (block', t', slot') = (block, t, slot).
Proof.
  intros Hcreated Hok Hfresh Hrun.
  destruct (alloc_effect pool size fresh junk handle pool' Hcreated Hok Hfresh Hrun)
    as (t & l & d & block & slot & b0 & b' & Et & Hl & Hd & Hsize & Hok' & _ & Hdec
        & Hslot & Hfree & Hinfo & Hcnt & Hur & Hfl & Hpg & Hcase).
  pose proof Hok as [Hwf Hflag]. pose proof Hwf as (Hlen & Hlists & Hblocks & _).
  pose proof (desc_slots_range _ _ _ _ Hd) as Hspb.
  change MAX_SLOTS with 32 in Hspb.
  destruct Hok' as [Hwf' _]. pose proof Hwf' as (_ & _ & _ & Hdisj' & _).
  set (tz := Z.of_nat t) in *.
  assert (Z.to_nat tz = t) as Etz by (unfold tz; apply Nat2Z.id).
  assert (0 <= tz) as Htz by (unfold tz; lia).
  (* the list of the block in the new pool *)
  assert (exists l', block_lists pool' !! t = Some l' /\
                     block ∈ head l' /\
                     (forall x, x ∈ head l -> x ∈ head l') /\
                     forall x, x ∈ head l' -> x = block \/ x ∈ head l) as Hl'.
  { destruct Hcase as [(Hin & _ & Hls) | (-> & _ & _ & _ & _ & j & Hls)].
    - exists l. rewrite Hls. auto.
    - eexists. rewrite Hls.
      rewrite list_lookup_insert_eq by (eapply lookup_lt_Some; eauto).
      split; [reflexivity |]. simpl.
      split; [apply elem_of_cons; now left |].
      split; intros x Hx; [apply elem_of_cons; now right |].
      apply elem_of_cons in Hx. tauto. }
  destruct Hl' as (l' & Hl' & Hin' & Hheads1 & Hheads).
  assert (forall t' lx, t' <> t ->
            block_lists pool' !! t' = Some lx <->
            block_lists pool !! t' = Some lx) as Hother.
  { intros t' lx Hne.
    destruct Hcase as [(_ & _ & Hls) | (_ & _ & _ & _ & _ & j & Hls)];
      rewrite Hls; [reflexivity |].
    now rewrite list_lookup_insert_ne by congruence. }
  assert (slot_info b' !! Z.to_nat slot = Some SLOT_OCCUPIED) as Hocc.
  { rewrite Hinfo. apply list_lookup_insert_eq. eapply lookup_lt_Some; eauto. }
  assert (pages pool' !! block = Some b') as Hb'
    by (rewrite Hpg; apply lookup_insert_eq).
  exists block, tz, slot, d.
  split; [exact Hdec |]. split; [now rewrite Et |].
  split; [now rewrite Etz |]. split; [exact Hsize |]. split.
  { intros (lx & dx & bx & st & _ & _ & _ & _ & Hbx & _ & Hst & Hnf).
    destruct Hcase as [(_ & Hb0 & _) | (-> & _ & Hnone & _)]; [| congruence].
    assert (bx = b0) as -> by congruence. congruence. }
  intros block' t' slot'. split.
  - intros (lx & dx & bx & st & Ht' & Hlx & Hdx & Hinx & Hbx & Hslotx & Hst & Hnf).
    destruct (decide (block' = block)) as [-> | Hne].
    + assert (Z.to_nat t' = t) as Et' by (eapply Hdisj'; eauto).
      assert (t' = tz) as -> by lia.
      assert (bx = b') as -> by congruence.
      assert (dx = d) as -> by congruence.
      destruct (decide (slot' = slot)) as [-> | Hns]; [now right | left].
      rewrite Hinfo, list_lookup_insert_ne in Hst by lia.
      destruct Hcase as [(Hin & Hb0 & _) | (-> & _ & _ & _ & Hall & _)].
      * exists l, d, b0, st. rewrite Etz. auto 10.
      * rewrite (Hall slot' ltac:(lia)) in Hst. congruence.
    + left. rewrite Hpg, lookup_insert_ne in Hbx by congruence.
      destruct (decide (Z.to_nat t' = t)) as [Et' | Hnt].
      * assert (lx = l') as -> by congruence.
        exists l, dx, bx, st. rewrite Et'. split; [lia |].
        split; [exact Hl |]. split; [congruence |].
        split; [| auto]. destruct (Hheads block' Hinx); [contradiction | auto].
      * exists lx, dx, bx, st. split; [lia |].
        split; [now apply Hother |]. auto 10.
  - intros [Hold | [= -> -> ->]].
    + apply (in_use_frame pool pool' block' t' slot' Hold).
      * intros lx Hlx Hinx.
        destruct (decide (Z.to_nat t' = t)) as [Et' | Hnt].
        -- rewrite Et' in *. assert (lx = l) as -> by congruence.
           exists l'. auto.
        -- exists lx. split; [now apply Hother | exact Hinx].
      * intros bx st Hbx Hst Hnf.
        destruct (decide (block' = block)) as [-> | Hne].
        -- destruct Hcase as [(_ & Hb0 & _) | (-> & _ & Hnone & _)];
             [| congruence].
           assert (bx = b0) as -> by congruence.
           exists b'. split; [exact Hb' |].
           rewrite Hinfo, list_lookup_insert_ne; [exact Hst |].
           intros E. rewrite <- E in Hst. congruence.
        -- exists bx. split; [| exact Hst].
           rewrite Hpg. now rewrite lookup_insert_ne by congruence.
    + exists l', d, b', SLOT_OCCUPIED. rewrite Etz.
      repeat (split; [first [assumption | lia] |]). discriminate.
Qed.

(** A block whose free count is one below the number of its slots has
    one slot in use. *)
Lemma one_slot_left d b s1 s2 st1 st2 :
  ZB_I1 d b -> free_slots b + 1 = slots_per_block d ->
  0 <= s1 < slots_per_block d -> 0 <= s2 < slots_per_block d ->
  slot_info b !! Z.to_nat s1 = Some st1 -> st1 <> SLOT_FREE ->
  slot_info b !! Z.to_nat s2 = Some st2 -> st2 <> SLOT_FREE ->
  s1 = s2.
Proof.
  intros Hinv Hone Hs1 Hs2 H1 Hn1 H2 Hn2.
  destruct (Z.eq_dec s1 s2) as [E | N]; [exact E | exfalso].
  unfold ZB_I1 in Hinv.
  pose proof (count_free_store (slots_per_block d) (slot_info b) s1 st1 SLOT_FREE
                Hs1 H1) as C1.
  assert (<[Z.to_nat s1 := SLOT_FREE]> (slot_info b) !! Z.to_nat s2 = Some st2)
    as H2' by (rewrite list_lookup_insert_ne by lia; exact H2).
  pose proof (count_free_store (slots_per_block d) _ s2 st2 SLOT_FREE Hs2 H2')
    as C2.
  pose proof (count_free_bound (slots_per_block d)
                (<[Z.to_nat s2 := SLOT_FREE]>
                   (<[Z.to_nat s1 := SLOT_FREE]> (slot_info b)))) as Hb.
  unfold is_free in *. rewrite !decide_False in * by assumption.
  rewrite !decide_True in * by reflexivity. lia.
Qed.

(** [zblock_free] of a handle in use takes that slot, and no other, out
    of use. *)
Lemma free_one_slot pool handle block t slot pool' :
  ok pool -> handle_to_metadata PAGE_SHIFT handle = (block, t, slot) ->
  in_use pool block t slot ->
  zblock_free PAGE_SHIFT SIZEOF_BLOCK pool handle = Done pool' ->
  forall block' t' slot',
    in_use pool' block' t' slot' <->
    in_use pool block' t' slot' /\ (block', t', slot') <> (block, t, slot).
Proof.
  intros Hok Hdec Huse Hrun.
  pose proof Huse as (l & d & b & st & Ht & Hl & Hd & Hin & Hb & Hslot & Hst & Hnf).
  unfold zblock_free in Hrun. rewrite Hdec in Hrun.
  destruct (free_slot_effect pool block t slot l d b st pool' Hok Ht Hl Hd Hin Hb
              Hslot Hst Hnf Hrun) as [_ Hcase].
  pose proof Hok as [Hwf _].
  pose proof Hwf as (_ & Hlists & Hblocks & Hdisj & _).
  destruct (Hblocks _ l d block Hl Hd Hin) as (_ & b0 & Hb0 & Hbok).
  assert (b0 = b) as -> by congruence.
  destruct Hbok as (_ & Hinv & _).
  assert (forall t' lx, t' <> Z.to_nat t ->
            block_lists pool' !! t' = Some lx <->
            block_lists pool !! t' = Some lx) as Hother.
  { intros t' lx Hne.
    destruct Hcase as [(_ & _ & c & Hls) | (_ & b' & c & _ & _ & _ & _ & Hls)];
      rewrite Hls; now rewrite list_lookup_insert_ne by congruence. }
  assert (exists l', block_lists pool' !! Z.to_nat t = Some l' /\
                     forall x, x ∈ head l' <->
                               x ∈ head l /\
                               (pages pool' !! block = None -> x <> block))
    as (l' & Hl' & Hheads).
  { destruct Hcase as [(_ & Hpg & c & Hls) | (_ & b' & c & Hpg & _ & _ & _ & Hls)];
      eexists; rewrite Hls;
      (rewrite list_lookup_insert_eq by (eapply lookup_lt_Some; eauto));
      (split; [reflexivity |]); simpl; intros x.
    - rewrite list_elem_of_filter. rewrite Hpg, lookup_delete_eq. tauto.
    - rewrite Hpg, lookup_insert_eq. split; [| tauto].
      intros Hx. split; [exact Hx | discriminate]. }
  intros block' t' slot'. split.
  - intros (lx & dx & bx & stx & Ht' & Hlx & Hdx & Hinx & Hbx & Hslotx & Hstx
            & Hnfx).
    assert (exists l0, block_lists pool !! Z.to_nat t' = Some l0 /\
                       block' ∈ head l0) as (l0 & Hl0 & Hin0).
    { destruct (decide (Z.to_nat t' = Z.to_nat t)) as [Et | Hnt].
      - rewrite Et in *. assert (lx = l') as -> by congruence.
        exists l. split; [exact Hl |]. now apply Hheads.
      - exists lx. split; [now apply Hother | exact Hinx]. }
    destruct (decide (block' = block)) as [-> | Hne].
    + assert (Z.to_nat t' = Z.to_nat t) as Et by (eapply Hdisj; eauto).
      assert (t' = t) as -> by lia.
      assert (dx = d) as -> by congruence.
      destruct Hcase as [(_ & Hpg & _) | (_ & b' & c & Hpg & Hinfo & _)].
      { rewrite Hpg, lookup_delete_eq in Hbx. discriminate. }
      rewrite Hpg, lookup_insert_eq in Hbx. injection Hbx as <-.
      rewrite Hinfo in Hstx.
      destruct (decide (slot' = slot)) as [-> | Hns].
      { rewrite list_lookup_insert_eq in Hstx by (eapply lookup_lt_Some; eauto).
        congruence. }
      rewrite list_lookup_insert_ne in Hstx by lia.
      split; [| congruence]. exists l, d, b, stx. auto 10.
    + split; [| congruence]. exists l0, dx, bx, stx.
      repeat (split; [first [assumption | lia] |]). split; [| auto].
      destruct Hcase as [(_ & Hpg & _) | (_ & b' & c & Hpg & _)];
        rewrite Hpg in Hbx.
      * now rewrite lookup_delete_ne in Hbx by congruence.
      * now rewrite lookup_insert_ne in Hbx by congruence.
  - intros [(lx & dx & bx & stx & Ht' & Hlx & Hdx & Hinx & Hbx & Hslotx & Hstx
             & Hnfx) Hne].
    destruct (decide (block' = block)) as [-> | Hnb].
    + assert (Z.to_nat t' = Z.to_nat t) as Et by (eapply Hdisj; eauto).
      assert (t' = t) as -> by lia.
      assert (dx = d) as -> by congruence.
      assert (bx = b) as -> by congruence.
      assert (slot' <> slot) as Hns by congruence.
      destruct Hcase as [(Hone & _) | (_ & b' & c & Hpg & Hinfo & _)].
      { exfalso. apply Hns.
        eapply (one_slot_left d b slot' slot); eauto. }
      exists l', d, b', stx. split; [lia |]. split; [exact Hl' |].
      split; [exact Hd |].
      split; [apply Hheads; split; [exact Hin |];
              rewrite Hpg, lookup_insert_eq; discriminate |].
      split; [rewrite Hpg; apply lookup_insert_eq |]. split; [lia |].
      split; [| exact Hnfx]. rewrite Hinfo.
      now rewrite list_lookup_insert_ne by lia.
    + assert (pages pool' !! block' = Some bx) as Hbx'.
      { destruct Hcase as [(_ & Hpg & _) | (_ & b' & c & Hpg & _)]; rewrite Hpg.
        - now rewrite lookup_delete_ne by congruence.
        - now rewrite lookup_insert_ne by congruence. }
      destruct (decide (Z.to_nat t' = Z.to_nat t)) as [Et | Hnt].
      * rewrite Et in *. assert (lx = l) as -> by congruence.
        exists l', dx, bx, stx. split; [lia |].
        split; [exact Hl' |]. split; [exact Hdx |].
        split; [apply Hheads; auto |]. auto.
      * exists lx, dx, bx, stx. split; [lia |].
        split; [now apply Hother |]. auto 10.
Qed.

(** Freeing the slot that [zblock_alloc] has just handed out gives the
    pool its blocks and its lists back. *)
Lemma alloc_free_effect pool size fresh junk handle pool1 :
  zblock_create_pool PAGE_SHIFT SIZEOF_BLOCK true <> None ->
  ok pool ->
  fresh_pages PAGE_SHIFT SIZEOF_BLOCK OFFSETOF_NODE head_addr pool fresh junk ->
  zblock_alloc PAGE_SHIFT SIZEOF_BLOCK pool size fresh junk
  = Done (0, Some handle, pool1) ->
  exists pool2,
    zblock_free PAGE_SHIFT SIZEOF_BLOCK pool1 handle = Done pool2 /\
    ok pool2 /\ pages pool2 = pages pool /\
    head <$> block_lists pool2 = head <$> block_lists pool.
Proof.
  intros Hcreated Hok Hfresh Hrun.
  destruct (alloc_effect pool size fresh junk handle pool1 Hcreated Hok Hfresh Hrun)
    as (t & l & d & block & slot & b0 & b' & Et & Hl & Hd & Hsize & Hok1 & _ & Hdec
        & Hslot & Hfree & Hinfo & Hcnt & Hur & Hfl & Hpg & Hcase).
  pose proof Hok as [Hwf Hflag]. pose proof Hwf as (Hlen & Hlists & Hblocks & _).
  assert (exists l1, block_lists pool1 !! t = Some l1 /\ block ∈ head l1 /\
                     filter (fun x => x ≠ block) (head l1)
                     = filter (fun x => x ≠ block) (head l) /\
                     (block ∈ head l -> head l1 = head l))
    as (l1 & Hl1 & Hin1 & Hfilter & Hsame).
  { destruct Hcase as [(Hin & _ & Hls) | (-> & _ & Hnone & _ & _ & j & Hls)].
    - exists l. rewrite Hls. auto.
    - eexists. rewrite Hls.
      rewrite list_lookup_insert_eq by (eapply lookup_lt_Some; eauto).
      split; [reflexivity |]. simpl.
      split; [apply elem_of_cons; now left |].
      split; [now rewrite filter_cons_False by tauto |].
      intros Hin. destruct (Hblocks _ l d fresh Hl Hd Hin) as (_ & bx & Hbx & _).
      congruence. }
  assert (slot_info b' !! Z.to_nat slot = Some SLOT_OCCUPIED) as Hocc.
  { rewrite Hinfo. apply list_lookup_insert_eq. eapply lookup_lt_Some; eauto. }
  assert (pages pool1 !! block = Some b') as Hb'
    by (rewrite Hpg; apply lookup_insert_eq).
  assert (handle_in_use PAGE_SHIFT SIZEOF_BLOCK pool1 handle) as Huse.
  { apply (handle_in_use_parts _ _ _ _ _ Hdec).
    exists l1, d, b', SLOT_OCCUPIED. rewrite Nat2Z.id.
    repeat (split; [first [assumption | lia] |]). discriminate. }
  destruct (free_ok _ _ _ _ pool1 handle Hok1 Huse) as (pool2 & Hfreed & Hok2).
  exists pool2. split; [exact Hfreed |]. split; [exact Hok2 |].
  unfold zblock_free in Hfreed. rewrite Hdec in Hfreed.
  destruct (free_slot_effect pool1 block (Z.of_nat t) slot l1 d b' SLOT_OCCUPIED
              pool2 Hok1 ltac:(lia)) as [_ Hfree2]; rewrite ?Nat2Z.id; auto;
    try discriminate.
  rewrite Nat2Z.id in Hfree2.
  assert (forall c n,
            head <$> <[t := mk_list (filter (fun x => x ≠ block) (head l1)) c n]>
                       (block_lists pool1)
            = <[t := filter (fun x => x ≠ block) (head l)]>
                (head <$> block_lists pool)) as Hdel.
  { intros c n. rewrite list_fmap_insert. simpl. rewrite Hfilter.
    destruct Hcase as [(_ & _ & Hls) | (_ & _ & _ & _ & _ & j & Hls)];
      rewrite Hls; [reflexivity |].
    now rewrite list_fmap_insert, list_insert_insert_eq. }
  assert (forall c n,
            head <$> <[t := mk_list (head l1) c n]> (block_lists pool1)
            = <[t := head l1]> (head <$> block_lists pool)) as Hkeep.
  { intros c n. rewrite list_fmap_insert. simpl.
    destruct Hcase as [(_ & _ & Hls) | (_ & _ & _ & _ & _ & j & Hls)];
      rewrite Hls; [reflexivity |].
    now rewrite list_fmap_insert, list_insert_insert_eq. }
  assert ((head <$> block_lists pool) !! t = Some (head l)) as Hhl
    by (rewrite list_lookup_fmap, Hl; reflexivity).
  destruct Hcase as [(Hin & Hb0 & Hls) | (-> & Hnz & Hnone & Hfs & Hall & j & Hls)].
  - (* the slot of a block with other slots in use *)
    destruct (Hblocks _ l d block Hl Hd Hin) as (_ & bx & Hbx & Hbok).
    assert (bx = b0) as -> by congruence.
    destruct Hbok as (Hlen0 & _ & Hlt & Hur0).
    destruct Hfree2 as [(Hone & _) | (_ & b2 & c & Hpg2 & Hinfo2 & Hcnt2 & Hur2 & Hls2)];
      [lia |].
    split.
    + rewrite Hpg2, Hpg, insert_insert_eq.
      assert (b2 = b0) as ->.
      { destruct b2 as [i2 f2 u2], b0 as [i0 f0 u0]. simpl in *.
        rewrite Hinfo, list_insert_insert_eq, list_insert_id in Hinfo2
          by exact Hfree.
        f_equal; [exact Hinfo2 | lia | congruence]. }
      now apply insert_id.
    + rewrite Hls2, Hkeep, (Hsame Hin). now apply list_insert_id.
  - (* the first slot of a new block *)
    destruct Hfree2 as [(_ & Hpg2 & c & Hls2) | (Hmore & _)]; [| lia].
    split.
    + rewrite Hpg2, Hpg, delete_insert_eq. now apply delete_id.
    + rewrite Hls2, Hdel.
      assert (fresh ∉ head l) as Hnotin.
      { intros Hin. destruct (Hblocks _ l d fresh Hl Hd Hin) as (_ & bx & Hbx & _).
        congruence. }
      rewrite filter_all_ne by exact Hnotin. now apply list_insert_id.
Qed.

(** ** Block counts *)

Lemma head_length_bound ls pg t l :
  wf ls pg -> ls !! t = Some l -> Z.of_nat (length (head l)) <= 2 ^ 63.
Proof.
  intros (_ & Hlists & _ & _ & _ & Hal) Hl.
  destruct (Hlists t l Hl) as (_ & Hnd & _).
  destruct table_in_page as [_ H5].
  apply even_addresses_bounded; [exact Hnd |].
  intros x Hx. destruct (Hal t l x Hl Hx) as [Hr Hal'].
  split; [exact Hr |].
  rewrite PAGE_SIZE_pow2 in Hal' by exact PAGE_SHIFT_range.
  replace PAGE_SHIFT with (1 + (PAGE_SHIFT - 1)) in Hal' by ring.
  rewrite Z.pow_add_r in Hal' by lia. change (2 ^ 1) with 2 in Hal'.
  assert (0 < 2 ^ (PAGE_SHIFT - 1)) by (apply Z.pow_pos_nonneg; lia).
  rewrite Z.rem_mul_r in Hal' by lia. divlia.
Qed.

(** A new block linked in front of a list. *)
Lemma accounted_add pool pool' t l fresh b' c :
  ok pool -> block_lists pool !! t = Some l -> pages pool !! fresh = None ->
  counts_ok pool -> all_linked pool ->
  block_lists pool' =
    <[t := mk_list (fresh :: head l) c (u64 (block_count l + 1))]>
      (block_lists pool) ->
  pages pool' = <[fresh := b']> (pages pool) ->
  counts_ok pool' /\ all_linked pool'.
Proof.
  intros [Hwf _] Hl Hnew Hcnt Hlinked Hls Hpg. unfold counts_ok, all_linked in *.
  pose proof (head_length_bound _ _ t l Hwf Hl) as Hbound.
  assert (t < length (block_lists pool))%nat as Ht by (eapply lookup_lt_Some; eauto).
  split.
  - intros t' l' Hl'. rewrite Hls in Hl'.
    apply lookup_insert_cases in Hl' as [[-> ->] | [_ Hl']]; [| now apply (Hcnt t')].
    simpl. rewrite (Hcnt t l Hl). rewrite u64_small by lia. lia.
  - intros block b Hb. rewrite Hpg in Hb.
    destruct (decide (block = fresh)) as [-> | Hne].
    + eexists t, _. rewrite Hls, list_lookup_insert_eq by exact Ht.
      split; [reflexivity |]. simpl. apply elem_of_cons. now left.
    + rewrite lookup_insert_ne in Hb by congruence.
      destruct (Hlinked block b Hb) as (t0 & l0 & Hl0 & Hin0).
      destruct (decide (t0 = t)) as [-> | Hnt].
      * assert (l0 = l) as -> by congruence.
        eexists t, _. rewrite Hls, list_lookup_insert_eq by exact Ht.
        split; [reflexivity |]. simpl. apply elem_of_cons. now right.
      * exists t0, l0. rewrite Hls, list_lookup_insert_ne by congruence. auto.
Qed.

(** The contents of a linked block and the cache of its list change. *)
Lemma accounted_update pool pool' t l block b' c :
  block_lists pool !! t = Some l -> block ∈ head l ->
  counts_ok pool -> all_linked pool ->
  block_lists pool' = <[t := mk_list (head l) c (block_count l)]> (block_lists pool) ->
  pages pool' = <[block := b']> (pages pool) ->
  counts_ok pool' /\ all_linked pool'.
Proof.
  intros Hl Hin Hcnt Hlinked Hls Hpg. unfold counts_ok, all_linked in *.
  assert (t < length (block_lists pool))%nat as Ht by (eapply lookup_lt_Some; eauto).
  assert (forall t0 l0 x, block_lists pool !! t0 = Some l0 -> x ∈ head l0 ->
            exists l1, block_lists pool' !! t0 = Some l1 /\ x ∈ head l1) as Hkeep.
  { intros t0 l0 x Hl0 Hx. destruct (decide (t0 = t)) as [-> | Hnt].
    - assert (l0 = l) as -> by congruence.
      eexists. rewrite Hls, list_lookup_insert_eq by exact Ht.
      split; [reflexivity | exact Hx].
    - exists l0. rewrite Hls, list_lookup_insert_ne by congruence. auto. }
  split.
  - intros t' l' Hl'. rewrite Hls in Hl'.
    apply lookup_insert_cases in Hl' as [[-> ->] | [_ Hl']]; [| now apply (Hcnt t')].
    simpl. now apply (Hcnt t l).
  - intros x b Hb. rewrite Hpg in Hb.
    destruct (decide (x = block)) as [-> | Hne].
    + destruct (Hkeep t l block Hl Hin) as (l1 & H1 & H2). eauto.
    + rewrite lookup_insert_ne in Hb by congruence.
      destruct (Hlinked x b Hb) as (t0 & l0 & Hl0 & Hin0).
      destruct (Hkeep t0 l0 x Hl0 Hin0) as (l1 & H1 & H2). eauto.
Qed.

(** A block is unlinked and its pages are given back. *)
Lemma accounted_delete pool pool' t l block c :
  ok pool -> block_lists pool !! t = Some l -> block ∈ head l ->
  counts_ok pool -> all_linked pool ->
  block_lists pool' =
    <[t := mk_list (filter (fun x => x ≠ block) (head l)) c
             (u64 (block_count l - 1))]> (block_lists pool) ->
  pages pool' = delete block (pages pool) ->
  counts_ok pool' /\ all_linked pool'.
Proof.
  intros [Hwf _] Hl Hin Hcnt Hlinked Hls Hpg. unfold counts_ok, all_linked in *.
  pose proof (head_length_bound _ _ t l Hwf Hl) as Hbound.
  pose proof Hwf as (_ & Hlists & _).
  destruct (Hlists t l Hl) as (_ & Hnd & _).
  pose proof (filter_ne_length block (head l) Hnd Hin) as Hlen.
  assert (t < length (block_lists pool))%nat as Ht by (eapply lookup_lt_Some; eauto).
  split.
  - intros t' l' Hl'. rewrite Hls in Hl'.
    apply lookup_insert_cases in Hl' as [[-> ->] | [_ Hl']]; [| now apply (Hcnt t')].
    simpl. rewrite (Hcnt t l Hl). rewrite u64_small by lia. lia.
  - intros x b Hb. rewrite Hpg in Hb.
    apply lookup_delete_Some in Hb as [Hne Hb].
    destruct (Hlinked x b Hb) as (t0 & l0 & Hl0 & Hin0).
    destruct (decide (t0 = t)) as [-> | Hnt].
    + assert (l0 = l) as -> by congruence.
      eexists t, _. rewrite Hls, list_lookup_insert_eq by exact Ht.
      split; [reflexivity |]. simpl. apply list_elem_of_filter. auto.
    + exists t0, l0. rewrite Hls, list_lookup_insert_ne by congruence. auto.
Qed.

(** [zblock_alloc] returns an error and the pool as it was, or zero
    and a handle. *)
Lemma alloc_result pool size fresh junk ret h pool' :
  zblock_create_pool PAGE_SHIFT SIZEOF_BLOCK true <> None ->
  ok pool ->
  fresh_pages PAGE_SHIFT SIZEOF_BLOCK OFFSETOF_NODE head_addr pool fresh junk ->
  zblock_alloc PAGE_SHIFT SIZEOF_BLOCK pool size fresh junk = Done (ret, h, pool') ->
  (ret < 0 /\ h = None /\ pool' = pool) \/ (ret = 0 /\ exists handle, h = Some handle).
Proof.
  intros Hcreated Hok Hfresh Hrun. unfold zblock_alloc in Hrun.
  destruct (size =? 0).
  { injection Hrun as <- <- <-. left. unfold EINVAL. auto with lia. }
  destruct (Z.ltb_spec (PAGE_SIZE PAGE_SHIFT) size).
  { injection Hrun as <- <- <-. left. unfold ENOSPC. auto with lia. }
  pose proof (find_block_type_in_table PAGE_SHIFT SIZEOF_BLOCK size Hcreated
                ltac:(lia)) as Hin.
  set (tz := find_block_type PAGE_SHIFT SIZEOF_BLOCK size) in *.
  unfold ARRAY_SIZE_block_desc in Hin.
  pose proof Hok as [Hwf _]. pose proof Hwf as (Hlen & _).
  destruct (lookup_lt_is_Some_2 (block_lists pool) (Z.to_nat tz)) as [l Hl];
    [rewrite Hlen; lia |].
  destruct (wf_desc _ _ _ _ _ _ _ l Hwf Hl) as [d Hd].
  rewrite <- (Z2Nat.id tz) in Hrun by lia.
  destruct (alloc_check_effect pool _ l d fresh junk _ _ _ Hok Hl Hd Hfresh Hrun)
    as [(-> & -> & -> & _) | (block & slot & b0 & b' & -> & -> & _)];
    [left; unfold ENOMEM; auto with lia | right; eauto].
Qed.

(** ** Pool size *)

Lemma get_pool_size_loop_spec pool :
  length (block_lists pool) = length descs -> counts_ok pool ->
  forall n i total,
    (i + n = length descs)%nat -> 0 <= total < 2 ^ 64 ->
    get_pool_size_loop PAGE_SHIFT SIZEOF_BLOCK n (Z.of_nat i) pool total
    = Done (u64 (total + linked_bytes PAGE_SHIFT (drop i (block_lists pool))
                           (drop i descs))).
Proof.
  intros Hlen Hcnt. induction n as [| n IH]; intros i total Hi Htotal.
  - rewrite !drop_ge by lia. simpl. now rewrite Z.add_0_r, u64_small.
  - destruct (lookup_lt_is_Some_2 (block_lists pool) i) as [l Hl]; [lia |].
    destruct (lookup_lt_is_Some_2 descs i) as [d Hd]; [lia |].
    destruct (ZblockSizes.desc_shape _ _ _ _ Hd) as (ns & o & -> & _ & Ho).
    cbn [get_pool_size_loop].
    rewrite (proj2 (list_at_Done pool (Z.of_nat i) l)), bind_Done
      by (rewrite Nat2Z.id; split; [lia | exact Hl]).
    rewrite (proj2 (desc_at_Done _ _ (Z.of_nat i) _)), bind_Done
      by (rewrite Nat2Z.id; split; [lia | exact Hd]).
    replace (Z.of_nat i + 1) with (Z.of_nat (S i)) by lia.
    rewrite IH by (lia || apply wrap_range; lia).
    rewrite (drop_S _ _ _ Hl), (drop_S _ _ _ Hd). cbn [linked_bytes order desc].
    rewrite (Hcnt i l Hl), Z.shiftl_mul_pow2 by lia.
    f_equal. rewrite u64_add_l.
    set (R := linked_bytes _ _ _). set (Y := PAGE_SIZE PAGE_SHIFT * 2 ^ o).
    set (n0 := Z.of_nat (length (head l))).
    rewrite <- (Z.add_assoc total), (Z.add_comm (u64 _) R), (Z.add_assoc total R).
    rewrite u64_add_r, <- (u64_add_r (total + R) (n0 * u64 Y)), u64_mul_r, u64_add_r.
    f_equal. ring.
Qed.

(** ** Growth *)

Lemma cache_find_loop_zero (pg : gmap Z zblock_block) : forall todo,
  cache_find_loop pg todo = Done 0 ->
  forall c b, c ∈ todo -> c <> 0 -> pg !! c = Some b -> free_slots b = 0.
Proof.
  induction todo as [| x todo IH]; intros Hrun c b Hc Hnz Hb;
    [inversion Hc |].
  simpl in Hrun. apply elem_of_cons in Hc.
  destruct (Z.eqb_spec x 0) as [E | N].
  - destruct Hc as [-> | Hc]; [contradiction | eauto].
  - unfold deref in Hrun. destruct (pg !! x) as [bx |] eqn:Hx; [| discriminate].
    rewrite bind_Done in Hrun.
    destruct (Z.eqb_spec (free_slots bx) 0) as [E | Nf].
    + destruct Hc as [-> | Hc]; [congruence | eauto].
    + congruence.
Qed.

(** With a cached block that has a free slot [zblock_alloc] does not
    look at what the page allocator has to offer. *)
Lemma alloc_check_cached pool t l c b fresh junk fresh' junk' :
  ok pool -> block_lists pool !! t = Some l ->
  c ∈ block_cache l -> c <> 0 -> pages pool !! c = Some b -> free_slots b <> 0 ->
  zblock_alloc_check PAGE_SHIFT SIZEOF_BLOCK pool (Z.of_nat t) fresh junk
  = zblock_alloc_check PAGE_SHIFT SIZEOF_BLOCK pool (Z.of_nat t) fresh' junk'.
Proof.
  intros [Hwf _] Hl Hc Hnz Hb Hfs. unfold zblock_alloc_check.
  rewrite (proj2 (list_at_Done pool (Z.of_nat t) l)), !bind_Done
    by (rewrite Nat2Z.id; split; [lia | exact Hl]).
  unfold cache_find_block.
  destruct (cache_find_loop_spec (pages pool) (block_cache l))
    as (c' & Hfind & Hc').
  { intros x Hx Hxnz. destruct (wf_cache_live _ _ _ _ _ _ t l x Hwf Hl Hx Hxnz)
      as (_ & bx & Hbx & _). eauto. }
  rewrite Hfind, !bind_Done.
  destruct Hc' as [-> | (Hnz' & _)].
  - pose proof (cache_find_loop_zero _ _ Hfind c b Hc Hnz Hb). contradiction.
  - destruct (Z.eqb_spec c' 0); [contradiction | reflexivity].
Qed.

End Handles.

Section ReclaimEffects.

Variable evict : zblock_pool -> Z -> Z * zblock_pool.

Hypothesis PAGE_SHIFT_range : 0 <= PAGE_SHIFT < 64.
Hypothesis table_fits :
  ARRAY_SIZE_block_desc PAGE_SHIFT SIZEOF_BLOCK
  <= Z.shiftr (PAGE_SIZE PAGE_SHIFT) SLOT_BITS.
Hypothesis evict_calls : callback_ok PAGE_SHIFT SIZEOF_BLOCK evict.

(** The slot loop of [zblock_reclaim_block]: the count it adds to
    [reclaimed] is the number of slots it has set free.  Slots that
    were free or mapped keep their state, and no slot comes into
    use. *)
Lemma evict_slots_effect d block t :
  0 <= block < 2 ^ 64 -> block mod PAGE_SIZE PAGE_SHIFT = 0 ->
  desc_at PAGE_SHIFT SIZEOF_BLOCK t = Done d ->
  forall n slot q reclaimed b,
  pages q !! block = Some b -> under_reclaim b = true ->
  length (slot_info b) = Z.to_nat MAX_SLOTS -> ZB_I1 d b ->
  0 <= slot -> slot + Z.of_nat n <= slots_per_block d ->
  0 <= reclaimed -> reclaimed + Z.of_nat n < 2 ^ 31 ->
  exists q' b',
    evict_slots evict n slot block t q reclaimed
    = Done (q', reclaimed + (free_slots b' - free_slots b)) /\
    block_lists q' = block_lists q /\ alloc_flag q' = alloc_flag q /\
    pages q' = <[block := b']> (pages q) /\
    length (slot_info b') = Z.to_nat MAX_SLOTS /\ ZB_I1 d b' /\
    under_reclaim b' = true /\
    free_slots b <= free_slots b' <= free_slots b + Z.of_nat n /\
    (forall s st, slot_info b !! s = Some st ->
                  st = SLOT_FREE \/ st = SLOT_MAPPED ->
                  slot_info b' !! s = Some st) /\
    (forall s st', slot_info b' !! s = Some st' -> st' <> SLOT_FREE ->
                   exists st, slot_info b !! s = Some st /\ st <> SLOT_FREE) /\
    ((forall p h, (evict p h).1 <> 0 /\ (evict p h).2 = p) -> b' = b).
Proof.
  intros Hrange Haligned Hdesc.
  apply desc_at_Done in Hdesc as Hd. destruct Hd as [Ht Hd].
  pose proof (desc_slots_range _ _ _ _ Hd) as Hspb.
  assert (t < 29) as Ht29.
  { apply lookup_lt_Some in Hd. change (length descs) with 29%nat in Hd. lia. }
  destruct (table_fits_bytes PAGE_SHIFT SIZEOF_BLOCK head_addr evict
              PAGE_SHIFT_range table_fits) as [Hbytes H5].
  change MAX_SLOTS with 32 in *. change (Z.to_nat 32) with 32%nat.
  induction n as [| n IH];
    intros slot q reclaimed b Hb Hur Hlen Hinv Hslot Hn Hrec Hrecn.
  - exists q, b. simpl. rewrite Z.sub_diag, Z.add_0_r.
    split; [reflexivity |]. split; [reflexivity |]. split; [reflexivity |].
    split; [now rewrite insert_id |].
    repeat (split; [first [assumption | lia] |]).
    split; [auto |]. split; [eauto | auto].
  - cbn [evict_slots]. rewrite (proj2 (deref_Done _ _ _) Hb), bind_Done.
    destruct (lookup_lt_is_Some_2 (slot_info b) (Z.to_nat slot)) as [st Hst];
      [lia |].
    rewrite Hst.
    destruct ((st =? SLOT_OCCUPIED) || (st =? SLOT_UNMAPPED)) eqn:Hused.
    2: { destruct (IH (slot + 1) q reclaimed b) as (q' & b' & H);
           auto; try lia.
         exists q', b'. intuition lia. }
    pose proof (fun (H : forall p h, (evict p h).1 <> 0 /\ (evict p h).2 = p) =>
                  H q (metadata_to_handle block t slot)) as Hrefuse.
    assert (st <> SLOT_FREE) as Hnf by (intros ->; discriminate).
    assert (st <> SLOT_MAPPED) as Hnm by (intros ->; discriminate).
    set (handle := metadata_to_handle block t slot).
    assert (handle_to_metadata PAGE_SHIFT handle = (block, t, slot)) as Hdec
      by (apply handle_decode; simpl; lia).
    pose proof (evict_calls q handle) as Hcalls.
    destruct (evict q handle) as [ret q1] eqn:Hev. simpl in Hcalls.
    unfold handle in Hev. rewrite Hev in Hrefuse. simpl in Hrefuse.
    assert (0 <= slot < MAX_SLOTS) as Hslot32 by (change MAX_SLOTS with 32; lia).
    destruct (callback_calls_spec PAGE_SHIFT SIZEOF_BLOCK handle block t slot d
                Hdec Hdesc Hslot32 q q1 Hcalls b st Hb Hur Hst Hnf)
      as (Hls1 & Hfl1 & b1 & st1 & Hpg1 & Hur1 & Hfs1 & Hinfo1 & Hnf1).
    assert (length (slot_info b1) = 32%nat) as Hlen1
      by (rewrite Hinfo1, length_insert; exact Hlen).
    assert (slot_info b1 !! Z.to_nat slot = Some st1) as Hst1
      by (rewrite Hinfo1; apply list_lookup_insert_eq; lia).
    assert (ZB_I1 d b1) as Hinv1.
    { unfold ZB_I1 in *. rewrite Hfs1, Hinfo1.
      rewrite (count_free_store _ _ slot st) by (lia || assumption).
      unfold is_free. rewrite !decide_False by assumption. lia. }
    assert (pages q1 !! block = Some b1) as Hb1
      by (rewrite Hpg1; apply lookup_insert_eq).
    assert (forall s st0, slot_info b !! s = Some st0 ->
              st0 = SLOT_FREE \/ st0 = SLOT_MAPPED ->
              s <> Z.to_nat slot) as Hother.
    { intros s st0 Hs Hst0 ->. rewrite Hst in Hs. injection Hs as <-.
      destruct Hst0; contradiction. }
    destruct (ret =? 0) eqn:Eret; simpl negb; cbv iota.
    + rewrite (proj2 (deref_Done _ _ _) Hb1), bind_Done.
      rewrite store_slot_Done by (change MAX_SLOTS with 32; lia).
      rewrite bind_Done. cbn [set_free_slots slot_info free_slots under_reclaim].
      pose proof (count_free_bound (slots_per_block d) (slot_info b1)) as Hcb.
      unfold ZB_I1 in Hinv1.
      rewrite (u32_small (free_slots b1 + 1)) by lia.
      rewrite (s32_small (reclaimed + 1)) by lia.
      set (b2 := {| slot_info := <[Z.to_nat slot := SLOT_FREE]> (slot_info b1);
                    free_slots := free_slots b1 + 1;
                    under_reclaim := under_reclaim b1 |}).
      destruct (IH (slot + 1) (set_block q1 block b2) (reclaimed + 1) b2)
        as (q' & b' & Hrun & Hls & Hfl & Hpg & Hlen' & Hinv' & Hur' & Hfs'
            & Hkeep & Hused' & _);
        try lia.
      { simpl. apply lookup_insert_eq. }
      { exact Hur1. }
      { unfold b2. simpl. now rewrite length_insert. }
      { unfold ZB_I1, b2. simpl.
        rewrite (count_free_store _ _ slot st1) by (lia || assumption).
        unfold is_free. rewrite decide_False by exact Hnf1.
        rewrite decide_True by reflexivity. lia. }
      exists q', b'. cbn [free_slots b2] in Hrun, Hfs'.
      split; [etransitivity; [exact Hrun | do 2 f_equal; lia] |].
      split; [rewrite Hls; exact Hls1 |]. split; [rewrite Hfl; exact Hfl1 |].
      split; [rewrite Hpg; simpl; rewrite Hpg1, !insert_insert_eq; reflexivity |].
      split; [exact Hlen' |]. split; [exact Hinv' |]. split; [exact Hur' |].
      split; [lia |]. split; [| split].
      * intros s st0 Hs Hst0. apply Hkeep; [| exact Hst0].
        unfold b2. simpl. rewrite Hinfo1.
        rewrite !list_lookup_insert_ne by (symmetry; eapply Hother; eauto).
        exact Hs.
      * intros s st' Hs Hst'. destruct (Hused' s st' Hs Hst') as (st2 & Hs2 & Hnf2).
        unfold b2 in Hs2. simpl in Hs2. rewrite Hinfo1 in Hs2.
        destruct (decide (s = Z.to_nat slot)) as [-> | Hne].
        -- rewrite list_lookup_insert_eq in Hs2 by (rewrite length_insert; lia).
           congruence.
        -- rewrite !list_lookup_insert_ne in Hs2 by congruence. eauto.
      * intros Href. destruct (Hrefuse Href) as [Hne0 _].
        apply Z.eqb_eq in Eret. contradiction.
    + exists q1, b1. rewrite Hfs1, Z.sub_diag, Z.add_0_r.
      split; [reflexivity |]. split; [exact Hls1 |]. split; [exact Hfl1 |].
      split; [exact Hpg1 |]. split; [exact Hlen1 |]. split; [exact Hinv1 |].
      split; [exact Hur1 |]. split; [lia |]. split; [| split].
      * intros s st0 Hs Hst0. rewrite Hinfo1.
        rewrite list_lookup_insert_ne by (symmetry; eapply Hother; eauto).
        exact Hs.
      * intros s st' Hs Hst'. rewrite Hinfo1 in Hs.
        destruct (decide (s = Z.to_nat slot)) as [-> | Hne]; [eauto |].
        rewrite list_lookup_insert_ne in Hs by congruence. eauto.
      * intros Href. destruct (Hrefuse Href) as [_ Hsame].
        subst q1. rewrite Hpg1, lookup_insert_eq in Hb. congruence.
Qed.

#[local] Abbreviation reclaim_type :=
  (zblock_reclaim_type PAGE_SHIFT SIZEOF_BLOCK OFFSETOF_NODE head_addr evict).

(** One iteration of the loop of [zblock_reclaim_block] on a list with
    blocks: nothing happens when the oldest block is cached; otherwise
    that block alone is worked on. *)
Lemma reclaim_type_effect pool t l d r :
  ok pool -> block_lists pool !! t = Some l -> descs !! t = Some d ->
  reclaim_type (Z.of_nat t) pool = Done r ->
  match r with
  | None =>
      (head l = [] /\ no_entry OFFSETOF_NODE head_addr (Z.of_nat t) = 0) \/
      exists block, last (head l) = Some block /\ block ∈ block_cache l
  | Some (ret, pool') =>
      exists block b bf,
        last (head l) = Some block /\ (block ∉ block_cache l) /\
        pages pool !! block = Some b /\
        alloc_flag pool' = alloc_flag pool /\
        under_reclaim bf = false /\
        length (slot_info bf) = Z.to_nat MAX_SLOTS /\ ZB_I1 d bf /\
        free_slots b <= free_slots bf <= slots_per_block d /\
        (forall s st, slot_info b !! s = Some st ->
                      st = SLOT_FREE \/ st = SLOT_MAPPED ->
                      slot_info bf !! s = Some st) /\
        (forall s st', slot_info bf !! s = Some st' -> st' <> SLOT_FREE ->
                       exists st, slot_info b !! s = Some st /\ st <> SLOT_FREE) /\
        ret = (if free_slots bf =? free_slots b then - EAGAIN
               else free_slots bf - free_slots b) /\
        ((forall p h, (evict p h).1 <> 0 /\ (evict p h).2 = p) -> bf = b) /\
        ((free_slots bf = slots_per_block d /\
          pages pool' = delete block (pages pool) /\
          block_lists pool' =
          <[t := mk_list (filter (fun x => x ≠ block) (head l)) (block_cache l)
                   (u64 (block_count l - 1))]> (block_lists pool)) \/
         (free_slots bf <> slots_per_block d /\
          pages pool' = <[block := bf]> (pages pool) /\
          exists j, (j < length (block_cache l))%nat /\
            block_lists pool' =
            <[t := mk_list (head l) (<[j := block]> (block_cache l))
                     (block_count l)]> (block_lists pool)))
  end.
Proof.
  intros [Hwf Hflag] Hl Hd Hrun. unfold zblock_reclaim_type in Hrun.
  rewrite (proj2 (list_at_Done pool (Z.of_nat t) l)), bind_Done in Hrun
    by (rewrite Nat2Z.id; split; [lia | exact Hl]).
  assert (desc_at PAGE_SHIFT SIZEOF_BLOCK (Z.of_nat t) = Done d) as Hdesc
    by (apply desc_at_Done; rewrite Nat2Z.id; split; [lia | exact Hd]).
  pose proof (desc_slots_range _ _ _ _ Hd) as Hspb.
  change MAX_SLOTS with 32 in Hspb.
  pose proof Hwf as (_ & Hlists & Hblocks & _ & Hno & Hal).
  pose proof (Hlists t l Hl) as Hlok.
  destruct Hlok as (Hclen & Hnd & Hcdup & Hcin).
  destruct (last (head l)) as [block |] eqn:Hlast.
  2: { apply last_None in Hlast.
       unfold list_last_entry in Hrun. rewrite Hlast in Hrun. simpl last in Hrun.
       cbv iota in Hrun.
       fold (no_entry OFFSETOF_NODE head_addr (Z.of_nat t)) in Hrun.
       set (block := no_entry OFFSETOF_NODE head_addr (Z.of_nat t)) in *.
       destruct (Z.eqb_spec block 0) as [E0 | N0].
       { injection Hrun as <-. left. auto. }
       destruct (is_in_cache_spec block l) as [[E Hnotin] | [Hr Hat]].
       - rewrite E in Hrun. simpl negb in Hrun. cbv iota in Hrun.
         assert (pages pool !! block = None) as Hnone.
         { apply Hno. apply lookup_lt_Some in Hd.
           unfold ARRAY_SIZE_block_desc. lia. }
         unfold deref in Hrun. rewrite Hnone in Hrun. discriminate.
       - exfalso. assert (block ∈ head l) as Hin by (eapply Hcin; eauto).
         rewrite Hlast in Hin. inversion Hin. }
  assert (list_last_entry OFFSETOF_NODE head_addr (Z.of_nat t) l = block) as Eblk
    by (unfold list_last_entry; now rewrite Hlast).
  rewrite Eblk in Hrun.
  assert (block ∈ head l) as Hin by (now apply last_Some_elem_of).
  destruct (Hblocks t l d block Hl Hd Hin) as (Hnz & b & Hb & Hbok).
  destruct (Hal t l block Hl Hin) as [Hrange Haligned].
  pose proof (block_ok_bounds _ _ t d b Hd Hbok) as (Hfs & _).
  destruct Hbok as (Hlen & Hinv & _ & Hur).
  destruct (Z.eqb_spec block 0) as [? | _]; [contradiction |].
  destruct (is_in_cache_spec block l) as [[E Hnotin] | [Hr Hat]].
  2: { destruct (Z.eqb_spec (is_in_cache block l) (-1)) as [? | _]; [lia |].
       simpl negb in Hrun. cbv iota in Hrun. injection Hrun as <-.
       right. exists block. split; [reflexivity |].
       apply list_elem_of_lookup. eauto. }
  rewrite E in Hrun. simpl negb in Hrun. cbv iota in Hrun.
  rewrite (proj2 (deref_Done _ _ _) Hb), bind_Done, Hdesc, bind_Done in Hrun.
  destruct (evict_slots_effect d block (Z.of_nat t) Hrange Haligned Hdesc
              (Z.to_nat (slots_per_block d)) 0
              (set_block pool block (set_under_reclaim b true)) 0
              (set_under_reclaim b true))
    as (q & b' & Hslots & Hls & Hfl & Hpg & Hlen' & Hinv' & Hur' & Hfs' & Hkeep
        & Hused & Hsame);
    try (simpl; auto; lia).
  { simpl. apply lookup_insert_eq. }
  simpl in Hls, Hfl, Hpg, Hfs', Hkeep, Hused, Hslots.
  rewrite insert_insert_eq in Hpg. rewrite Z.add_0_l in Hslots.
  rewrite Hslots, bind_Done in Hrun. cbv beta iota in Hrun.
  assert (deref (pages q) block = Done b') as Hq
    by (apply deref_Done; rewrite Hpg; apply lookup_insert_eq).
  rewrite Hq, bind_Done in Hrun.
  assert (list_at q (Z.of_nat t) = Done l) as Hlq
    by (apply list_at_Done; rewrite Hls, Nat2Z.id; split; [lia | exact Hl]).
  rewrite Hlq, bind_Done in Hrun.
  pose proof (count_free_bound (slots_per_block d) (slot_info b')) as Hcb.
  assert (free_slots b' <= slots_per_block d) as Htop
    by (unfold ZB_I1 in Hinv'; lia).
  set (bf := set_under_reclaim b' false).
  assert (forall (pool' : zblock_pool) (ret : Z),
            (if negb (free_slots b' - free_slots b =? 0)
             then Done (Some (free_slots b' - free_slots b, pool'))
             else Done (Some (- EAGAIN, pool'))) = Done (Some (ret, pool')) ->
            ret = (if free_slots bf =? free_slots b then - EAGAIN
                   else free_slots bf - free_slots b)) as Hret.
  { intros pool' ret H. simpl.
    destruct (Z.eqb_spec (free_slots b' - free_slots b) 0) as [E0 | N0];
      destruct (Z.eqb_spec (free_slots b') (free_slots b)); try lia;
      simpl in H; congruence. }
  assert ((forall p h, (evict p h).1 <> 0 /\ (evict p h).2 = p) -> bf = b)
    as Hsame'.
  { intros Href. unfold bf. rewrite (Hsame Href). unfold set_under_reclaim.
    simpl. rewrite <- Hur. now destruct b. }
  destruct (Z.eqb_spec (free_slots b') (slots_per_block d)) as [Efull | Npart];
    simpl negb in Hrun; cbv iota in Hrun.
  - (* all slots are free - delete this block *)
    match type of Hrun with
    | context [list_at ?p (Z.of_nat t)] =>
        assert (list_at p (Z.of_nat t)
                = Done {| head := filter (fun x => x ≠ block) (head l);
                          block_cache := block_cache l;
                          block_count := block_count l |}) as Hlist'
    end.
    { apply list_at_Done. split; [lia |]. simpl. unfold list_del.
      rewrite Hls, Nat2Z.id, list_lookup_fmap, Hl. reflexivity. }
    rewrite Hlist', !bind_Done in Hrun. cbn [head block_cache block_count] in Hrun.
    destruct r as [[ret pool'] |];
      [| destruct (negb _) in Hrun; discriminate].
    exists block, b, bf.
    assert (pool' = free_pages
              (set_list (set_lists q (list_del block (block_lists q)))
                 (Z.of_nat t)
                 {| head := filter (fun x => x ≠ block) (head l);
                    block_cache := block_cache l;
                    block_count := u64 (block_count l - 1) |}) block) as ->
      by (destruct (negb _) in Hrun; congruence).
    split; [reflexivity |]. split; [exact Hnotin |]. split; [exact Hb |].
    split; [simpl; congruence |]. split; [reflexivity |].
    split; [exact Hlen' |]. split; [exact Hinv' |].
    split; [simpl; lia |]. split; [exact Hkeep |]. split; [exact Hused |].
    split; [eapply Hret; exact Hrun |]. split; [exact Hsame' |].
    left. split; [exact Efull |]. cbn.
    rewrite Hpg, delete_insert_eq. split; [reflexivity |].
    rewrite Hls, Nat2Z.id, (list_del_one _ _ _ l block Hwf Hl Hin).
    now rewrite list_insert_insert_eq.
  - (* some occupied slots remained - insert block *)
    destruct (cache_insert_block_spec
                (pages (set_block q block (set_under_reclaim b' false))) block l)
      as (j & Hj & Hins); [exact Hclen | |].
    { intros c Hc Hcnz.
      destruct (wf_cache_live _ _ _ _ _ _ t l c Hwf Hl Hc Hcnz)
        as (_ & b0 & Hb0 & Hlt).
      exists b0. split; [| exact Hlt]. simpl. rewrite Hpg.
      rewrite !lookup_insert_ne; [exact Hb0 | |]; intros ->; contradiction. }
    rewrite Hins, !bind_Done in Hrun.
    destruct r as [[ret pool'] |];
      [| destruct (negb _) in Hrun; discriminate].
    exists block, b, bf.
    assert (pool' = set_list (set_block q block (set_under_reclaim b' false))
                      (Z.of_nat t)
                      {| head := head l;
                         block_cache := <[j := block]> (block_cache l);
                         block_count := block_count l |}) as ->
      by (destruct (negb _) in Hrun; congruence).
    split; [reflexivity |]. split; [exact Hnotin |]. split; [exact Hb |].
    split; [simpl; congruence |]. split; [reflexivity |].
    split; [exact Hlen' |]. split; [exact Hinv' |].
    split; [simpl; lia |]. split; [exact Hkeep |]. split; [exact Hused |].
    split; [eapply Hret; exact Hrun |]. split; [exact Hsame' |].
    right. split; [exact Npart |]. cbn.
    rewrite Hpg, insert_insert_eq. split; [reflexivity |].
    exists j. split; [exact Hj |]. now rewrite Hls, Nat2Z.id.
Qed.

(** [zblock_reclaim_block]: it returns [-EINVAL] and the pool as it
    was, or what the iteration of one block type leaves. *)
Lemma reclaim_loop_effect : forall n pool ret pool',
  zblock_reclaim_loop PAGE_SHIFT SIZEOF_BLOCK OFFSETOF_NODE head_addr evict
    n pool = Done (ret, pool') ->
  (ret = - EINVAL /\ pool' = pool) \/
  exists t, (t < n)%nat /\ reclaim_type (Z.of_nat t) pool = Done (Some (ret, pool')).
Proof.
  induction n as [| n IH]; intros pool ret pool'; cbn [zblock_reclaim_loop].
  - intros [= <- <-]. now left.
  - intros H. apply bind_Done_inv in H as (r & Hr & H).
    destruct r as [[ret0 pool0] |].
    + injection H as <- <-. right. exists n. split; [lia | exact Hr].
    + destruct (IH _ _ _ H) as [? | (t & Ht & Hrun)]; [now left | right].
      exists t. split; [lia | exact Hrun].
Qed.

(** [zblock_reclaim_block] that returns: nothing was done, or one
    block, the oldest of its list and not cached, was worked on. *)
Lemma reclaim_effect pool ret pool' :
  ok pool ->
  zblock_reclaim_block PAGE_SHIFT SIZEOF_BLOCK OFFSETOF_NODE head_addr evict pool
  = Done (ret, pool') ->
  (ret = - EINVAL /\ pool' = pool) \/
  exists t l d,
    block_lists pool !! t = Some l /\ descs !! t = Some d /\
    reclaim_type (Z.of_nat t) pool = Done (Some (ret, pool')).
Proof.
  intros Hok Hrun. unfold zblock_reclaim_block in Hrun.
  destruct (reclaim_loop_effect _ _ _ _ Hrun) as [? | (t & Ht & Hrun')];
    [now left | right].
  destruct Hok as [Hwf _]. pose proof Hwf as (Hlen & _).
  destruct (lookup_lt_is_Some_2 (block_lists pool) t) as [l Hl]; [lia |].
  destruct (lookup_lt_is_Some_2 descs t) as [d Hd]; [lia |].
  exists t, l, d. auto.
Qed.


Lemma reclaim_range pool ret pool' :
  ok pool ->
  zblock_reclaim_block PAGE_SHIFT SIZEOF_BLOCK OFFSETOF_NODE head_addr evict pool
  = Done (ret, pool') ->
  ret = - EINVAL \/ ret = - EAGAIN \/ 1 <= ret <= MAX_SLOTS.
Proof.
  intros Hok Hrun.
  destruct (reclaim_effect pool ret pool' Hok Hrun)
    as [[-> _] | (t & l & d & Hl & Hd & Hrun')]; [now left | right].
  pose proof (reclaim_type_effect pool t l d _ Hok Hl Hd Hrun')
    as (block & b & bf & Hlast & _ & Hb & _ & _ & _ & _ & Hfs & _ & _ & Hret & _).
  pose proof (desc_slots_range _ _ _ _ Hd) as Hspb.
  destruct Hok as [Hwf _]. pose proof Hwf as (_ & _ & Hblocks & _).
  destruct (Hblocks t l d block Hl Hd (last_Some_elem_of _ _ Hlast))
    as (_ & b0 & Hb0 & Hbok).
  assert (b0 = b) as -> by congruence.
  pose proof (block_ok_bounds _ _ t d b Hd Hbok) as (Hfs0 & _).
  destruct (Z.eqb_spec (free_slots bf) (free_slots b)); [now left | right]. lia.
Qed.

Lemma reclaim_accounted pool ret pool' :
  ok pool -> counts_ok pool -> all_linked pool ->
  zblock_reclaim_block PAGE_SHIFT SIZEOF_BLOCK OFFSETOF_NODE head_addr evict pool
  = Done (ret, pool') ->
  counts_ok pool' /\ all_linked pool'.
Proof.
  intros Hok Hcnt Hlinked Hrun.
  destruct (reclaim_effect pool ret pool' Hok Hrun)
    as [[_ ->] | (t & l & d & Hl & Hd & Hrun')]; [auto |].
  pose proof (reclaim_type_effect pool t l d _ Hok Hl Hd Hrun')
    as (block & b & bf & Hlast & _ & Hb & _ & _ & _ & _ & _ & _ & _ & _ & _ & Hcase).
  pose proof (last_Some_elem_of _ _ Hlast) as Hin.
  destruct Hcase as [(_ & Hpg & Hls) | (_ & Hpg & j & _ & Hls)].
  - eapply (accounted_delete PAGE_SHIFT_range table_fits pool pool' t l block);
      eauto.
  - eapply (accounted_update pool pool' t l block); eauto.
Qed.

End ReclaimEffects.

(** ** Block counts under the API *)

Lemma created_accounted kmalloc_ok pool :
  zblock_create_pool PAGE_SHIFT SIZEOF_BLOCK kmalloc_ok = Some pool ->
  counts_ok pool /\ all_linked pool.
Proof.
  unfold zblock_create_pool. destruct (negb kmalloc_ok); [discriminate |].
  destruct (last descs) as [d |]; [| discriminate].
  destruct (slot_size d <? PAGE_SIZE PAGE_SHIFT); [discriminate |].
  intros H. injection H as <-. split.
  - intros t l Hl.
    apply (lookup_replicate (length descs)
             {| head := []; block_cache := replicate (Z.to_nat BLOCK_CACHE_SIZE) 0;
                block_count := 0 |} l t) in Hl as [-> _].
    reflexivity.
  - intros block b Hb. cbn [pages] in Hb. now rewrite lookup_empty in Hb.
Qed.

Lemma set_block_accounted pool block b b' :
  pages pool !! block = Some b ->
  counts_ok pool /\ all_linked pool ->
  counts_ok (set_block pool block b') /\ all_linked (set_block pool block b').
Proof.
  intros Hb [Hcnt Hlinked]. split; [exact Hcnt |].
  intros x bx Hx. simpl in Hx. simpl.
  destruct (decide (x = block)) as [-> | Hne]; [now apply (Hlinked block b) |].
  rewrite lookup_insert_ne in Hx by congruence. now apply (Hlinked x bx).
Qed.

Lemma map_accounted pool handle ptr pool' :
  counts_ok pool /\ all_linked pool ->
  zblock_map PAGE_SHIFT SIZEOF_BLOCK pool handle = Done (ptr, pool') ->
  counts_ok pool' /\ all_linked pool'.
Proof.
  intros Hacc Hrun. unfold zblock_map in Hrun.
  destruct (handle_to_metadata PAGE_SHIFT handle) as [[block t] slot].
  unfold zblock_map_slot in Hrun.
  apply bind_Done_inv in Hrun as (b & Hb & Hrun).
  apply bind_Done_inv in Hrun as (b' & _ & Hrun).
  apply bind_Done_inv in Hrun as (d & _ & Hrun).
  injection Hrun as _ <-. apply deref_Done in Hb.
  now apply (set_block_accounted pool block b).
Qed.

Lemma unmap_accounted pool handle pool' :
  counts_ok pool /\ all_linked pool ->
  zblock_unmap PAGE_SHIFT pool handle = Done pool' ->
  counts_ok pool' /\ all_linked pool'.
Proof.
  intros Hacc Hrun. unfold zblock_unmap in Hrun.
  destruct (handle_to_metadata PAGE_SHIFT handle) as [[block t] slot].
  unfold zblock_unmap_slot in Hrun.
  apply bind_Done_inv in Hrun as (b & Hb & Hrun).
  apply bind_Done_inv in Hrun as (b' & _ & Hrun).
  injection Hrun as <-. apply deref_Done in Hb.
  now apply (set_block_accounted pool block b).
Qed.

Section Accounting.

Hypothesis PAGE_SHIFT_range : 0 <= PAGE_SHIFT < 64.
Hypothesis table_fits :
  ARRAY_SIZE_block_desc PAGE_SHIFT SIZEOF_BLOCK
  <= Z.shiftr (PAGE_SIZE PAGE_SHIFT) SLOT_BITS.

Lemma alloc_accounted pool size fresh junk ret h pool' :
  zblock_create_pool PAGE_SHIFT SIZEOF_BLOCK true <> None ->
  ok pool ->
  fresh_pages PAGE_SHIFT SIZEOF_BLOCK OFFSETOF_NODE head_addr pool fresh junk ->
  counts_ok pool /\ all_linked pool ->
  zblock_alloc PAGE_SHIFT SIZEOF_BLOCK pool size fresh junk = Done (ret, h, pool') ->
  counts_ok pool' /\ all_linked pool'.
Proof.
  intros Hcreated Hok Hfresh [Hcnt Hlinked] Hrun.
  destruct (alloc_result pool size fresh junk ret h pool' Hcreated Hok Hfresh Hrun)
    as [(_ & _ & ->) | (-> & handle & ->)]; [auto |].
  destruct (alloc_effect PAGE_SHIFT_range table_fits pool size fresh junk handle
              pool' Hcreated Hok Hfresh Hrun)
    as (t & l & d & block & slot & b0 & b' & _ & Hl & _ & _ & _ & _ & _ & _ & _
        & _ & _ & _ & _ & Hpg & Hcase).
  destruct Hcase as [(Hin & Hb0 & Hls) | (-> & _ & Hnone & _ & _ & j & Hls)].
  - apply (accounted_update pool pool' t l block b' (block_cache l)); auto.
    rewrite Hls. symmetry. apply list_insert_id. rewrite Hl. f_equal.
    now destruct l.
  - eapply (accounted_add PAGE_SHIFT_range table_fits pool pool' t l fresh);
      eauto.
Qed.

Lemma free_accounted pool handle pool' :
  ok pool -> handle_in_use PAGE_SHIFT SIZEOF_BLOCK pool handle ->
  counts_ok pool /\ all_linked pool ->
  zblock_free PAGE_SHIFT SIZEOF_BLOCK pool handle = Done pool' ->
  counts_ok pool' /\ all_linked pool'.
Proof.
  intros Hok Huse [Hcnt Hlinked] Hrun.
  destruct (handle_to_metadata PAGE_SHIFT handle) as [[block t] slot] eqn:Hdec.
  apply (handle_in_use_parts pool handle block t slot Hdec) in Huse
    as (l & d & b & st & Ht & Hl & Hd & Hin & Hb & Hslot & Hst & Hnf).
  unfold zblock_free in Hrun. rewrite Hdec in Hrun.
  destruct (free_slot_effect pool block t slot l d b st pool' Hok Ht Hl Hd Hin Hb
              Hslot Hst Hnf Hrun)
    as [_ [(_ & Hpg & c & Hls) | (_ & b' & c & Hpg & _ & _ & _ & Hls)]].
  - eapply (accounted_delete PAGE_SHIFT_range table_fits pool pool' _ l block);
      eauto.
  - eapply (accounted_update pool pool' _ l block); eauto.
Qed.

End Accounting.

End PoolEffects.

(** A pool on a 4 KiB-page target with a 64-byte block header, and its
    first allocation. *)
Lemma first_alloc_example :
  let head_addr := fun t => 0xffff888004000008 + 288 * t in
  let junk := mk_block (replicate 32 0xaa) 0xdeadbeef true in
  let pool0 := mk_pool (replicate 29 (mk_list [] (replicate 32 0) 0)) 0 ∅ in
  let A := 0xffff888012345000 in
  (0 <= 12 < 64 /\
   ARRAY_SIZE_block_desc 12 64 <= Z.shiftr (PAGE_SIZE 12) SLOT_BITS /\
   zblock_create_pool 12 64 true <> None) /\
  pool_ok 12 64 8 head_addr pool0 /\
  fresh_pages 12 64 8 head_addr pool0 A junk /\
  exists pool1,
    zblock_alloc 12 64 pool0 64 A junk = Done (0, Some A, pool1) /\
    pool_ok 12 64 8 head_addr pool1 /\
    pages pool1
    = {[ A := mk_block (1 :: replicate 31 0) 31 false ]}.
Proof.
  intros head_addr junk pool0 A.
  assert (zblock_create_pool 12 64 true <> None) as Hcreated
    by (vm_compute; congruence).
  assert (pool_ok 12 64 8 head_addr pool0) as Hok
    by (apply (create_pool_ok 12 64 8 head_addr true); reflexivity).
  assert (fresh_pages 12 64 8 head_addr pool0 A junk) as Hfresh.
  { split; [reflexivity |]. intros _. split; [reflexivity |].
    split; [| split; [lia | reflexivity]].
    intros t Ht. change (ARRAY_SIZE_block_desc 12 64) with 29 in Ht.
    unfold no_entry, head_addr, A. rewrite u64_small by lia. lia. }
  split; [split; [lia | split; [vm_compute; congruence | exact Hcreated]] |].
  split; [exact Hok |]. split; [exact Hfresh |].
  destruct (alloc_ok 12 64 8 head_addr pool0 64 A junk Hcreated Hok Hfresh)
    as (ret & h & pool1 & Hrun & Hok1).
  exists pool1. vm_compute in Hrun. injection Hrun as <- <- <-.
  split; [reflexivity |]. split; [exact Hok1 | reflexivity].
Qed.

(** X5.  A successful [zblock_alloc] brings exactly one slot into use:
    the slot whose handle it returns.  That slot was free, it belongs to
    a block of the type selected for the size, and every other slot is
    in use afterwards if and only if it was before. *)
Theorem alloc_takes_one_free_slot
    (PAGE_SHIFT SIZEOF_BLOCK OFFSETOF_NODE : Z) (head_addr : Z -> Z)
    (pool pool' : zblock_pool) (size fresh handle : Z) (junk : zblock_block)
    (Hshift : 0 <= PAGE_SHIFT < 64)
    (Hfit : ARRAY_SIZE_block_desc PAGE_SHIFT SIZEOF_BLOCK
            <= Z.shiftr (PAGE_SIZE PAGE_SHIFT) SLOT_BITS)
    (Hcreated : zblock_create_pool PAGE_SHIFT SIZEOF_BLOCK true <> None)
    (Hok : pool_ok PAGE_SHIFT SIZEOF_BLOCK OFFSETOF_NODE head_addr pool)
    (Hfresh : fresh_pages PAGE_SHIFT SIZEOF_BLOCK OFFSETOF_NODE head_addr pool
                fresh junk)
    (Hrun : zblock_alloc PAGE_SHIFT SIZEOF_BLOCK pool size fresh junk
            = Done (0, Some handle, pool')) :
  let in_use := handle_in_use PAGE_SHIFT SIZEOF_BLOCK in
  let parts := handle_to_metadata PAGE_SHIFT in
  ~ in_use pool handle /\ in_use pool' handle /\
  (forall h, in_use pool' h <-> in_use pool h \/ parts h = parts handle) /\
  exists d,
    (parts handle).1.2 = find_block_type PAGE_SHIFT SIZEOF_BLOCK size /\
    block_desc PAGE_SHIFT SIZEOF_BLOCK !! Z.to_nat (parts handle).1.2 = Some d /\
    size <= slot_size d.
Proof.
  intros in_use parts. subst in_use parts.
  destruct (alloc_one_slot PAGE_SHIFT SIZEOF_BLOCK OFFSETOF_NODE head_addr
              Hshift Hfit pool size fresh junk handle pool' Hcreated Hok Hfresh
              Hrun)
    as (block & t & slot & d & Hdec & Et & Hd & Hsize & Hnot & Hiff).
  assert (forall p h,
            handle_in_use PAGE_SHIFT SIZEOF_BLOCK p h <->
            let '(b, t, s) := handle_to_metadata PAGE_SHIFT h in
            exists l d b0 st,
              0 <= t /\ block_lists p !! Z.to_nat t = Some l /\
              block_desc PAGE_SHIFT SIZEOF_BLOCK !! Z.to_nat t = Some d /\
              b ∈ head l /\ pages p !! b = Some b0 /\
              0 <= s < slots_per_block d /\
              slot_info b0 !! Z.to_nat s = Some st /\ st <> SLOT_FREE) as Hparts
    by reflexivity.
  split; [rewrite Hparts, Hdec; exact Hnot |].
  split; [rewrite Hparts, Hdec; apply Hiff; now right |].
  split.
  - intros h. rewrite !Hparts, Hdec.
    destruct (handle_to_metadata PAGE_SHIFT h) as [[b' t'] s']. apply Hiff.
  - exists d. rewrite Hdec. simpl. subst t. auto.
Qed.

Lemma alloc_takes_one_free_slot_witness :
  let head_addr := fun t => 0xffff888004000008 + 288 * t in
  let junk := mk_block (replicate 32 0xaa) 0xdeadbeef true in
  let pool0 := mk_pool (replicate 29 (mk_list [] (replicate 32 0) 0)) 0 ∅ in
  let A := 0xffff888012345000 in
  exists pool1,
    (0 <= 12 < 64 /\
     ARRAY_SIZE_block_desc 12 64 <= Z.shiftr (PAGE_SIZE 12) SLOT_BITS /\
     zblock_create_pool 12 64 true <> None /\
     pool_ok 12 64 8 head_addr pool0 /\
     fresh_pages 12 64 8 head_addr pool0 A junk /\
     zblock_alloc 12 64 pool0 64 A junk = Done (0, Some A, pool1)) /\
    ~ handle_in_use 12 64 pool0 A /\ handle_in_use 12 64 pool1 A.
Proof.
  intros head_addr junk pool0 A.
  destruct first_alloc_example
    as ((H1 & H2 & H3) & H4 & H5 & pool1 & H6 & _).
  exists pool1. split; [auto 10 |].
  destruct (alloc_takes_one_free_slot 12 64 8 head_addr pool0 pool1 64 A A junk
              H1 H2 H3 H4 H5 H6) as (Hn & Hy & _).
  split; [exact Hn | exact Hy].
Defined.

(** X6.  [zblock_free] of a handle in use takes exactly that slot out of
    use: the handle is not in use afterwards, and every other slot is in
    use afterwards if and only if it was before. *)
Theorem free_releases_one_slot
    (PAGE_SHIFT SIZEOF_BLOCK OFFSETOF_NODE : Z) (head_addr : Z -> Z)
    (pool pool' : zblock_pool) (handle : Z)
    (Hshift : 0 <= PAGE_SHIFT < 64)
    (Hok : pool_ok PAGE_SHIFT SIZEOF_BLOCK OFFSETOF_NODE head_addr pool)
    (Huse : handle_in_use PAGE_SHIFT SIZEOF_BLOCK pool handle)
    (Hrun : zblock_free PAGE_SHIFT SIZEOF_BLOCK pool handle = Done pool') :
  let in_use := handle_in_use PAGE_SHIFT SIZEOF_BLOCK in
  let parts := handle_to_metadata PAGE_SHIFT in
  ~ in_use pool' handle /\
  forall h, in_use pool' h <-> in_use pool h /\ parts h <> parts handle.
Proof.
  intros in_use parts. subst in_use parts.
  destruct (handle_to_metadata PAGE_SHIFT handle) as [[block t] slot] eqn:Hdec.
  pose proof (proj1 (handle_in_use_parts PAGE_SHIFT SIZEOF_BLOCK pool handle
                       block t slot Hdec) Huse) as Huse'.
  pose proof (free_one_slot PAGE_SHIFT SIZEOF_BLOCK OFFSETOF_NODE head_addr
                Hshift pool handle block t slot pool' Hok Hdec Huse' Hrun) as Hiff.
  split.
  - intros H.
    apply (handle_in_use_parts PAGE_SHIFT SIZEOF_BLOCK pool' handle _ _ _ Hdec) in H.
    apply Hiff in H as [_ H]. now apply H.
  - intros h.
    destruct (handle_to_metadata PAGE_SHIFT h) as [[b' t'] s'] eqn:Hdec'.
    rewrite (handle_in_use_parts PAGE_SHIFT SIZEOF_BLOCK pool' h _ _ _ Hdec').
    rewrite (handle_in_use_parts PAGE_SHIFT SIZEOF_BLOCK pool h _ _ _ Hdec').
    apply Hiff.
Qed.

Lemma free_releases_one_slot_witness :
  let head_addr := fun t => 0xffff888004000008 + 288 * t in
  let junk := mk_block (replicate 32 0xaa) 0xdeadbeef true in
  let pool0 := mk_pool (replicate 29 (mk_list [] (replicate 32 0) 0)) 0 ∅ in
  let A := 0xffff888012345000 in
  exists pool1,
    zblock_alloc 12 64 pool0 64 A junk = Done (0, Some A, pool1) /\
    (0 <= 12 < 64 /\ pool_ok 12 64 8 head_addr pool1 /\
     handle_in_use 12 64 pool1 A /\
     zblock_free 12 64 pool1 A = Done pool0) /\
    ~ handle_in_use 12 64 pool0 A.
Proof.
  intros head_addr junk pool0 A.
  destruct first_alloc_example
    as ((H1 & H2 & H3) & H4 & H5 & pool1 & H6 & H7 & H8).
  destruct (alloc_one_slot 12 64 8 head_addr H1 H2 pool0 64 A junk A pool1
              H3 H4 H5 H6) as (block & t & slot & d & Hdec & _ & _ & _ & _ & Hiff).
  assert (handle_in_use 12 64 pool1 A) as Huse.
  { apply (handle_in_use_parts 12 64 pool1 A _ _ _ Hdec). apply Hiff. now right. }
  assert (zblock_free 12 64 pool1 A = Done pool0) as Hfree.
  { destruct (free_ok 12 64 8 head_addr pool1 A H7 Huse) as (pool2 & Hrun & _).
    rewrite Hrun. f_equal.
    unfold zblock_free in Hrun.
    destruct pool1 as [ls fl pg]. simpl in H8. subst pg.
    vm_compute in H6. injection H6 as <- <-.
    vm_compute in Hrun. now injection Hrun as <-. }
  exists pool1. split; [exact H6 |]. split; [auto |].
  apply (free_releases_one_slot 12 64 8 head_addr pool1 pool0 A H1 H7 Huse Hfree).
Defined.

(** X7.  Freeing the slot that [zblock_alloc] has just handed out gives
    the pool the blocks, the slot states and the lists it had before the
    allocation. *)
Theorem alloc_then_free_restores_pool
    (PAGE_SHIFT SIZEOF_BLOCK OFFSETOF_NODE : Z) (head_addr : Z -> Z)
    (pool pool1 : zblock_pool) (size fresh handle : Z) (junk : zblock_block)
    (Hshift : 0 <= PAGE_SHIFT < 64)
    (Hfit : ARRAY_SIZE_block_desc PAGE_SHIFT SIZEOF_BLOCK
            <= Z.shiftr (PAGE_SIZE PAGE_SHIFT) SLOT_BITS)
    (Hcreated : zblock_create_pool PAGE_SHIFT SIZEOF_BLOCK true <> None)
    (Hok : pool_ok PAGE_SHIFT SIZEOF_BLOCK OFFSETOF_NODE head_addr pool)
    (Hfresh : fresh_pages PAGE_SHIFT SIZEOF_BLOCK OFFSETOF_NODE head_addr pool
                fresh junk)
    (Hrun : zblock_alloc PAGE_SHIFT SIZEOF_BLOCK pool size fresh junk
            = Done (0, Some handle, pool1)) :
  exists pool2,
    zblock_free PAGE_SHIFT SIZEOF_BLOCK pool1 handle = Done pool2 /\
    pool_ok PAGE_SHIFT SIZEOF_BLOCK OFFSETOF_NODE head_addr pool2 /\
    pages pool2 = pages pool /\
    head <$> block_lists pool2 = head <$> block_lists pool.
Proof.
  exact (alloc_free_effect PAGE_SHIFT SIZEOF_BLOCK OFFSETOF_NODE head_addr
           Hshift Hfit pool size fresh junk handle pool1 Hcreated Hok Hfresh Hrun).
Qed.

Lemma alloc_then_free_restores_pool_witness :
  let head_addr := fun t => 0xffff888004000008 + 288 * t in
  let junk := mk_block (replicate 32 0xaa) 0xdeadbeef true in
  let pool0 := mk_pool (replicate 29 (mk_list [] (replicate 32 0) 0)) 0 ∅ in
  let A := 0xffff888012345000 in
  exists pool1 pool2,
    (0 <= 12 < 64 /\
     ARRAY_SIZE_block_desc 12 64 <= Z.shiftr (PAGE_SIZE 12) SLOT_BITS /\
     zblock_create_pool 12 64 true <> None /\
     pool_ok 12 64 8 head_addr pool0 /\
     fresh_pages 12 64 8 head_addr pool0 A junk /\
     zblock_alloc 12 64 pool0 64 A junk = Done (0, Some A, pool1)) /\
    zblock_free 12 64 pool1 A = Done pool2 /\ pages pool2 = ∅.
Proof.
  intros head_addr junk pool0 A.
  destruct first_alloc_example
    as ((H1 & H2 & H3) & H4 & H5 & pool1 & H6 & _).
  destruct (alloc_then_free_restores_pool 12 64 8 head_addr pool0 pool1 64 A A
              junk H1 H2 H3 H4 H5 H6) as (pool2 & Hfree & _ & Hpg & _).
  exists pool1, pool2. auto 10.
Defined.

(** X8.  The block count of every list is the number of blocks linked in
    it, and the pool holds the pages of no block that is not linked in a
    list: both hold for a new pool, and [zblock_alloc], [zblock_free],
    [zblock_map], [zblock_unmap] and [zblock_reclaim_block] keep them.
    *)
Theorem block_counts_follow_lists
    (PAGE_SHIFT SIZEOF_BLOCK OFFSETOF_NODE : Z) (head_addr : Z -> Z)
    (evict : zblock_pool -> Z -> Z * zblock_pool)
    (Hshift : 0 <= PAGE_SHIFT < 64)
    (Hfit : ARRAY_SIZE_block_desc PAGE_SHIFT SIZEOF_BLOCK
            <= Z.shiftr (PAGE_SIZE PAGE_SHIFT) SLOT_BITS)
    (Hcalls : callback_ok PAGE_SHIFT SIZEOF_BLOCK evict) :
  let accounted pool := counts_ok pool /\ all_linked pool in
  (forall pool,
     zblock_create_pool PAGE_SHIFT SIZEOF_BLOCK true = Some pool ->
     accounted pool) /\
  (forall pool,
     zblock_create_pool PAGE_SHIFT SIZEOF_BLOCK true <> None ->
     pool_ok PAGE_SHIFT SIZEOF_BLOCK OFFSETOF_NODE head_addr pool ->
     accounted pool ->
     (forall size fresh junk ret h pool',
        fresh_pages PAGE_SHIFT SIZEOF_BLOCK OFFSETOF_NODE head_addr pool
          fresh junk ->
        zblock_alloc PAGE_SHIFT SIZEOF_BLOCK pool size fresh junk
        = Done (ret, h, pool') ->
        accounted pool') /\
     (forall handle pool',
        handle_in_use PAGE_SHIFT SIZEOF_BLOCK pool handle ->
        zblock_free PAGE_SHIFT SIZEOF_BLOCK pool handle = Done pool' ->
        accounted pool') /\
     (forall handle ptr pool',
        zblock_map PAGE_SHIFT SIZEOF_BLOCK pool handle = Done (ptr, pool') ->
        accounted pool') /\
     (forall handle pool',
        zblock_unmap PAGE_SHIFT pool handle = Done pool' -> accounted pool') /\
     (forall ret pool',
        zblock_reclaim_block PAGE_SHIFT SIZEOF_BLOCK OFFSETOF_NODE head_addr
          evict pool = Done (ret, pool') ->
        accounted pool')).
Proof.
  intros accounted. subst accounted. cbv beta. split.
  - intros pool Hnew.
    exact (created_accounted PAGE_SHIFT SIZEOF_BLOCK true pool Hnew).
  - intros pool Hcreated Hok Hacc.
    split; [| split; [| split; [| split]]].
    + intros size fresh junk ret h pool' Hfresh Hrun.
      exact (alloc_accounted PAGE_SHIFT SIZEOF_BLOCK OFFSETOF_NODE head_addr
               Hshift Hfit pool size fresh junk ret h pool' Hcreated Hok Hfresh
               Hacc Hrun).
    + intros handle pool' Huse Hrun.
      exact (free_accounted PAGE_SHIFT SIZEOF_BLOCK OFFSETOF_NODE head_addr
               Hshift Hfit pool handle pool' Hok Huse Hacc Hrun).
    + intros handle ptr pool' Hrun.
      exact (map_accounted PAGE_SHIFT SIZEOF_BLOCK pool handle ptr pool' Hacc Hrun).
    + intros handle pool' Hrun.
      exact (unmap_accounted PAGE_SHIFT pool handle pool' Hacc Hrun).
    + intros ret pool' Hrun. destruct Hacc as [Hcnt Hlinked].
      exact (reclaim_accounted PAGE_SHIFT SIZEOF_BLOCK OFFSETOF_NODE head_addr
               evict Hshift Hfit Hcalls pool ret pool' Hok Hcnt Hlinked Hrun).
Qed.

Lemma block_counts_follow_lists_witness :
  let head_addr := fun t => 0xffff888004000008 + 288 * t in
  let junk := mk_block (replicate 32 0xaa) 0xdeadbeef true in
  let pool0 := mk_pool (replicate 29 (mk_list [] (replicate 32 0) 0)) 0 ∅ in
  let A := 0xffff888012345000 in
  (0 <= 12 < 64 /\
   ARRAY_SIZE_block_desc 12 64 <= Z.shiftr (PAGE_SIZE 12) SLOT_BITS /\
   callback_ok 12 64 (zblock_zpool_evict None)) /\
  exists pool1,
    zblock_alloc 12 64 pool0 64 A junk = Done (0, Some A, pool1) /\
    counts_ok pool1 /\ all_linked pool1.
Proof.
  intros head_addr junk pool0 A.
  destruct first_alloc_example
    as ((H1 & H2 & H3) & H4 & H5 & pool1 & H6 & _).
  assert (callback_ok 12 64 (zblock_zpool_evict None)) as Hcalls
    by (intros p h; apply calls_none).
  split; [auto |]. exists pool1. split; [exact H6 |].
  destruct (block_counts_follow_lists 12 64 8 head_addr (zblock_zpool_evict None)
              H1 H2 Hcalls) as [Hnew Hkeep].
  destruct (Hkeep pool0 H3 H4 (Hnew pool0 eq_refl)) as (Halloc & _).
  exact (Halloc 64 A junk 0 (Some A) pool1 H5 H6).
Defined.

(** X9.  With the block counts right, [zblock_get_pool_size] returns the
    bytes of all linked blocks, [PAGE_SIZE << order] for each block of a
    list, as a 64-bit sum. *)
Theorem pool_size_counts_linked_blocks (PAGE_SHIFT SIZEOF_BLOCK : Z)
    (pool : zblock_pool)
    (Hlists : length (block_lists pool)
              = length (block_desc PAGE_SHIFT SIZEOF_BLOCK))
    (Hcounts : counts_ok pool) :
  zblock_get_pool_size PAGE_SHIFT SIZEOF_BLOCK pool
  = Done (u64 (linked_bytes PAGE_SHIFT (block_lists pool)
                 (block_desc PAGE_SHIFT SIZEOF_BLOCK))).
Proof.
  unfold zblock_get_pool_size.
  exact (get_pool_size_loop_spec PAGE_SHIFT SIZEOF_BLOCK pool Hlists Hcounts
           (length (block_desc PAGE_SHIFT SIZEOF_BLOCK)) 0 0 eq_refl
           ltac:(lia)).
Qed.

Lemma pool_size_counts_linked_blocks_witness :
  let A := 0xffff888012345000 in
  let B := 0xffff888012348000 in
  let C := 0xffff888012350000 in
  let full := mk_block (replicate 32 SLOT_OCCUPIED) 0 false in
  let pool :=
    mk_pool (mk_list [A] (replicate 32 0) 1
             :: replicate 27 (mk_list [] (replicate 32 0) 0)
             ++ [mk_list [C; B] (replicate 32 0) 2])
      0 {[ A := full; B := full; C := full ]} in
  (length (block_lists pool) = length (block_desc 12 64) /\ counts_ok pool) /\
  zblock_get_pool_size 12 64 pool = Done (4096 + 2 * 32768).
Proof.
  intros A B C full pool.
  assert (counts_ok pool) as Hcnt.
  { intros t l Hl. unfold pool in Hl. cbn [block_lists] in Hl.
    destruct t as [| t]; [injection Hl as <-; reflexivity |].
    cbn [lookup list_lookup] in Hl.
    apply lookup_app_Some in Hl as [Hl | [_ Hl]].
    - apply lookup_replicate in Hl as [-> _]. reflexivity.
    - destruct (t - _)%nat as [| k]; [injection Hl as <-; reflexivity |].
      destruct k; discriminate. }
  split; [split; [reflexivity | exact Hcnt] |].
  rewrite (pool_size_counts_linked_blocks 12 64 pool eq_refl Hcnt).
  reflexivity.
Defined.


(** Eight allocations of a whole page on the 4 KiB-page target: the
    seven slots of block [A] are in use, block [B] has taken its place
    in the cache of the last list. *)
Lemma eight_allocations_example :
  let head_addr := fun t => 0xffff888004000008 + 288 * t in
  let A := 0xffff888012340000 in
  let B := 0xffff888012348000 in
  let pool8 :=
    mk_pool (replicate 28 (mk_list [] (replicate 32 0) 0)
             ++ [mk_list [B; A] (B :: replicate 31 0) 2])
      0 {[ A := mk_block (replicate 7 1 ++ replicate 25 0xaa) 0 false;
           B := mk_block (1 :: replicate 6 0 ++ replicate 25 0xaa) 6 false ]} in
  (0 <= 12 < 64 /\
   ARRAY_SIZE_block_desc 12 64 <= Z.shiftr (PAGE_SIZE 12) SLOT_BITS) /\
  pool_ok 12 64 8 head_addr pool8.
Proof.
  intros head_addr A B pool8.
  split; [split; [lia | vm_compute; congruence] |].
  set (junk := mk_block (replicate 32 0xaa) 0xdeadbeef true).
  set (pool0 := mk_pool (replicate 29 (mk_list [] (replicate 32 0) 0)) 0 ∅).
  assert (zblock_create_pool 12 64 true <> None) as Hcreated
    by (vm_compute; congruence).
  assert (pool_ok 12 64 8 head_addr pool0) as Hok
    by (apply (create_pool_ok 12 64 8 head_addr true); reflexivity).
  assert (forall pool x, (x = A \/ x = B) -> pages pool !! x = None ->
            fresh_pages 12 64 8 head_addr pool x junk) as Hnew.
  { intros pool x Hx Hnone. split; [reflexivity |]. intros _.
    split; [exact Hnone |].
    split; [| destruct Hx as [-> | ->]; split; (lia || reflexivity)].
    intros t Ht. change (ARRAY_SIZE_block_desc 12 64) with 29 in Ht.
    unfold no_entry, head_addr. rewrite u64_small by lia.
    destruct Hx as [-> | ->]; unfold A, B; lia. }
  assert (forall pool, fresh_pages 12 64 8 head_addr pool 0 junk) as Hnone
    by (intros pool; split; [reflexivity | intros H; now contradiction H]).
  destruct (alloc_ok 12 64 8 head_addr pool0 4096 A junk Hcreated Hok
              (Hnew pool0 A (or_introl eq_refl) eq_refl))
    as (r1 & h1 & p1 & Hrun1 & Hok1).
  vm_compute in Hrun1. injection Hrun1 as <- <- <-.
  destruct (alloc_ok 12 64 8 head_addr _ 4096 0 junk Hcreated Hok1 (Hnone _))
    as (r2 & h2 & p2 & Hrun2 & Hok2).
  vm_compute in Hrun2. injection Hrun2 as <- <- <-.
  destruct (alloc_ok 12 64 8 head_addr _ 4096 0 junk Hcreated Hok2 (Hnone _))
    as (r3 & h3 & p3 & Hrun3 & Hok3).
  vm_compute in Hrun3. injection Hrun3 as <- <- <-.
  destruct (alloc_ok 12 64 8 head_addr _ 4096 0 junk Hcreated Hok3 (Hnone _))
    as (r4 & h4 & p4 & Hrun4 & Hok4).
  vm_compute in Hrun4. injection Hrun4 as <- <- <-.
  destruct (alloc_ok 12 64 8 head_addr _ 4096 0 junk Hcreated Hok4 (Hnone _))
    as (r5 & h5 & p5 & Hrun5 & Hok5).
  vm_compute in Hrun5. injection Hrun5 as <- <- <-.
  destruct (alloc_ok 12 64 8 head_addr _ 4096 0 junk Hcreated Hok5 (Hnone _))
    as (r6 & h6 & p6 & Hrun6 & Hok6).
  vm_compute in Hrun6. injection Hrun6 as <- <- <-.
  destruct (alloc_ok 12 64 8 head_addr _ 4096 0 junk Hcreated Hok6 (Hnone _))
    as (r7 & h7 & p7 & Hrun7 & Hok7).
  vm_compute in Hrun7. injection Hrun7 as <- <- <-.
  match type of Hok7 with
  | pool_ok _ _ _ _ ?p =>
      destruct (alloc_ok 12 64 8 head_addr p 4096 B junk Hcreated Hok7
                  (Hnew p B (or_intror eq_refl) eq_refl))
        as (r8 & h8 & p8 & Hrun8 & Hok8)
  end.
  vm_compute in Hrun8. injection Hrun8 as <- <- <-.
  match type of Hok8 with
  | pool_ok _ _ _ _ ?p => replace pool8 with p by (vm_compute; reflexivity)
  end.
  exact Hok8.
Qed.




(** X11.  [zblock_zpool_shrink] runs at most [pages] reclaim passes.  It
    stops at the first pass that returns an error and returns that
    error, with fewer than [pages] slots reclaimed.  Otherwise it
    returns the count of the last pass, which is not zero, with at least
    [pages] and fewer than [pages + MAX_SLOTS] slots reclaimed; for
    [pages = 0] it returns [-EINVAL] and does nothing. *)
Theorem shrink_stops_within_pages_passes
    (PAGE_SHIFT SIZEOF_BLOCK OFFSETOF_NODE : Z) (head_addr : Z -> Z)
    (evict : zblock_pool -> Z -> Z * zblock_pool)
    (pool : zblock_pool) (pages : Z) (fuel : nat)
    (Hshift : 0 <= PAGE_SHIFT < 64)
    (Hfit : ARRAY_SIZE_block_desc PAGE_SHIFT SIZEOF_BLOCK
            <= Z.shiftr (PAGE_SIZE PAGE_SHIFT) SLOT_BITS)
    (Hcalls : callback_ok PAGE_SHIFT SIZEOF_BLOCK evict)
    (Hok : pool_ok PAGE_SHIFT SIZEOF_BLOCK OFFSETOF_NODE head_addr pool)
    (Hpages : 0 <= pages <= 2 ^ 32 - MAX_SLOTS)
    (Hfuel : pages <= Z.of_nat fuel) :
  exists r,
    zblock_zpool_shrink PAGE_SHIFT SIZEOF_BLOCK OFFSETOF_NODE head_addr evict
      fuel pool pages = Some r /\
    match r with
    | Fail _ => True
    | Done (ret, total, pool') =>
        pool_ok PAGE_SHIFT SIZEOF_BLOCK OFFSETOF_NODE head_addr pool' /\
        ((0 <= total < pages /\ (ret = - EINVAL \/ ret = - EAGAIN)) \/
         (pages = 0 /\ total = 0 /\ ret = - EINVAL /\ pool' = pool) \/
         (0 < pages <= total /\ total < pages + MAX_SLOTS /\
          1 <= ret <= MAX_SLOTS))
    end.
Proof.
  unfold zblock_zpool_shrink.
  assert (forall fuel pool total ret,
            pool_ok PAGE_SHIFT SIZEOF_BLOCK OFFSETOF_NODE head_addr pool ->
            0 <= total -> pages - total <= Z.of_nat fuel ->
            exists r,
              shrink_loop PAGE_SHIFT SIZEOF_BLOCK OFFSETOF_NODE head_addr evict
                fuel pool pages total ret = Some r /\
              match r with
              | Fail _ => True
              | Done (ret', total', pool') =>
                  pool_ok PAGE_SHIFT SIZEOF_BLOCK OFFSETOF_NODE head_addr pool' /\
                  total <= total' /\
                  ((total' < pages /\ (ret' = - EINVAL \/ ret' = - EAGAIN)) \/
                   (pages <= total' /\ total' = total /\ ret' = ret /\
                    pool' = pool) \/
                   (total < pages <= total' /\ total' < pages + MAX_SLOTS /\
                    1 <= ret' <= MAX_SLOTS))
              end) as Hloop.
  { clear fuel Hfuel pool Hok.
    induction fuel as [| fuel IH]; intros pool total ret Hok Ht Hfuel.
    - cbn [shrink_loop]. destruct (Z.ltb_spec total pages); [lia |].
      eexists. split; [reflexivity |]. split; [exact Hok |].
      split; [lia |]. right. left. auto.
    - cbn [shrink_loop]. destruct (Z.ltb_spec total pages) as [Hlt | Hge].
      + destruct (zblock_reclaim_block PAGE_SHIFT SIZEOF_BLOCK OFFSETOF_NODE
                    head_addr evict pool) as [[r p] | f] eqn:Hrun;
          [| eexists; split; [reflexivity | exact I]].
        assert (pool_ok PAGE_SHIFT SIZEOF_BLOCK OFFSETOF_NODE head_addr p) as Hp
          by exact (reclaim_loop_ok PAGE_SHIFT SIZEOF_BLOCK OFFSETOF_NODE
                      head_addr evict Hshift Hfit Hcalls _ pool r p Hok Hrun).
        pose proof (reclaim_range PAGE_SHIFT SIZEOF_BLOCK OFFSETOF_NODE head_addr
                      evict Hshift Hfit Hcalls pool r p Hok Hrun) as Hr.
        unfold EINVAL, EAGAIN in Hr. change MAX_SLOTS with 32 in *.
        destruct (Z.ltb_spec r 0) as [Hneg | Hpos].
        * eexists. split; [reflexivity |]. split; [exact Hp |].
          split; [lia |]. left. unfold EINVAL, EAGAIN. lia.
        * rewrite u32_small by lia.
          destruct (IH p (total + r) r Hp ltac:(lia) ltac:(lia))
            as (res & Hres & Hspec).
          exists res. split; [exact Hres |].
          destruct res as [[[ret' total'] pool'] | f]; [| exact I].
          destruct Hspec as (Hok' & Hle & Hcase). split; [exact Hok' |].
          split; [lia |].
          destruct Hcase as [H | [(H1 & -> & -> & ->) | H]];
            [left; exact H | right; right; lia | right; right; lia].
      + eexists. split; [reflexivity |]. split; [exact Hok |].
        split; [lia |]. right. left. auto. }
  destruct (Hloop fuel pool 0 (- EINVAL) Hok ltac:(lia) ltac:(lia))
    as (r & Hr & Hspec).
  exists r. split; [exact Hr |].
  destruct r as [[[ret total] pool'] | f]; [| exact I].
  destruct Hspec as (Hok' & Hle & Hcase). split; [exact Hok' |].
  destruct Hcase as [H | [(H1 & -> & -> & ->) | H]].
  - left. split; [lia | tauto].
  - right. left. split; [lia | auto].
  - right. right. exact H.
Qed.

Lemma shrink_stops_within_pages_passes_witness :
  let head_addr := fun t => 0xffff888004000008 + 288 * t in
  let evict := fun pool handle =>
    match zblock_map 12 64 pool handle with
    | Fail _ => (- ENOENT, pool)
    | Done (_, pool1) =>
        match zblock_unmap 12 pool1 handle with
        | Fail _ => (- ENOENT, pool1)
        | Done pool2 =>
            match zblock_free 12 64 pool2 handle with
            | Fail _ => (- ENOENT, pool2)
            | Done pool3 => (0, pool3)
            end
        end
    end in
  let A := 0xffff888012340000 in
  let B := 0xffff888012348000 in
  let pool8 :=
    mk_pool (replicate 28 (mk_list [] (replicate 32 0) 0)
             ++ [mk_list [B; A] (B :: replicate 31 0) 2])
      0 {[ A := mk_block (replicate 7 1 ++ replicate 25 0xaa) 0 false;
           B := mk_block (1 :: replicate 6 0 ++ replicate 25 0xaa) 6 false ]} in
  (0 <= 12 < 64 /\
   ARRAY_SIZE_block_desc 12 64 <= Z.shiftr (PAGE_SIZE 12) SLOT_BITS /\
   callback_ok 12 64 evict /\
   pool_ok 12 64 8 head_addr pool8 /\
   0 <= 5 <= 2 ^ 32 - MAX_SLOTS /\ 5 <= Z.of_nat 5) /\
  exists pool9,
    zblock_zpool_shrink 12 64 8 head_addr evict 5 pool8 5
    = Some (Done (7, 7, pool9)) /\
    pool_ok 12 64 8 head_addr pool9.
Proof.
  intros head_addr evict A B pool8.
  destruct eight_allocations_example as ((H1 & H2) & Hok).
  pose proof (map_unmap_free_callback_ok 12 64) as Hcalls.
  assert (0 <= 5 <= 2 ^ 32 - MAX_SLOTS) as H5 by (change MAX_SLOTS with 32; lia).
  assert (5 <= Z.of_nat 5) as Hfuel by lia.
  split; [split; [exact H1 | split; [exact H2 | split; [exact Hcalls |
          split; [exact Hok | split; [exact H5 | exact Hfuel]]]]] |].
  assert (exists p, zblock_zpool_shrink 12 64 8 head_addr evict 5 pool8 5
                    = Some (Done (7, 7, p))) as [pool9 Hrun]
    by (vm_compute; eexists; reflexivity).
  exists pool9. split; [exact Hrun |].
  destruct (shrink_stops_within_pages_passes 12 64 8 head_addr evict pool8 5 5
              H1 H2 Hcalls Hok H5 Hfuel) as (r & Hr & Hspec).
  rewrite Hrun in Hr. injection Hr as <-. exact (proj1 Hspec).
Defined.

(** X12.  Without an eviction callback of the zpool user
    [zblock_reclaim_block] frees nothing: it returns [-EAGAIN] or
    [-EINVAL], and the blocks, their slots and the lists are as before;
    only the cache of one list may have changed. *)
Theorem reclaim_without_callback_frees_nothing
    (PAGE_SHIFT SIZEOF_BLOCK OFFSETOF_NODE : Z) (head_addr : Z -> Z)
    (pool pool' : zblock_pool) (ret : Z)
    (Hshift : 0 <= PAGE_SHIFT < 64)
    (Hfit : ARRAY_SIZE_block_desc PAGE_SHIFT SIZEOF_BLOCK
            <= Z.shiftr (PAGE_SIZE PAGE_SHIFT) SLOT_BITS)
    (Hok : pool_ok PAGE_SHIFT SIZEOF_BLOCK OFFSETOF_NODE head_addr pool)
    (Hrun : zblock_reclaim_block PAGE_SHIFT SIZEOF_BLOCK OFFSETOF_NODE head_addr
              (zblock_zpool_evict None) pool = Done (ret, pool')) :
  (ret = - EINVAL \/ ret = - EAGAIN) /\
  pages pool' = pages pool /\
  head <$> block_lists pool' = head <$> block_lists pool /\
  block_count <$> block_lists pool' = block_count <$> block_lists pool.
Proof.
  assert (callback_ok PAGE_SHIFT SIZEOF_BLOCK (zblock_zpool_evict None)) as Hcalls
    by (intros p h; apply calls_none).
  destruct (reclaim_effect PAGE_SHIFT SIZEOF_BLOCK OFFSETOF_NODE head_addr
              (zblock_zpool_evict None) Hshift pool ret pool' Hok Hrun)
    as [[-> ->] | (t & l & d & Hl & Hd & Hrun')]; [auto |].
  pose proof (reclaim_type_effect PAGE_SHIFT SIZEOF_BLOCK OFFSETOF_NODE head_addr
                (zblock_zpool_evict None) Hshift Hfit Hcalls pool t l d _ Hok Hl
                Hd Hrun')
    as (block & b & bf & Hlast & _ & Hb & _ & _ & _ & _ & _ & _ & _ & Hret
        & Hrefuse & Hcase).
  assert (bf = b) as -> by (apply Hrefuse; intros p0 h; split;
                            [discriminate | reflexivity]).
  rewrite Z.eqb_refl in Hret.
  pose proof Hok as [Hwf _]. pose proof Hwf as (_ & _ & Hblocks & _).
  destruct (Hblocks t l d block Hl Hd (last_Some_elem_of _ _ Hlast))
    as (_ & b0 & Hb0 & _ & _ & Hlt & _).
  assert (b0 = b) as -> by congruence.
  destruct Hcase as [(Hall & _) | (_ & Hpg & j & _ & Hls)]; [lia |].
  split; [now right |].
  split; [rewrite Hpg; now apply insert_id |].
  rewrite Hls, !list_fmap_insert. cbn [head block_count].
  split; apply list_insert_id; rewrite list_lookup_fmap, Hl; reflexivity.
Qed.

Lemma reclaim_without_callback_frees_nothing_witness :
  let head_addr := fun t => 0xffff888004000008 + 288 * t in
  let A := 0xffff888012340000 in
  let B := 0xffff888012348000 in
  let pool8 :=
    mk_pool (replicate 28 (mk_list [] (replicate 32 0) 0)
             ++ [mk_list [B; A] (B :: replicate 31 0) 2])
      0 {[ A := mk_block (replicate 7 1 ++ replicate 25 0xaa) 0 false;
           B := mk_block (1 :: replicate 6 0 ++ replicate 25 0xaa) 6 false ]} in
  exists pool9,
    (0 <= 12 < 64 /\
     ARRAY_SIZE_block_desc 12 64 <= Z.shiftr (PAGE_SIZE 12) SLOT_BITS /\
     pool_ok 12 64 8 head_addr pool8 /\
     zblock_reclaim_block 12 64 8 head_addr (zblock_zpool_evict None) pool8
     = Done (- EAGAIN, pool9)) /\
    pages pool9 = pages pool8.
Proof.
  intros head_addr A B pool8.
  destruct eight_allocations_example as ((H1 & H2) & Hok).
  assert (exists p, zblock_reclaim_block 12 64 8 head_addr
                      (zblock_zpool_evict None) pool8 = Done (- EAGAIN, p))
    as [pool9 Hrun] by (vm_compute; eexists; reflexivity).
  exists pool9.
  split; [split; [exact H1 | split; [exact H2 | split; [exact Hok | exact Hrun]]] |].
  exact (proj1 (proj2 (reclaim_without_callback_frees_nothing 12 64 8 head_addr
                         pool8 pool9 (- EAGAIN) H1 H2 Hok Hrun))).
Defined.

(** X13.  [zblock_alloc] asks for new pages only when no block in the
    cache of the list for the size has a free slot.  With such a block
    it takes a slot of a cached block, whatever the page allocator would
    give, and the pool has the blocks and lists it had.  Without one it
    links the new block in front of the list and counts it, or, when the
    page allocator has nothing, returns [-ENOMEM] and leaves the pool as
    it was. *)
Theorem alloc_grows_only_without_cached_slot
    (PAGE_SHIFT SIZEOF_BLOCK OFFSETOF_NODE : Z) (head_addr : Z -> Z)
    (pool pool' : zblock_pool) (size fresh ret : Z) (h : option Z)
    (junk : zblock_block)
    (Hcreated : zblock_create_pool PAGE_SHIFT SIZEOF_BLOCK true <> None)
    (Hok : pool_ok PAGE_SHIFT SIZEOF_BLOCK OFFSETOF_NODE head_addr pool)
    (Hfresh : fresh_pages PAGE_SHIFT SIZEOF_BLOCK OFFSETOF_NODE head_addr pool
                fresh junk)
    (Hsize : 0 < size <= PAGE_SIZE PAGE_SHIFT)
    (Hrun : zblock_alloc PAGE_SHIFT SIZEOF_BLOCK pool size fresh junk
            = Done (ret, h, pool')) :
  exists t l,
    find_block_type PAGE_SHIFT SIZEOF_BLOCK size = Z.of_nat t /\
    block_lists pool !! t = Some l /\
    ((exists c b,
        c ∈ block_cache l /\ c <> 0 /\ pages pool !! c = Some b /\
        free_slots b <> 0 /\
        ret = 0 /\ block_lists pool' = block_lists pool /\
        (forall x, is_Some (pages pool' !! x) <-> is_Some (pages pool !! x)) /\
        forall fresh' junk',
          zblock_alloc PAGE_SHIFT SIZEOF_BLOCK pool size fresh' junk'
          = Done (ret, h, pool'))
     \/
     ((forall c b, c ∈ block_cache l -> c <> 0 -> pages pool !! c = Some b ->
                   free_slots b = 0) /\
      ((fresh = 0 /\ ret = - ENOMEM /\ h = None /\ pool' = pool) \/
       (fresh <> 0 /\ ret = 0 /\ pages pool !! fresh = None /\
        is_Some (pages pool' !! fresh) /\
        exists l',
          block_lists pool' !! t = Some l' /\
          head l' = fresh :: head l /\
          block_count l' = u64 (block_count l + 1) /\
          fresh ∈ block_cache l')))).
Proof.
  unfold zblock_alloc in *.
  destruct (Z.eqb_spec size 0); [lia |].
  destruct (Z.ltb_spec (PAGE_SIZE PAGE_SHIFT) size); [lia |].
  pose proof (find_block_type_in_table PAGE_SHIFT SIZEOF_BLOCK size Hcreated
                ltac:(lia)) as Hin.
  set (tz := find_block_type PAGE_SHIFT SIZEOF_BLOCK size) in *.
  unfold ARRAY_SIZE_block_desc in Hin.
  pose proof Hok as [Hwf _]. pose proof Hwf as (Hlen & _).
  destruct (lookup_lt_is_Some_2 (block_lists pool) (Z.to_nat tz)) as [l Hl];
    [rewrite Hlen; lia |].
  destruct (lookup_lt_is_Some_2 (block_desc PAGE_SHIFT SIZEOF_BLOCK) (Z.to_nat tz))
    as [d Hd]; [lia |].
  exists (Z.to_nat tz), l. rewrite Z2Nat.id by lia.
  split; [reflexivity |]. split; [exact Hl |].
  assert (tz = Z.of_nat (Z.to_nat tz)) as Etz by lia.
  rewrite Etz in Hrun.
  destruct (alloc_check_effect PAGE_SHIFT SIZEOF_BLOCK OFFSETOF_NODE head_addr
              pool _ l d fresh junk _ _ _ Hok Hl Hd Hfresh Hrun)
    as [(-> & -> & -> & -> & Hfind)
       | (block & slot & b0 & b' & -> & -> & _ & _ & _ & _ & _ & _ & Hpg & Hcase)].
  - right. split; [exact (cache_find_loop_zero _ _ Hfind) |]. left. auto.
  - destruct Hcase as [(Hnz & Hc & Hb0 & Hfs & Hls)
                      | (-> & Hnz & Hnone & Hfind & _ & _ & j & Hj & Hls)].
    + left. exists block, b0. split; [exact Hc |]. split; [exact Hnz |].
      split; [exact Hb0 |]. split; [exact Hfs |]. split; [reflexivity |].
      split; [exact Hls |]. split.
      * intros x. rewrite Hpg. destruct (decide (x = block)) as [-> | Hne].
        -- rewrite lookup_insert_eq, Hb0. split; eauto.
        -- now rewrite lookup_insert_ne by congruence.
      * intros fresh' junk'.
        transitivity (zblock_alloc_check PAGE_SHIFT SIZEOF_BLOCK pool
                        (Z.of_nat (Z.to_nat tz)) fresh' junk');
          [now rewrite <- Etz |].
        rewrite <- Hrun.
        apply (alloc_check_cached PAGE_SHIFT SIZEOF_BLOCK OFFSETOF_NODE head_addr
                 pool _ l block b0); assumption.
    + right. split; [exact (cache_find_loop_zero _ _ Hfind) |]. right.
      split; [exact Hnz |]. split; [reflexivity |]. split; [exact Hnone |].
      split; [rewrite Hpg, lookup_insert_eq; eauto |].
      eexists. split; [rewrite Hls; apply list_lookup_insert_eq;
                       eapply lookup_lt_Some; eauto |].
      cbn [head block_count block_cache].
      split; [reflexivity |]. split; [reflexivity |].
      apply list_elem_of_lookup. exists j. now apply list_lookup_insert_eq.
Qed.

Lemma alloc_grows_only_without_cached_slot_witness :
  let head_addr := fun t => 0xffff888004000008 + 288 * t in
  let junk := mk_block (replicate 32 0xaa) 0xdeadbeef true in
  let pool0 := mk_pool (replicate 29 (mk_list [] (replicate 32 0) 0)) 0 ∅ in
  let A := 0xffff888012345000 in
  exists pool1,
    (zblock_create_pool 12 64 true <> None /\
     pool_ok 12 64 8 head_addr pool0 /\
     fresh_pages 12 64 8 head_addr pool0 A junk /\
     0 < 64 <= PAGE_SIZE 12 /\
     zblock_alloc 12 64 pool0 64 A junk = Done (0, Some A, pool1)) /\
    is_Some (pages pool1 !! A).
Proof.
  intros head_addr junk pool0 A.
  destruct first_alloc_example
    as ((H1 & H2 & H3) & H4 & H5 & pool1 & H6 & _).
  assert (0 < 64 <= PAGE_SIZE 12) as Hsize by (vm_compute; split; congruence).
  exists pool1. split; [auto 10 |].
  destruct (alloc_grows_only_without_cached_slot 12 64 8 head_addr pool0 pool1
              64 A 0 (Some A) junk H3 H4 H5 Hsize H6)
    as (t & l & _ & Hl & [(c & b & _ & _ & Hb & _) | (_ & [(Hz & _) | H])]).
  - unfold pool0 in Hb. cbn [pages] in Hb. rewrite lookup_empty in Hb.
    discriminate Hb.
  - discriminate Hz.
  - exact (proj1 (proj2 (proj2 (proj2 H)))).
Defined.

End ZblockPool.

Module HFIFeatures.
Import HFI HFIProps.

(** ** Feature enumeration *)

Lemma land_low_bits x k : 0 <= k -> 0 <= Z.land x (Z.ones k) < 2 ^ k.
Proof. intros Hk. rewrite Z.land_ones by exact Hk. apply Z.mod_pos_bound. lia. Qed.

Lemma hweight8_capabilities edx :
  hweight8 (Z.land (edx_capabilities edx) 3)
  = Z.b2z (Z.testbit edx 0) + Z.b2z (Z.testbit edx 1).
Proof.
  unfold hweight8, edx_capabilities. cbn [map fold_right].
  rewrite !Z.land_spec.
  change (Z.testbit 3 0) with true. change (Z.testbit 3 1) with true.
  change (Z.testbit 3 2) with false. change (Z.testbit 3 3) with false.
  change (Z.testbit 3 4) with false. change (Z.testbit 3 5) with false.
  change (Z.testbit 3 6) with false. change (Z.testbit 3 7) with false.
  change (Z.testbit 255 0) with true. change (Z.testbit 255 1) with true.
  rewrite !andb_true_r, !andb_false_r. simpl Z.b2z at 3 4 5 6 7 8. lia.
Qed.

Lemma DIV_ROUND_UP_8 n :
  0 <= n < 2 ^ 31 ->
  let r := u32 (DIV_ROUND_UP (u32 n) 8 * 8) in
  r mod 8 = 0 /\ n <= r < n + 8.
Proof.
  intros Hn r. subst r. unfold DIV_ROUND_UP.
  rewrite (u32_small n), (u32_small (n + 8)), (u32_small (n + 8 - 1)) by lia.
  rewrite u32_small by (split; [| change (2 ^ 32) with 4294967296 in *];
                        Z.div_mod_to_equations; lia).
  split; [apply Z.mod_mul; lia | Z.div_mod_to_equations; lia].
Qed.

(** X14.  [hfi_parse_features] fails with [-ENODEV], leaving
    [hfi_features] as it was, exactly when the CPU has no HFI or CPUID
    reports no performance capability.  Otherwise it returns 0 with a
    table of 1 to 16 pages, one or two capabilities per class, at most
    255 classes (one without ITD), and a header size and a row stride
    that are equal, a multiple of 8, and the least such multiple that
    holds all capabilities of all classes. *)
Theorem parse_features_table_geometry (has_hfi itd : bool) (edx ecx : Z)
    (old : hfi_features_t) :
  let ret := (hfi_parse_features has_hfi itd edx ecx old).1 in
  let f := (hfi_parse_features has_hfi itd edx ecx old).2 in
  (ret = - ENODEV /\ f = old /\
   (has_hfi = false \/ Z.testbit edx 0 = false)) \/
  (ret = 0 /\ has_hfi = true /\ Z.testbit edx 0 = true /\
   nr_table_pages f = Z.land (Z.shiftr edx 8) 15 + 1 /\
   1 <= nr_table_pages f <= 16 /\
   class_stride f = 1 + Z.b2z (Z.testbit edx 1) /\
   nr_classes f = (if itd then Z.land (Z.shiftr ecx 8) 255 else 1) /\
   0 <= nr_classes f <= 255 /\
   hdr_size f = cpu_stride f /\ cpu_stride f mod 8 = 0 /\
   class_stride f * nr_classes f <= cpu_stride f
     < class_stride f * nr_classes f + 8).
Proof.
  intros ret f. subst ret f. unfold hfi_parse_features.
  destruct has_hfi; [| left; auto]. cbn [negb].
  assert (Z.testbit (edx_capabilities edx) 0 = Z.testbit edx 0) as Ebit.
  { unfold edx_capabilities. rewrite Z.land_spec.
    change (Z.testbit 255 0) with true. apply andb_true_r. }
  rewrite Ebit. destruct (Z.testbit edx 0) eqn:Hperf; [| left; auto].
  right. cbn [negb fst snd nr_classes nr_table_pages cpu_stride class_stride
              hdr_size].
  rewrite hweight8_capabilities, Hperf. cbn [Z.b2z].
  pose proof (land_low_bits (Z.shiftr edx 8) 4 ltac:(lia)) as Hpages.
  pose proof (land_low_bits (Z.shiftr ecx 8) 8 ltac:(lia)) as Hcls.
  change (Z.ones 4) with 15 in Hpages. change (Z.ones 8) with 255 in Hcls.
  change (2 ^ 4) with 16 in Hpages. change (2 ^ 8) with 256 in Hcls.
  unfold edx_table_pages, ecx_nr_classes.
  set (nc := if itd then Z.land (Z.shiftr ecx 8) 255 else 1).
  assert (0 <= nc <= 255) as Hnc by (subst nc; destruct itd; lia).
  assert (0 <= Z.b2z (Z.testbit edx 1) <= 1) as Hb
    by (destruct (Z.testbit edx 1); simpl; lia).
  rewrite (u32_small (_ + 1)) by lia.
  destruct (DIV_ROUND_UP_8 ((1 + Z.b2z (Z.testbit edx 1)) * nc) ltac:(nia))
    as [Hmod Hrange].
  split; [reflexivity |]. split; [reflexivity |]. split; [reflexivity |].
  split; [reflexivity |]. split; [lia |]. split; [reflexivity |].
  split; [reflexivity |]. split; [exact Hnc |]. split; [reflexivity |].
  split; [exact Hmod | exact Hrange].
Qed.

End HFIFeatures.

Module HFITicks.
Import HFI HFIProps.

(** ** The classifier over user ticks *)

Section TickProps.

Variables IB TB CB : Z.
Variables itd quirky : bool.

#[local] Abbreviation update := (intel_hfi_update_ipcc IB TB CB itd quirky).
#[local] Abbreviation ticks_run := (update_ipcc_run IB TB CB itd quirky).
#[local] Abbreviation class_of := (tick_class itd quirky).

Lemma update_tick p tick :
  update tick.1 tick.2 p =
  match class_of tick with
  | Some obs => debounce_and_update_class IB TB CB p obs
  | None => p
  end.
Proof.
  unfold intel_hfi_update_ipcc, tick_class.
  destruct itd; [| reflexivity]. cbn [negb andb].
  destruct (msr_valid tick.1); [| reflexivity]. cbn [negb andb].
  destruct (classification_is_accurate _ _ _); reflexivity.
Qed.

Lemma ticks_run_debounce : forall ticks p,
  ticks_run p ticks = debounce_run IB TB CB p (omap class_of ticks).
Proof.
  induction ticks as [| tick ticks IH]; intros p; [reflexivity |].
  unfold update_ipcc_run, debounce_run in *. cbn [fold_left].
  rewrite IH, update_tick.
  change (omap class_of (tick :: ticks))
    with (match class_of tick with
          | Some y => y :: omap class_of ticks
          | None => omap class_of ticks
          end).
  destruct (class_of tick); reflexivity.
Qed.

Lemma tick_class_range tick obs : class_of tick = Some obs -> 0 <= obs < 256.
Proof.
  unfold tick_class. destruct (_ && _); [| discriminate].
  intros [= <-]. apply wrap_range. lia.
Qed.

Lemma omap_snoc {A B} (f : A -> option B) xs x :
  omap f (xs ++ [x]) = omap f xs ++ match f x with Some y => [y] | None => [] end.
Proof.
  induction xs as [| a xs IH].
  - change (omap f ([] ++ [x]))
      with (match f x with Some y => y :: [] | None => [] end).
    destruct (f x); reflexivity.
  - change (omap f ((a :: xs) ++ [x]))
      with (match f a with
            | Some y => y :: omap f (xs ++ [x])
            | None => omap f (xs ++ [x])
            end).
    change (omap f (a :: xs))
      with (match f a with Some y => y :: omap f xs | None => omap f xs end).
    rewrite IH. destruct (f a); reflexivity.
Qed.

End TickProps.

(** X15.  A run of [intel_hfi_update_ipcc] over the user ticks of a task
    is the debouncer run over the classes of the usable ticks only: a
    tick without ITD, with an invalid reading or with a classification
    that is not accurate changes nothing, so it neither restarts nor
    advances the count.  From a counter of 0 the class of the task
    changes only at a usable tick whose class the three usable ticks
    before it had as well, and it becomes that class, the hardware class
    plus one as a [u8]. *)
Theorem update_ipcc_ignores_unusable_ticks (IB TB CB : Z) (itd quirky : bool)
    (HI : 8 <= IB) (HT : 8 <= TB) (HC : 2 <= CB) :
  (forall p ticks,
     update_ipcc_run IB TB CB itd quirky p ticks
     = debounce_run IB TB CB p (omap (tick_class itd quirky) ticks)) /\
  (forall p tick,
     tick_class itd quirky tick = None ->
     intel_hfi_update_ipcc IB TB CB itd quirky tick.1 tick.2 p = p) /\
  (forall p ticks tick,
     ipcc_cntr p = 0 ->
     ipcc (update_ipcc_run IB TB CB itd quirky p (ticks ++ [tick]))
     <> ipcc (update_ipcc_run IB TB CB itd quirky p ticks) ->
     exists obs older,
       tick_class itd quirky tick = Some obs /\
       obs = u8 (msr_classid tick.1 + 1) /\
       omap (tick_class itd quirky) ticks = older ++ [obs; obs; obs] /\
       ipcc (update_ipcc_run IB TB CB itd quirky p (ticks ++ [tick])) = obs).
Proof.
  split; [intros p ticks; apply ticks_run_debounce |].
  split; [intros p tick Hnone; now rewrite update_tick, Hnone |].
  intros p ticks tick H0 Hch.
  rewrite !ticks_run_debounce, omap_snoc in *.
  destruct (tick_class itd quirky tick) as [obs |] eqn:Hobs;
    [| rewrite app_nil_r in Hch; contradiction].
  pose proof (tick_class_range itd quirky tick obs Hobs) as Hrange.
  set (seen := omap (tick_class itd quirky) ticks) in *.
  assert (Forall (fun o => 0 <= o < 256) seen) as Hall.
  { apply Forall_forall. intros o Ho. subst seen.
    apply list_elem_of_omap in Ho as (t & _ & Ht).
    exact (tick_class_range itd quirky t o Ht). }
  pose proof (counted_run IB TB CB p seen HI HT HC Hall H0) as Hcnt.
  rewrite run_snoc in *.
  destruct (counted_step IB TB CB _ seen obs HI HT HC Hrange Hcnt) as [_ H].
  destruct (H Hch) as [older Holder].
  exists obs, older. split; [reflexivity |].
  split.
  { unfold tick_class in Hobs. destruct (_ && _); [| discriminate].
    now injection Hobs as <-. }
  split; [exact Holder |].
  destruct Hcnt as [Hc _].
  destruct (debounce_run IB TB CB p seen) as [i t c] eqn:Ep.
  cbn [ipcc_cntr ipcc] in *.
  rewrite (step_eval IB TB CB i t c obs HI HT HC Hrange Hc) in *.
  destruct (negb (t =? obs)); [cbn [ipcc] in Hch; contradiction |].
  destruct (c <? 3); [cbn [ipcc] in Hch; contradiction | reflexivity].
Qed.

Lemma update_ipcc_ignores_unusable_ticks_witness :
  let valid class := Z.lor (Z.shiftl 1 63) class in
  (8 <= 9 /\ 8 <= 9 /\ 2 <= 14) /\
  update_ipcc_run 9 9 14 true true (mk_task 1 0 0)
    [(valid 2, false); (valid 2, false); (valid 0, false); (2, true);
     (valid 2, false); (valid 2, false)]
  = mk_task 3 3 3.
Proof.
  intros valid.
  assert (8 <= 9 /\ 8 <= 9 /\ 2 <= 14) as H by lia.
  split; [exact H |]. destruct H as (HI & HT & HC).
  rewrite (proj1 (update_ipcc_ignores_unusable_ticks 9 9 14 true true HI HT HC)).
  vm_compute. reflexivity.
Defined.

End HFITicks.

Module HFIEvents.
Import HFI HFIProps.

(** ** What the event handler leaves alone *)

Lemma ack_bits (pkg HFI_UPDATED : Z) :
  let ack := u64 (Z.land pkg (Z.land THERM_STATUS_CLEAR_PKG_MASK
                                (Z.lnot HFI_UPDATED))) in
  0 <= ack < 2 ^ 27 /\
  Z.land ack HFI_UPDATED = 0 /\
  Z.land ack pkg = ack /\
  Z.land ack THERM_STATUS_CLEAR_PKG_MASK = ack.
Proof.
  intros ack. subst ack.
  set (M := THERM_STATUS_CLEAR_PKG_MASK).
  set (a := Z.land pkg (Z.land M (Z.lnot HFI_UPDATED))).
  assert (Z.land a M = a) as HM.
  { subst a. apply Z.bits_inj'. intros n Hn. rewrite !Z.land_spec.
    destruct (Z.testbit pkg n), (Z.testbit M n),
      (Z.testbit (Z.lnot HFI_UPDATED) n); reflexivity. }
  assert (0 <= a < 2 ^ 27) as Ha.
  { assert (0 <= a) as H0 by (rewrite <- HM; apply Z.land_nonneg; right;
                              vm_compute; discriminate).
    split; [exact H0 |].
    destruct (Z.eq_dec a 0) as [-> | Hnz]; [lia |].
    apply Z.log2_lt_pow2; [lia |].
    pose proof (Z.log2_land a M H0 ltac:(vm_compute; discriminate)) as Hl.
    rewrite HM in Hl. change (Z.log2 M) with 26 in Hl. lia. }
  rewrite u64_small by lia. fold a.
  split; [exact Ha |]. split; [| split; [| exact HM]].
  - subst a. apply Z.bits_inj'. intros n Hn.
    rewrite !Z.land_spec, Z.lnot_spec, Z.bits_0 by exact Hn.
    destruct (Z.testbit pkg n), (Z.testbit M n), (Z.testbit HFI_UPDATED n);
      reflexivity.
  - subst a. apply Z.bits_inj'. intros n Hn. rewrite !Z.land_spec.
    destruct (Z.testbit pkg n), (Z.testbit M n),
      (Z.testbit (Z.lnot HFI_UPDATED) n); reflexivity.
Qed.

Lemma memcpy_Done dst src n out :
  0 <= n -> memcpy dst src n = Done out ->
  (Z.to_nat n <= length src)%nat /\ (Z.to_nat n <= length dst)%nat /\
  length out = length dst /\
  take (Z.to_nat n) out = take (Z.to_nat n) src /\
  drop (Z.to_nat n) out = drop (Z.to_nat n) dst.
Proof.
  intros Hn. unfold memcpy.
  destruct (Z.ltb_spec (Z.of_nat (length src)) n); [discriminate |].
  destruct (Z.ltb_spec (Z.of_nat (length dst)) n); [discriminate |].
  intros [= <-].
  assert (length (take (Z.to_nat n) src) = Z.to_nat n) as Hlen
    by (rewrite length_take; lia).
  split; [lia |]. split; [lia |].
  split; [rewrite length_app, Hlen, length_drop; lia |].
  split.
  - rewrite take_app_le by lia. rewrite take_take. f_equal. lia.
  - rewrite drop_app_ge by lia. rewrite Hlen, Nat.sub_diag. reflexivity.
Qed.

(** X16.  A run of [intel_hfi_process_event] that returns either changes
    nothing, or it replaces the first [nr_table_pages << PAGE_SHIFT]
    bytes of the local table by those of the hardware table, writes one
    acknowledgement and queues the update work once.  It never writes to
    the hardware table, it returns with [event_lock] as it found it, and
    the acknowledgement has no bit outside the status value read and
    [THERM_STATUS_CLEAR_PKG_MASK], and bit [HFI_UPDATED] clear. *)
Theorem process_event_updates_mirror_only
    (nr_table_pages HFI_UPDATED pkg : Z) (w w' : hfi_world)
    (Hrun : intel_hfi_process_event nr_table_pages HFI_UPDATED pkg w = Done w') :
  w' = w \/
  exists hfi hfi' ack,
    pkg <> 0 /\
    instance w = Some hfi /\ event_lock hfi = false /\
    take 8 (local_table hfi) <> take 8 (hw_table hfi) /\
    instance w' = Some hfi' /\ event_lock hfi' = false /\
    hw_table hfi' = hw_table hfi /\
    length (local_table hfi') = length (local_table hfi) /\
    (let n := Z.to_nat (u32 (Z.shiftl nr_table_pages PAGE_SHIFT)) in
     (n <= length (hw_table hfi))%nat /\ (n <= length (local_table hfi))%nat /\
     take n (local_table hfi') = take n (hw_table hfi) /\
     drop n (local_table hfi') = drop n (local_table hfi)) /\
    therm_status_writes w' = therm_status_writes w ++ [ack] /\
    update_work_queued w' = S (update_work_queued w) /\
    0 <= ack < 2 ^ 27 /\
    Z.land ack HFI_UPDATED = 0 /\
    Z.land ack pkg = ack /\
    Z.land ack THERM_STATUS_CLEAR_PKG_MASK = ack.
Proof.
  unfold intel_hfi_process_event in Hrun.
  destruct (Z.eqb_spec pkg 0) as [-> | Hpkg]; [left; congruence |].
  destruct (instance w) as [hfi |] eqn:Hinst; [| left; congruence].
  destruct (event_lock hfi) eqn:Hlock; [left; congruence |].
  apply bind_Done_inv in Hrun as (new_ts & Hnew & Hrun).
  apply bind_Done_inv in Hrun as (ts & Hts & Hrun).
  destruct (Z.eqb_spec ts new_ts) as [E | Hne]; [left; congruence |].
  apply bind_Done_inv in Hrun as (copied & Hcopy & Hrun).
  injection Hrun as <-. right.
  apply memcpy_Done in Hcopy as (H1 & H2 & H3 & H4 & H5);
    [| apply wrap_range; lia].
  pose proof (ack_bits pkg HFI_UPDATED) as Hack. cbv zeta in Hack.
  eexists hfi, _, _. cbn [instance therm_status_writes update_work_queued].
  split; [exact Hpkg |]. split; [reflexivity |]. split; [exact Hlock |].
  split.
  { intros Heq. apply Hne. unfold read_u64 in Hnew, Hts.
    destruct (_ <? _)%nat in Hnew; [discriminate |].
    destruct (_ <? _)%nat in Hts; [discriminate |].
    injection Hnew as <-. injection Hts as <-. now rewrite Heq. }
  split; [reflexivity |]. cbn [event_lock hw_table local_table].
  split; [reflexivity |]. split; [reflexivity |]. split; [exact H3 |].
  split; [auto |]. split; [reflexivity |]. split; [reflexivity |].
  exact Hack.
Qed.

Lemma process_event_updates_mirror_only_witness :
  let hw := repeat Byte.x2a 4096 in
  let hfi := mk_instance (repeat Byte.x00 4096) hw false in
  let w := mk_world (Some hfi) [] 0 in
  let w' := mk_world (Some (mk_instance hw hw false)) [2] 1 in
  intel_hfi_process_event 1 (BIT 26) (Z.lor (BIT 26) (BIT 1)) w = Done w' /\
  w' <> w.
Proof.
  intros hw hfi w w'.
  assert (intel_hfi_process_event 1 (BIT 26) (Z.lor (BIT 26) (BIT 1)) w = Done w')
    as Hrun by (vm_compute; reflexivity).
  split; [exact Hrun |].
  destruct (process_event_updates_mirror_only 1 (BIT 26) _ w w' Hrun)
    as [E | (h & h' & ack & _)]; [| discriminate].
  discriminate E.
Defined.

End HFIEvents.

Module HFICaps.
Import HFI HFIProps.

(** ** Capabilities and IPC class scores *)

Lemma read_u8_range table off v : read_u8 table off = Done v -> 0 <= v < 256.
Proof.
  unfold read_u8. destruct (off <? 0); [discriminate |].
  destruct (table !! Z.to_nat off) as [b |]; [| discriminate].
  intros [= <-]. apply byte_value_range.
Qed.

Lemma for_each_cpu_ge : forall cpus cpu c, c ∈ for_each_cpu cpus cpu -> cpu <= c.
Proof.
  induction cpus as [| b cpus IH]; intros cpu c Hc; [inversion Hc |].
  cbn [for_each_cpu] in Hc. apply elem_of_app in Hc as [Hc | Hc].
  - destruct b; [| inversion Hc]. apply list_elem_of_singleton in Hc. lia.
  - apply IH in Hc. lia.
Qed.

Lemma for_each_cpu_bit : forall cpus cpu c,
  c ∈ for_each_cpu cpus cpu <->
  cpu <= c /\ cpus !! Z.to_nat (c - cpu) = Some true.
Proof.
  induction cpus as [| b cpus IH]; intros cpu c.
  - split; [intros H; inversion H | intros [_ H]; discriminate].
  - cbn [for_each_cpu]. rewrite elem_of_app, IH. split.
    + intros [Hc | [Hge Hbit]].
      * destruct b; [| inversion Hc]. apply list_elem_of_singleton in Hc.
        subst c. rewrite Z.sub_diag. split; [lia | reflexivity].
      * split; [lia |].
        replace (Z.to_nat (c - cpu)) with (S (Z.to_nat (c - (cpu + 1)))) by lia.
        exact Hbit.
    + intros [Hge Hbit]. destruct (Z.eq_dec c cpu) as [-> | Hne].
      * rewrite Z.sub_diag in Hbit. injection Hbit as ->. left.
        now apply list_elem_of_singleton.
      * right. split; [lia |].
        replace (Z.to_nat (c - cpu)) with (S (Z.to_nat (c - (cpu + 1))))
          in Hbit by lia.
        exact Hbit.
Qed.

Lemma for_each_cpu_weight : forall cpus cpu,
  Z.of_nat (length (for_each_cpu cpus cpu)) = cpumask_weight cpus.
Proof.
  unfold cpumask_weight. induction cpus as [| b cpus IH]; intros cpu;
    [reflexivity |].
  cbn [for_each_cpu]. rewrite length_app, Nat2Z.inj_add, (IH (cpu + 1)).
  destruct b.
  - rewrite filter_cons_True by reflexivity. simpl length. lia.
  - rewrite filter_cons_False by discriminate. simpl length. lia.
Qed.

Section CapsProps.

Variable itd : bool.
Variable f : hfi_features_t.
Variable index : Z -> Z.
Variable table : list Byte.byte.
Variable data : Z.

#[local] Abbreviation row cpu := (data + u32 (index cpu * cpu_stride f)).
#[local] Abbreviation perf := (perf_cap_at f index table data).
#[local] Abbreviation ee := (ee_cap_at f index table data).

Lemma set_loop_spec caps : forall n i arr out,
  0 <= i -> i + Z.of_nat n < 2 ^ 31 ->
  set_hfi_ipcc_score_loop f table n i caps arr = Done out ->
  length out = length arr /\
  (forall j, i <= j < i + Z.of_nat n ->
     exists v, read_u8 table (caps + u32 (j * class_stride f)) = Done v /\
               out !! Z.to_nat j = Some v) /\
  (forall k, (k < Z.to_nat i)%nat -> out !! k = arr !! k).
Proof.
  induction n as [| n IH]; intros i arr out Hi Hn Hrun.
  - injection Hrun as <-. split; [reflexivity |]. split; [lia | reflexivity].
  - cbn [set_hfi_ipcc_score_loop] in Hrun.
    apply bind_Done_inv in Hrun as (v & Hv & Hrun).
    destruct (Z.ltb_spec i 0); [lia |].
    destruct (Z.leb_spec (Z.of_nat (length arr)) i); [discriminate |].
    cbn [orb] in Hrun. rewrite s32_small in Hrun by lia.
    destruct (IH (i + 1) _ _ ltac:(lia) ltac:(lia) Hrun)
      as (Hlen & Hset & Hkeep).
    rewrite length_insert in Hlen. split; [exact Hlen |]. split.
    + intros j Hj. destruct (Z.eq_dec j i) as [-> | Hne].
      * exists v. split; [exact Hv |].
        rewrite Hkeep by lia. apply list_lookup_insert_eq. lia.
      * apply Hset. lia.
    + intros k Hk. rewrite Hkeep by lia. apply list_lookup_insert_ne. lia.
Qed.

Lemma set_score_spec caps cpu scores scores' :
  itd = true -> nr_classes f < 2 ^ 31 ->
  set_hfi_ipcc_score itd f table caps cpu scores = Done scores' ->
  (forall c, c <> cpu -> scores' !! c = scores !! c) /\
  (forall j, 0 <= j < nr_classes f ->
     exists arr v,
       scores' !! cpu = Some arr /\ arr !! Z.to_nat j = Some v /\
       read_u8 table (caps + u32 (j * class_stride f)) = Done v).
Proof.
  intros -> Hcls Hrun. unfold set_hfi_ipcc_score in Hrun. cbn [negb] in Hrun.
  destruct (scores !! cpu) as [arr |] eqn:Harr.
  - apply bind_Done_inv in Hrun as (out & Hout & Hrun). injection Hrun as <-.
    destruct (set_loop_spec caps (Z.to_nat (nr_classes f)) 0 arr out
                ltac:(lia) ltac:(lia) Hout)
      as (_ & Hset & _).
    split; [intros c Hc; now apply lookup_insert_ne |].
    intros j Hj. destruct (Hset j ltac:(lia)) as (v & Hv & Hat).
    exists out, v. rewrite lookup_insert_eq. auto.
  - destruct (Z.to_nat (nr_classes f)) eqn:En; [| discriminate].
    injection Hrun as <-. split; [reflexivity | intros j Hj; lia].
Qed.

Lemma set_score_off caps cpu scores scores' :
  itd = false ->
  set_hfi_ipcc_score itd f table caps cpu scores = Done scores' ->
  scores' = scores.
Proof. intros -> Hrun. now injection Hrun as <-. Qed.

Lemma perf_class_0 c : perf c 0 = read_u8 table (row c).
Proof.
  unfold perf_cap_at. rewrite Z.mul_0_l.
  change (u32 0) with 0. now rewrite Z.add_0_r.
Qed.

Lemma caps_loop_spec : forall cpus cpu i cpu_caps scores caps' scores',
  0 <= i -> Z.of_nat (length cpu_caps) < 2 ^ 31 -> nr_classes f < 2 ^ 31 ->
  get_hfi_caps_loop itd f index table data cpus cpu i cpu_caps scores
  = Done (caps', scores') ->
  let visited := for_each_cpu cpus cpu in
  length caps' = length cpu_caps /\
  (visited = [] \/
   i + Z.of_nat (length visited) <= Z.of_nat (length cpu_caps)) /\
  (forall k c, visited !! k = Some c ->
     exists p e,
       perf c 0 = Done p /\ ee c = Done e /\
       caps' !! (Z.to_nat i + k)%nat = Some (mk_caps c (4 * p) (4 * e))) /\
  (forall k, (k < Z.to_nat i)%nat \/ (Z.to_nat i + length visited <= k)%nat ->
             caps' !! k = cpu_caps !! k) /\
  (forall c, c ∉ visited -> scores' !! c = scores !! c) /\
  (itd = false -> scores' = scores) /\
  (itd = true ->
   forall c j, c ∈ visited -> 0 <= j < nr_classes f ->
     exists arr v,
       scores' !! c = Some arr /\ arr !! Z.to_nat j = Some v /\
       perf c j = Done v).
Proof.
  induction cpus as [| b cpus IH];
    intros cpu i cpu_caps scores caps' scores' Hi Hlen Hcls Hrun visited.
  - injection Hrun as <- <-. subst visited. cbn [for_each_cpu length].
    split; [reflexivity |]. split; [now left |].
    split; [intros k c H; discriminate |].
    split; [reflexivity |]. split; [reflexivity |].
    split; [reflexivity | intros _ c j H; inversion H].
  - destruct b; cbn [get_hfi_caps_loop] in Hrun.
    + destruct (Z.ltb_spec i 0); [lia |].
      destruct (Z.leb_spec (Z.of_nat (length cpu_caps)) i); [discriminate |].
      cbn [orb] in Hrun.
      apply bind_Done_inv in Hrun as (p & Hp & Hrun).
      apply bind_Done_inv in Hrun as (e & He & Hrun).
      apply bind_Done_inv in Hrun as (scores1 & Hset & Hrun).
      rewrite s32_small in Hrun by lia.
      apply IH in Hrun
        as (Hlen' & Hbound & Hcaps & Hkeep & Hother & Hoff & Hon);
        [| lia | rewrite length_insert; lia | exact Hcls].
      rewrite length_insert in *.
      subst visited. cbn [for_each_cpu app].
      set (rest := for_each_cpu cpus (cpu + 1)) in *.
      assert (cpu ∉ rest) as Hnotin
        by (intros Hin; apply for_each_cpu_ge in Hin; lia).
      split; [exact Hlen' |].
      split; [right; cbn [length]; destruct Hbound as [-> | Hb];
              [cbn [length]; lia | lia] |].
      split.
      { intros k c Hk. destruct k as [| k].
        - injection Hk as <-. exists p, e.
          split; [now rewrite perf_class_0 |]. split; [exact He |].
          rewrite Nat.add_0_r, Hkeep by lia.
          rewrite list_lookup_insert_eq by lia.
          rewrite !Z.shiftl_mul_pow2 by lia. do 2 f_equal; lia.
        - cbn [lookup list_lookup] in Hk.
          destruct (Hcaps k c Hk) as (p' & e' & H1 & H2 & H3).
          exists p', e'. split; [exact H1 |]. split; [exact H2 |].
          rewrite <- H3. f_equal. lia. }
      split.
      { intros k Hk. cbn [length] in Hk. rewrite Hkeep by lia.
        apply list_lookup_insert_ne. lia. }
      split.
      { intros c Hc. rewrite Hother by (intros Hin; apply Hc;
                                        apply elem_of_cons; now right).
        destruct (Bool.bool_dec itd true) as [Eon | Eoff].
        - apply (set_score_spec _ _ _ _ Eon Hcls Hset).
          intros ->. apply Hc. apply elem_of_cons. now left.
        - apply not_true_is_false in Eoff.
          now rewrite (set_score_off _ _ _ _ Eoff Hset). }
      split.
      { intros Eoff. rewrite (Hoff Eoff).
        exact (set_score_off _ _ _ _ Eoff Hset). }
      intros Eon c j Hc Hj. apply elem_of_cons in Hc as [-> | Hc].
      * rewrite (Hother cpu Hnotin).
        destruct (proj2 (set_score_spec _ _ _ _ Eon Hcls Hset) j Hj)
          as (arr & v & H1 & H2 & H3).
        exists arr, v. auto.
      * exact (Hon Eon c j Hc Hj).
    + destruct (IH (cpu + 1) i _ _ _ _ Hi Hlen Hcls Hrun)
        as (Hlen' & Hbound & Hcaps & Hkeep & Hother & Hoff & Hon).
      subst visited. cbn [for_each_cpu app].
      auto 10.
Qed.

End CapsProps.

(** X17.  [get_hfi_caps] fills one record for each CPU of the instance,
    in increasing CPU order from the first record on, as many as
    [cpumask_weight] counts, and leaves the records behind them alone.
    The record of a CPU holds its number and the performance and the
    efficiency byte at the start of its row of the table, each times 4,
    so at most 1020. *)
Theorem caps_records_follow_rows (itd : bool) (f : hfi_features_t)
    (index : Z -> Z) (table : list Byte.byte) (data : Z) (cpus : list bool)
    (cpu_caps caps' : list thermal_genl_cpu_caps)
    (scores scores' : gmap Z (list Z))
    (Hlen : Z.of_nat (length cpu_caps) < 2 ^ 31)
    (Hcls : nr_classes f < 2 ^ 31)
    (Hrun : get_hfi_caps itd f index table data cpus cpu_caps scores
            = Done (caps', scores')) :
  let visited := for_each_cpu cpus 0 in
  Z.of_nat (length visited) = cpumask_weight cpus /\
  (forall c, c ∈ visited <-> 0 <= c /\ cpus !! Z.to_nat c = Some true) /\
  (length visited <= length cpu_caps)%nat /\
  length caps' = length cpu_caps /\
  (forall k c, visited !! k = Some c ->
     exists p e,
       perf_cap_at f index table data c 0 = Done p /\
       ee_cap_at f index table data c = Done e /\
       caps' !! k = Some (mk_caps c (4 * p) (4 * e)) /\
       0 <= 4 * p <= 1020 /\ 0 <= 4 * e <= 1020) /\
  (forall k, (length visited <= k)%nat -> caps' !! k = cpu_caps !! k).
Proof.
  intros visited. unfold get_hfi_caps in Hrun.
  destruct (caps_loop_spec itd f index table data cpus 0 0 cpu_caps scores
              caps' scores' ltac:(lia) Hlen Hcls Hrun)
    as (Hlen' & Hbound & Hcaps & Hkeep & _).
  fold visited in Hbound, Hcaps, Hkeep.
  split; [apply for_each_cpu_weight |].
  split.
  { intros c. subst visited. rewrite for_each_cpu_bit, Z.sub_0_r. reflexivity. }
  split; [destruct Hbound as [-> | Hb]; [cbn [length] |]; lia |].
  split; [exact Hlen' |]. split.
  - intros k c Hk. destruct (Hcaps k c Hk) as (p & e & Hp & He & Hat).
    exists p, e. split; [exact Hp |]. split; [exact He |].
    split; [exact Hat |].
    apply read_u8_range in Hp. apply read_u8_range in He. lia.
  - intros k Hk. apply Hkeep. right. simpl. lia.
Qed.

Lemma caps_records_follow_rows_witness :
  let f := mk_features 2 1 8 2 8 in
  let index := fun cpu => if cpu =? 0 then 0 else if cpu =? 2 then 1 else -1 in
  let table :=
    repeat Byte.x00 16
    ++ [Byte.x10; Byte.x20; Byte.x30; Byte.x40] ++ repeat Byte.x00 4
    ++ [Byte.x50; Byte.x60; Byte.x70; Byte.x80] ++ repeat Byte.x00 4 in
  let cpus := [true; false; true] in
  let cpu_caps := replicate 2 (mk_caps 0 0 0) in
  let scores : gmap Z (list Z) := {[ 0 := [0; 0]; 2 := [0; 0] ]} in
  let scores' : gmap Z (list Z) := {[ 0 := [16; 48]; 2 := [80; 112] ]} in
  (Z.of_nat (length cpu_caps) < 2 ^ 31 /\ nr_classes f < 2 ^ 31 /\
   get_hfi_caps true f index table 16 cpus cpu_caps scores
   = Done ([mk_caps 0 64 128; mk_caps 2 320 384], scores')) /\
  Z.of_nat (length (for_each_cpu cpus 0)) = cpumask_weight cpus.
Proof.
  intros f index table cpus cpu_caps scores scores'.
  assert (Z.of_nat (length cpu_caps) < 2 ^ 31) as H1 by (vm_compute; reflexivity).
  assert (nr_classes f < 2 ^ 31) as H2 by (vm_compute; reflexivity).
  assert (get_hfi_caps true f index table 16 cpus cpu_caps scores
          = Done ([mk_caps 0 64 128; mk_caps 2 320 384], scores')) as H3
    by (vm_compute; reflexivity).
  split; [auto |].
  exact (proj1 (caps_records_follow_rows true f index table 16 cpus cpu_caps _
                  scores _ H1 H2 H3)).
Defined.

(** X18.  With ITD, after [get_hfi_caps] the score that
    [intel_hfi_get_ipcc_score] returns for a CPU of the instance and an
    IPC class [1..nr_classes] is the performance byte of HFI class [ipcc
    - 1] in the row of the CPU, and class 0 gets the score of class 1.
    The scores of the CPUs that are not in the instance are as before;
    without ITD no score is written. *)
Theorem ipcc_scores_follow_table (itd : bool) (f : hfi_features_t)
    (index : Z -> Z) (table : list Byte.byte) (data : Z) (cpus : list bool)
    (cpu_caps caps' : list thermal_genl_cpu_caps)
    (scores scores' : gmap Z (list Z)) (nr_cpu_ids : Z)
    (Hlen : Z.of_nat (length cpu_caps) < 2 ^ 31)
    (Hcls : nr_classes f < 2 ^ 31)
    (Hrun : get_hfi_caps itd f index table data cpus cpu_caps scores
            = Done (caps', scores')) :
  let get_score :=
    intel_hfi_get_ipcc_score nr_cpu_ids (nr_classes f) (fun c => scores' !! c) in
  (itd = false -> scores' = scores) /\
  (forall c, c ∉ for_each_cpu cpus 0 -> scores' !! c = scores !! c) /\
  (itd = true ->
   forall c, c ∈ for_each_cpu cpus 0 -> c < nr_cpu_ids -> c < 2 ^ 31 ->
     (forall ipcc, 1 <= ipcc <= nr_classes f -> ipcc < 2 ^ 16 ->
        exists v, perf_cap_at f index table data c (ipcc - 1) = Done v /\
                  get_score ipcc c = Done v) /\
     (1 <= nr_classes f ->
        exists v, perf_cap_at f index table data c 0 = Done v /\
                  get_score 0 c = Done v)).
Proof.
  intros get_score. unfold get_hfi_caps in Hrun.
  destruct (caps_loop_spec itd f index table data cpus 0 0 cpu_caps scores
              caps' scores' ltac:(lia) Hlen Hcls Hrun)
    as (_ & _ & _ & _ & Hother & Hoff & Hon).
  split; [exact Hoff |]. split; [exact Hother |].
  intros Eon c Hc Hcpu H31.
  pose proof (for_each_cpu_ge _ _ _ Hc) as Hc0.
  assert (forall ipcc, 1 <= ipcc <= nr_classes f -> ipcc < 2 ^ 16 ->
            exists v, perf_cap_at f index table data c (ipcc - 1) = Done v /\
                      get_score ipcc c = Done v) as Hget.
  { intros ipcc Hipcc H16.
    destruct (Hon Eon c (ipcc - 1) Hc ltac:(lia)) as (arr & v & Harr & Hv & Hp).
    exists v. split; [exact Hp |]. subst get_score.
    rewrite (score_classified nr_cpu_ids (nr_classes f) _ ipcc c arr)
      by (assumption || lia).
    rewrite Hv. f_equal. apply u64_small.
    apply read_u8_range in Hp. lia. }
  split; [exact Hget |].
  intros H1. destruct (Hget 1 ltac:(lia) ltac:(lia)) as (v & Hp & Hs).
  exists v. split; [exact Hp | exact Hs].
Qed.

Lemma ipcc_scores_follow_table_witness :
  let f := mk_features 2 1 8 2 8 in
  let index := fun cpu => if cpu =? 0 then 0 else if cpu =? 2 then 1 else -1 in
  let table :=
    repeat Byte.x00 16
    ++ [Byte.x10; Byte.x20; Byte.x30; Byte.x40] ++ repeat Byte.x00 4
    ++ [Byte.x50; Byte.x60; Byte.x70; Byte.x80] ++ repeat Byte.x00 4 in
  let cpus := [true; false; true] in
  let cpu_caps := replicate 2 (mk_caps 0 0 0) in
  let scores : gmap Z (list Z) := {[ 0 := [0; 0]; 2 := [0; 0] ]} in
  let scores' : gmap Z (list Z) := {[ 0 := [16; 48]; 2 := [80; 112] ]} in
  (Z.of_nat (length cpu_caps) < 2 ^ 31 /\ nr_classes f < 2 ^ 31 /\
   get_hfi_caps true f index table 16 cpus cpu_caps scores
   = Done ([mk_caps 0 64 128; mk_caps 2 320 384], scores')) /\
  scores' !! 1 = scores !! 1.
Proof.
  intros f index table cpus cpu_caps scores scores'.
  assert (Z.of_nat (length cpu_caps) < 2 ^ 31) as H1 by (vm_compute; reflexivity).
  assert (nr_classes f < 2 ^ 31) as H2 by (vm_compute; reflexivity).
  assert (get_hfi_caps true f index table 16 cpus cpu_caps scores
          = Done ([mk_caps 0 64 128; mk_caps 2 320 384], scores')) as H3
    by (vm_compute; reflexivity).
  split; [auto |].
  apply (ipcc_scores_follow_table true f index table 16 cpus cpu_caps _
           scores _ 4 H1 H2 H3).
  vm_compute. intros H. repeat (apply elem_of_cons in H as [H | H];
                                [discriminate H |]). inversion H.
Defined.

End HFICaps.

Module HFIHotplug.
Import HFI HFIProps HFI.Hotplug.

(** ** CPU hotplug *)

Lemma ptr_writes_app es1 es2 :
  ptr_writes (es1 ++ es2) = ptr_writes es1 ++ ptr_writes es2.
Proof.
  unfold ptr_writes. induction es1 as [| e es1 IH]; [reflexivity |].
  change (omap ?f ((e :: es1) ++ es2))
    with (match f e with
          | Some y => y :: omap f (es1 ++ es2)
          | None => omap f (es1 ++ es2)
          end).
  change (omap ?f (e :: es1))
    with (match f e with Some y => y :: omap f es1 | None => omap f es1 end).
  rewrite IH. destruct e as [[| |] v | |]; reflexivity.
Qed.

Lemma initialized_hdr inst : initialized inst = true <-> hdr inst <> 0.
Proof.
  unfold initialized. destruct (Z.eqb_spec (hdr inst) 0); simpl; split;
    congruence.
Qed.

Lemma cpumask_assign_Done cpu v mask :
  0 <= cpu < Z.of_nat (length mask) ->
  cpumask_assign cpu v mask = Done (<[Z.to_nat cpu := v]> mask).
Proof.
  intros H. unfold cpumask_assign.
  destruct (Z.ltb_spec cpu 0); [lia |].
  destruct (Z.leb_spec (Z.of_nat (length mask)) cpu); [lia | reflexivity].
Qed.

Lemma per_cpu_Done w cpu info :
  0 <= cpu -> hfi_cpu_info w !! Z.to_nat cpu = Some info ->
  per_cpu w cpu = Done info.
Proof.
  intros H Hi. unfold per_cpu. destruct (Z.ltb_spec cpu 0); [lia |].
  now rewrite Hi.
Qed.

(** One instance of the array is replaced. *)
Lemma filter_insert_same {A B} (P : A -> Prop) `{forall x, Decision (P x)}
    (g : A -> B) (l : list A) k x y :
  l !! k = Some x -> (P y <-> P x) -> (P x -> g y = g x) ->
  g <$> filter P (<[k := y]> l) = g <$> filter P l.
Proof.
  intros Hk Hiff Hg.
  rewrite insert_take_drop by (eapply lookup_lt_Some; eauto).
  rewrite <- (take_drop_middle l k x Hk) at 3.
  rewrite !filter_app, !filter_cons, !fmap_app.
  destruct (decide (P y)) as [Hy | Hy], (decide (P x)) as [Hx | Hx];
    try tauto.
  rewrite !fmap_cons, Hg by exact Hx. reflexivity.
Qed.

Lemma filter_insert_new {A B} (P : A -> Prop) `{forall x, Decision (P x)}
    (g : A -> B) (l : list A) k x y :
  l !! k = Some x -> ~ P x -> P y ->
  g <$> filter P (<[k := y]> l) ≡ₚ (g <$> filter P l) ++ [g y].
Proof.
  intros Hk Hx Hy.
  rewrite insert_take_drop by (eapply lookup_lt_Some; eauto).
  rewrite <- (take_drop_middle l k x Hk) at 3.
  rewrite !filter_app, !filter_cons, !fmap_app.
  rewrite decide_True by exact Hy. rewrite decide_False by exact Hx.
  rewrite fmap_cons, <- app_assoc.
  apply Permutation_app_head. apply Permutation_cons_append.
Qed.

Section HotplugProps.

Variable itd : bool.
Variable virt_to_phys : Z -> Z.

#[local] Abbreviation hfi_online := (intel_hfi_online itd virt_to_phys).
#[local] Abbreviation ptr_value inst :=
  (u64 (Z.lor (virt_to_phys (hw_table inst)) HW_FEEDBACK_PTR_VALID_BIT)).
#[local] Abbreviation enables e :=
  (forall v, e = wrmsrl MSR_IA32_HW_FEEDBACK_CONFIG v -> Z.testbit v 0 = true).

(** The part of [intel_hfi_online] under the lock. *)
Lemma online_locked_effect env cpu k w instances inst :
  hfi_instances w = Some instances -> instances !! k = Some inst ->
  0 <= cpu < Z.of_nat (length (cpus inst)) ->
  0 <= local_mem env < 2 ^ 64 - 8 ->
  exists inst' es,
    online_locked itd virt_to_phys env cpu k w
    = Done (mk_state (Some (<[k := inst']> instances)) (max_hfi_instances w)
              (hfi_features w) (hfi_cpu_info w) (effects w ++ es)) /\
    Forall (fun e => enables e) es /\
    ((initialized inst = true /\ es = [] /\
      inst' = set_cpus inst (<[Z.to_nat cpu := true]> (cpus inst))) \/
     (initialized inst = false /\ initialized inst' = false /\
      ptr_writes es = [] /\ cpus inst' = cpus inst) \/
     (initialized inst = false /\ initialized inst' = true /\
      ptr_writes es = [ptr_value inst'] /\
      hw_pages env <> 0 /\ local_mem env <> 0 /\
      inst' = mk_hfi_instance (local_mem env) (u64 (local_mem env + 8))
                (u64 (u64 (local_mem env + 8) + hdr_size (hfi_features w)))
                (<[Z.to_nat cpu := true]> (cpus inst)) (hw_pages env))).
Proof.
  intros Hinst Hk Hcpu Hmem. unfold online_locked, instance_at.
  rewrite Hinst, Hk, bind_Done.
  assert (forall (i : hfi_instance) (es : list effect),
            mk_state ((fun l => <[k := i]> l) <$> Some instances)
              (max_hfi_instances w) (hfi_features w) (hfi_cpu_info w)
              (effects w ++ es)
            = mk_state (Some (<[k := i]> instances)) (max_hfi_instances w)
                (hfi_features w) (hfi_cpu_info w) (effects w ++ es)) as Hst
    by reflexivity.
  destruct (Z.eqb_spec (hdr inst) 0) as [Hz | Hnz]; cbn [negb].
  - cbn [hw_table local_table].
    destruct (Z.eqb_spec (hw_pages env) 0) as [Hhw | Hhw].
    { eexists _, []. unfold set_instance. rewrite Hinst, app_nil_r.
      split; [reflexivity |]. split; [constructor |].
      right. left. unfold initialized. cbn [hdr cpus]. rewrite Hz.
      auto. }
    destruct (Z.eqb_spec (local_mem env) 0) as [Hlo | Hlo].
    { eexists _, [_]. unfold do_effect, set_instance. rewrite Hinst.
      cbn [hfi_instances max_hfi_instances hfi_features hfi_cpu_info effects].
      split; [reflexivity |].
      split; [constructor; [intros v Hv; discriminate | constructor] |].
      right. left. unfold initialized. cbn [hdr cpus]. rewrite Hz. auto. }
    cbn [do_effect hfi_features cpus init_hfi_instance].
    rewrite cpumask_assign_Done, bind_Done by exact Hcpu.
    exists (set_cpus
              (init_hfi_instance (hfi_features w)
                 (mk_hfi_instance (local_mem env) (hdr inst) (data inst)
                    (cpus inst) (hw_pages env)))
              (<[Z.to_nat cpu := true]> (cpus inst))).
    exists ([wrmsrl MSR_IA32_HW_FEEDBACK_PTR
               (u64 (Z.lor (virt_to_phys (hw_pages env))
                       HW_FEEDBACK_PTR_VALID_BIT));
             wrmsrl MSR_IA32_HW_FEEDBACK_CONFIG
               (if itd then
                  Z.lor (Z.lor (config env) HW_FEEDBACK_CONFIG_HFI_ENABLE_BIT)
                    HW_FEEDBACK_CONFIG_ITD_ENABLE_BIT
                else Z.lor (config env) HW_FEEDBACK_CONFIG_HFI_ENABLE_BIT)]
            ++ (if itd then [sched_enable_ipc_classes] else [])).
    split.
    { destruct itd; unfold do_effect, set_instance;
        cbn [hfi_instances max_hfi_instances hfi_features hfi_cpu_info effects];
        rewrite Hinst; cbn [fmap option_fmap option_map];
        rewrite <- ?app_assoc; reflexivity. }
    split.
    { apply Forall_app. split.
      - constructor; [intros v Hv; discriminate |].
        constructor; [| constructor].
        intros v [= <-]. destruct itd; rewrite !Z.lor_spec;
          change (Z.testbit HW_FEEDBACK_CONFIG_HFI_ENABLE_BIT 0) with true;
          rewrite ?orb_true_r; reflexivity.
      - destruct itd; [constructor; [intros v Hv; discriminate |] |];
          constructor. }
    right. right. unfold initialized, set_cpus, init_hfi_instance.
    cbn [hdr cpus hw_table local_table data].
    rewrite Hz. cbn [Z.eqb negb].
    assert (u64 (local_mem env + 8) = local_mem env + 8) as E
      by (apply u64_small; lia).
    rewrite E. destruct (Z.eqb_spec (local_mem env + 8) 0) as [? | _]; [lia |].
    cbn [negb].
    split; [reflexivity |]. split; [reflexivity |].
    split; [destruct itd; reflexivity |].
    split; [exact Hhw |]. split; [exact Hlo | reflexivity].
  - rewrite cpumask_assign_Done, bind_Done by exact Hcpu.
    eexists _, []. unfold set_instance. rewrite Hinst, app_nil_r.
    split; [reflexivity |]. split; [constructor |].
    left. split; [now apply initialized_hdr | auto].
Qed.

(** [intel_hfi_online] on a state in order. *)
Lemma online_effect env cpu w instances info :
  hotplug_ok w -> hfi_instances w = Some instances ->
  0 <= cpu -> hfi_cpu_info w !! Z.to_nat cpu = Some info ->
  0 <= local_mem env < 2 ^ 64 - 8 ->
  (instance_of info = None /\ hfi_online env cpu w = Done w) \/
  exists k inst inst' es,
    instances !! k = Some inst /\
    (instance_of info = Some k \/ instance_of info = None) /\
    hfi_online env cpu w
    = Done (mk_state (Some (<[k := inst']> instances)) (max_hfi_instances w)
              (hfi_features w)
              (<[Z.to_nat cpu :=
                   mk_cpu_info (init_hfi_cpu_index (edx env) (index info))
                     (Some k)]> (hfi_cpu_info w))
              (effects w ++ es)) /\
    Forall (fun e => enables e) es /\
    ((initialized inst = true /\ ptr_writes es = [] /\
      inst' = set_cpus inst (<[Z.to_nat cpu := true]> (cpus inst))) \/
     (initialized inst = false /\ initialized inst' = false /\
      ptr_writes es = [] /\ cpus inst' = cpus inst) \/
     (initialized inst = false /\ initialized inst' = true /\
      ptr_writes es = [ptr_value inst'] /\
      hw_pages env <> 0 /\ local_mem env <> 0 /\
      inst' = mk_hfi_instance (local_mem env) (u64 (local_mem env + 8))
                (u64 (u64 (local_mem env + 8) + hdr_size (hfi_features w)))
                (<[Z.to_nat cpu := true]> (cpus inst)) (hw_pages env))).
Proof.
  intros Hok Hinst Hcpu Hinfo Hmem.
  unfold hotplug_ok in Hok. rewrite Hinst in Hok.
  destruct Hok as (Hlen & Hmasks & Hlinks & _).
  unfold intel_hfi_online. rewrite Hinst.
  rewrite (per_cpu_Done w cpu info Hcpu Hinfo), bind_Done.
  pose proof (wrap_range 16 (die_id env) ltac:(lia)) as Hdie.
  fold (u16 (die_id env)) in Hdie.
  set (linked := match instance_of info with
                 | Some k => Some k
                 | None => _
                 end).
  assert ((linked = None /\ instance_of info = None) \/
          exists k, linked = Some k /\ (k < length instances)%nat /\
                    (instance_of info = Some k \/ instance_of info = None))
    as [[-> Hnone] | (k & -> & Hk & Hfrom)].
  { subst linked. destruct (instance_of info) as [k |] eqn:Hof.
    - right. exists k. split; [reflexivity |].
      split; [exact (Hlinks _ _ _ Hinfo Hof) | now left].
    - destruct (Z.ltb_spec (u16 (die_id env)) 0); [lia |].
      destruct (Z.leb_spec (max_hfi_instances w) (u16 (die_id env)));
        cbn [orb]; [now left | right].
      eexists. split; [reflexivity |]. split; [lia | now right]. }
  { left. auto. }
  right.
  destruct (lookup_lt_is_Some_2 instances k Hk) as [inst Hat].
  destruct (Hmasks k inst Hat) as [Hmask _].
  pose proof (lookup_lt_Some _ _ _ Hinfo) as Hlt.
  set (info' := mk_cpu_info _ (Some k)).
  set (E0 := if itd
             then [wrmsrl MSR_IA32_HW_FEEDBACK_THREAD_CONFIG
                     HW_FEEDBACK_THREAD_CONFIG_ENABLE_BIT]
             else []).
  set (w1 := if itd then do_effect (set_info w cpu info') _
             else set_info w cpu info').
  assert (w1 = mk_state (Some instances) (max_hfi_instances w) (hfi_features w)
                 (<[Z.to_nat cpu := info']> (hfi_cpu_info w)) (effects w ++ E0))
    as Ew1.
  { subst w1 E0. unfold do_effect, set_info.
    destruct itd; cbn [hfi_instances max_hfi_instances hfi_features
                       hfi_cpu_info effects];
      rewrite Hinst, ?app_nil_r; reflexivity. }
  destruct (online_locked_effect env cpu k w1 instances inst
              ltac:(rewrite Ew1; reflexivity) Hat ltac:(lia) Hmem)
    as (inst' & es & Hrun & Hen & Hcase).
  exists k, inst, inst', (E0 ++ es).
  split; [exact Hat |]. split; [exact Hfrom |].
  split.
  { rewrite Hrun, Ew1.
    cbn [max_hfi_instances hfi_features hfi_cpu_info effects].
    now rewrite app_assoc. }
  split.
  { apply Forall_app. split; [| exact Hen]. subst E0.
    destruct itd; [constructor; [intros v Hv; discriminate |] |];
      constructor. }
  assert (ptr_writes E0 = []) as HE0 by (subst E0; destruct itd; reflexivity).
  rewrite ptr_writes_app, HE0. cbn [app].
  rewrite Ew1 in Hcase. cbn [hfi_features] in Hcase.
  destruct Hcase as [(H1 & -> & H3) | [H | H]];
    [left | right; left; exact H | right; right; exact H].
  auto.
Qed.

(** [intel_hfi_offline] on a state in order. *)
Lemma offline_effect cpu w info :
  hotplug_ok w -> 0 <= cpu -> hfi_cpu_info w !! Z.to_nat cpu = Some info ->
  (intel_hfi_offline cpu w = Done w /\
   (instance_of info = None \/
    exists k instances inst,
      instance_of info = Some k /\ hfi_instances w = Some instances /\
      instances !! k = Some inst /\ initialized inst = false)) \/
  exists k instances inst,
    instance_of info = Some k /\ hfi_instances w = Some instances /\
    instances !! k = Some inst /\ initialized inst = true /\
    intel_hfi_offline cpu w
    = Done (mk_state
              (Some (<[k := set_cpus inst (<[Z.to_nat cpu := false]> (cpus inst))]>
                       instances))
              (max_hfi_instances w) (hfi_features w) (hfi_cpu_info w)
              (effects w)).
Proof.
  intros Hok Hcpu Hinfo. unfold intel_hfi_offline.
  rewrite (per_cpu_Done w cpu info Hcpu Hinfo), bind_Done.
  destruct (instance_of info) as [k |] eqn:Hof; [| left; auto].
  unfold hotplug_ok in Hok.
  destruct (hfi_instances w) as [instances |] eqn:Hinst;
    [| rewrite (Hok _ _ Hinfo) in Hof; discriminate].
  destruct Hok as (Hlen & Hmasks & Hlinks & _).
  pose proof (Hlinks _ _ _ Hinfo Hof) as Hk.
  destruct (lookup_lt_is_Some_2 instances k Hk) as [inst Hat].
  destruct (Hmasks k inst Hat) as [Hmask _].
  pose proof (lookup_lt_Some _ _ _ Hinfo) as Hlt.
  unfold instance_at. rewrite Hinst, Hat, bind_Done.
  destruct (Z.eqb_spec (hdr inst) 0) as [Hz | Hnz].
  - left. split; [reflexivity |]. right. exists k, instances, inst.
    unfold initialized. rewrite Hz. auto.
  - right. exists k, instances, inst.
    rewrite cpumask_assign_Done, bind_Done by lia.
    split; [reflexivity |]. split; [reflexivity |]. split; [exact Hat |].
    split; [now apply initialized_hdr |].
    unfold set_instance. now rewrite Hinst.
Qed.

Lemma ok_update w instances k inst inst' cpu info info' es :
  hotplug_ok w -> hfi_instances w = Some instances ->
  instances !! k = Some inst -> hfi_cpu_info w !! cpu = Some info ->
  (instance_of info' = instance_of info \/
   instance_of info = None /\ instance_of info' = Some k) ->
  length (cpus inst') = length (cpus inst) ->
  (initialized inst' = true -> hw_table inst' <> 0 /\ local_table inst' <> 0) ->
  (forall c, cpus inst' !! c = Some true ->
     initialized inst' = true /\
     (cpus inst !! c = Some true \/ c = cpu /\ instance_of info' = Some k)) ->
  hotplug_ok (mk_state (Some (<[k := inst']> instances)) (max_hfi_instances w)
                (hfi_features w) (<[cpu := info']> (hfi_cpu_info w)) es).
Proof.
  intros Hok Hinst Hk Hinfo Hlink Hlen Hptr Hbits.
  unfold hotplug_ok in *. rewrite Hinst in Hok.
  destruct Hok as (Hmax & Hmasks & Hlinks & Hin).
  cbn [hfi_instances max_hfi_instances hfi_cpu_info].
  pose proof (lookup_lt_Some _ _ _ Hk) as Hklt.
  pose proof (lookup_lt_Some _ _ _ Hinfo) as Hclt.
  rewrite !length_insert.
  split; [exact Hmax |]. split; [| split].
  - intros k0 inst0 H0. apply ZblockProps.lookup_insert_cases in H0 as [[-> ->] | [Hne H0]].
    + destruct (Hmasks k inst Hk) as [Hl _]. split; [lia | exact Hptr].
    + exact (Hmasks k0 inst0 H0).
  - intros c info0 k0 H0 Hof.
    apply ZblockProps.lookup_insert_cases in H0 as [[-> ->] | [Hne H0]].
    + destruct Hlink as [E | [_ E]]; [| congruence].
      rewrite E in Hof. exact (Hlinks _ _ _ Hinfo Hof).
    + exact (Hlinks _ _ _ H0 Hof).
  - assert (forall c k0, (exists i, hfi_cpu_info w !! c = Some i /\
                                    instance_of i = Some k0) ->
              exists i, <[cpu := info']> (hfi_cpu_info w) !! c = Some i /\
                        instance_of i = Some k0) as Hkeep.
    { intros c k0 (i & Hi & Hof). destruct (decide (c = cpu)) as [-> | Hne].
      - exists info'. rewrite list_lookup_insert_eq by exact Hclt.
        split; [reflexivity |]. assert (i = info) as -> by congruence.
        destruct Hlink as [E | [E _]]; congruence.
      - exists i. rewrite list_lookup_insert_ne by congruence. auto. }
    intros k0 inst0 c H0 Hbit.
    apply ZblockProps.lookup_insert_cases in H0 as [[-> ->] | [Hne H0]].
    + destruct (Hbits c Hbit) as [Hi [Hold | [-> Hof]]].
      * split; [exact Hi |]. apply Hkeep. exact (proj2 (Hin k inst c Hk Hold)).
      * split; [exact Hi |]. exists info'.
        rewrite list_lookup_insert_eq by exact Hclt. auto.
    + destruct (Hin k0 inst0 c H0 Hbit) as [Hi Hl].
      split; [exact Hi | now apply Hkeep].
Qed.

Lemma programmed_update w instances k inst inst' es m f infos :
  programmed_once virt_to_phys w -> hfi_instances w = Some instances ->
  instances !! k = Some inst ->
  (initialized inst' = initialized inst /\
   (initialized inst = true -> hw_table inst' = hw_table inst) /\
   ptr_writes es = [] \/
   initialized inst = false /\ initialized inst' = true /\
   ptr_writes es = [ptr_value inst']) ->
  programmed_once virt_to_phys
    (mk_state (Some (<[k := inst']> instances)) m f infos (effects w ++ es)).
Proof.
  unfold programmed_once. intros Hp Hinst Hk Hcase.
  rewrite Hinst in Hp. cbn [effects hfi_instances default] in *.
  unfold id in *. rewrite ptr_writes_app.
  destruct Hcase as [(Hi & Hhw & ->) | (Hn & Hy & ->)].
  - rewrite app_nil_r, Hp.
    rewrite (filter_insert_same _ _ instances k inst inst' Hk);
      [reflexivity | now rewrite Hi |].
    intros Hx. now rewrite Hhw.
  - rewrite Hp. symmetry.
    apply (filter_insert_new (fun i => initialized i = true)
             (fun i => ptr_value i) instances k inst inst' Hk); [| exact Hy].
    rewrite Hn. discriminate.
Qed.

(** [intel_hfi_online] returns and keeps the state in order. *)
Lemma online_ok env cpu w :
  hotplug_ok w -> call_ok w (online env cpu) ->
  exists w',
    hfi_online env cpu w = Done w' /\ hotplug_ok w' /\
    length (hfi_cpu_info w') = length (hfi_cpu_info w) /\
    max_hfi_instances w' = max_hfi_instances w /\
    (programmed_once virt_to_phys w -> programmed_once virt_to_phys w') /\
    (Forall (fun e => enables e) (effects w) ->
     Forall (fun e => enables e) (effects w')) /\
    (forall k inst, instance_at w k = Done inst ->
       exists inst', instance_at w' k = Done inst' /\
         (forall c, (c <> Z.to_nat cpu)%nat -> cpus inst' !! c = cpus inst !! c) /\
         (initialized inst = true ->
          initialized inst' = true /\ hw_table inst' = hw_table inst /\
          local_table inst' = local_table inst /\ hdr inst' = hdr inst /\
          data inst' = data inst)) /\
    (forall k inst', instance_at w' k = Done inst' ->
       cpus inst' !! Z.to_nat cpu = Some true <->
       initialized inst' = true /\
       exists info', per_cpu w' cpu = Done info' /\ instance_of info' = Some k).
Proof.
  intros Hok [Hcpu Hmem].
  destruct (lookup_lt_is_Some_2 (hfi_cpu_info w) (Z.to_nat cpu) ltac:(lia))
    as [info Hinfo].
  assert (forall w',
            hotplug_ok w' -> hfi_cpu_info w' !! Z.to_nat cpu = Some info ->
            instance_of info = None ->
            forall k inst', instance_at w' k = Done inst' ->
              cpus inst' !! Z.to_nat cpu = Some true <->
              initialized inst' = true /\
              exists info', per_cpu w' cpu = Done info' /\
                            instance_of info' = Some k) as Hunlinked.
  { intros w' Hok' Hinfo' Hnone k inst' Hat.
    rewrite (per_cpu_Done w' cpu info) by (lia || assumption).
    unfold instance_at in Hat. unfold hotplug_ok in Hok'.
    destruct (hfi_instances w') as [instances |]; [| discriminate].
    destruct (instances !! k) as [i |] eqn:Hk; [| discriminate].
    injection Hat as ->. destruct Hok' as (_ & _ & _ & Hin). split.
    - intros Hbit. destruct (Hin _ _ _ Hk Hbit) as (_ & i & Hi & Hof).
      congruence.
    - intros (_ & i & [= <-] & Hof). congruence. }
  destruct (hfi_instances w) as [instances |] eqn:Hinst.
  2:{ exists w. unfold intel_hfi_online. rewrite Hinst.
      split; [reflexivity |]. split; [exact Hok |].
      split; [reflexivity |]. split; [reflexivity |].
      split; [auto |]. split; [auto |]. split.
      - intros k inst Hat. exists inst. auto 10.
      - apply Hunlinked; [exact Hok | exact Hinfo |].
        unfold hotplug_ok in Hok. rewrite Hinst in Hok. eauto. }
  destruct (online_effect env cpu w instances info Hok Hinst ltac:(lia) Hinfo
              Hmem)
    as [[Hnone Hrun] | (k & inst & inst' & es & Hk & Hfrom & Hrun & Hen & Hcase)].
  { exists w. split; [exact Hrun |]. split; [exact Hok |].
    split; [reflexivity |]. split; [reflexivity |].
    split; [auto |]. split; [auto |]. split.
    - intros k inst Hat. exists inst. auto 10.
    - now apply Hunlinked. }
  pose proof Hok as Hok0. unfold hotplug_ok in Hok0. rewrite Hinst in Hok0.
  destruct Hok0 as (Hmax & Hmasks & Hlinks & Hin).
  destruct (Hmasks k inst Hk) as [Hmlen Hmptr].
  pose proof (lookup_lt_Some _ _ _ Hk) as Hklt.
  set (info' := mk_cpu_info _ (Some k)) in *.
  assert (length (cpus inst') = length (cpus inst) /\
          (initialized inst' = true ->
           hw_table inst' <> 0 /\ local_table inst' <> 0) /\
          (forall c, (c <> Z.to_nat cpu)%nat -> cpus inst' !! c = cpus inst !! c) /\
          (initialized inst' = true ->
           cpus inst' !! Z.to_nat cpu = Some true) /\
          (initialized inst' = false -> cpus inst' = cpus inst) /\
          (initialized inst = true ->
           initialized inst' = true /\ hw_table inst' = hw_table inst /\
           local_table inst' = local_table inst /\ hdr inst' = hdr inst /\
           data inst' = data inst) /\
          (initialized inst' = initialized inst /\
           (initialized inst = true -> hw_table inst' = hw_table inst) /\
           ptr_writes es = [] \/
           initialized inst = false /\ initialized inst' = true /\
           ptr_writes es = [ptr_value inst']))
    as (Hlen' & Hptr' & Hothers & Hset & Hunset & Hmono & Hprog).
  { destruct Hcase as [(Hi & Hes & ->) | [(Hi & Hi' & Hes & Hc) | (Hi & Hi' & Hes & Hhw & Hlo & ->)]].
    - unfold initialized, set_cpus in *. cbn [cpus hdr hw_table local_table data].
      split; [apply length_insert |]. split; [exact Hmptr |].
      split; [intros c Hc; now apply list_lookup_insert_ne |].
      split; [intros _; apply list_lookup_insert_eq; lia |].
      split; [congruence |]. split; [auto 10 |]. left. auto.
    - rewrite Hc. split; [reflexivity |]. split; [congruence |].
      split; [reflexivity |]. split; [congruence |]. split; [reflexivity |].
      split; [congruence |]. left. split; [congruence |].
      split; [congruence | exact Hes].
    - cbn [cpus hw_table local_table] in *.
      split; [apply length_insert |]. split; [auto |].
      split; [intros c Hc; now apply list_lookup_insert_ne |].
      split; [intros _; apply list_lookup_insert_eq; lia |].
      split; [congruence |]. split; [congruence |]. right. auto. }
  eexists. split; [exact Hrun |].
  assert (hotplug_ok
            (mk_state (Some (<[k := inst']> instances)) (max_hfi_instances w)
               (hfi_features w)
               (<[Z.to_nat cpu := info']> (hfi_cpu_info w)) (effects w ++ es)))
    as Hok'.
  { apply (ok_update w instances k inst inst' (Z.to_nat cpu) info info');
      try assumption.
    - destruct Hfrom as [E | E]; [left | right]; cbn [instance_of]; auto.
    - intros c Hbit. destruct (initialized inst') eqn:Hi'.
      + split; [reflexivity |].
        destruct (decide (c = Z.to_nat cpu)) as [-> | Hne];
          [right; auto | left; now rewrite <- Hothers].
      + rewrite (Hunset eq_refl) in Hbit.
        destruct (Hin k inst c Hk Hbit) as [Hi _].
        destruct Hprog as [(E & _) | (_ & E & _)]; congruence. }
  split; [exact Hok' |].
  cbn [hfi_cpu_info max_hfi_instances effects].
  split; [apply length_insert |]. split; [reflexivity |].
  split; [intros Hp; now apply (programmed_update w instances k inst) |].
  split; [intros Hall; apply Forall_app; auto |].
  split.
  - intros k0 inst0 Hat. unfold instance_at in *. rewrite Hinst in Hat.
    cbn [hfi_instances].
    destruct (instances !! k0) as [i |] eqn:Hk0; [| discriminate].
    injection Hat as ->. destruct (decide (k0 = k)) as [-> | Hne].
    + assert (inst0 = inst) as -> by congruence.
      exists inst'. rewrite list_lookup_insert_eq by exact Hklt. auto.
    + exists inst0. rewrite list_lookup_insert_ne, Hk0 by congruence. auto 10.
  - intros k0 inst0 Hat.
    unfold per_cpu. cbn [hfi_cpu_info].
    destruct (Z.ltb_spec cpu 0); [lia |].
    rewrite list_lookup_insert_eq by lia.
    unfold instance_at in Hat. cbn [hfi_instances] in Hat.
    destruct (<[k := inst']> instances !! k0) as [i |] eqn:Hk0; [| discriminate].
    injection Hat as ->. split.
    + intros Hbit. unfold hotplug_ok in Hok'. cbn [hfi_instances hfi_cpu_info] in Hok'.
      destruct Hok' as (_ & _ & _ & Hin').
      destruct (Hin' k0 inst0 _ Hk0 Hbit) as (Hi & i & Hi1 & Hi2).
      rewrite list_lookup_insert_eq in Hi1 by lia.
      injection Hi1 as <-. split; [exact Hi | eauto].
    + intros (Hi & i & [= <-] & [= <-]).
      rewrite list_lookup_insert_eq in Hk0 by exact Hklt.
      injection Hk0 as <-. now apply Hset.
Qed.

(** [intel_hfi_offline] returns and keeps the state in order. *)
Lemma offline_ok cpu w :
  hotplug_ok w -> call_ok w (offline cpu) ->
  exists w',
    intel_hfi_offline cpu w = Done w' /\ hotplug_ok w' /\
    hfi_cpu_info w' = hfi_cpu_info w /\
    max_hfi_instances w' = max_hfi_instances w /\
    effects w' = effects w /\
    (programmed_once virt_to_phys w -> programmed_once virt_to_phys w') /\
    (forall k inst, instance_at w k = Done inst ->
       exists inst', instance_at w' k = Done inst' /\
         (forall c, (c <> Z.to_nat cpu)%nat -> cpus inst' !! c = cpus inst !! c) /\
         initialized inst' = initialized inst /\
         hw_table inst' = hw_table inst /\
         local_table inst' = local_table inst /\ hdr inst' = hdr inst /\
         data inst' = data inst) /\
    (forall k inst', instance_at w' k = Done inst' ->
       cpus inst' !! Z.to_nat cpu <> Some true).
Proof.
  intros Hok Hcpu. cbn [call_ok] in Hcpu.
  destruct (lookup_lt_is_Some_2 (hfi_cpu_info w) (Z.to_nat cpu) ltac:(lia))
    as [info Hinfo].
  destruct (offline_effect cpu w info Hok ltac:(lia) Hinfo)
    as [[Hrun Hwhy] | (k & instances & inst & Hof & Hinst & Hk & Hi & Hrun)].
  - exists w. split; [exact Hrun |]. split; [exact Hok |].
    split; [reflexivity |]. split; [reflexivity |]. split; [reflexivity |].
    split; [auto |]. split; [intros k inst Hat; exists inst; auto 10 |].
    intros k0 inst0 Hat Hbit. unfold instance_at in Hat.
    unfold hotplug_ok in Hok.
    destruct (hfi_instances w) as [instances |] eqn:Hinst; [| discriminate].
    destruct (instances !! k0) as [i |] eqn:Hk0; [| discriminate].
    injection Hat as ->. destruct Hok as (_ & _ & _ & Hin).
    destruct (Hin _ _ _ Hk0 Hbit) as (Hi0 & i & Hi1 & Hi2).
    assert (i = info) as -> by congruence.
    destruct Hwhy as [E | (k & l & inst & Hof & Hl & Hk & Hi)]; [congruence |].
    assert (l = instances) as -> by congruence.
    assert (k0 = k) as -> by congruence. congruence.
  - pose proof Hok as Hok0. unfold hotplug_ok in Hok0. rewrite Hinst in Hok0.
    destruct Hok0 as (Hmax & Hmasks & Hlinks & Hin).
    destruct (Hmasks k inst Hk) as [Hmlen Hmptr].
    pose proof (lookup_lt_Some _ _ _ Hk) as Hklt.
    set (inst' := set_cpus inst _) in *.
    assert (hotplug_ok
              (mk_state (Some (<[k := inst']> instances)) (max_hfi_instances w)
                 (hfi_features w) (hfi_cpu_info w) (effects w))) as Hok'.
    { rewrite <- (list_insert_id (hfi_cpu_info w) (Z.to_nat cpu) info Hinfo)
        at 1.
      apply (ok_update w instances k inst inst' (Z.to_nat cpu) info info);
        try assumption; [now left | apply length_insert |].
      intros c Hbit. subst inst'. cbn [set_cpus cpus] in Hbit.
        split; [exact Hi |]. left.
      destruct (decide (c = Z.to_nat cpu)) as [-> | Hne].
      - rewrite list_lookup_insert_eq in Hbit by lia. discriminate.
      - now rewrite list_lookup_insert_ne in Hbit by congruence. }
    eexists. split; [exact Hrun |]. split; [exact Hok' |].
    split; [reflexivity |]. split; [reflexivity |]. split; [reflexivity |].
    split.
    { intros Hp. rewrite <- (app_nil_r (effects w)).
      apply (programmed_update w instances k inst); auto. }
    split.
    + intros k0 inst0 Hat. unfold instance_at in *. rewrite Hinst in Hat.
      cbn [hfi_instances].
      destruct (instances !! k0) as [i |] eqn:Hk0; [| discriminate].
      injection Hat as ->. destruct (decide (k0 = k)) as [-> | Hne].
      * assert (inst0 = inst) as -> by congruence.
        exists inst'. rewrite list_lookup_insert_eq by exact Hklt.
        split; [reflexivity |].
        split; [intros c Hc; subst inst'; cbn [set_cpus cpus];
                now apply list_lookup_insert_ne |].
        auto 10.
      * exists inst0. rewrite list_lookup_insert_ne, Hk0 by congruence. auto 10.
    + intros k0 inst0 Hat Hbit. unfold instance_at in Hat.
      cbn [hfi_instances] in Hat.
      destruct (<[k := inst']> instances !! k0) as [i |] eqn:Hk0;
        [| discriminate].
      injection Hat as ->.
      apply ZblockProps.lookup_insert_cases in Hk0 as [[-> ->] | [Hne Hk0]].
      * subst inst'. cbn [set_cpus cpus] in Hbit.
        rewrite list_lookup_insert_eq in Hbit by lia. discriminate.
      * destruct (Hin _ _ _ Hk0 Hbit) as (_ & i & Hi1 & Hi2).
        assert (i = info) as -> by congruence. congruence.
Qed.

(** The state that [intel_hfi_init] leaves is in order. *)
Lemma start_ok w :
  hotplug_start w -> hotplug_ok w /\ programmed_once virt_to_phys w.
Proof.
  intros (Hinsts & Hinfos & Heff). unfold hotplug_ok, programmed_once.
  rewrite Heff. cbn [ptr_writes omap list_omap].
  destruct (hfi_instances w) as [instances |] eqn:Hinst.
  - destruct (Hinsts instances eq_refl) as [Hlen Hzero]. split.
    + split; [exact Hlen |]. split; [| split].
      * intros k inst Hk. rewrite (Hzero k inst Hk).
        cbn [cpus hw_table local_table]. split; [apply length_replicate |].
        discriminate.
      * intros c info k Hc Hof. rewrite (Hinfos c info Hc) in Hof.
        discriminate.
      * intros k inst c Hk Hbit. rewrite (Hzero k inst Hk) in Hbit.
        cbn [cpus] in Hbit. apply lookup_replicate in Hbit as [? _].
        discriminate.
    + cbn [default]. unfold id.
      assert (forall l : list hfi_instance,
                (forall k inst, l !! k = Some inst -> initialized inst = false) ->
                filter (fun inst => initialized inst = true) l = []) as Hnone.
      { induction l as [| i l IH]; intros Hl; [reflexivity |].
        rewrite filter_cons, decide_False.
        - apply IH. intros k inst Hk. exact (Hl (S k) inst Hk).
        - rewrite (Hl 0%nat i eq_refl). discriminate. }
      rewrite Hnone; [reflexivity |].
      intros k inst Hk. now rewrite (Hzero k inst Hk).
  - split; [| reflexivity].
    intros c info Hc. now rewrite (Hinfos c info Hc).
Qed.

Lemma run_ok : forall calls w,
  hotplug_ok w -> programmed_once virt_to_phys w ->
  Forall (fun e => enables e) (effects w) ->
  Forall (call_ok w) calls ->
  exists w',
    hotplug_run itd virt_to_phys calls w = Done w' /\
    hotplug_ok w' /\ programmed_once virt_to_phys w' /\
    Forall (fun e => enables e) (effects w') /\
    max_hfi_instances w' = max_hfi_instances w /\
    (hfi_instances w = None -> w' = w).
Proof.
  induction calls as [| c calls IH]; intros w Hok Hp Hen Hcalls.
  - exists w. cbn [hotplug_run]. auto 10.
  - apply Forall_cons in Hcalls as [Hc Hcalls]. cbn [hotplug_run].
    assert (exists w1,
              hotplug_step itd virt_to_phys w c = Done w1 /\ hotplug_ok w1 /\
              programmed_once virt_to_phys w1 /\
              Forall (fun e => enables e) (effects w1) /\
              length (hfi_cpu_info w1) = length (hfi_cpu_info w) /\
              max_hfi_instances w1 = max_hfi_instances w /\
              (hfi_instances w = None -> w1 = w))
      as (w1 & Hrun & Hok1 & Hp1 & Hen1 & Hlen1 & Hmax1 & Hnull1).
    { destruct c as [env cpu | cpu]; cbn [hotplug_step].
      - destruct (online_ok env cpu w Hok Hc)
          as (w1 & Hrun & Hok1 & Hlen & Hmax & Hp1 & Hen1 & _).
        exists w1. split; [exact Hrun |]. split; [exact Hok1 |].
        split; [auto |]. split; [auto |]. split; [exact Hlen |].
        split; [exact Hmax |]. intros Hnull.
        unfold intel_hfi_online in Hrun. rewrite Hnull in Hrun. congruence.
      - destruct (offline_ok cpu w Hok Hc)
          as (w1 & Hrun & Hok1 & Hinfos & Hmax & Heff & Hp1 & _).
        exists w1. split; [exact Hrun |]. split; [exact Hok1 |].
        split; [auto |]. split; [now rewrite Heff |].
        split; [now rewrite Hinfos |]. split; [exact Hmax |].
        intros Hnull. cbn [call_ok] in Hc.
        destruct (lookup_lt_is_Some_2 (hfi_cpu_info w) (Z.to_nat cpu)
                    ltac:(lia)) as [info Hinfo].
        unfold intel_hfi_offline in Hrun.
        rewrite (per_cpu_Done w cpu info ltac:(lia) Hinfo), bind_Done in Hrun.
        unfold hotplug_ok in Hok. rewrite Hnull in Hok.
        rewrite (Hok _ _ Hinfo) in Hrun. congruence. }
    rewrite Hrun, bind_Done.
    destruct (IH w1 Hok1 Hp1 Hen1) as (w' & Hrun' & Hok' & Hp' & Hen' & Hmax' & Hnull').
    { eapply Forall_impl; [exact Hcalls |].
      intros [env cpu | cpu]; cbn [call_ok]; rewrite Hlen1; auto. }
    exists w'. split; [exact Hrun' |]. split; [exact Hok' |].
    split; [exact Hp' |]. split; [exact Hen' |].
    split; [congruence |]. intros Hnull.
    rewrite <- (Hnull1 Hnull). apply Hnull'. rewrite (Hnull1 Hnull). exact Hnull.
Qed.

End HotplugProps.

(** X19.  On a state in order and for a possible CPU, [intel_hfi_online]
    returns and leaves the CPU in the cpumask of an instance exactly
    when that is the instance the CPU points to and it is set up;
    [intel_hfi_offline] returns and leaves the CPU in no cpumask,
    without any effect on the hardware and without unlinking the CPU.
    Neither call changes the bit of another CPU, and both keep the state
    in order. *)
Theorem hotplug_sets_and_clears_own_cpu (itd : bool) (virt_to_phys : Z -> Z)
    (w : hfi_state) (env : online_env) (cpu : Z)
    (Hok : hotplug_ok w)
    (Hcpu : 0 <= cpu < Z.of_nat (length (hfi_cpu_info w)))
    (Hmem : 0 <= local_mem env < 2 ^ 64 - 8) :
  (exists w',
     intel_hfi_online itd virt_to_phys env cpu w = Done w' /\ hotplug_ok w' /\
     (forall k inst', instance_at w' k = Done inst' ->
        in_cpus cpu inst' <->
        initialized inst' = true /\
        exists info', per_cpu w' cpu = Done info' /\
                      instance_of info' = Some k) /\
     (forall k inst c, instance_at w k = Done inst -> c <> cpu ->
        exists inst', instance_at w' k = Done inst' /\
                      (in_cpus c inst' <-> in_cpus c inst))) /\
  (exists w',
     intel_hfi_offline cpu w = Done w' /\ hotplug_ok w' /\
     effects w' = effects w /\ hfi_cpu_info w' = hfi_cpu_info w /\
     (forall k inst', instance_at w' k = Done inst' -> ~ in_cpus cpu inst') /\
     (forall k inst c, instance_at w k = Done inst -> c <> cpu ->
        exists inst', instance_at w' k = Done inst' /\
                      (in_cpus c inst' <-> in_cpus c inst))).
Proof.
  assert (forall c (i i' : hfi_instance),
            c <> cpu ->
            (forall n, (n <> Z.to_nat cpu)%nat -> cpus i' !! n = cpus i !! n) ->
            in_cpus c i' <-> in_cpus c i) as Hother.
  { intros c i i' Hc Hsame. unfold in_cpus.
    destruct (Z.ltb_spec c 0) as [Hneg | Hpos]; [split; intros [? _]; lia |].
    rewrite Hsame by lia. reflexivity. }
  split.
  - destruct (online_ok itd virt_to_phys env cpu w Hok (conj Hcpu Hmem))
      as (w' & Hrun & Hok' & _ & _ & _ & _ & Hkeep & Hbit).
    exists w'. split; [exact Hrun |]. split; [exact Hok' |]. split.
    + intros k inst' Hat. rewrite <- (Hbit k inst' Hat). unfold in_cpus.
      split; [tauto | intros H; split; [lia | exact H]].
    + intros k inst c Hat Hc.
      destruct (Hkeep k inst Hat) as (inst' & Hat' & Hsame & _).
      exists inst'. split; [exact Hat' | now apply Hother].
  - destruct (offline_ok virt_to_phys cpu w Hok Hcpu)
      as (w' & Hrun & Hok' & Hinfos & _ & Heff & _ & Hkeep & Hbit).
    exists w'. split; [exact Hrun |]. split; [exact Hok' |].
    split; [exact Heff |]. split; [exact Hinfos |]. split.
    + intros k inst' Hat [_ H]. exact (Hbit k inst' Hat H).
    + intros k inst c Hat Hc.
      destruct (Hkeep k inst Hat) as (inst' & Hat' & Hsame & _).
      exists inst'. split; [exact Hat' | now apply Hother].
Qed.

Lemma hotplug_sets_and_clears_own_cpu_witness :
  let zero := mk_hfi_instance 0 0 0 (replicate 4 false) 0 in
  let w := mk_state (Some [zero; zero]) 2 (mk_features 1 1 8 2 8)
             (replicate 4 (mk_cpu_info (-1) None)) [] in
  let env := mk_online_env 1 (Z.shiftl 5 16) 0xffff888010000000
                0xffff888020000000 0 in
  (hotplug_ok w /\ 0 <= 2 < Z.of_nat (length (hfi_cpu_info w)) /\
   0 <= local_mem env < 2 ^ 64 - 8) /\
  intel_hfi_online true (fun v => v - 0xffff888000000000) env 2 w
  = Done (mk_state
            (Some [zero;
                   mk_hfi_instance 0xffff888020000000 0xffff888020000008
                     0xffff888020000010 [false; false; true; false]
                     0xffff888010000000])
            2 (mk_features 1 1 8 2 8)
            [mk_cpu_info (-1) None; mk_cpu_info (-1) None;
             mk_cpu_info 5 (Some 1%nat); mk_cpu_info (-1) None]
            [wrmsrl MSR_IA32_HW_FEEDBACK_THREAD_CONFIG 1;
             wrmsrl MSR_IA32_HW_FEEDBACK_PTR 0x10000001;
             wrmsrl MSR_IA32_HW_FEEDBACK_CONFIG 3;
             sched_enable_ipc_classes]).
Proof.
  intros zero w env.
  assert (hotplug_ok w) as Hok.
  { apply (start_ok (fun v => v) w). split; [| split; [| reflexivity]].
    - intros instances [= <-]. split; [reflexivity |].
      intros [| [| k]] inst Hk; try discriminate; now injection Hk as <-.
    - intros c info Hc. cbn [hfi_cpu_info w] in Hc.
      now apply lookup_replicate in Hc as [-> _]. }
  assert (0 <= 2 < Z.of_nat (length (hfi_cpu_info w))) as Hcpu
    by (vm_compute; split; congruence).
  assert (0 <= local_mem env < 2 ^ 64 - 8) as Hmem
    by (vm_compute; split; congruence).
  split; [auto |].
  destruct (hotplug_sets_and_clears_own_cpu true
              (fun v => v - 0xffff888000000000) w env 2 Hok Hcpu Hmem)
    as [(w' & Hrun & _) _].
  rewrite Hrun. vm_compute in Hrun. injection Hrun as <-. reflexivity.
Defined.

(** X20.  From the state that [intel_hfi_init] leaves, every history of
    [intel_hfi_online] and [intel_hfi_offline] calls returns.  The table
    pointer is programmed once for every instance that is set up, with
    the table that the instance still has, and for no other, so at most
    [max_hfi_instances] times; whatever is written to the configuration
    register has the enable bit set; and when [hfi_instances] is [NULL]
    no call does anything. *)
Theorem hotplug_programs_each_table_once (itd : bool) (virt_to_phys : Z -> Z)
    (calls : list hotplug_call) (w0 : hfi_state)
    (Hstart : hotplug_start w0)
    (Hcalls : Forall (call_ok w0) calls) :
  exists w,
    hotplug_run itd virt_to_phys calls w0 = Done w /\
    hotplug_ok w /\
    programmed_once virt_to_phys w /\
    Z.of_nat (length (ptr_writes (effects w))) <= Z.max 0 (max_hfi_instances w0) /\
    (forall v, wrmsrl MSR_IA32_HW_FEEDBACK_CONFIG v ∈ effects w ->
               Z.testbit v 0 = true) /\
    (hfi_instances w0 = None -> w = w0).
Proof.
  destruct (start_ok virt_to_phys w0 Hstart) as [Hok0 Hp0].
  destruct (run_ok itd virt_to_phys calls w0 Hok0 Hp0) as
    (w & Hrun & Hok & Hp & Hen & Hmax & Hnull); [| exact Hcalls |].
  { destruct Hstart as (_ & _ & ->). constructor. }
  exists w. split; [exact Hrun |]. split; [exact Hok |].
  split; [exact Hp |]. split; [| split; [| exact Hnull]].
  - unfold programmed_once in Hp. rewrite Hp, length_fmap.
    unfold hotplug_ok in Hok.
    destruct (hfi_instances w) as [instances |]; cbn [default].
    + destruct Hok as (Hlen & _). unfold id.
      pose proof (length_filter (fun inst => initialized inst = true) instances).
      lia.
    + cbn [filter list_filter length]. lia.
  - intros v Hv. rewrite Forall_forall in Hen. exact (Hen _ Hv v eq_refl).
Qed.

Lemma hotplug_programs_each_table_once_witness :
  let zero := mk_hfi_instance 0 0 0 (replicate 4 false) 0 in
  let w0 := mk_state (Some [zero; zero]) 2 (mk_features 1 1 8 2 8)
              (replicate 4 (mk_cpu_info (-1) None)) [] in
  let env a b := mk_online_env 1 (Z.shiftl 5 16) a b 0 in
  let calls :=
    [online (env 0xffff888010000000 0) 2;
     online (env 0xffff888010000000 0xffff888020000000) 2;
     offline 2;
     online (env 0xffff888030000000 0xffff888040000000) 3;
     online (env 0xffff888050000000 0xffff888060000000) 2] in
  (hotplug_start w0 /\ Forall (call_ok w0) calls) /\
  exists w,
    hotplug_run false (fun v => v - 0xffff888000000000) calls w0 = Done w /\
    effects w = [free_pages_exact 0xffff888010000000 1;
                 wrmsrl MSR_IA32_HW_FEEDBACK_PTR 0x10000001;
                 wrmsrl MSR_IA32_HW_FEEDBACK_CONFIG 1].
Proof.
  intros zero w0 env calls.
  assert (hotplug_start w0) as Hstart.
  { split; [| split; [| reflexivity]].
    - intros instances [= <-]. split; [reflexivity |].
      intros [| [| k]] inst Hk; try discriminate; now injection Hk as <-.
    - intros c info Hc. cbn [hfi_cpu_info w0] in Hc.
      now apply lookup_replicate in Hc as [-> _]. }
  assert (Forall (call_ok w0) calls) as Hcalls
    by (repeat constructor; vm_compute; congruence).
  split; [auto |].
  destruct (hotplug_programs_each_table_once false
              (fun v => v - 0xffff888000000000) calls w0 Hstart Hcalls)
    as (w & Hrun & _).
  exists w. split; [exact Hrun |].
  vm_compute in Hrun. injection Hrun as <-. reflexivity.
Defined.

End HFIHotplug.

Module HFIInit.
Import HFI HFIProps HFI.Hotplug.

(** ** Initialization *)

Lemma release_middle r pre post :
  r ∉ pre -> release r (pre ++ r :: post) = Done (pre ++ post).
Proof.
  induction pre as [| x pre IH]; intros Hnotin; cbn [app release].
  - now rewrite decide_True.
  - rewrite decide_False
      by (intros ->; apply Hnotin; apply elem_of_cons; now left).
    rewrite IH by (intros Hin; apply Hnotin; apply elem_of_cons; now right).
    reflexivity.
Qed.

Lemma free_cpumasks_spec : forall n j post,
  free_cpumasks n j (the_instances :: (the_cpumask <$> seq j n) ++ post)
  = Done (the_instances :: post).
Proof.
  induction n as [| n IH]; intros j post; [reflexivity |].
  cbn [free_cpumasks seq fmap list_fmap app release].
  rewrite decide_False by discriminate.
  cbn [release]. rewrite decide_True by reflexivity.
  rewrite !bind_Done. apply IH.
Qed.

Section InitProps.

Variable env : init_env.
Variable nr_cpu_ids : nat.

#[local] Abbreviation zero := (mk_hfi_instance 0 0 0 [] 0).
#[local] Abbreviation ready :=
  (mk_hfi_instance 0 0 0 (replicate nr_cpu_ids false) 0).

Lemma alloc_cpumasks_spec : forall todo i instances held,
  (forall k inst, instances !! k = Some inst ->
     inst = if decide (k < i)%nat then ready else zero) ->
  (i + todo = length instances)%nat ->
  let '(i', ok, instances', held') :=
    alloc_cpumasks env nr_cpu_ids todo i instances held in
  held' = held ++ (the_cpumask <$> seq i (i' - i)) /\
  (i <= i' <= i + todo)%nat /\
  length instances' = length instances /\
  (ok = true ->
   i' = (i + todo)%nat /\
   (forall k, (i <= k < i')%nat -> zalloc_cpumask_var_ok env k = true) /\
   forall k inst, instances' !! k = Some inst -> inst = ready).
Proof.
  induction todo as [| todo IH]; intros i instances held Hinst Hlen;
    cbn [alloc_cpumasks].
  - rewrite Nat.sub_diag. cbn [seq fmap list_fmap]. rewrite app_nil_r.
    split; [reflexivity |]. split; [lia |]. split; [reflexivity |].
    intros _. split; [lia |]. split; [lia |].
    intros k inst Hk. rewrite (Hinst k inst Hk).
    apply lookup_lt_Some in Hk. now rewrite decide_True by lia.
  - destruct (zalloc_cpumask_var_ok env i) eqn:Hok.
    + destruct (lookup_lt_is_Some_2 instances i ltac:(lia)) as [x Hx].
      pose proof (Hinst i x Hx) as Ex. rewrite decide_False in Ex by lia.
      unfold set_cpumask. rewrite Hx. subst x.
      change (set_cpus zero (replicate nr_cpu_ids false)) with ready.
      assert (forall k inst, <[i := ready]> instances !! k = Some inst ->
                inst = if decide (k < S i)%nat then ready else zero) as H1.
      { intros k inst Hk.
        apply ZblockProps.lookup_insert_cases in Hk as [[-> ->] | [Hne Hk]].
        - now rewrite decide_True by lia.
        - rewrite (Hinst k inst Hk).
          destruct (decide (k < i)%nat), (decide (k < S i)%nat);
            try reflexivity; lia. }
      assert (S i + todo = length (<[i := ready]> instances))%nat as H2
        by (rewrite length_insert; lia).
      specialize (IH (S i) (<[i := ready]> instances)
                    (held ++ [the_cpumask i]) H1 H2).
      destruct (alloc_cpumasks env nr_cpu_ids todo (S i)
                  (<[i := ready]> instances) (held ++ [the_cpumask i]))
        as [[[i' ok] instances'] held'].
      destruct IH as (Hheld & Hi & Hlen' & Hall).
      rewrite length_insert in Hlen'.
      split.
      { rewrite Hheld, <- app_assoc. f_equal.
        replace (i' - i)%nat with (S (i' - S i)) by lia. reflexivity. }
      split; [lia |]. split; [exact Hlen' |].
      intros Eok. destruct (Hall Eok) as (Hi' & Hoks & Hready).
      split; [lia |]. split; [| exact Hready].
      intros k Hk. destruct (decide (k = i)) as [-> | Hne]; [exact Hok |].
      apply Hoks. lia.
    + rewrite Nat.sub_diag. cbn [seq fmap list_fmap]. rewrite app_nil_r.
      split; [reflexivity |]. split; [lia |]. split; [reflexivity |].
      discriminate.
Qed.

End InitProps.

(** X21.  [intel_hfi_init] on the variables as they are at boot returns,
    and it holds all or nothing: either [hfi_instances] is [NULL] and
    everything that was allocated has been given back, or the features
    were parsed, [hfi_instances] has [max_hfi_instances] instances that
    are not set up, each with an empty cpumask, and the instances, one
    cpumask per instance, the workqueue and, with ITD, the score arrays
    are held.  No CPU is linked and no register is written. *)
Theorem init_holds_all_or_nothing (itd : bool) (env : init_env)
    (w : hfi_state) (Hboot : boot_state w)
    (Hcount : kcalloc_ok env = true ->
              0 <= s32 (topology_max_packages env
                        * topology_max_die_per_package env)) :
  let parsed := hfi_parse_features (has_hfi env) itd (cpuid_edx env)
                  (cpuid_ecx env) (hfi_features w) in
  let max := s32 (topology_max_packages env
                  * topology_max_die_per_package env) in
  exists w' held,
    intel_hfi_init itd env w = Done (w', held) /\
    hfi_cpu_info w' = hfi_cpu_info w /\ effects w' = [] /\
    ((hfi_instances w' = None /\ held = []) \/
     (parsed.1 = 0 /\ hfi_features w' = parsed.2 /\
      max_hfi_instances w' = max /\
      hotplug_start w' /\
      hfi_instances w'
      = Some (replicate (Z.to_nat max)
                (mk_hfi_instance 0 0 0
                   (replicate (length (hfi_cpu_info w)) false) 0)) /\
      held = the_instances :: (the_cpumask <$> seq 0 (Z.to_nat max))
             ++ [the_workqueue]
             ++ (if itd then [the_ipcc_scores] else []))).
Proof.
  intros parsed max. destruct Hboot as (Hnull & Hinfos & Heff).
  unfold intel_hfi_init. fold parsed. fold max.
  destruct (Z.eqb_spec parsed.1 0) as [Hparsed | Hparsed]; cbn [negb].
  2:{ exists w, []. split; [reflexivity |]. split; [reflexivity |].
      split; [exact Heff |]. left. auto. }
  cbn [max_hfi_instances hfi_features hfi_cpu_info effects].
  fold max in Hcount.
  destruct (kcalloc_ok env); cbn [negb].
  2:{ eexists _, []. split; [reflexivity |]. cbn [hfi_cpu_info effects hfi_instances].
      split; [reflexivity |]. split; [exact Heff |]. left. auto. }
  set (n := Z.to_nat max).
  set (nr := length (hfi_cpu_info w)).
  pose proof (alloc_cpumasks_spec env nr n 0
                (replicate n (mk_hfi_instance 0 0 0 [] 0)) [the_instances])
    as Hloop.
  destruct (alloc_cpumasks env nr n 0 (replicate n (mk_hfi_instance 0 0 0 [] 0))
              [the_instances]) as [[[i ok] instances] held].
  destruct Hloop as (Hheld & Hi & Hlen & Hall).
  { intros k inst Hk. apply lookup_replicate in Hk as [-> _].
    now rewrite decide_False by lia. }
  { rewrite length_replicate. lia. }
  rewrite Nat.sub_0_r in Hheld. cbn [app] in Hheld.
  assert (forall post,
            err_nomem
              {| hfi_instances := Some instances; max_hfi_instances := max;
                 hfi_features := parsed.2; hfi_cpu_info := hfi_cpu_info w;
                 effects := effects w |} i (held ++ post)
            = match post with
              | [] => Done ({| hfi_instances := None; max_hfi_instances := max;
                               hfi_features := parsed.2;
                               hfi_cpu_info := hfi_cpu_info w;
                               effects := effects w |}, [])
              | r :: post' =>
                  held' ← release the_instances (the_instances :: post);
                  Done ({| hfi_instances := None; max_hfi_instances := max;
                           hfi_features := parsed.2;
                           hfi_cpu_info := hfi_cpu_info w;
                           effects := effects w |}, held')
              end) as Herr.
  { intros post. unfold err_nomem. rewrite Hheld. cbn [app].
    rewrite free_cpumasks_spec, bind_Done.
    destruct post; cbn [release]; rewrite decide_True by reflexivity;
      reflexivity. }
  assert (forall (x : hfi_state) (h : list resource),
            hfi_cpu_info x = hfi_cpu_info w -> effects x = effects w ->
            hfi_instances x = None -> h = [] ->
            exists w' held',
              Done (x, h) = Done (w', held') /\
              hfi_cpu_info w' = hfi_cpu_info w /\ effects w' = [] /\
              (hfi_instances w' = None /\ held' = [] \/
               parsed.1 = 0 /\ hfi_features w' = parsed.2 /\
               max_hfi_instances w' = max /\ hotplug_start w' /\
               hfi_instances w'
               = Some (replicate n (mk_hfi_instance 0 0 0
                                      (replicate nr false) 0)) /\
               held' = the_instances :: (the_cpumask <$> seq 0 n)
                       ++ [the_workqueue]
                       ++ (if itd then [the_ipcc_scores] else []))) as Hfail.
  { intros x h H1 H2 H3 H4. exists x, h. split; [reflexivity |].
    split; [exact H1 |]. split; [congruence |]. left. auto. }
  destruct ok; cbn [negb].
  2:{ rewrite <- (app_nil_r held), Herr. now apply Hfail. }
  destruct (Hall eq_refl) as (Hin & Hoks & Hready).
  rewrite Nat.add_0_l in Hin. subst i.
  destruct (create_workqueue_ok env); cbn [negb].
  2:{ rewrite <- (app_nil_r held), Herr. now apply Hfail. }
  assert (instances = replicate n (mk_hfi_instance 0 0 0 (replicate nr false) 0))
    as Einst.
  { apply list_eq. intros k. rewrite length_replicate in Hlen.
    destruct (instances !! k) as [inst |] eqn:Hk.
    - rewrite (Hready k inst Hk). symmetry. apply lookup_replicate.
      split; [reflexivity |]. apply lookup_lt_Some in Hk. lia.
    - symmetry. apply lookup_ge_None. rewrite length_replicate.
      apply lookup_ge_None in Hk. lia. }
  assert (hotplug_start
            {| hfi_instances := Some instances; max_hfi_instances := max;
               hfi_features := parsed.2; hfi_cpu_info := hfi_cpu_info w;
               effects := effects w |}) as Hstart.
  { split; [| split; [exact Hinfos | exact Heff]].
    cbn [hfi_instances max_hfi_instances hfi_cpu_info].
    intros l [= <-]. split.
    - rewrite Hlen, length_replicate. subst n. specialize (Hcount eq_refl). lia.
    - exact Hready. }
  assert (held ++ [the_workqueue]
          = the_instances :: (the_cpumask <$> seq 0 n) ++ [the_workqueue])
    as Hheld' by (rewrite Hheld; reflexivity).
  destruct itd eqn:Eitd; cbn [negb].
  - destruct (alloc_percpu_ok env).
    + eexists _, _. split; [reflexivity |].
      cbn [hfi_cpu_info effects hfi_instances max_hfi_instances hfi_features].
      split; [reflexivity |]. split; [exact Heff |]. right.
      split; [exact Hparsed |]. split; [reflexivity |]. split; [reflexivity |].
      split; [exact Hstart |]. split; [now rewrite Einst |].
      rewrite Hheld'. cbn [app]. now rewrite <- app_assoc.
    + rewrite (release_middle the_workqueue held []), app_nil_r, bind_Done.
      * rewrite <- (app_nil_r held), Herr. now apply Hfail.
      * rewrite Hheld. intros Hin. apply elem_of_cons in Hin as [H | Hin];
          [discriminate |].
        apply list_elem_of_fmap in Hin as (k & Hk & _). discriminate.
  - eexists _, _. split; [reflexivity |].
    cbn [hfi_cpu_info effects hfi_instances max_hfi_instances hfi_features].
    split; [reflexivity |]. split; [exact Heff |]. right.
    split; [exact Hparsed |]. split; [reflexivity |]. split; [reflexivity |].
    split; [exact Hstart |]. split; [now rewrite Einst |].
    rewrite Hheld'. reflexivity.
Qed.

Lemma init_holds_all_or_nothing_witness :
  let w := mk_state None 0 (mk_features 0 0 0 0 0)
             (replicate 4 (mk_cpu_info (-1) None)) [] in
  let env ok := mk_init_env true (Z.lor 3 (Z.shiftl 1 8)) (Z.shiftl 4 8) 1 2
                  true (fun i => ok || (i <? 1)%nat) true true in
  (boot_state w /\
   (kcalloc_ok (env false) = true ->
    0 <= s32 (topology_max_packages (env false)
              * topology_max_die_per_package (env false)))) /\
  intel_hfi_init true (env false) w
  = Done (mk_state None 2 (mk_features 4 2 8 2 8)
            (replicate 4 (mk_cpu_info (-1) None)) [], []) /\
  intel_hfi_init true (env true) w
  = Done (mk_state
            (Some (replicate 2 (mk_hfi_instance 0 0 0 (replicate 4 false) 0)))
            2 (mk_features 4 2 8 2 8)
            (replicate 4 (mk_cpu_info (-1) None)) [],
          [the_instances; the_cpumask 0; the_cpumask 1; the_workqueue;
           the_ipcc_scores]).
Proof.
  intros w env.
  assert (boot_state w) as Hboot.
  { split; [reflexivity |]. split; [| reflexivity].
    intros c info Hc. cbn [hfi_cpu_info w] in Hc.
    now apply lookup_replicate in Hc as [-> _]. }
  assert (kcalloc_ok (env false) = true ->
          0 <= s32 (topology_max_packages (env false)
                    * topology_max_die_per_package (env false))) as Hcount
    by (intros _; vm_compute; discriminate).
  split; [auto |].
  destruct (init_holds_all_or_nothing true (env false) w Hboot Hcount)
    as (w' & held & Hrun & _).
  split; [rewrite Hrun; vm_compute in Hrun; now injection Hrun as <- <- |].
  vm_compute. reflexivity.
Defined.

End HFIInit.
